(* ===== verification/_CoqProject ===== *)
-Q . S2P
Prelude.v
PyFloat.v
Effects.v
PyStr.v
Reliability.v
Postgres.v
Incidents.v
Auth.v
Events.v
Kafka.v
Ingestion.v
Window.v
StreamProcessor.v
Detect.v
IsolationForest.v
FeatureStore.v
AnomalyDetector.v
Alerts.v
AlertService.v
ConsumerGroup.v
ApiCore.v
ApiTenant.v
ApiService.v
WsHub.v
Sessions.v
Pipeline.v
Simulator.v
Seed.v
SeedCatalog.v
Config.v
Health.v
Mqtt.v
Process.v
Tracing.v
Logging.v
Http.v
Wiring.v
Metrics.v
Lifecycle.v
