(* ===== verification/Prelude.v ===== *)
(** InduSense: a verification development of the platform's Python services.

    * The program

    Sensors publish readings over MQTT.  [ingestion] validates each one and
    writes it to Kafka ([telemetry.raw]); [stream-processor] drops duplicates,
    stores the point in InfluxDB, keeps windowed statistics per series and passes
    the reading on ([telemetry.processed]); [anomaly-detector] runs three levels of
    detection on it (operating range, EWMA z-score, isolation forest) and reports
    ([anomalies.detected]); [alert-service] matches the alert rules, creates and
    escalates alerts, opens incidents and notifies; [api] serves users: login,
    permissions, tenants' factories and devices, telemetry queries, incidents, and
    a WebSocket feed of alerts.  [shared] holds what several services use (retry
    and circuit breaker, messages, authentication, audit, incidents), [simulator]
    produces synthetic readings, and [scripts/seed] fills an empty database.

    * The files, from the bottom up

    Python and the libraries the services stand on:
    - [Prelude]: this file; tactics, hint databases, list and dictionary lemmas.
    - [PyFloat], [PyStr]: Python's float (executable IEEE 754, with the errors
      Python raises) and the parts of [str], [int()], [uuid.UUID()] the code needs.
    - [Effects]: the monad [M S A] of stateful code that may raise; [preserves]
      (an invariant) and [moves] (a two-state relation) with a rule per
      construct; [Part] and [lift], a component's state inside a service's state;
      [Raiseless], the class of terms that never raise.
    - [Reliability] ([shared/reliability.py]): [retry_with_backoff], the circuit
      breaker, and [protected], their wiring around a write.
    - [Postgres]: tables, and [execute], one SQL statement: any other client may
      run before it ([pg_others]), and it may fail before or after it took effect
      ([pg_fault]).
    - [Kafka]: [produce_and_wait], [protected_write], dead letters' metrics, lag,
      and the poll / process / commit loop that the consumers share.
    - [Events] ([shared/events.py]): the messages and Python's datetimes.
    - [Process]: a service as an operating-system process.  [main] is a program
      of calls, each with its continuations; threads, the shutdown event, the
      signal handler and a job queue are the rest of the state; [step] is the
      step relation and [inevitably] what every run comes to.

    Components, each a file or two named after its directory:
    - [Incidents] ([shared/incidents.py]), [Auth] ([shared/auth.py], [audit.py])
      and [Sessions], the contract that [Auth]'s service refines.
    - [Ingestion]; [Window] (the series buffer and registry) and
      [StreamProcessor]; [Detect], [IsolationForest], [FeatureStore] and
      [AnomalyDetector]; [Alerts] (rules, conditions, counts, store) and
      [AlertService].
    - [ApiCore] (pagination, error envelope, permission dependencies, client
      address, rate limit), [ApiTenant] (factories, devices), [ApiService]
      (alerts, incidents, telemetry, auth, the route tables and the serving of a
      request), [WsHub] (the WebSocket hub).
    - [Simulator], [Seed] and [SeedCatalog]; [Config] (every [config.py] and the
      API's start); [Health] (the health servers, the MQTT connection flag).
    - [Mqtt]: topics and subscription filters, and the persistent session between
      a device and a worker of [ingestion] as a step relation [link_step].
    - [ConsumerGroup]: a partition and the members that consume it one after the
      other, as a step relation [group_step] around the services' consumer loops;
      [GroupService] is what a service promises of one message, with an instance
      for each of the four consumers.
    - [Pipeline]: the four services composed.
    - [Lifecycle]: the [main] of each service and of the simulator, and the
      lifespan of the API, as programs of [Process], with the rounds of their
      threads taken from the services' operations.
    - [Tracing] ([shared/tracing.py]): trace context in Kafka headers;
      [Logging] ([shared/logging_utils.py] and the API's two middlewares).
    - [Http]: the API as an HTTP application ([api/main.py]): the table of every
      route, the router behind the interface [StarletteRouter], bodies, the
      exception handlers and the middlewares around [ApiService].
    - [Wiring]: the clients each service builds from its settings.
    - [Metrics] (each [metrics.py]): the declared families, and [Metered], the
      class of terms that write only into those.

    A definition has the name of the function it translates where that is
    possible; a service's [_process_message], [main] and the like are told apart by
    their file.  State is a record per service ([ing], [sp], [ad], [als],
    [sim], [seed_db]) whose fields are the objects the Python code shares between
    its functions; an operation is a term of [M] on it, [try] is [try_except] or
    [try_else], and an exception leaves the state as it was when it was raised.

    * How the components interact

    Inside a service, a component's operation runs on its part of the service's
    state ([lift]).  Between services, a message in one's broker log is what the
    next one's consumer polls; the dump of one and the load of the other are
    related by the hypothesis [carries].  [Config.services_form_pipeline] shows
    that the settings loaded from any environment connect producers to consumers.
    The seed script's tables feed the simulator's catalog ([sensor_join]), the
    simulator's messages are those ingestion's validation accepts, the role tables
    it writes are the map the API enforces, and alerts, incidents and the API
    work on the same tables of [Postgres].

    * What the theorems show

    - End to end: [reading_becomes_alert], from a valid MQTT message out of its
      range to an open alert of a matching rule, with the dependencies up.
    - Nothing acknowledged is lost: [mqtt_at_least_once] (from the MQTT session to
      Kafka, across restarts), [acked_messages_are_recorded] (ingestion),
      and for the consumer groups [stream_group_stores_readings],
      [detector_group_evaluates_readings], [alert_groups_alert], whatever calls,
      commits, members and processes fail and however ([stream_committed],
      [detector_committed] and [anomaly_committed] are the same for one message);
      [topics_meet_subscriptions], the topics of the simulator against the filters.
    - Tenancy and authority: [http_requests_guarded] (any HTTP request without a
      token), [routes_addressable] (the table has no two routes for one request),
      [routes_require_permission],
      [tenant_reads_isolated], [foreign_alert_writes_refused],
      [telemetry_queries_clean], [feed_isolates_organizations],
      [refresh_token_single_use], [auth_refines_sessions], [login_decision], [token_roundtrip_by_type],
      [rotation_replaces_credential], [production_refuses_published_secrets].
    - Incidents and alerts under concurrency and failure:
      [open_or_attach_returns_active], [audit_trail_explains_status],
      [alert_cooldown_spacing], [create_if_due_decision].
    - Algorithms: [buffer_is_window] and [window_stats_spec],
      [fit_isolation_forest_ok], [rate_limit_exact], [limit_offset_bounds],
      [retry_with_backoff_outcome], [half_open_single_trial],
      [validate_telemetry_accepts].
    - Processes: [signal_ends_service] (whatever state it is in, a signal ends
      every service), [threads_end_before_close] (no resource is closed under a
      thread that may use it), [clients_carry_pipeline] (the clients built from
      the settings connect the services).
    - Tracing, logging and metrics: [trace_context_roundtrip], [request_logged_iff_handled],
      [log_line_fields], [exported_metrics_declared], [incident_gauges_match].
    - Simulator and seed: [simulated_messages_valid], [publisher_drains],
      [seeded_catalog_ok], [seed_idempotent], [seeded_links_are_role_permissions].
    - Behaviour that differs from what the code documents, as theorems:
      [held_message_dropped_on_redelivery], [held_offset_passed],
      [flush_overflow_escapes], [removed_sensor_ends_consumer],
      [concurrent_transition_reopens_closed],
      [rejected_resolve_overwrites_notes], [interrupted_rbac_is_final],
      [dead_consumer_keeps_process], [consumed_trace_dropped],
      [undecodable_header_ends_consumer], [stale_ack_loses_message],
      [turned_away_waits_for_reconnection], [crash_after_claim_loses_reading].
    Theorems with hypotheses are followed by a [_witness]: an instance on concrete
    data.

    * Bounds and fuel

    Recursion is structural nearly everywhere: over the list a Python [for] goes
    through, over the attempts [retry_with_backoff] has left ([max_attempts] of
    them, so none is missing), over the depth left in [_build_tree] (the code's own
    [max_depth]), over the split tries the code makes.  The endless loops of
    consumers and background threads take the list of what they poll, or the
    number of their ticks; theorems hold for every list and number.  The one loop
    that runs until a condition, the simulator's publisher thread, has a number of
    rounds, and [publisher_drains] shows how many are enough.  A process has no
    fuel: its steps are a relation, and [signal_ends_service] goes by induction on
    the program of [main] and, for the threads it joins, on a measure of the jobs,
    the pending puts and the running threads.  Neither has the MQTT session:
    [link_step] is a relation too, and [acts] runs a list of its steps.  Integers are
    Python's (unbounded); floats have their width, with overflow to infinity or
    [OverflowError] as Python does.

    * Atomicity

    A method that holds a lock is one step.  A SQL statement, a Redis command and
    the Lua script are one step each, with other clients between them; an explicit
    transaction is one step whose failure undoes all of it ([transaction] of
    [Seed]; [insert_device], [rotate] of [ApiTenant] and the like as one
    statement).  A background tick (catalog refresh, forest training, gauge,
    escalation) and the handling of one message are sequences of such steps that
    do not overlap other work of the same service; the shared structures they meet
    in are guarded by locks.  In the simulator and the WebSocket hub, tasks
    interleave at their awaits.  In [Mqtt] the callback's check of the shutdown
    event and its put are two steps, and the broker, the connection and the end
    of the process are steps between any others; a worker's handling of a job is
    one (a process that ends inside it leaves messages in Kafka's log, and the
    session keeps the job).  In [ConsumerGroup] a member may end inside a message,
    in any state that keeps what outlives a process and claims no other event; a
    group has one member at a time, as Kafka refuses the commits of a member that
    lost the partition.  In [Process] one round of a thread's loop is one
    step, interleaved with [main], with the other threads and with the signal; a
    signal before the handlers are installed is the operating system's own
    termination and is left out.

    * Not modelled, and why

    - Parameters, being code outside the repository: bcrypt, PyJWT, pydantic,
      librdkafka and the broker, paho and the MQTT broker, the Redis and InfluxDB
      clients, [ipaddress], the database's collation, uuid and random generators,
      clocks, [math.log] and [math.pow].
    - OpenTelemetry (the propagator and the tracer are interfaces, [Propagator] and
      [Tracer]); Starlette's router (the interface [StarletteRouter]), its placing of
      middlewares and exception handlers, and the MQTT broker's matching of
      filters ([MqttMatching]) and session, as documented; what FastAPI makes of a
      body.  A subscription with QoS 0, which any setting but 1 or 2 amounts to,
      has no session and no acknowledgements.  Logging calls inside the other components' operations are left
      out: they do not change their states.
    - [prometheus_client] itself.  What the code writes into its metrics is part of
      the services' states, a series by its name and the value of its label; of a
      histogram the count only.  The forwarding functions of [tracing.py] that
      only wrap a library call.
    - Threads and daemons of libraries (librdkafka, paho, the HTTP health servers);
      the API's CORS middleware.
    - [fromisoformat] of query parameters is a parameter of the telemetry
      handlers; characters beyond 255 do not occur in texts, except in passwords,
      which are code points.
    - Foreign keys to tables a component does not read are faults of statements;
      columns nothing reads ([created_at] and the like) are left out.
    - The frontend, load tests, evaluation scripts, Docker, Helm and Grafana files
      are not the services' Python code. *)

From stdpp Require Import prelude gmap strings pretty sorting.
From Stdlib Require Import ZArith Lia Ascii.

(** ** Tactics shared by the whole development *)

(** Split every hypothesis that is a conjunction, an existential or an
    equation between constructors. *)
Ltac inv_all :=
  repeat match goal with
  | H : _ /\ _ |- _ => destruct H
  | H : exists _, _ |- _ => destruct H
  | H : Some _ = Some _ |- _ => injection H as H
  | H : (_, _) = (_, _) |- _ => injection H as H
  end; simplify_eq/=.

(** Reflect the boolean comparisons of the executable definitions. *)
Ltac breflect :=
  repeat match goal with
  | H : (_ && _)%bool = true |- _ => apply andb_true_iff in H as [? ?]
  | H : (_ || _)%bool = true |- _ => apply orb_true_iff in H
  | H : (_ && _)%bool = false |- _ => apply andb_false_iff in H
  | H : (_ || _)%bool = false |- _ => apply orb_false_iff in H as [? ?]
  | H : negb _ = true |- _ => apply negb_true_iff in H
  | H : negb _ = false |- _ => apply negb_false_iff in H
  | H : (_ <=? _)%Z = true |- _ => apply Z.leb_le in H
  | H : (_ <=? _)%Z = false |- _ => apply Z.leb_gt in H
  | H : (_ <? _)%Z = true |- _ => apply Z.ltb_lt in H
  | H : (_ <? _)%Z = false |- _ => apply Z.ltb_ge in H
  | H : (_ =? _)%Z = true |- _ => apply Z.eqb_eq in H
  | H : (_ =? _)%Z = false |- _ => apply Z.eqb_neq in H
  | H : bool_decide _ = true |- _ => apply bool_decide_eq_true in H
  | H : bool_decide _ = false |- _ => apply bool_decide_eq_false in H
  end.

(** The hint databases: [py] holds the facts about Python's data model that
    close routine goals, [frame] the equations that push a projection through
    a state update. *)
Create HintDb py.
Create HintDb frame.
Create HintDb effects.

(** ** Lists *)

(** [l[-1]] of a non-empty list. *)
Definition last_or {A} (d : A) (l : list A) : A := default d (last l).

(** [xs[len(xs) - n :]], keeping at most the [n] newest elements. *)
Definition keep_last {A} (n : nat) (l : list A) : list A := drop (length l - n) l.

Lemma keep_last_length {A} n (l : list A) : length (keep_last n l) <= n.
Proof. unfold keep_last. rewrite length_drop. lia. Qed.

Lemma keep_last_short {A} n (l : list A) : length l <= n -> keep_last n l = l.
Proof. intros H. unfold keep_last. by replace (length l - n) with 0 by lia. Qed.

Lemma keep_last_suffix {A} n (l : list A) : keep_last n l `suffix_of` l.
Proof. unfold keep_last. exists (take (length l - n) l). by rewrite take_drop. Qed.

(** Dropping twice from the front is keeping the last ones once. *)
Lemma keep_last_snoc {A} n (l : list A) (x : A) :
  keep_last n (keep_last n l ++ [x]) = keep_last n (l ++ [x]).
Proof.
  destruct (decide (length l <= n)) as [Hle | Hgt].
  - by rewrite (keep_last_short n l Hle).
  - assert (Hk : length (keep_last n l) = n) by (unfold keep_last; rewrite length_drop; lia).
    unfold keep_last at 1. rewrite length_app, Hk. unfold keep_last. rewrite length_app. simpl.
    destruct n as [|n].
    + rewrite !drop_ge; [done | |]; rewrite ?length_app, ?length_drop; simpl; lia.
    + rewrite !drop_app_le by (rewrite ?length_drop; lia).
      rewrite drop_drop. f_equal. f_equal. lia.
Qed.

(** [dict.get(k, default)] on a literal dictionary. *)
Fixpoint dict_get {V} (d : list (string * V)) (k : string) : option V :=
  match d with
  | [] => None
  | (k', v) :: d => if bool_decide (k' = k) then Some v else dict_get d k
  end.

(** [d[k] = v]: in place, or at the end of the insertion order. *)
Fixpoint dict_set {V} (d : list (string * V)) (k : string) (v : V) : list (string * V) :=
  match d with
  | [] => [(k, v)]
  | (k', v') :: d => if bool_decide (k' = k) then (k', v) :: d else (k', v') :: dict_set d k v
  end.

Lemma dict_get_set_eq {V} (d : list (string * V)) k v : dict_get (dict_set d k v) k = Some v.
Proof.
  induction d as [|[k' v'] d IH]; simpl; [by rewrite bool_decide_true|].
  destruct (bool_decide (k' = k)) eqn:E; simpl; by rewrite E.
Qed.

Lemma dict_get_set_ne {V} (d : list (string * V)) k k' v : k <> k' -> dict_get (dict_set d k v) k' = dict_get d k'.
Proof.
  intros Hne. induction d as [|[k0 v0] d IH]; simpl; [by rewrite bool_decide_false|].
  destruct (bool_decide (k0 = k)) eqn:E; simpl; [|by rewrite IH].
  apply bool_decide_eq_true in E as ->. by rewrite bool_decide_false.
Qed.

Lemma filter_all {A} (P : A -> Prop) `{!forall x, Decision (P x)} (l : list A) :
  Forall P l -> filter P l = l.
Proof. induction 1; [done |]. rewrite filter_cons_True; [by f_equal | done]. Qed.

Lemma filter_none {A} (P : A -> Prop) `{!forall x, Decision (P x)} (l : list A) :
  Forall (fun x => ~ P x) l -> filter P l = [].
Proof. induction 1; [done |]. by rewrite filter_cons_False. Qed.

Lemma filter_ext_in {A} (P Q : A -> Prop) `{!forall x, Decision (P x)} `{!forall x, Decision (Q x)} (l : list A) :
  (forall x, x ∈ l -> P x <-> Q x) -> filter P l = filter Q l.
Proof.
  induction l as [|x l IH]; intros Hl; [done |]. rewrite !filter_cons, IH by (intros y Hy; apply Hl; by right).
  assert (Hx := Hl x ltac:(by left)). repeat case_decide; naive_solver.
Qed.

Lemma filter_filter_and {A} (P Q : A -> Prop) `{!forall x, Decision (P x)} `{!forall x, Decision (Q x)}
    (l : list A) :
  filter P (filter Q l) = filter (fun x => P x /\ Q x) l.
Proof.
  induction l as [|x l IH]; [done |]. rewrite (filter_cons Q).
  destruct (decide (Q x)).
  - rewrite !filter_cons, IH. repeat case_decide; naive_solver.
  - rewrite IH, filter_cons_False; naive_solver.
Qed.

(** ** Python strings used as composite keys: [f"{a}|{b}"] *)

Fixpoint has_char (c : ascii) (s : string) : bool :=
  match s with
  | EmptyString => false
  | String d s => Ascii.eqb c d || has_char c s
  end.

(** A separator that does not occur in the first component makes the
    concatenated key injective. *)
Lemma sep_inj (c : ascii) (a a' b b' : string) :
  has_char c a = false -> has_char c a' = false ->
  a +:+ String c b = a' +:+ String c b' -> a = a' /\ b = b'.
Proof.
  revert a'. induction a as [|d a IH]; intros [|d' a'] Ha Ha' Heq; simpl in *.
  - by injection Heq as ->.
  - injection Heq as -> _. by rewrite Ascii.eqb_refl in Ha'.
  - injection Heq as <- _. by rewrite Ascii.eqb_refl in Ha.
  - injection Heq as -> Heq. apply orb_false_iff in Ha as [_ Ha].
    apply orb_false_iff in Ha' as [_ Ha']. by destruct (IH a' Ha Ha' Heq) as [-> ->].
Qed.

Lemma string_app_inj_l (a b b' : string) : a +:+ b = a +:+ b' -> b = b'.
Proof. induction a as [|c a IH]; simpl; [done |]. intros H. injection H as H. auto. Qed.
