(* ===== verification/PyFloat.v ===== *)
(** Python's [float]: IEEE 754 binary64, on the Standard Library's executable
    specification [SpecFloat] (no axiom, every operation evaluates).  Holds the
    arithmetic with Python's errors (division by zero, [math.sqrt] of a negative
    number, overflow of [**]), the comparison as a total order on the numbers
    that are not NaN, the sign lemmas, the compensated [sum] of CPython 3.12 and
    later, and the fixed-point formatting of an f-string. *)

From stdpp Require Import prelude strings pretty.
From Stdlib Require Import ZArith Lia Ascii SpecFloat.
From S2P Require Import Prelude.

Local Open Scope Z_scope.

Declare Scope float_scope.
Delimit Scope float_scope with F.

(** ** The type and its constants *)

Definition prec : Z := 53.
Definition emax : Z := 1024.
Abbreviation float := spec_float.

Definition fzero : float := S754_zero false.
Definition finf (neg : bool) : float := S754_infinity neg.
Definition fnan : float := S754_nan.

(** [float(n)] of an integer, correctly rounded. *)
Definition float_of_Z (n : Z) : float := binary_normalize prec emax n 0 false.

(** The literal [n / d]: both integers are exact below [2^53], so the IEEE
    division is the correctly rounded decimal literal. *)
Definition flit (n d : Z) : float := SFdiv prec emax (float_of_Z n) (float_of_Z d).

Definition fone : float := float_of_Z 1.
Definition ftwo : float := float_of_Z 2.

#[export] Instance float_eq_dec : EqDecision float.
Proof. solve_decision. Defined.

(** ** Arithmetic *)

Definition fadd (x y : float) : float := SFadd prec emax x y.
Definition fsub (x y : float) : float := SFsub prec emax x y.
Definition fmul (x y : float) : float := SFmul prec emax x y.
Definition fopp (x : float) : float := SFopp x.
Definition fabs (x : float) : float := SFabs x.

Notation "x + y" := (fadd x y) : float_scope.
Notation "x - y" := (fsub x y) : float_scope.
Notation "x * y" := (fmul x y) : float_scope.

Definition fltb (x y : float) : bool := SFltb x y.
Definition fleb (x y : float) : bool := SFleb x y.
Definition feqb (x y : float) : bool := SFeqb x y.
(** Python's [x > y] and [x >= y]. *)
Definition fgtb (x y : float) : bool := fltb y x.
Definition fgeb (x y : float) : bool := fleb y x.

Definition is_nan (x : float) : bool := match x with S754_nan => true | _ => false end.
Definition is_inf (x : float) : bool := match x with S754_infinity _ => true | _ => false end.
Definition is_finite (x : float) : bool :=
  match x with S754_nan | S754_infinity _ => false | _ => true end.
Definition is_zero (x : float) : bool := match x with S754_zero _ => true | _ => false end.

(** The errors Python's float arithmetic raises. *)
Inductive arith_error := ZeroDivisionError | DomainError | OverflowError.

#[export] Instance arith_error_eq_dec : EqDecision arith_error.
Proof. solve_decision. Defined.

(** [x / y]. *)
Definition fdiv (x y : float) : arith_error + float :=
  if is_zero y then inl ZeroDivisionError else inr (SFdiv prec emax x y).

(** [math.sqrt x]: a negative argument, [-inf] included, is a domain error. *)
Definition fsqrt (x : float) : arith_error + float :=
  if fltb x fzero then inl DomainError else inr (SFsqrt prec emax x).

(** [x ** 2]: [OverflowError] when a finite argument squares to infinity. *)
Definition fsquare (x : float) : arith_error + float :=
  let r := fmul x x in
  if is_finite x && is_inf r then inl OverflowError else inr r.

(** [max a b] and [min a b] on two floats (the first wins a tie). *)
Definition fmax (a b : float) : float := if fgtb b a then b else a.
Definition fmin (a b : float) : float := if fltb b a then b else a.

(** [max(xs)] / [min(xs)] of a non-empty list, left to right. *)
Definition fmax_list (x : float) (xs : list float) : float := foldl fmax x xs.
Definition fmin_list (x : float) (xs : list float) : float := foldl fmin x xs.

(** CPython 3.12+ [sum] of floats: Neumaier's compensated summation. *)
Record csum := CSum { cs_hi : float; cs_lo : float }.

Definition cs_add (t : csum) (x : float) : csum :=
  let s := fadd (cs_hi t) x in
  let err :=
    if fgeb (fabs (cs_hi t)) (fabs x)
    then fadd (fsub (cs_hi t) s) x
    else fadd (fsub x s) (cs_hi t) in
  CSum s (fadd (cs_lo t) err).

Definition cs_result (t : csum) : float :=
  if negb (is_zero (cs_lo t)) && is_finite (cs_lo t) then fadd (cs_hi t) (cs_lo t) else cs_hi t.

(** [sum(xs)]: the start value is the integer 0, added to the first item. *)
Definition fsum (xs : list float) : float :=
  match xs with
  | [] => fzero
  | x :: xs => cs_result (foldl cs_add (CSum (fadd fzero x) fzero) xs)
  end.

(** ** Formatting: [f"{x:.df}"], the exact value rounded half to even *)

(** [n / d] rounded to the nearest integer, ties to even, for [0 <= n], [0 < d]. *)
Definition round_half_even (n d : Z) : Z :=
  let q := Z.div n d in
  let r := Z.modulo n d in
  match Z.compare (2 * r) d with
  | Lt => q
  | Gt => q + 1
  | Eq => if Z.even q then q else q + 1
  end.

(** The magnitude of [x] times [10^d], rounded to an integer. *)
Definition scaled (m : positive) (e : Z) (d : nat) : Z :=
  let n := Z.pos m * 10 ^ Z.of_nat d in
  if 0 <=? e then n * 2 ^ e else round_half_even n (2 ^ (- e)).

(** ** Between [int] and [float] *)

(** [round(x)]: the nearest integer, ties to even. *)
Definition round_to_int (x : float) : arith_error + Z :=
  match x with
  | S754_nan => inl DomainError
  | S754_infinity _ => inl OverflowError
  | S754_zero _ => inr 0
  | S754_finite s m e => inr (if s then - scaled m e 0 else scaled m e 0)
  end.

(** [a / b] of two integers with [0 < b]: the quotient rounded once, or
    [OverflowError] when no float is near it. *)
Definition int_truediv (a b : Z) : arith_error + float :=
  match a, b with
  | _, Z0 => inl ZeroDivisionError
  | Z0, _ => inr fzero
  | _, _ =>
      let '(q, e, l) := SFdiv_core_binary prec emax (Z.abs a) 0 (Z.abs b) 0 in
      let r := binary_round_aux prec emax (xorb (a <? 0) (b <? 0)) q e l in
      if is_inf r then inl OverflowError else inr r
  end.

Example int_truediv_1053 : int_truediv 1053 10 = inr (flit 1053 10).
Proof. vm_compute. reflexivity. Qed.
Example round_ties : (round_to_int (flit 25 10), round_to_int (flit (-35) 10)) = (inr 2, inr (-4)).
Proof. vm_compute. reflexivity. Qed.

Fixpoint zeros (n : nat) : string :=
  match n with O => "" | S n => String "0"%char (zeros n) end.

Definition pad_left (n : nat) (s : string) : string := zeros (n - String.length s)%nat +:+ s.

(** Digits of a scaled magnitude with the point put before the last [d]. *)
Definition point_digits (z : Z) (d : nat) : string :=
  let p := 10 ^ Z.of_nat d in
  pretty (z / p) +:+ match d with O => "" | _ => "." +:+ pad_left d (pretty (z mod p)) end.

Definition fmt_fixed (d : nat) (x : float) : string :=
  match x with
  | S754_nan => "nan"
  | S754_infinity false => "inf"
  | S754_infinity true => "-inf"
  | S754_zero s => (if s then "-" else "") +:+ point_digits 0 d
  | S754_finite s m e => (if s then "-" else "") +:+ point_digits (scaled m e d) d
  end.

Example fmt_105_3 : fmt_fixed 2 (flit 1053 10) = "105.30".
Proof. vm_compute. reflexivity. Qed.

Example fmt_half_even : fmt_fixed 2 (flit 125 1000) = "0.12".
Proof. vm_compute. reflexivity. Qed.

Example fsum_compensated : fsum [flit 1 10; flit 2 10; flit 3 10] = flit 6 10.
Proof. vm_compute. reflexivity. Qed.

(** ** The comparison as a lexicographic order on integer keys *)

Definition fkey (x : float) : Z * Z * Z :=
  match x with
  | S754_nan => (3, 0, 0)
  | S754_infinity s => (if s then -2 else 2, 0, 0)
  | S754_zero _ => (0, 0, 0)
  | S754_finite false m e => (1, e, Z.pos m)
  | S754_finite true m e => (-1, - e, - Z.pos m)
  end%Z.

(** Lexicographic order, as propositions [lia] understands. *)
Definition klt (a b : Z * Z * Z) : Prop :=
  let '(a1, a2, a3) := a in let '(b1, b2, b3) := b in
  (a1 < b1 \/ (a1 = b1 /\ (a2 < b2 \/ (a2 = b2 /\ a3 < b3))))%Z.
Definition kle (a b : Z * Z * Z) : Prop :=
  let '(a1, a2, a3) := a in let '(b1, b2, b3) := b in
  (a1 < b1 \/ (a1 = b1 /\ (a2 < b2 \/ (a2 = b2 /\ a3 <= b3))))%Z.

Lemma SFcompare_key (x y : float) :
  match SFcompare x y with
  | None => x = S754_nan \/ y = S754_nan
  | Some Lt => x <> S754_nan /\ y <> S754_nan /\ klt (fkey x) (fkey y)
  | Some Gt => x <> S754_nan /\ y <> S754_nan /\ klt (fkey y) (fkey x)
  | Some Eq => x <> S754_nan /\ y <> S754_nan /\ fkey x = fkey y
  end.
Proof.
  destruct x as [[]|[]| |[] m e], y as [[]|[]| |[] m' e']; simpl;
    rewrite <- ?Pos2Z.inj_compare;
    try (split_and?; simpl; congruence || lia); auto;
    change (Pos.compare_cont Eq m m') with (Pos.compare m m');
    destruct (Z.compare_spec e e'), (Pos.compare_spec m m'); simpl;
    split_and?; try (congruence || lia).
Qed.

Lemma fltb_true x y :
  fltb x y = true <-> x <> S754_nan /\ y <> S754_nan /\ klt (fkey x) (fkey y).
Proof.
  unfold fltb, SFltb. pose proof (SFcompare_key x y) as H.
  destruct (fkey x) as [[a b] c], (fkey y) as [[a' b'] c'].
  destruct (SFcompare x y) as [[]|]; naive_solver (try lia).
Qed.

Lemma fleb_true x y :
  fleb x y = true <-> x <> S754_nan /\ y <> S754_nan /\ kle (fkey x) (fkey y).
Proof.
  unfold fleb, SFleb. pose proof (SFcompare_key x y) as H.
  destruct (fkey x) as [[a b] c], (fkey y) as [[a' b'] c'].
  destruct (SFcompare x y) as [[]|]; naive_solver (try lia).
Qed.

Lemma klt_not_kle a b : ~ klt a b <-> kle b a.
Proof. destruct a as [[??]?], b as [[??]?]; simpl. lia. Qed.

Lemma kle_not_klt a b : ~ kle a b <-> klt b a.
Proof. destruct a as [[??]?], b as [[??]?]; simpl. lia. Qed.

Lemma fltb_false x y :
  fltb x y = false <-> x = S754_nan \/ y = S754_nan \/ kle (fkey y) (fkey x).
Proof.
  rewrite <- not_true_iff_false, fltb_true, <- klt_not_kle.
  destruct (decide (x = S754_nan)), (decide (y = S754_nan)); tauto.
Qed.

Lemma fleb_false x y :
  fleb x y = false <-> x = S754_nan \/ y = S754_nan \/ klt (fkey y) (fkey x).
Proof.
  rewrite <- not_true_iff_false, fleb_true, <- kle_not_klt.
  destruct (decide (x = S754_nan)), (decide (y = S754_nan)); tauto.
Qed.

(** [forder] decides goals about comparisons of floats: every comparison in
    the context or the goal becomes an order fact about keys. *)
Ltac fkeys :=
  repeat match goal with
  | H : fgtb _ _ = _ |- _ => unfold fgtb in H
  | H : fgeb _ _ = _ |- _ => unfold fgeb in H
  | |- context [fgtb _ _] => unfold fgtb
  | |- context [fgeb _ _] => unfold fgeb
  end;
  rewrite ?fltb_true, ?fltb_false, ?fleb_true, ?fleb_false in *.

Ltac forder :=
  intros; fkeys;
  repeat match goal with
  | |- context [fkey ?x] => let k := fresh "k" in set (k := fkey x) in *; clearbody k
  | H : context [fkey ?x] |- _ => let k := fresh "k" in set (k := fkey x) in *; clearbody k
  end;
  repeat match goal with k : (Z * Z * Z)%type |- _ => destruct k as [[? ?] ?] end;
  simpl in *; intuition (congruence || lia).

Lemma not_nan_is_nan x : is_nan x = false <-> x <> S754_nan.
Proof. by destruct x. Qed.

Lemma fleb_refl x : x <> S754_nan -> fleb x x = true.
Proof. forder. Qed.

Lemma fleb_trans x y z : fleb x y = true -> fleb y z = true -> fleb x z = true.
Proof. forder. Qed.

Lemma fltb_le_trans x y z : fltb x y = true -> fleb y z = true -> fltb x z = true.
Proof. forder. Qed.

Lemma fle_lt_trans x y z : fleb x y = true -> fltb y z = true -> fltb x z = true.
Proof. forder. Qed.

Lemma fltb_trans x y z : fltb x y = true -> fltb y z = true -> fltb x z = true.
Proof. forder. Qed.

Lemma fltb_fleb x y : fltb x y = true -> fleb x y = true.
Proof. forder. Qed.

Lemma fltb_irrefl x : fltb x x = false.
Proof. forder. Qed.

Lemma fltb_asym x y : fltb x y = true -> fleb y x = false.
Proof. forder. Qed.

(** On numbers, [not (x < y)] is [y <= x]. *)
Lemma fltb_false_fleb x y : x <> S754_nan -> y <> S754_nan -> fltb x y = false -> fleb y x = true.
Proof. forder. Qed.

Lemma fleb_false_fltb x y : x <> S754_nan -> y <> S754_nan -> fleb x y = false -> fltb y x = true.
Proof. forder. Qed.

Lemma fleb_not_nan x y : fleb x y = true -> x <> S754_nan /\ y <> S754_nan.
Proof. forder. Qed.

Lemma fltb_not_nan x y : fltb x y = true -> x <> S754_nan /\ y <> S754_nan.
Proof. forder. Qed.

#[export] Hint Resolve fleb_refl fltb_fleb fltb_irrefl : py.

(** ** Signs: what rounding keeps *)

(** The sign bit; NaN counts as positive. *)
Definition fneg (x : float) : bool :=
  match x with
  | S754_zero s | S754_infinity s | S754_finite s _ _ => s
  | S754_nan => false
  end.

Lemma fneg_not_lt x : fneg x = false -> fltb x fzero = false.
Proof. by destruct x as [[]|[]| |[] m e]. Qed.

Lemma round_aux_sign sx mx ex lx :
  fneg (binary_round_aux prec emax sx mx ex lx) = sx
  \/ binary_round_aux prec emax sx mx ex lx = S754_nan.
Proof.
  unfold binary_round_aux. repeat case_match; simpl; auto.
Qed.

Lemma round_sign sx mx ex :
  fneg (binary_round prec emax sx mx ex) = sx \/ binary_round prec emax sx mx ex = S754_nan.
Proof. unfold binary_round. destruct (shl_align _ _ _). apply round_aux_sign. Qed.

Lemma fmul_sign x y : fneg (fmul x y) = xorb (fneg x) (fneg y) \/ fmul x y = S754_nan.
Proof.
  destruct x as [s|s| |s m e], y as [s'|s'| |s' m' e']; simpl; auto. apply round_aux_sign.
Qed.

Lemma fmul_nonneg x y : xorb (fneg x) (fneg y) = false -> fneg (fmul x y) = false.
Proof. intros H. destruct (fmul_sign x y) as [E | E]; rewrite E; [done | reflexivity]. Qed.

(** A product of the form [a * d * d] is never negative for [a >= 0]. *)
Lemma fmul_square_nonneg a d : fneg a = false -> fneg (fmul (fmul a d) d) = false.
Proof.
  intros Ha. destruct (fmul_sign a d) as [E | E].
  - apply fmul_nonneg. rewrite E, Ha. by destruct (fneg d).
  - unfold fmul in *. by rewrite E.
Qed.

Lemma fadd_nonneg x y : fneg x = false -> fneg y = false -> fneg (fadd x y) = false.
Proof.
  destruct x as [[]|[]| |[] m e], y as [[]|[]| |[] m' e']; simpl; try done.
  intros _ _. destruct (round_sign false
    (fst (shl_align m e (Z.min e e')) + fst (shl_align m' e' (Z.min e e'))) (Z.min e e'))
    as [E | E]; unfold fadd; simpl; rewrite E; reflexivity.
Qed.

(** ** Results that are not NaN *)

Lemma shr_1_nonneg r : (0 <= shr_m r)%Z -> (0 <= shr_m (shr_1 r))%Z.
Proof. destruct r as [[|[p|p|]|[p|p|]] r s]; simpl; lia. Qed.

Lemma iter_shr_nonneg p r : (0 <= shr_m r)%Z -> (0 <= shr_m (iter_pos shr_1 p r))%Z.
Proof. revert r. induction p; simpl; eauto using shr_1_nonneg. Qed.

Lemma shr_nonneg r e n : (0 <= shr_m r)%Z -> (0 <= shr_m (fst (shr r e n)))%Z.
Proof. destruct n; simpl; eauto using iter_shr_nonneg. Qed.

Lemma shr_fexp_nonneg m e l : (0 <= m)%Z -> (0 <= shr_m (fst (shr_fexp prec emax m e l)))%Z.
Proof. intros. apply shr_nonneg. by destruct l as [|[]]. Qed.

Lemma round_nearest_even_nonneg m l : (0 <= m)%Z -> (0 <= round_nearest_even m l)%Z.
Proof. intros. destruct l as [|[]]; simpl; repeat case_match; lia. Qed.

Lemma round_aux_not_nan sx mx ex lx :
  (0 <= mx)%Z -> binary_round_aux prec emax sx mx ex lx <> S754_nan.
Proof.
  intros H. unfold binary_round_aux.
  pose proof (shr_fexp_nonneg mx ex lx H) as H1.
  destruct (shr_fexp prec emax mx ex lx) as [r e]; simpl in H1.
  pose proof (shr_fexp_nonneg (round_nearest_even (shr_m r) (loc_of_shr_record r)) e loc_Exact
                (round_nearest_even_nonneg _ _ H1)) as H2.
  destruct (shr_fexp _ _ _ e loc_Exact) as [r' e']; simpl in H2.
  destruct (shr_m r'); [done | case_match; done | lia].
Qed.

Lemma normalize_not_nan m e s : binary_normalize prec emax m e s <> S754_nan.
Proof.
  destruct m; simpl; [done | |]; unfold binary_round; destruct (shl_align _ _ _);
    apply round_aux_not_nan; lia.
Qed.

Lemma fsub_not_nan x y : is_finite x = true -> is_finite y = true -> fsub x y <> S754_nan.
Proof.
  destruct x as [[]|[]| |[] m e], y as [[]|[]| |[] m' e']; try done; intros _ _;
    unfold fsub, SFsub; apply normalize_not_nan.
Qed.

Lemma fadd_not_nan x y : is_finite x = true -> is_finite y = true -> fadd x y <> S754_nan.
Proof.
  destruct x as [[]|[]| |[] m e], y as [[]|[]| |[] m' e']; try done; intros _ _;
    unfold fadd, SFadd; apply normalize_not_nan.
Qed.

Lemma div_core_nonneg m1 e1 m2 e2 q e l :
  SFdiv_core_binary prec emax (Z.pos m1) e1 (Z.pos m2) e2 = (q, e, l) -> (0 <= q)%Z.
Proof.
  unfold SFdiv_core_binary. cbv zeta.
  set (m' := match _ - _ with Z0 => _ | Z.pos _ => _ | Z.neg _ => _ end).
  assert (Hm : (0 <= m')%Z).
  { subst m'. case_match; [lia | apply Z.shiftl_nonneg; lia | lia]. }
  clearbody m'.
  pose proof (Z_div_mod m' (Z.pos m2) ltac:(lia)) as Hd.
  destruct (Z.div_eucl m' (Z.pos m2)) as [q0 r0]. intros [= <- <- <-]. nia.
Qed.

(** The quotient of a non-NaN, non-infinite number by a finite non-zero one. *)
Lemma SFdiv_not_nan x y :
  x <> S754_nan -> is_finite y = true -> is_zero y = false -> SFdiv prec emax x y <> S754_nan.
Proof.
  destruct x as [[]|[]| |s m e], y as [[]|[]| |s' m' e']; try done; intros _ _ _; simpl;
    try (by destruct s'); try done.
  destruct (SFdiv_core_binary _ _ _ _ _ _) as [[q e0] l] eqn:E.
  apply round_aux_not_nan. by eapply div_core_nonneg.
Qed.

Lemma fdiv_sign x y r :
  fdiv x y = inr r -> fneg r = xorb (fneg x) (fneg y) \/ r = S754_nan.
Proof.
  unfold fdiv. destruct (is_zero y) eqn:Hz; [done |]. intros [= <-].
  destruct x as [s|s| |s m e], y as [s'|s'| |s' m' e']; simpl in *; auto; try discriminate.
  destruct (SFdiv_core_binary _ _ _ _ _ _) as [[q e0] l]. apply round_aux_sign.
Qed.

(** A quotient of integers that is returned is a finite number. *)
Lemma int_truediv_finite a b r : int_truediv a b = inr r -> is_finite r = true.
Proof.
  assert (H : forall s m1 m2, (let '(q, e, l) := SFdiv_core_binary prec emax (Z.pos m1) 0 (Z.pos m2) 0 in
      let r := binary_round_aux prec emax s q e l in if is_inf r then inl OverflowError else inr r) = inr r ->
      is_finite r = true).
  { intros s m1 m2. destruct (SFdiv_core_binary _ _ _ _ _ _) as [[q e] l] eqn:E. cbv zeta.
    pose proof (round_aux_not_nan s q e l (div_core_nonneg _ _ _ _ _ _ _ E)) as Hn.
    destruct (binary_round_aux _ _ s q e l) as [| | |]; simpl; [by intros [= <-] | done | done | by intros [= <-]]. }
  unfold int_truediv. destruct b as [|b|b]; [by destruct a | |]; destruct a as [|a|a];
    first [by intros [= <-] | apply H].
Qed.

#[export] Hint Resolve fneg_not_lt fmul_square_nonneg fadd_nonneg : py.
