(* ===== verification/Effects.v ===== *)
(** The effect monad of the models: Python code that reads and writes a shared
    state and may raise.  [M S A] is a state transformer whose result is a value
    or an exception; [try_except], [for_each] and [for_return] are the source's
    [try]/[except], [for] and [for] with an early [return].  [preserves] and
    [moves] are the invariant and two-state rules the components' proofs use. *)

From stdpp Require Import prelude strings.
From S2P Require Import Prelude PyFloat.

(** ** Exceptions: the classes the source raises or catches by name *)

Inductive exn :=
  | ErrPermanent (msg : string)
  | RuntimeError (msg : string)
  | ValueError (msg : string)
  | AssertionError
  | TypeError (msg : string)
  | KafkaPublishError (msg : string)
  | InvalidCredentialsError (msg : string)
  | UserInactiveError (msg : string)
  | TokenRevokedError (msg : string)
  | CrossTenantError (msg : string)
  | UniqueViolation (index : string)
  (** with the headers of the response *)
  | APIError (status : Z) (code msg : string) (headers : list (string * string))
  | ArithError (e : arith_error)
  (** any other [Exception] of a library, by class and text *)
  | OtherError (cls msg : string).

#[export] Instance exn_eq_dec : EqDecision exn.
Proof. solve_decision. Defined.

(** [str(exc)]. *)
Definition exn_str (e : exn) : string :=
  match e with
  | ErrPermanent m | TypeError m | RuntimeError m | ValueError m | KafkaPublishError m | InvalidCredentialsError m
  | UserInactiveError m | TokenRevokedError m | CrossTenantError m | UniqueViolation m
  | APIError _ _ m _ | OtherError _ m => m
  | AssertionError => ""
  | ArithError ZeroDivisionError => "division by zero"
  | ArithError DomainError => "expected a nonnegative input"
  | ArithError OverflowError => "(34, 'Numerical result out of range')"
  end.

Inductive res (A : Type) := Ok (a : A) | Raise (e : exn).
Arguments Ok {A} a.
Arguments Raise {A} e.

Definition is_ok {A} (r : res A) : bool := match r with Ok _ => true | Raise _ => false end.

(** Sequencing without a state. *)
Definition res_bind {A B} (r : res A) (k : A -> res B) : res B :=
  match r with Ok a => k a | Raise e => Raise e end.

(** ** The monad *)

Definition M (S A : Type) : Type := S -> res A * S.

#[export] Instance M_ret S : MRet (M S) := fun A a s => (Ok a, s).
#[export] Instance M_bind S : MBind (M S) := fun A B k m s =>
  match m s with
  | (Ok a, s') => k a s'
  | (Raise e, s') => (Raise e, s')
  end.

Section Operations.
  Context {S : Type}.

Definition raise {A} (e : exn) : M S A := fun s => (Raise e, s).
Definition get : M S S := fun s => (Ok s, s).
Definition gets {A} (f : S -> A) : M S A := fun s => (Ok (f s), s).
Definition modify (f : S -> S) : M S unit := fun s => (Ok tt, f s).
Definition of_res {A} (r : res A) : M S A := fun s => (r, s).

(** [try: m except Exception as exc: h(exc)].  The state [m] reached when it
    raised is the state [h] starts from: nothing is rolled back. *)
Definition try_except {A} (m : M S A) (h : exn -> M S A) : M S A := fun s =>
  match m s with
  | (Ok a, s') => (Ok a, s')
  | (Raise e, s') => h e s'
  end.

(** [try: m except ...: handler else: k]: the continuation is outside the [try]. *)
Definition try_else {A B} (m : M S A) (h : exn -> M S B) (k : A -> M S B) : M S B := fun s =>
  match m s with
  | (Ok a, s') => k a s'
  | (Raise e, s') => h e s'
  end.

(** [try: m finally: f]. *)
Definition try_finally {A} (m : M S A) (f : M S unit) : M S A := fun s =>
  let '(r, s1) := m s in
  match f s1 with
  | (Ok _, s2) => (r, s2)
  | (Raise e, s2) => (Raise e, s2)
  end.

Fixpoint for_each {A} (l : list A) (body : A -> M S unit) : M S unit :=
  match l with
  | [] => mret tt
  | a :: l => body a ;; for_each l body
  end.

(** A [for] whose body may [return r] out of the enclosing function. *)
Fixpoint for_return {A R} (l : list A) (body : A -> M S (option R)) : M S (option R) :=
  match l with
  | [] => mret None
  | a :: l => r ← body a; match r with Some r => mret (Some r) | None => for_return l body end
  end.

Definition exec {A} (m : M S A) (s : S) : S := snd (m s).
Definition eval {A} (m : M S A) (s : S) : res A := fst (m s).

End Operations.

(** ** Parts of a state *)

(** A component's state inside a service's state. *)
Class Part (S T : Type) := {
  part_get : S -> T;
  part_set : T -> S -> S;
  part_get_set : forall t s, part_get (part_set t s) = t;
  part_set_get : forall s, part_set (part_get s) s = s;
  part_set_set : forall t t' s, part_set t (part_set t' s) = part_set t s
}.

(** Runs a component's operation on its part of a larger state. *)
Definition lift {S T A} `{Part S T} (m : M T A) : M S A := fun s =>
  let '(r, t) := m (part_get s) in (r, part_set t s).

(** ** Reasoning *)

Section Reasoning.
  Context {S : Type}.

(** [P] holds after [m] whenever it held before, whether or not [m] raised. *)
Definition preserves {A} (P : S -> Prop) (m : M S A) : Prop := forall s, P s -> P (snd (m s)).

(** [R] relates the state before [m] to the state after it. *)
Definition moves {A} (R : S -> S -> Prop) (m : M S A) : Prop := forall s, R s (snd (m s)).

  Context {A B : Type}.
  Variable P : S -> Prop.

Lemma preserves_ret (a : A) : preserves P (mret a).
  Proof. by intros s. Qed.

Lemma preserves_raise e : preserves P (raise (A:=A) e).
  Proof. by intros s. Qed.

Lemma preserves_bind (m : M S A) (k : A -> M S B) :
    preserves P m -> (forall a, preserves P (k a)) -> preserves P (m ≫= k).
  Proof.
    intros Hm Hk s Hs. unfold mbind, M_bind. specialize (Hm s Hs).
    destruct (m s) as [[a | e] s']; [by apply Hk | done].
  Qed.

(** The same, where the continuation needs what the result satisfies. *)
Lemma preserves_bind_with (Q : A -> Prop) (m : M S A) (k : A -> M S B) :
    preserves P m -> (forall s a s', P s -> m s = (Ok a, s') -> Q a) -> (forall a, Q a -> preserves P (k a)) ->
    preserves P (m ≫= k).
  Proof.
    intros Hm HQ Hk s Hs. unfold mbind, M_bind. specialize (Hm s Hs).
    destruct (m s) as [[a | e] s'] eqn:E; [|done]. apply Hk; [by eapply HQ | done].
  Qed.

Lemma preserves_try (m : M S A) h :
    preserves P m -> (forall e, preserves P (h e)) -> preserves P (try_except m h).
  Proof.
    intros Hm Hh s Hs. unfold try_except. specialize (Hm s Hs).
    destruct (m s) as [[a | e] s']; [done | by apply Hh].
  Qed.

Lemma preserves_try_else (m : M S A) h (k : A -> M S B) :
    preserves P m -> (forall e, preserves P (h e)) -> (forall a, preserves P (k a)) ->
    preserves P (try_else m h k).
  Proof.
    intros Hm Hh Hk s Hs. unfold try_else. specialize (Hm s Hs).
    destruct (m s) as [[a | e] s']; [by apply Hk | by apply Hh].
  Qed.

Lemma preserves_finally (m : M S A) (f : M S unit) :
    preserves P m -> preserves P f -> preserves P (try_finally m f).
  Proof.
    intros Hm Hf s Hs. unfold try_finally. specialize (Hm s Hs). destruct (m s) as [r s1].
    specialize (Hf s1 Hm). by destruct (f s1) as [[]].
  Qed.

Lemma preserves_for_each (l : list A) body :
    (forall a, preserves P (body a)) -> preserves P (for_each l body).
  Proof.
    intros Hb. induction l as [|a l IH]; simpl; [by intros s|].
    intros s Hs. unfold mbind, M_bind. specialize (Hb a s Hs).
    destruct (body a s) as [[[] | e] s']; [by apply IH | done].
  Qed.

Lemma preserves_for_return (l : list A) (body : A -> M S (option B)) :
    (forall a, preserves P (body a)) -> preserves P (for_return l body).
  Proof.
    intros Hb. induction l as [|a l IH]; simpl; [by intros s|].
    intros s Hs. unfold mbind, M_bind. specialize (Hb a s Hs).
    destruct (body a s) as [[[r|] | e] s']; [done | by apply IH | done].
  Qed.

  Variable R : S -> S -> Prop.
  Context `{!PreOrder R}.

Lemma moves_ret (a : A) : moves R (mret a).
  Proof. intros s. simpl. reflexivity. Qed.

Lemma moves_raise e : moves R (raise (A:=A) e).
  Proof. intros s. simpl. reflexivity. Qed.

Lemma moves_gets (f : S -> A) : moves R (gets f).
  Proof. intros s. simpl. reflexivity. Qed.

Lemma moves_bind (m : M S A) (k : A -> M S B) :
    moves R m -> (forall a, moves R (k a)) -> moves R (m ≫= k).
  Proof.
    intros Hm Hk s. unfold mbind, M_bind. specialize (Hm s).
    destruct (m s) as [[a | e] s']; simpl in *; [etrans; [done | apply Hk] | done].
  Qed.

Lemma moves_try (m : M S A) h :
    moves R m -> (forall e, moves R (h e)) -> moves R (try_except m h).
  Proof.
    intros Hm Hh s. unfold try_except. specialize (Hm s).
    destruct (m s) as [[a | e] s']; simpl in *; [done | etrans; [done | apply Hh]].
  Qed.

Lemma moves_try_else (m : M S A) h (k : A -> M S B) :
    moves R m -> (forall e, moves R (h e)) -> (forall a, moves R (k a)) ->
    moves R (try_else m h k).
  Proof.
    intros Hm Hh Hk s. unfold try_else. specialize (Hm s).
    destruct (m s) as [[a | e] s']; simpl in *; (etrans; [done |]); [apply Hk | apply Hh].
  Qed.

Lemma moves_for_each (l : list A) body :
    (forall a, moves R (body a)) -> moves R (for_each l body).
  Proof.
    intros Hb. induction l as [|a l IH]; simpl; [intros s; simpl; reflexivity|].
    intros s. unfold mbind, M_bind. specialize (Hb a s).
    destruct (body a s) as [[[] | e] s']; simpl in *; [etrans; [done | apply IH] | done].
  Qed.

Lemma moves_for_return (l : list A) (body : A -> M S (option B)) :
    (forall a, moves R (body a)) -> moves R (for_return l body).
  Proof.
    intros Hb. induction l as [|a l IH]; simpl; [intros s; simpl; reflexivity|].
    intros s. unfold mbind, M_bind. specialize (Hb a s).
    destruct (body a s) as [[[r|] | e] s']; simpl in *; [done | etrans; [done | apply IH] | done].
  Qed.

End Reasoning.

#[export] Hint Resolve preserves_ret preserves_raise preserves_bind preserves_try
  preserves_try_else preserves_for_each preserves_for_return : effects.
#[export] Hint Resolve moves_ret moves_raise moves_gets moves_bind moves_try
  moves_try_else moves_for_each moves_for_return : effects.

(** Bind on a computation whose result is known. *)
Lemma bind_ok {S A B} (m : M S A) (k : A -> M S B) s a s' :
  m s = (Ok a, s') -> (m ≫= k) s = k a s'.
Proof. unfold mbind, M_bind. by intros ->. Qed.

Lemma bind_raise {S A B} (m : M S A) (k : A -> M S B) s e s' :
  m s = (Raise e, s') -> (m ≫= k) s = (Raise e, s').
Proof. unfold mbind, M_bind. by intros ->. Qed.

Lemma for_each_app {S A} (l l' : list A) (body : A -> M S unit) s :
  for_each (l ++ l') body s =
  match for_each l body s with (Ok _, s') => for_each l' body s' | (Raise e, s') => (Raise e, s') end.
Proof.
  revert s. induction l as [|a l IH]; intros s; simpl; [done|]. unfold mbind, M_bind.
  destruct (body a s) as [[[]|e] s']; [apply IH | done].
Qed.

(** A run, from its result alone. *)
Lemma run_eq {S A} (m : M S A) s r : eval m s = r -> m s = (r, exec m s).
Proof. unfold eval, exec. intros <-. by destruct (m s). Qed.

(** A [lift]ed operation changes its own part only, as the operation does. *)
Lemma lift_part {S T A} `{Part S T} (m : M T A) (s : S) :
  part_get (snd (lift m s)) = snd (m (part_get s)) /\ fst (lift m s) = fst (m (part_get s)).
Proof. unfold lift. destruct (m (part_get s)) as [r t]; simpl. by rewrite part_get_set. Qed.

(** A part's invariant is preserved by the operations of that part. *)
Lemma preserves_lift {S T A} `{Part S T} (P : T -> Prop) (m : M T A) :
  preserves P m -> preserves (fun s => P (part_get s)) (lift m).
Proof. intros Hm s Hs. rewrite (proj1 (lift_part m s)). by apply Hm. Qed.

(** ** Operations that never raise *)

(** What a loop promises the thread that runs it: its body never raises.  The
    instances follow the constructs, so that the class is inferred for a body. *)
Class Raiseless {S A} (m : M S A) : Prop := raiseless_run s : is_ok (eval m s) = true.

#[export] Instance raiseless_ret {S A} (a : A) : Raiseless (S:=S) (mret a).
Proof. by intros s. Qed.
#[export] Instance raiseless_gets {S A} (f : S -> A) : Raiseless (gets f).
Proof. by intros s. Qed.
#[export] Instance raiseless_modify {S} (f : S -> S) : Raiseless (modify f).
Proof. by intros s. Qed.
#[export] Instance raiseless_bind {S A B} (m : M S A) (k : A -> M S B) : Raiseless m -> (forall a, Raiseless (k a)) -> Raiseless (m ≫= k).
Proof.
  intros Hm Hk s. specialize (Hm s). unfold eval, mbind, M_bind in *. destruct (m s) as [[a|e] s']; [apply Hk | done].
Qed.
#[export] Instance raiseless_try {S A} (m : M S A) h : (forall e, Raiseless (h e)) -> Raiseless (try_except m h).
Proof. intros Hh s. unfold eval, try_except. destruct (m s) as [[a|e] s']; [done | apply Hh]. Qed.
#[export] Instance raiseless_try_else {S A B} (m : M S A) h (k : A -> M S B) :
  (forall e, Raiseless (h e)) -> (forall a, Raiseless (k a)) -> Raiseless (try_else m h k).
Proof. intros Hh Hk s. unfold eval, try_else. destruct (m s) as [[a|e] s']; [apply Hk | apply Hh]. Qed.
#[export] Instance raiseless_for_each {S A} (l : list A) body : (forall a, Raiseless (S:=S) (body a)) -> Raiseless (for_each l body).
Proof. intros Hb. induction l as [|a l IH]; simpl; apply _. Qed.
#[export] Instance raiseless_lift {S T A} `{Part S T} (m : M T A) : Raiseless m -> Raiseless (lift (S:=S) m).
Proof. intros Hm s. unfold eval. rewrite (proj2 (lift_part m s)). apply Hm. Qed.

#[export] Instance raiseless_if {S A} (b : bool) (m m' : M S A) : Raiseless m -> Raiseless m' -> Raiseless (if b then m else m').
Proof. by destruct b. Qed.

Lemma raiseless_no_raise {S A} (m : M S A) s e : Raiseless m -> eval m s <> Raise e.
Proof. intros Hm E. specialize (Hm s). by rewrite E in Hm. Qed.

(** Evaluates the monad's plumbing in the goal. *)
Ltac run :=
  repeat progress (unfold mbind, M_bind, mret, M_ret, try_except, try_else, raise, gets, modify,
                     of_res, get, exec, eval in *; simpl in *).
