(* ===== verification/PyStr.v ===== *)
(** Python's [str] where the services rely on its details: [replace], [strip],
    [split], [int(text, base)] and [uuid.UUID(text)], and the [env_*] helpers of
    every [config.py].  A [string] holds the characters below 256. *)

From stdpp Require Import prelude strings pretty.
From Stdlib Require Import ZArith Lia Ascii.
From S2P Require Import Prelude PyFloat Effects.

Local Open Scope Z_scope.

(** ** Characters *)

Definition code (c : ascii) : Z := Z.of_N (N_of_ascii c).

(** [str.isspace] below 256. *)
Definition is_space (c : ascii) : bool :=
  let n := code c in
  ((9 <=? n) && (n <=? 13)) || ((28 <=? n) && (n <=? 32)) || (n =? 133) || (n =? 160).

(** The value of a digit in bases up to 36. *)
Definition digit_value (c : ascii) : option Z :=
  let n := code c in
  if (48 <=? n) && (n <=? 57) then Some (n - 48)
  else if (97 <=? n) && (n <=? 122) then Some (n - 87)
  else if (65 <=? n) && (n <=? 90) then Some (n - 55)
  else None.

(** ** Strings *)

Fixpoint chars (s : string) : list ascii :=
  match s with EmptyString => [] | String c s => c :: chars s end.
Fixpoint of_chars (l : list ascii) : string :=
  match l with [] => EmptyString | c :: l => String c (of_chars l) end.

Definition str_len (s : string) : Z := Z.of_nat (String.length s).

(** [s.startswith(p)] and [s.endswith(p)]. *)
Definition startswith (s p : string) : bool := String.prefix p s.
Definition endswith (s p : string) : bool :=
  bool_decide (of_chars (drop (length (chars s) - length (chars p)) (chars s)) = p).

(** [s.replace(pat, "")]: left to right, without overlap; [skip] characters of
    a match remain to be dropped. *)
Fixpoint remove_sub (pat : string) (skip : nat) (s : string) : string :=
  match s with
  | EmptyString => EmptyString
  | String c s' =>
      match skip with
      | S k => remove_sub pat k s'
      | O => if String.prefix pat s then remove_sub pat (String.length pat - 1) s'
             else String c (remove_sub pat 0 s')
      end
  end.

(** [s.lstrip] and [s.strip] of the characters [p] holds of. *)
Fixpoint drop_chars (p : ascii -> bool) (l : list ascii) : list ascii :=
  match l with [] => [] | c :: l' => if p c then drop_chars p l' else l end.
Definition strip_chars (p : ascii -> bool) (s : string) : string :=
  of_chars (rev (drop_chars p (rev (drop_chars p (chars s))))).

(** [s.split(sep)] on a one-character separator. *)
Fixpoint split_on (sep : ascii) (s : string) : list string :=
  match s with
  | EmptyString => [EmptyString]
  | String c s =>
      if Ascii.eqb c sep then EmptyString :: split_on sep s
      else match split_on sep s with
           | [] => [String c EmptyString]
           | w :: ws => String c w :: ws
           end
  end.

(** [s.partition(sep)]: before and after the first separator. *)
Fixpoint partition_on (sep : ascii) (s : string) : string * string :=
  match s with
  | EmptyString => (EmptyString, EmptyString)
  | String c s => if Ascii.eqb c sep then (EmptyString, s)
                  else let '(a, b) := partition_on sep s in (String c a, b)
  end.

(** ** [int(text, base)] *)

(** Digits with single underscores between them; [prev] says whether the
    character before was a digit. *)
Fixpoint digits (base : Z) (prev : bool) (acc : Z) (l : list ascii) : option Z :=
  match l with
  | [] => if prev then Some acc else None
  | c :: l =>
      if Ascii.eqb c "_"%char then if prev then digits base false acc l else None
      else match digit_value c with
           | Some d => if d <? base then digits base true (acc * base + d) l else None
           | None => None
           end
  end.

(** An underscore may follow the [0x] prefix. *)
Definition unprefixed (base : Z) (l : list ascii) : option Z :=
  match l with
  | z :: x :: rest =>
      if (base =? 16) && Ascii.eqb z "0"%char && (Ascii.eqb x "x"%char || Ascii.eqb x "X"%char)
      then match rest with
           | u :: rest' => if Ascii.eqb u "_"%char then digits base false 0 rest' else digits base false 0 rest
           | [] => None
           end
      else digits base false 0 l
  | _ => digits base false 0 l
  end.

Definition parse_int (base : Z) (s : string) : option Z :=
  match chars (strip_chars is_space s) with
  | c :: l =>
      if Ascii.eqb c "+"%char then unprefixed base l
      else if Ascii.eqb c "-"%char then Z.opp <$> unprefixed base l
      else unprefixed base (c :: l)
  | [] => None
  end.

(** ** [uuid.UUID(text)] *)

Definition is_brace (c : ascii) : bool := Ascii.eqb c "{"%char || Ascii.eqb c "}"%char.

(** The 128-bit value, or [None] for a [ValueError]. *)
Definition uuid_of_string (s : string) : option Z :=
  let hex := remove_sub "uuid:" 0 (remove_sub "urn:" 0 s) in
  let hex := remove_sub "-" 0 (strip_chars is_brace hex) in
  if str_len hex =? 32 then
    match parse_int 16 hex with
    | Some n => if (0 <=? n) && (n <? Z.pow 2 128) then Some n else None
    | None => None
    end
  else None.

(** ** Letter case, below 256 *)

Definition is_upper (c : ascii) : bool :=
  let n := code c in ((65 <=? n) && (n <=? 90)) || ((192 <=? n) && (n <=? 222) && negb (n =? 215)).
Definition lower_char (c : ascii) : ascii := if is_upper c then ascii_of_N (N_of_ascii c + 32) else c.
(** [s.lower()]. *)
Definition lower (s : string) : string := of_chars (lower_char <$> chars s).

Definition is_ascii_letter (c : ascii) : bool :=
  let n := code c in ((65 <=? n) && (n <=? 90)) || ((97 <=? n) && (n <=? 122)).
Definition upper_ascii (c : ascii) : ascii :=
  let n := code c in if (97 <=? n) && (n <=? 122) then ascii_of_N (N_of_ascii c - 32) else c.

(** [s.title()] of an ASCII text: the first letter of each run of letters in
    upper case, the others in lower case. *)
Fixpoint title_from (inside : bool) (l : list ascii) : list ascii :=
  match l with
  | [] => []
  | c :: l => (if inside then lower_char c else upper_ascii c) :: title_from (is_ascii_letter c) l
  end.
Definition title (s : string) : string := of_chars (title_from false (chars s)).

Example title_words : title "FACTORY MANAGER" = "Factory Manager".
Proof. reflexivity. Qed.

(** ** Environment variables *)

(** [os.environ]: a variable that is not set is [None]. *)
Definition environ : Type := string -> option string.

(** [os.environ.get(key) or default]. *)
Definition env_str (env : environ) (key default : string) : string :=
  match env key with
  | Some v => if bool_decide (v = "") then default else v
  | None => default
  end.

Definition env_int (env : environ) (key : string) (default : Z) : Z :=
  match env key with
  | Some v => if bool_decide (v = "") then default
              else match parse_int 10 v with Some n => n | None => default end
  | None => default
  end.

(** ** Lemmas *)

Lemma chars_of_chars l : chars (of_chars l) = l.
Proof. induction l as [|c l IH]; simpl; [done | by rewrite IH]. Qed.

Lemma of_chars_chars s : of_chars (chars s) = s.
Proof. induction s as [|c s IH]; simpl; [done | by rewrite IH]. Qed.

Lemma drop_chars_suffix p l : exists l1, l = l1 ++ drop_chars p l.
Proof.
  induction l as [|c l [l1 IH]]; simpl; [by exists []|]. destruct (p c); [|by exists []].
  exists (c :: l1). simpl. by f_equal.
Qed.

Lemma in_drop_chars p c l : c ∈ l -> p c = false -> c ∈ drop_chars p l.
Proof.
  intros Hl Hp. induction l as [|d l IH]; [done|]. simpl. destruct (p d) eqn:E; [|done].
  apply elem_of_cons in Hl as [-> | Hl]; [congruence | auto].
Qed.

(** A character that is not stripped survives [strip] and [int]'s whitespace. *)
Lemma in_strip_chars p s c : c ∈ chars s -> p c = false -> c ∈ chars (strip_chars p s).
Proof.
  intros Hc Hp. unfold strip_chars. rewrite chars_of_chars.
  apply list_elem_of_In, in_rev. rewrite rev_involutive. apply list_elem_of_In, in_drop_chars; [|done].
  apply list_elem_of_In, in_rev. rewrite rev_involutive. by apply list_elem_of_In, in_drop_chars.
Qed.

Lemma prefix_chars pat s : String.prefix pat s = true -> exists rest, chars s = chars pat ++ rest.
Proof.
  revert s. induction pat as [|c pat IH]; intros s H; [by exists (chars s)|].
  destruct s as [|d s]; [done|]. simpl in H. destruct (ascii_dec c d) as [->|]; [|done].
  destruct (IH s H) as [rest Hrest]. exists rest. simpl. by rewrite Hrest.
Qed.

Lemma length_chars s : String.length s = length (chars s).
Proof. induction s; simpl; congruence. Qed.

(** A character outside the pattern survives [replace]. *)
Lemma in_remove_sub pat c s skip :
  c ∉ chars pat -> pat <> "" -> (forall x, x ∈ take skip (chars s) -> x ∈ chars pat) ->
  c ∈ chars s -> c ∈ chars (remove_sub pat skip s).
Proof.
  intros Hpat Hne. revert skip. induction s as [|d s IH]; intros skip Hskip Hc; [done|].
  simpl in Hc, Hskip. cbn [remove_sub]. destruct skip as [|k].
  - destruct (String.prefix pat (String d s)) eqn:Hpre.
    + destruct (prefix_chars _ _ Hpre) as [rest Hrest]. destruct pat as [|e pat]; [done|].
      simpl in Hrest. injection Hrest as -> Hrest. apply IH.
      * intros x. rewrite Hrest. cbn [String.length]. rewrite length_chars. simpl.
        rewrite Nat.sub_0_r, take_app_length. intros Hx. by right.
      * apply elem_of_cons in Hc as [-> | Hc]; [|done]. destruct Hpat. left.
    + apply elem_of_cons in Hc as [-> | Hc]; [left | right]. apply IH; [|done].
      intros x Hx. simpl in Hx. by apply elem_of_nil in Hx.
  - apply IH.
    + intros x Hx. apply Hskip. simpl. by right.
    + apply elem_of_cons in Hc as [-> | Hc]; [|done]. destruct Hpat. apply Hskip. left.
Qed.

(** What a number is spelt with. *)
Definition number_char (c : ascii) : bool :=
  Ascii.eqb c "_"%char || Ascii.eqb c "+"%char || Ascii.eqb c "-"%char || Ascii.eqb c "x"%char
  || Ascii.eqb c "X"%char || is_space c || bool_decide (is_Some (digit_value c)).

Lemma digits_chars base prev acc l n c :
  digits base prev acc l = Some n -> c ∈ l -> c = "_"%char \/ is_Some (digit_value c).
Proof.
  revert prev acc. induction l as [|d l IH]; intros prev acc H Hc; [by apply elem_of_nil in Hc|].
  simpl in H. apply elem_of_cons in Hc as [-> | Hc].
  - destruct (Ascii.eqb_spec d "_"%char); [auto|]. destruct (digit_value d); [right; eauto | done].
  - destruct (Ascii.eqb d "_"%char); [destruct prev; [by eapply IH | done]|].
    destruct (digit_value d); [|done]. destruct (_ <? _); [by eapply IH | done].
Qed.

Lemma unprefixed_chars base l n c :
  unprefixed base l = Some n -> c ∈ l -> c = "_"%char \/ c = "x"%char \/ c = "X"%char \/ is_Some (digit_value c).
Proof.
  assert (Hd : forall l acc n, digits base false acc l = Some n -> c ∈ l ->
      c = "_"%char \/ c = "x"%char \/ c = "X"%char \/ is_Some (digit_value c)).
  { intros l0 acc n0 H Hc. destruct (digits_chars _ _ _ _ _ _ H Hc); auto. }
  destruct l as [|z [|x rest]]; cbn [unprefixed]; [by apply Hd | by apply Hd |].
  destruct ((base =? 16) && Ascii.eqb z "0"%char && (Ascii.eqb x "x"%char || Ascii.eqb x "X"%char)) eqn:E;
    [|by apply Hd].
  breflect. rewrite !Ascii.eqb_eq in *. subst z. intros Hn Hc.
  apply elem_of_cons in Hc as [-> | Hc]; [right; right; right; by eexists|].
  apply elem_of_cons in Hc as [-> | Hc]; [naive_solver|].
  destruct rest as [|u rest]; [done|]. destruct (Ascii.eqb_spec u "_"%char) as [->|]; [|by eapply Hd].
  apply elem_of_cons in Hc as [-> | Hc]; [auto | by eapply Hd].
Qed.

Lemma parse_int_chars base s n c : parse_int base s = Some n -> c ∈ chars s -> number_char c = true.
Proof.
  intros H Hc. unfold number_char. destruct (is_space c) eqn:Hsp; [by rewrite !orb_true_r|].
  pose proof (in_strip_chars is_space s c Hc Hsp) as Hin. unfold parse_int in H.
  destruct (chars (strip_chars is_space s)) as [|d l]; [done|].
  assert (Hgood : (c = "_"%char \/ c = "x"%char \/ c = "X"%char \/ is_Some (digit_value c)) \/ c = "+"%char \/ c = "-"%char).
  { destruct (Ascii.eqb_spec d "+"%char) as [->|].
    - apply elem_of_cons in Hin as [-> | Hin]; [auto|]. left. by eapply unprefixed_chars.
    - destruct (Ascii.eqb_spec d "-"%char) as [->|].
      + apply elem_of_cons in Hin as [-> | Hin]; [auto|]. left.
        destruct (unprefixed base l) eqn:E; [|done]. by eapply unprefixed_chars.
      + left. by eapply unprefixed_chars. }
  destruct Hgood as [[-> | [-> | [-> | Hd]]] | [-> | ->]]; try done.
  rewrite (bool_decide_true _ Hd). by rewrite !orb_true_r.
Qed.

(** The characters a text that [uuid.UUID] accepts is made of. *)
Definition uuid_char (c : ascii) : bool :=
  number_char c || is_brace c || bool_decide (c ∈ chars "urn:uuid:").

Lemma uuid_chars s n c : uuid_of_string s = Some n -> c ∈ chars s -> uuid_char c = true.
Proof.
  unfold uuid_of_string. intros H Hc. destruct (_ =? 32); [|done].
  destruct (parse_int 16 _) as [m|] eqn:E; [|done]. clear H.
  unfold uuid_char. destruct (decide (c ∈ chars "urn:uuid:")) as [Hu|Hu]; [by rewrite (bool_decide_true _ Hu), orb_true_r|].
  destruct (is_brace c) eqn:Hb; [by rewrite orb_true_r|].
  destruct (decide (c = "-"%char)) as [->|Hm]; [done|].
  rewrite (parse_int_chars 16 _ m c E); [done|].
  apply in_remove_sub; [|done|by intros x Hx%elem_of_nil|].
  { intros Hin. apply elem_of_cons in Hin as [? | Hin]; [done|]. by apply elem_of_nil in Hin. }
  apply in_strip_chars; [|done].
  apply in_remove_sub; [|done|by intros x Hx%elem_of_nil|].
  { intros Hin. apply Hu. revert Hin. simpl. rewrite !elem_of_cons, elem_of_nil. tauto. }
  apply in_remove_sub; [|done|by intros x Hx%elem_of_nil|done].
  intros Hin. apply Hu. revert Hin. simpl. rewrite !elem_of_cons, elem_of_nil. tauto.
Qed.

(** Plain, braced, URN and undashed texts; [int]'s underscores and signs. *)
Example uuid_texts :
  map (fun s => bool_decide (is_Some (uuid_of_string s)))
    ["12345678-1234-5678-1234-567812345678"; "{12345678123456781234567812345678}";
     "urn:uuid:12345678-1234-5678-1234-567812345678"; "+2345678123456781234567812345_78";
     "x2345678123456781234567812345678"; "1234"; ""] = [true; true; true; true; false; false; false].
Proof. vm_compute. reflexivity. Qed.

(** *** Decimal texts *)

(** [c] is not a character of a number [pretty] prints. *)
Lemma pretty_N_go_no_char c x s :
  (forall n, pretty_N_char n <> c) -> c ∉ chars s -> c ∉ chars (pretty_N_go x s).
Proof.
  intros Hc. revert s. induction (N.lt_wf_0 x) as [x _ IH]; intros s Hs.
  assert (x = 0%N \/ (0 < x)%N) as [->|Hx] by lia; [by rewrite pretty_N_go_0|].
  rewrite pretty_N_go_step by done. apply IH; [by apply N.div_lt|]. simpl.
  intros [Heq|Hin]%elem_of_cons; [by apply (Hc (x `mod` 10)%N) | done].
Qed.

Lemma pretty_N_no_char c (x : N) : (forall n, pretty_N_char n <> c) -> c ∉ chars (pretty x).
Proof.
  intros Hc. unfold pretty, pretty_N. case_decide.
  - simpl. intros [Heq|Hin]%elem_of_cons; [by apply (Hc 0%N) | by apply elem_of_nil in Hin].
  - apply pretty_N_go_no_char; [done | apply not_elem_of_nil].
Qed.

Lemma pretty_Z_no_char c (x : Z) : (forall n, pretty_N_char n <> c) -> c <> "-"%char -> c ∉ chars (pretty x).
Proof.
  intros Hc Hd. unfold pretty, pretty_Z. destruct x as [|p|p].
  - simpl. intros [Heq|Hin]%elem_of_cons; [by apply (Hc 0%N) | by apply elem_of_nil in Hin].
  - by apply (pretty_N_no_char c (Npos p)).
  - simpl. intros [Heq|Hin]%elem_of_cons; [done | by apply (pretty_N_no_char c (Npos p)) in Hin].
Qed.

Lemma chars_app a b : chars (a +:+ b) = chars a ++ chars b.
Proof. induction a as [|c a IH]; simpl; [done | by rewrite IH]. Qed.

Lemma chars_inj a b : chars a = chars b -> a = b.
Proof. intros H. by rewrite <- (of_chars_chars a), <- (of_chars_chars b), H. Qed.

Lemma has_char_chars c s : has_char c s = true <-> c ∈ chars s.
Proof.
  induction s as [|d s IH]; simpl; [rewrite elem_of_nil; done|].
  rewrite orb_true_iff, elem_of_cons, IH. by rewrite Ascii.eqb_eq.
Qed.

(** The last separator splits, too. *)
Lemma list_sep_inj_r {A} (c : A) (a a' b b' : list A) :
  c ∉ b -> c ∉ b' -> a ++ c :: b = a' ++ c :: b' -> a = a' /\ b = b'.
Proof.
  revert a'. induction a as [|x a IH]; intros [|x' a'] Hb Hb' Heq; simpl in *.
  - by injection Heq as ->.
  - injection Heq as -> ->. exfalso. apply Hb, elem_of_app. right. by left.
  - injection Heq as -> <-. exfalso. apply Hb', elem_of_app. right. by left.
  - injection Heq as -> Heq. by destruct (IH a' Hb Hb' Heq) as [-> ->].
Qed.

Lemma sep_inj_r (c : ascii) (a a' b b' : string) :
  c ∉ chars b -> c ∉ chars b' -> a +:+ String c b = a' +:+ String c b' -> a = a' /\ b = b'.
Proof.
  intros Hb Hb' Heq. apply (f_equal chars) in Heq. rewrite !chars_app in Heq. simpl in Heq.
  apply list_sep_inj_r in Heq as [H1 H2]; [|done..]. split; by apply chars_inj.
Qed.

Lemma endswith_app a p : endswith (a +:+ p) p = true.
Proof.
  unfold endswith. apply bool_decide_eq_true. rewrite chars_app, length_app, Nat.add_sub, drop_app_length. apply of_chars_chars.
Qed.
