(* ===== verification/Reliability.v ===== *)
(** [shared/reliability.py]: retry with exponential backoff and the
    CLOSED/OPEN/HALF_OPEN circuit breaker, and the wiring of the two that every
    service repeats around its writes ([protected]).  The breaker's methods run
    under its lock, so each one is an atomic step; [breaker_step] is the step
    relation of the threads that share it. *)

From stdpp Require Import prelude strings.
From Stdlib Require Import ZArith Lia.
From S2P Require Import Prelude PyFloat Effects.

(** ** Retry *)

Section Retry.
  Context {S : Type}.
  (** [sleep], the callable the caller passes ([time.sleep] by default). *)
  Variable sleep : float -> M S unit.

(** The body of [for attempt in range(1, max_attempts + 1)] and what follows
    the loop; [remaining] attempts remain, [attempt] is the loop variable. *)
Fixpoint retry_loop (remaining : nat) (attempt max_attempts : Z) (delay : float)
    (last_error : option exn) (fn : M S unit) : M S unit :=
  match remaining with
  | O => match last_error with None => raise AssertionError | Some e => raise e end
  | Datatypes.S remaining => fun s =>
      match fn s with
      | (Ok _, s') => (Ok tt, s')
      | (Raise (ErrPermanent m), s') => (Raise (ErrPermanent m), s')
      | (Raise e, s') =>
          if bool_decide (attempt = max_attempts) then (Raise e, s')
          else (sleep delay ;;
                retry_loop remaining (attempt + 1) max_attempts (fmul delay ftwo) (Some e) fn) s'
      end
  end.

Definition retry_with_backoff (max_attempts : Z) (base_delay_seconds : float) (fn : M S unit) : M S unit :=
  retry_loop (Z.to_nat max_attempts) 1 max_attempts base_delay_seconds None fn.

End Retry.

(** ** Circuit breaker *)

Inductive breaker_state := CLOSED | OPEN | HALF_OPEN.

#[export] Instance breaker_state_eq_dec : EqDecision breaker_state.
Proof. solve_decision. Defined.

Record breaker := Breaker {
  br_state : breaker_state;
  br_consecutive_fails : Z;
  br_threshold : Z;
  br_cooldown : float;
  br_opened_at : float
}.

(** [CircuitBreaker(threshold, cooldown_seconds)]. *)
Definition new_breaker (threshold : Z) (cooldown : float) : breaker :=
  Breaker CLOSED 0 threshold cooldown fzero.

(** [allow()]; [now] is what the clock returns when it is read. *)
Definition allow (now : float) (b : breaker) : bool * breaker :=
  match br_state b with
  | CLOSED => (true, b)
  | HALF_OPEN => (false, b)
  | OPEN =>
      if fgeb (fsub now (br_opened_at b)) (br_cooldown b)
      then (true, Breaker HALF_OPEN (br_consecutive_fails b) (br_threshold b) (br_cooldown b) (br_opened_at b))
      else (false, b)
  end.

Definition record_success (b : breaker) : breaker :=
  Breaker CLOSED 0 (br_threshold b) (br_cooldown b) (br_opened_at b).

Definition record_failure (now : float) (b : breaker) : breaker :=
  match br_state b with
  | HALF_OPEN => Breaker OPEN (br_consecutive_fails b) (br_threshold b) (br_cooldown b) now
  | _ =>
      let n := (br_consecutive_fails b + 1)%Z in
      if (br_threshold b <=? n)%Z then Breaker OPEN n (br_threshold b) (br_cooldown b) now
      else Breaker (br_state b) n (br_threshold b) (br_cooldown b) (br_opened_at b)
  end.

Definition state_value (b : breaker) : string :=
  match br_state b with CLOSED => "CLOSED" | OPEN => "OPEN" | HALF_OPEN => "HALF_OPEN" end.

(** The atomic operations of the threads that share one breaker. *)
Inductive breaker_op := OpAllow (now : float) | OpSuccess | OpFailure (now : float).

Definition apply_op (o : breaker_op) (b : breaker) : breaker :=
  match o with
  | OpAllow now => snd (allow now b)
  | OpSuccess => record_success b
  | OpFailure now => record_failure now b
  end.

(** Whether the operation is an [allow] that lets a call through. *)
Definition grants (o : breaker_op) (b : breaker) : bool :=
  match o with OpAllow now => fst (allow now b) | _ => false end.

(** How many calls a sequence of operations lets through. *)
Fixpoint granted (ops : list breaker_op) (b : breaker) : nat :=
  match ops with
  | [] => 0
  | o :: ops => (if grants o b then 1 else 0) + granted ops (apply_op o b)
  end.

Inductive breaker_step : breaker -> breaker -> Prop :=
  | step_op o b : breaker_step b (apply_op o b).

Inductive reachable (threshold : Z) (cooldown : float) : breaker -> Prop :=
  | reach_new : reachable threshold cooldown (new_breaker threshold cooldown)
  | reach_step b b' :
      reachable threshold cooldown b -> breaker_step b b' -> reachable threshold cooldown b'.

(** ** The wiring: allow, retry, record *)

Section Protected.
  Context {S : Type} `{Part S breaker}.
  (** [time.monotonic()] as read in a state of the service. *)
  Variable clock : S -> float.
  Variable sleep : float -> M S unit.

Definition breaker_allow : M S bool := fun s =>
  let '(ok, b) := allow (clock s) (part_get s) in (Ok ok, part_set b s).
Definition breaker_failure : M S unit := fun s =>
  (Ok tt, part_set (record_failure (clock s) (part_get s)) s).
Definition breaker_success : M S unit := fun s =>
  (Ok tt, part_set (record_success (part_get s)) s).

(** [if not allow(): raise open_error; try: retry(...) except: record_failure();
    raise; record_success()]. *)
Definition protected (max_retries : Z) (delay : float) (open_error : exn) (fn : M S unit) : M S unit :=
  ok ← breaker_allow;
  if (ok : bool) then
    try_else (retry_with_backoff sleep max_retries delay fn)
      (fun e => breaker_failure ;; raise e)
      (fun _ => breaker_success)
  else raise open_error.

End Protected.

(** ** Retry: a call driven by a script of outcomes *)

(** The state of a scripted call: how often it was called, and the sleeps. *)
Record script_state := ScriptState { sc_calls : nat; sc_slept : list float }.

Definition scripted (script : nat -> res unit) : M script_state unit := fun s =>
  (script (sc_calls s), ScriptState (Datatypes.S (sc_calls s)) (sc_slept s)).
Definition script_sleep (d : float) : M script_state unit := fun s =>
  (Ok tt, ScriptState (sc_calls s) (sc_slept s ++ [d])).

(** An outcome that is retried: an error other than [ErrPermanent]. *)
Definition transient (r : res unit) : bool :=
  match r with Ok _ => false | Raise (ErrPermanent _) => false | Raise _ => true end.

(** The first call of [i, i + n) whose outcome is not retried, else the last one. *)
Fixpoint first_stop (script : nat -> res unit) (i n : nat) : nat :=
  match n with
  | O => i
  | Datatypes.S O => i
  | Datatypes.S n => if transient (script i) then first_stop script (Datatypes.S i) n else i
  end.

(** The delay before retry [i]: the base delay doubled [i] times. *)
Definition backoff (base : float) (i : nat) : float := Nat.iter i (fun d => fmul d ftwo) base.

(** ** Lemmas on retry *)

Lemma backoff_succ base i : backoff base (Datatypes.S i) = backoff (fmul base ftwo) i.
Proof. unfold backoff. induction i as [|i IH]; [done|]. cbn [Nat.iter nat_rect] in *. by rewrite IH. Qed.

Lemma first_stop_bounds script n : forall i, 0 < n -> i <= first_stop script i n < i + n.
Proof.
  induction n as [|n IH]; intros i Hn; [lia|]. destruct n as [|n]; simpl; [lia|].
  destruct (transient (script i)); [|lia]. specialize (IH (Datatypes.S i)). simpl in IH. lia.
Qed.

Lemma retry_loop_scripted script n : forall calls slept base last att,
  0 < n ->
  retry_loop script_sleep n att (att + Z.of_nat n - 1) base last (scripted script) (ScriptState calls slept) =
  let k := first_stop script calls n in
  (script k, ScriptState (Datatypes.S k) (slept ++ map (backoff base) (seq 0 (k - calls)))).
Proof.
  induction n as [|n IH]; intros calls slept base last att Hn; [lia|].
  cbn [retry_loop]. unfold scripted at 1. cbn [sc_calls sc_slept].
  destruct n as [|n].
  - rewrite bool_decide_true by lia. cbn [first_stop]. rewrite Nat.sub_diag. simpl. rewrite app_nil_r.
    by destruct (script calls) as [[] | []].
  - rewrite bool_decide_false by lia. cbn [first_stop].
    destruct (transient (script calls)) eqn:Ht.
    + cbn zeta. pose proof (first_stop_bounds script (Datatypes.S n) (Datatypes.S calls) ltac:(lia)).
      assert (Hgo : forall e, (script_sleep base ;;
          retry_loop script_sleep (Datatypes.S n) (att + 1) (att + Z.of_nat (Datatypes.S (Datatypes.S n)) - 1)
            (fmul base ftwo) (Some e) (scripted script)) (ScriptState (Datatypes.S calls) slept) =
          let k := first_stop script (Datatypes.S calls) (Datatypes.S n) in
          (script k, ScriptState (Datatypes.S k) (slept ++ map (backoff base) (seq 0 (k - calls))))).
      { intros e. unfold mbind, M_bind, script_sleep at 1. cbn [sc_calls sc_slept].
        replace (att + Z.of_nat (Datatypes.S (Datatypes.S n)) - 1)%Z
          with ((att + 1) + Z.of_nat (Datatypes.S n) - 1)%Z by lia.
        rewrite IH by lia. cbn zeta. f_equal. f_equal.
        set (k := first_stop _ _ _) in *.
        replace (k - calls) with (Datatypes.S (k - Datatypes.S calls)) by lia.
        cbn [seq map]. rewrite <- app_assoc. do 2 f_equal. rewrite <- seq_shift, map_map.
        apply map_ext. intros i. symmetry. apply backoff_succ. }
      destruct (script calls) as [[] | []]; try discriminate; apply Hgo.
    + cbn zeta. rewrite Nat.sub_diag. simpl. rewrite app_nil_r.
      by destruct (script calls) as [[] | []].
Qed.

(** When the retry succeeds, the last call of [fn] did, and nothing ran after it. *)
Lemma retry_ok_inv {S} sleep (max : Z) (delay : float) (fn : M S unit) s s' :
  retry_with_backoff sleep max delay fn s = (Ok tt, s') -> exists s1, fn s1 = (Ok tt, s').
Proof.
  unfold retry_with_backoff. generalize (Z.to_nat max) as n, 1%Z as att, (@None exn) as last.
  intros n. revert delay s. induction n as [|n IH]; intros delay s att last; simpl.
  { destruct last; discriminate. }
  destruct (fn s) as [[[] | e] s1] eqn:E; [intros [= <-]; eauto|].
  destruct e; try discriminate; (case_bool_decide; [discriminate|]);
    unfold mbind, M_bind; destruct (sleep delay s1) as [[[] | ] s2]; try discriminate; apply IH.
Qed.

Lemma preserves_retry {S} (P : S -> Prop) sleep (max : Z) (delay : float) (fn : M S unit) :
  (forall d, preserves P (sleep d)) -> preserves P fn ->
  preserves P (retry_with_backoff sleep max delay fn).
Proof.
  intros Hs Hf. unfold retry_with_backoff.
  generalize (Z.to_nat max) as n, 1%Z as att, (@None exn) as last.
  intros n. revert delay. induction n as [|n IH]; intros delay att last.
  { destruct last; apply preserves_raise. }
  intros s HP. simpl. specialize (Hf s HP). destruct (fn s) as [[[] | e] s1]; [done|].
  destruct e; try done; (case_bool_decide; [done|]);
    unfold mbind, M_bind; specialize (Hs delay s1 Hf);
    destruct (sleep delay s1) as [[[] | ] s2]; try done; by apply IH.
Qed.

Lemma moves_retry {S} (R : S -> S -> Prop) `{!PreOrder R} sleep (max : Z) (delay : float) (fn : M S unit) :
  (forall d, moves R (sleep d)) -> moves R fn -> moves R (retry_with_backoff sleep max delay fn).
Proof.
  intros Hs Hf s. apply (preserves_retry (R s)); [| | reflexivity]; intros.
  - intros s1 H1. etrans; [exact H1 | apply Hs].
  - intros s1 H1. etrans; [exact H1 | apply Hf].
Qed.

(** *** The wiring *)

Section ProtectedLemmas.
  Context {S : Type} `{Part S breaker} (clock : S -> float) (sleep : float -> M S unit).

(** A protected write that succeeds called [fn], the last call succeeded, and
    only the breaker changed after it. *)
Lemma protected_ok_inv (max : Z) (delay : float) e (fn : M S unit) s s' :
  protected clock sleep max delay e fn s = (Ok tt, s') ->
  exists s1 s2, fn s1 = (Ok tt, s2) /\ s' = part_set (record_success (part_get s2)) s2.
Proof.
  unfold protected, breaker_allow, mbind, M_bind. destruct (allow _ _) as [[|] b]; [|done].
  unfold try_else. destruct (retry_with_backoff _ _ _ _ _) as [[[]|exc] s2] eqn:E; [|done].
  destruct (retry_ok_inv _ _ _ _ _ _ E) as [s1 H1]. intros [= <-]. eauto.
Qed.

(** Behind a CLOSED breaker a call that succeeds at once is made once. *)
Lemma protected_succeeds (max : Z) (delay : float) e (fn : M S unit) s s' :
  br_state (part_get s) = CLOSED -> (0 < max)%Z -> fn s = (Ok tt, s') ->
  protected clock sleep max delay e fn s = (Ok tt, part_set (record_success (part_get s')) s').
Proof.
  intros Hclosed Hmax Hfn. unfold protected, breaker_allow, mbind, M_bind, allow. rewrite Hclosed, part_set_get.
  unfold try_else, retry_with_backoff. destruct (Z.to_nat max) eqn:E; [lia|]. cbn [retry_loop]. by rewrite Hfn.
Qed.

Lemma moves_protected (R : S -> S -> Prop) `{!PreOrder R} (max : Z) (delay : float) e (fn : M S unit) :
  (forall b s, R s (part_set b s)) -> (forall d, moves R (sleep d)) -> moves R fn ->
  moves R (protected clock sleep max delay e fn).
Proof.
  intros Hb Hs Hf. unfold protected. apply moves_bind; [done| |].
  - intros s. unfold breaker_allow. destruct (allow _ _). apply Hb.
  - intros [|]; [|by apply moves_raise]. apply moves_try_else; [done | by apply moves_retry | |].
    + intros exc. apply moves_bind; [done | intros s; apply Hb | intros; by apply moves_raise].
    + intros _ s. apply Hb.
Qed.

End ProtectedLemmas.

(** ** Lemmas on the breaker *)

Lemma apply_op_threshold o b : br_threshold (apply_op o b) = br_threshold b.
Proof. destruct o; simpl; unfold allow, record_failure; repeat (case_match; simpl); done. Qed.

Definition is_allow (o : breaker_op) : Prop := match o with OpAllow _ => True | _ => False end.

Lemma half_open_grants_none ops b :
  br_state b = HALF_OPEN -> Forall is_allow ops -> granted ops b = 0.
Proof.
  intros Hb. induction 1 as [|o ops Ho _ IH]; [done|]. destruct o; try done.
  simpl. unfold allow. rewrite Hb. simpl. apply IH.
Qed.

(** Failures recorded in a row at the end of a history ([true] is a success). *)
Definition trailing_failures (h : list bool) : Z :=
  foldl (fun n ok => if (ok : bool) then 0 else n + 1)%Z 0%Z h.

Lemma trailing_failures_snoc h ok :
  trailing_failures (h ++ [ok]) = if (ok : bool) then 0%Z else (trailing_failures h + 1)%Z.
Proof. unfold trailing_failures. by rewrite foldl_app. Qed.

Lemma trailing_failures_nonneg h : (0 <= trailing_failures h)%Z.
Proof.
  induction h as [|ok h IH] using rev_ind; [done|]. rewrite trailing_failures_snoc. destruct ok; lia.
Qed.

(** A history of recorded outcomes, [now] being the clock at each of them. *)
Definition record_history (h : list bool) (now : float) (b : breaker) : breaker :=
  foldl (fun b ok => if (ok : bool) then record_success b else record_failure now b) b h.

(** ** Theorems *)

(** [retry_with_backoff] is the first outcome that is a success or an
    [ErrPermanent], or else the last of the [max_attempts] outcomes; [fn] is
    called exactly that often, and the sleeps between the calls are the base
    delay doubled each time, with none after the last call. *)
Theorem retry_with_backoff_outcome (script : nat -> res unit) (n : nat) (base : float) :
  0 < n ->
  retry_with_backoff script_sleep (Z.of_nat n) base (scripted script) (ScriptState 0 []) =
  let k := first_stop script 0 n in
  (script k, ScriptState (S k) (map (backoff base) (seq 0 k))).
Proof.
  intros Hn. unfold retry_with_backoff. rewrite Nat2Z.id.
  replace (Z.of_nat n) with (1 + Z.of_nat n - 1)%Z by lia.
  rewrite retry_loop_scripted by done. cbn zeta. by rewrite Nat.sub_0_r.
Qed.

(** The second call succeeds: two calls, one sleep of the base delay. *)
Lemma retry_with_backoff_outcome_witness :
  0 < 5 /\
  retry_with_backoff script_sleep 5 fone
    (scripted (fun i => match i with 0 => Raise (RuntimeError "down") | _ => Ok tt end)) (ScriptState 0 []) =
  (Ok tt, ScriptState 2 [fone]).
Proof.
  split; [lia|].
  exact (retry_with_backoff_outcome (fun i => match i with 0 => Raise (RuntimeError "down") | _ => Ok tt end) 5 fone
    ltac:(lia)).
Defined.

(** An OPEN or HALF_OPEN breaker lets at most one call through, whatever
    the threads that call [allow] and whatever the clock, until an outcome is
    recorded: the trial call of the half-open state is exclusive. *)
Theorem half_open_single_trial (ops : list breaker_op) (b : breaker) :
  br_state b <> CLOSED -> Forall is_allow ops -> granted ops b <= 1.
Proof.
  intros Hb Hops. revert b Hb. induction Hops as [|o ops Ho Hops IH]; intros b Hb; simpl; [lia|].
  destruct o; try done. simpl. unfold allow. destruct (br_state b) eqn:E; [done| |].
  - destruct (fgeb _ _); simpl; [|by rewrite IH; [|congruence]].
    rewrite half_open_grants_none; [lia | done | done].
  - simpl. rewrite IH; [lia | congruence].
Qed.

Lemma half_open_single_trial_witness :
  br_state (record_failure fone (new_breaker 1 fone)) <> CLOSED /\
  granted [OpAllow (float_of_Z 5); OpAllow (float_of_Z 6)] (record_failure fone (new_breaker 1 fone)) <= 1.
Proof.
  split; [by vm_compute|].
  apply (half_open_single_trial [OpAllow (float_of_Z 5); OpAllow (float_of_Z 6)]
           (record_failure fone (new_breaker 1 fone))); [by vm_compute | repeat constructor].
Defined.

(** From a new breaker, recorded outcomes open it exactly when the failures
    recorded in a row since the last success reach the threshold (and there is
    at least one); the counter is that number. *)
Theorem breaker_opens_on_consecutive_failures (h : list bool) (threshold : Z) (cooldown now : float) :
  let b := record_history h now (new_breaker threshold cooldown) in
  br_consecutive_fails b = trailing_failures h /\
  br_state b = (if bool_decide (0 < trailing_failures h /\ threshold <= trailing_failures h)%Z
                then OPEN else CLOSED).
Proof.
  cbn zeta. induction h as [|ok h [IHn IHs]] using rev_ind; [done|].
  unfold record_history in *. rewrite foldl_app, trailing_failures_snoc. simpl.
  set (b := foldl _ _ h) in *.
  assert (Ht : br_threshold b = threshold).
  { subst b. clear. induction h as [|ok h IH] using rev_ind; [done|]. rewrite foldl_app. simpl.
    destruct ok; simpl; [done|]. unfold record_failure. repeat (case_match; simpl); done. }
  pose proof (trailing_failures_nonneg h).
  destruct ok; [split; [done|]; rewrite bool_decide_false by lia; done|].
  unfold record_failure. rewrite Ht, IHn.
  assert (Hs : br_state b <> HALF_OPEN) by (rewrite IHs; by case_bool_decide).
  assert (Hopen : br_state b = OPEN -> (threshold <= trailing_failures h)%Z).
  { rewrite IHs. case_bool_decide; [lia | done]. }
  clear IHs. destruct (br_state b) eqn:E; try done; simpl;
    destruct (Z.leb_spec threshold (trailing_failures h + 1)); cbn [br_state br_consecutive_fails];
    (split; [done|]); case_bool_decide; try done; try lia; specialize (Hopen eq_refl); lia.
Qed.

(** In every reachable state: a CLOSED breaker has counted fewer failures
    than its threshold, an OPEN or HALF_OPEN one at least its threshold. *)
Theorem breaker_counter_invariant (threshold : Z) (cooldown : float) (b : breaker) :
  (0 < threshold)%Z -> reachable threshold cooldown b ->
  br_threshold b = threshold /\ (0 <= br_consecutive_fails b)%Z /\
  (br_state b = CLOSED <-> (br_consecutive_fails b < threshold)%Z).
Proof.
  intros Hpos. induction 1 as [|b b' _ (Ht & Hn & IH) Hstep]; [simpl; split_and!; naive_solver lia|].
  destruct Hstep as [[now| |now] [st n t c o]]; simpl in *; subst t;
    unfold allow, record_failure, record_success; simpl.
  - destruct st; [done | case_match; simpl; naive_solver | done].
  - naive_solver lia.
  - destruct st; simpl; [| |naive_solver];
      destruct (Z.leb_spec threshold (n + 1)); simpl; (split; [done|]); (split; [lia|]); naive_solver lia.
Qed.

Lemma breaker_counter_invariant_witness :
  (0 < 1)%Z /\ reachable 1 fone (record_failure fone (new_breaker 1 fone)) /\
  br_state (record_failure fone (new_breaker 1 fone)) <> CLOSED.
Proof.
  assert (Hr : reachable 1 fone (record_failure fone (new_breaker 1 fone))).
  { apply (reach_step _ _ (new_breaker 1 fone)); [constructor | apply (step_op (OpFailure fone))]. }
  split_and!; [lia | exact Hr |].
  intros Hc. pose proof (proj1 (proj2 (proj2 (breaker_counter_invariant 1 fone _ ltac:(lia) Hr))) Hc) as Hlt.
  vm_compute in Hlt. discriminate Hlt.
Defined.
