(* ===== verification/Postgres.v ===== *)
(** The Postgres database: the tables of [migrations/*.sql] that the services
    read and write, and the execution of one SQL statement.  Every connection
    pool of the services is in autocommit mode, so a statement is one atomic
    step; between two statements of a function any other client may run
    ([pg_others]), and any statement may fail, before or after it took effect
    ([pg_fault]).  The statements themselves, with the unique indexes they rely
    on, are defined in the files of the components that issue them. *)

From stdpp Require Import prelude strings.
From Stdlib Require Import ZArith.
From S2P Require Import Prelude PyFloat Effects.

(** ** Executing a statement *)

(** What surrounds the program: all fields are indexed by the number of the
    statement, so that every behaviour of the surroundings in a run is some
    [pg_env]. *)
Record pg_env (DB : Type) := PgEnv {
  (** the error of statement [n], with whether its effect was kept *)
  pg_fault : nat -> option (bool * exn);
  (** what the other clients did just before statement [n] *)
  pg_others : nat -> DB -> DB;
  (** [now()], in microseconds *)
  pg_now : nat -> Z;
  (** [gen_random_uuid()] *)
  pg_uuid : nat -> string;
  (** the server's cast of a text parameter to [uuid]: the canonical text, or
      [None] where it raises [InvalidTextRepresentation] *)
  pg_uuid_in : string -> option string
}.
Arguments PgEnv {DB}.
Arguments pg_fault {DB}.
Arguments pg_others {DB}.
Arguments pg_now {DB}.
Arguments pg_uuid {DB}.
Arguments pg_uuid_in {DB}.

Record pg (DB : Type) := Pg { pg_count : nat; pg_db : DB }.
Arguments Pg {DB}.
Arguments pg_count {DB}.
Arguments pg_db {DB}.

(** A statement: given [now()] and a fresh uuid, its result and the new tables.
    A statement that raises leaves the tables as they were. *)
Definition statement (DB A : Type) : Type := Z -> string -> DB -> res A * DB.

Definition execute {DB A} (env : pg_env DB) (stmt : statement DB A) : M (pg DB) A := fun s =>
  let n := pg_count s in
  let db := pg_others env n (pg_db s) in
  let '(r, db') := stmt (pg_now env n) (pg_uuid env n) db in
  match pg_fault env n with
  | Some (kept, e) => (Raise e, Pg (S n) (if (kept : bool) then db' else db))
  | None => (r, Pg (S n) db')
  end.

(** A read: rows in table order. *)
Definition select {DB A} (f : DB -> A) : statement DB A := fun _ _ db => (Ok (f db), db).

(** A write without a result. *)
Definition update {DB} (f : Z -> DB -> DB) : statement DB unit := fun now _ db => (Ok tt, f now db).

(** A parameter compared with, or stored in, a [uuid] column. *)
Definition with_uuid {DB A} (env : pg_env DB) (s : string) (k : string -> statement DB A) : statement DB A :=
  match pg_uuid_in env s with
  | Some u => k u
  | None => fun _ _ db => (Raise (OtherError "InvalidTextRepresentation" s), db)
  end.

Definition with_uuid_opt {DB A} (env : pg_env DB) (o : option string)
    (k : option string -> statement DB A) : statement DB A :=
  match o with
  | None => k None
  | Some s => with_uuid env s (fun u => k (Some u))
  end.

(** An environment in which nothing else runs and nothing fails. *)
Definition quiet {DB} (env : pg_env DB) : Prop :=
  (forall n, pg_fault env n = None) /\ (forall n db, pg_others env n db = db).

Lemma execute_quiet {DB A} (env : pg_env DB) (stmt : statement DB A) (s : pg DB) :
  quiet env ->
  execute env stmt s =
  let '(r, db') := stmt (pg_now env (pg_count s)) (pg_uuid env (pg_count s)) (pg_db s) in
  (r, Pg (S (pg_count s)) db').
Proof.
  intros [Hf Ho]. unfold execute. rewrite Ho, Hf. by destruct (stmt _ _ _).
Qed.

(** An invariant of the tables that every statement and every other client
    keeps is kept by [execute], whatever fails. *)
Lemma preserves_execute {DB A} (P : DB -> Prop) (env : pg_env DB) (stmt : statement DB A) :
  (forall n db, P db -> P (pg_others env n db)) ->
  (forall n db, P db -> P (snd (stmt (pg_now env n) (pg_uuid env n) db))) ->
  preserves (fun s => P (pg_db s)) (execute env stmt).
Proof.
  intros Ho Hs s HP. unfold execute. specialize (Ho (pg_count s) _ HP).
  specialize (Hs (pg_count s) _ Ho).
  destruct (stmt _ _ _) as [r db']. destruct (pg_fault _ _) as [[[] e]|]; done.
Qed.

(** ** Tables *)

Record alert_rule_row := AlertRuleRow {
  ar_id : string; ar_organization_id : string; ar_name : string; ar_metric : string;
  ar_condition : string;
  ar_threshold_value : option float; ar_threshold_min : option float; ar_threshold_max : option float;
  ar_severity : string; ar_cooldown_seconds : Z; ar_window_seconds : Z;
  ar_machine_id : option string; ar_device_id : option string; ar_sensor_id : option string;
  ar_is_active : bool
}.

Record alert_row := AlertRow {
  al_id : string; al_organization_id : string; al_rule_id : string;
  al_factory_id : option string; al_machine_id : option string;
  al_device_id : option string; al_sensor_id : option string;
  al_severity : string; al_status : string; al_title : string; al_description : string;
  al_dedupe_key : string;
  al_triggered_at : Z; al_resolved_at : option Z;
  al_escalation_level : Z; al_last_escalated_at : option Z
}.

Record incident_row := IncidentRow {
  in_id : string; in_organization_id : string; in_alert_id : option string;
  in_factory_id : option string; in_machine_id : option string;
  in_device_id : option string; in_sensor_id : option string;
  in_severity : string; in_status : string; in_title : string; in_description : string;
  in_assigned_to : option string; in_resolution_notes : option string;
  in_opened_at : Z; in_resolved_at : option Z; in_closed_at : option Z
}.

Record incident_event_row := IncidentEventRow {
  ev_id : string; ev_incident_id : string; ev_event_type : string;
  ev_actor_user_id : option string; ev_old_value : option string; ev_new_value : option string;
  ev_note : string; ev_created_at : Z
}.

#[export] Instance alert_rule_row_eq_dec : EqDecision alert_rule_row.
Proof. solve_decision. Defined.
#[export] Instance alert_row_eq_dec : EqDecision alert_row.
Proof. solve_decision. Defined.
#[export] Instance incident_row_eq_dec : EqDecision incident_row.
Proof. solve_decision. Defined.
#[export] Instance incident_event_row_eq_dec : EqDecision incident_event_row.
Proof. solve_decision. Defined.

(** The tables of the alert and incident services. *)
Record alert_db := AlertDb {
  db_alert_rules : list alert_rule_row;
  db_alerts : list alert_row;
  db_incidents : list incident_row;
  db_incident_events : list incident_event_row
}.

Definition set_alerts (l : list alert_row) (d : alert_db) : alert_db :=
  AlertDb (db_alert_rules d) l (db_incidents d) (db_incident_events d).
Definition set_incidents (l : list incident_row) (d : alert_db) : alert_db :=
  AlertDb (db_alert_rules d) (db_alerts d) l (db_incident_events d).
Definition set_incident_events (l : list incident_event_row) (d : alert_db) : alert_db :=
  AlertDb (db_alert_rules d) (db_alerts d) (db_incidents d) l.

(** [NULL] for the empty string: the [_null_if_empty] of both stores. *)
Definition null_if_empty (s : string) : option string := if bool_decide (s = "") then None else Some s.

(** [COALESCE(x::text, '')]. *)
Definition coalesce (o : option string) : string := default "" o.

Lemma coalesce_null_if_empty s : coalesce (null_if_empty s) = s.
Proof. unfold null_if_empty. case_bool_decide; by subst. Qed.


(** A relation on the tables that every statement and every other client
    respects relates the tables before and after [execute]. *)
Lemma moves_execute {DB A} (R : DB -> DB -> Prop) (env : pg_env DB) (stmt : statement DB A) :
  Transitive R -> (forall n db, R db (pg_others env n db)) ->
  (forall n db, R db (snd (stmt (pg_now env n) (pg_uuid env n) db))) ->
  moves (fun s s' => R (pg_db s) (pg_db s')) (execute env stmt).
Proof.
  intros Ht Ho Hs s. unfold execute. specialize (Ho (pg_count s) (pg_db s)).
  specialize (Hs (pg_count s) (pg_others env (pg_count s) (pg_db s))).
  destruct (stmt _ _ _) as [r db']. simpl in Hs.
  destruct (pg_fault _ _) as [[[] e]|]; simpl; [by etrans | done | by etrans].
Qed.
