(* ===== verification/Incidents.v ===== *)
(** [shared/incidents.py]: the incident lifecycle and its persistence.  The SQL
    of each method is a statement on the tables, with the partial unique index
    [idx_incidents_one_active_per_machine] and the foreign key of
    [incident_events] checked where the server checks them. *)

From stdpp Require Import prelude strings sorting.
From Stdlib Require Import ZArith Lia.
From S2P Require Import Prelude PyFloat Effects Postgres.

(** ** Data *)

Record AlertRef := mkAlertRef {
  ref_id : string; ref_organization_id : string; ref_severity : string;
  ref_factory_id : string; ref_machine_id : string; ref_device_id : string; ref_sensor_id : string;
  ref_title : string; ref_description : string
}.

Record Incident := mkIncident {
  i_id : string; i_organization_id : string; i_alert_id : string; i_factory_id : string;
  i_machine_id : string; i_device_id : string; i_sensor_id : string;
  i_severity : string; i_status : string; i_title : string; i_description : string;
  i_assigned_to : string; i_resolution_notes : string;
  i_opened_at : Z; i_resolved_at : option Z; i_closed_at : option Z
}.

Record Event := mkEvent {
  e_id : string; e_incident_id : string; e_event_type : string; e_actor_user_id : option string;
  e_old_value : string; e_new_value : string; e_note : string; e_created_at : Z
}.

(** ** The state machine *)

Definition VALID_TRANSITIONS : list (string * list string) :=
  [("OPEN", ["ACKNOWLEDGED"; "INVESTIGATING"; "RESOLVED"]);
   ("ACKNOWLEDGED", ["INVESTIGATING"; "RESOLVED"]);
   ("INVESTIGATING", ["RESOLVED"]);
   ("RESOLVED", ["CLOSED"; "INVESTIGATING"]);
   ("CLOSED", [])].

Definition is_valid_transition (from_status to_status : string) : bool :=
  bool_decide (to_status ∈ default [] (dict_get VALID_TRANSITIONS from_status)).

(** [status IN ('OPEN', 'ACKNOWLEDGED', 'INVESTIGATING')]. *)
Definition active_status (s : string) : bool :=
  bool_decide (s ∈ ["OPEN"; "ACKNOWLEDGED"; "INVESTIGATING"]).

(** ** Statements *)

(** The machines the partial unique index constrains. *)
Definition active_machines (l : list incident_row) : list string :=
  omap (fun r => if active_status (in_status r) then in_machine_id r else None) l.

(** [idx_incidents_one_active_per_machine]. *)
Definition index_ok (d : alert_db) : Prop := NoDup (active_machines (db_incidents d)).

#[export] Instance index_ok_dec d : Decision (index_ok d) := _.

Definition is_active_for (machine_id : string) (r : incident_row) : bool :=
  active_status (in_status r) && bool_decide (in_machine_id r = Some machine_id).

Definition select_active (machine_id : string) : statement alert_db (option string) :=
  select (fun d => in_id <$> head (filter (fun r => is_active_for machine_id r = true) (db_incidents d))).

Definition find_incident (id : string) (d : alert_db) : option incident_row :=
  head (filter (fun r => in_id r = id) (db_incidents d)).

(** [INSERT ... ON CONFLICT (machine_id) WHERE status IN (...) DO NOTHING RETURNING id]. *)
Definition insert_incident (org : string) (alert fac mac dev sen : option string) (a : AlertRef)
  : statement alert_db (option string) := fun now uuid d =>
  match mac with
  | Some m =>
      if bool_decide (m ∈ active_machines (db_incidents d)) then (Ok None, d)
      else if bool_decide (uuid ∈ (in_id <$> db_incidents d)) then (Raise (UniqueViolation "incidents_pkey"), d)
      else (Ok (Some uuid), set_incidents (db_incidents d ++
        [IncidentRow uuid org alert fac mac dev sen (ref_severity a) "OPEN" (ref_title a) (ref_description a)
           None None now None None]) d)
  | None =>
      if bool_decide (uuid ∈ (in_id <$> db_incidents d)) then (Raise (UniqueViolation "incidents_pkey"), d)
      else (Ok (Some uuid), set_incidents (db_incidents d ++
        [IncidentRow uuid org alert fac None dev sen (ref_severity a) "OPEN" (ref_title a) (ref_description a)
           None None now None None]) d)
  end.

(** [UPDATE incidents SET ... WHERE id = %s], refused when the new table would
    violate the partial unique index. *)
Definition update_incident (id : string) (f : Z -> incident_row -> incident_row)
  : statement alert_db unit := fun now _ d =>
  let d' := set_incidents (map (fun r => if bool_decide (in_id r = id) then f now r else r) (db_incidents d)) d in
  if bool_decide (index_ok d') then (Ok tt, d')
  else (Raise (UniqueViolation "idx_incidents_one_active_per_machine"), d).

(** [SET status = %s, updated_at = now()] with the [extra] columns of [transition]. *)
Definition with_status (new_status : string) (now : Z) (r : incident_row) : incident_row :=
  IncidentRow (in_id r) (in_organization_id r) (in_alert_id r) (in_factory_id r) (in_machine_id r)
    (in_device_id r) (in_sensor_id r) (in_severity r) new_status (in_title r) (in_description r)
    (in_assigned_to r) (in_resolution_notes r) (in_opened_at r)
    (if bool_decide (new_status = "RESOLVED") then Some now else in_resolved_at r)
    (if bool_decide (new_status = "CLOSED") then Some now else in_closed_at r).

Definition with_assigned_to (user_id : string) (r : incident_row) : incident_row :=
  IncidentRow (in_id r) (in_organization_id r) (in_alert_id r) (in_factory_id r) (in_machine_id r)
    (in_device_id r) (in_sensor_id r) (in_severity r) (in_status r) (in_title r) (in_description r)
    (Some user_id) (in_resolution_notes r) (in_opened_at r) (in_resolved_at r) (in_closed_at r).

Definition with_resolution_notes (notes : string) (r : incident_row) : incident_row :=
  IncidentRow (in_id r) (in_organization_id r) (in_alert_id r) (in_factory_id r) (in_machine_id r)
    (in_device_id r) (in_sensor_id r) (in_severity r) (in_status r) (in_title r) (in_description r)
    (in_assigned_to r) (Some notes) (in_opened_at r) (in_resolved_at r) (in_closed_at r).

(** [INSERT INTO incident_events ...]; the foreign key needs the incident. *)
Definition insert_event (incident_id event_type : string) (actor : option string)
    (old_value new_value : option string) (note : string) : statement alert_db unit := fun now uuid d =>
  match find_incident incident_id d with
  | None => (Raise (OtherError "ForeignKeyViolation" incident_id), d)
  | Some _ => (Ok tt, set_incident_events (db_incident_events d ++
      [IncidentEventRow uuid incident_id event_type actor old_value new_value note now]) d)
  end.

(** ** [_row_to_incident] and the columns of [_INCIDENT_COLUMNS] *)

Definition row_to_incident (r : incident_row) : Incident :=
  mkIncident (in_id r) (in_organization_id r) (coalesce (in_alert_id r)) (coalesce (in_factory_id r))
    (coalesce (in_machine_id r)) (coalesce (in_device_id r)) (coalesce (in_sensor_id r))
    (in_severity r) (in_status r) (in_title r) (in_description r)
    (coalesce (in_assigned_to r)) (coalesce (in_resolution_notes r))
    (in_opened_at r) (in_resolved_at r) (in_closed_at r).

Definition row_to_event (r : incident_event_row) : Event :=
  mkEvent (ev_id r) (ev_incident_id r) (ev_event_type r) (ev_actor_user_id r)
    (coalesce (ev_old_value r)) (coalesce (ev_new_value r)) (ev_note r) (ev_created_at r).

(** [ORDER BY opened_at DESC] and [ORDER BY created_at ASC]. *)
Definition newest_first (a b : incident_row) : Prop := (in_opened_at b <= in_opened_at a)%Z.
Definition oldest_first (a b : incident_event_row) : Prop := (ev_created_at a <= ev_created_at b)%Z.
#[export] Instance newest_first_dec a b : Decision (newest_first a b) := Z_le_dec _ _.
#[export] Instance oldest_first_dec a b : Decision (oldest_first a b) := Z_le_dec _ _.

(** ** The store *)

Section Store.
  Variable env : pg_env alert_db.
  (** [self._publisher]; a publisher is an effectful callable. *)
  Variable publisher : option (string -> Incident -> M (pg alert_db) unit).

Definition log_event (incident_id event_type : string) (actor : option string)
    (old_value new_value note : string) : M (pg alert_db) unit :=
  execute env (with_uuid env incident_id (fun i => with_uuid_opt env actor (fun actor =>
    insert_event i event_type actor (null_if_empty old_value) (null_if_empty new_value) note))).

Definition fetch_by_id (incident_id : string) : M (pg alert_db) (option Incident) :=
  row ← execute env (with_uuid env incident_id (fun i => select (find_incident i)));
  mret (row_to_incident <$> (row : option incident_row)).

Definition publish (event_type incident_id : string) : M (pg alert_db) unit :=
  match publisher with
  | None => mret tt
  | Some publish_incident_event =>
      full ← fetch_by_id incident_id;
      match full with
      | None => mret tt
      | Some full => try_except (publish_incident_event event_type full) (fun _ => mret tt)
      end
  end.

(** The [INSERT] of [open_or_attach] with its parameters. *)
Definition insert_for_alert (alert : AlertRef) : statement alert_db (option string) :=
  with_uuid env (ref_organization_id alert) (fun org =>
  with_uuid env (ref_id alert) (fun a =>
  with_uuid_opt env (null_if_empty (ref_factory_id alert)) (fun fac =>
  with_uuid_opt env (null_if_empty (ref_machine_id alert)) (fun mac =>
  with_uuid_opt env (null_if_empty (ref_device_id alert)) (fun dev =>
  with_uuid_opt env (null_if_empty (ref_sensor_id alert)) (fun sen =>
  insert_incident org (Some a) fac mac dev sen alert)))))).

Definition open_or_attach (alert : AlertRef) : M (pg alert_db) (string * bool) :=
  row ← execute env (with_uuid env (ref_machine_id alert) select_active);
  match (row : option string) with
  | Some existing_id =>
      log_event existing_id "ALERT_ATTACHED" None "" ""
        ("alert " +:+ ref_id alert +:+ " (" +:+ ref_severity alert +:+ ") attached: " +:+ ref_title alert) ;;
      mret (existing_id, false)
  | None =>
      row ← execute env (insert_for_alert alert);
      match (row : option string) with
      | None =>
          existing ← execute env (with_uuid env (ref_machine_id alert) select_active);
          match (existing : option string) with
          | None => raise (RuntimeError ("resolve incident creation race for machine "
                             +:+ ref_machine_id alert +:+ ": no incident found"))
          | Some id => mret (id, false)
          end
      | Some incident_id =>
          log_event incident_id "STATUS_CHANGE" None "" "OPEN"
            ("incident opened from alert " +:+ ref_id alert) ;;
          publish "CREATED" incident_id ;;
          mret (incident_id, true)
      end
  end.

Definition transition (incident_id new_status : string) (actor : option string) (note : string)
  : M (pg alert_db) unit :=
  row ← execute env (with_uuid env incident_id (fun i => select (fun d => in_status <$> find_incident i d)));
  match (row : option string) with
  | None => raise (RuntimeError ("load incident " +:+ incident_id +:+ ": not found"))
  | Some current_status =>
      if is_valid_transition current_status new_status then
        execute env (with_uuid env incident_id (fun i => update_incident i (with_status new_status))) ;;
        log_event incident_id "STATUS_CHANGE" actor current_status new_status note ;;
        publish "STATUS_CHANGED" incident_id
      else raise (ValueError ("invalid incident transition " +:+ current_status +:+ " -> " +:+ new_status))
  end.

Definition assign (incident_id user_id : string) (actor : option string) : M (pg alert_db) unit :=
  execute env (with_uuid env user_id (fun u => with_uuid env incident_id (fun i =>
    update_incident i (fun _ => with_assigned_to u)))) ;;
  log_event incident_id "ASSIGNMENT" actor "" user_id ("assigned to technician " +:+ user_id) ;;
  publish "ASSIGNED" incident_id.

Definition resolve (incident_id resolution_notes : string) (actor : option string) : M (pg alert_db) unit :=
  execute env (with_uuid env incident_id (fun i => update_incident i (fun _ => with_resolution_notes resolution_notes))) ;;
  transition incident_id "RESOLVED" actor resolution_notes.

Definition get_incident (org_id incident_id : string) : M (pg alert_db) (option Incident) :=
  row ← execute env (with_uuid env incident_id (fun i => with_uuid env org_id (fun o =>
    select (fun d => head (filter (fun r => in_id r = i /\ in_organization_id r = o) (db_incidents d))))));
  mret (row_to_incident <$> (row : option incident_row)).

(** The rows of the query of [list], before [LIMIT] and [OFFSET]. *)
Definition listed (o status_filter : string) (d : alert_db) : list incident_row :=
  merge_sort newest_first
    (filter (fun r => in_organization_id r = o /\ (status_filter = "" \/ in_status r = status_filter))
       (db_incidents d)).

Definition list_incidents (org_id status_filter : string) (limit offset : Z) : M (pg alert_db) (list Incident) :=
  rows ← execute env (with_uuid env org_id (fun o =>
    if (offset <? 0)%Z then fun _ _ d => (Raise (OtherError "InvalidRowCountInResultOffsetClause" ""), d)
    else if (limit <? 0)%Z then fun _ _ d => (Raise (OtherError "InvalidRowCountInLimitClause" ""), d)
    else select (fun d => take (Z.to_nat limit) (drop (Z.to_nat offset) (listed o status_filter d)))));
  mret (row_to_incident <$> (rows : list incident_row)).

Definition list_events (incident_id : string) : M (pg alert_db) (list Event) :=
  rows ← execute env (with_uuid env incident_id (fun i =>
    select (fun d => merge_sort oldest_first (filter (fun r => ev_incident_id r = i) (db_incident_events d)))));
  mret (row_to_event <$> (rows : list incident_event_row)).

End Store.

(** ** The audit trail *)

(** Reading the events of incident [id] in order: the status they lead to, or
    [None] when one of them is not a move the lifecycle allows.  The first
    event is the opening, from no status to [OPEN]. *)
Definition replay_step (id : string) (st : option string) (e : incident_event_row) : option string :=
  if bool_decide (ev_incident_id e = id /\ ev_event_type e = "STATUS_CHANGE") then
    match st with
    | None => None
    | Some cur =>
        let new := coalesce (ev_new_value e) in
        if bool_decide (coalesce (ev_old_value e) = cur) &&
           (bool_decide (cur = "" /\ new = "OPEN") || is_valid_transition cur new)
        then Some new else None
    end
  else st.

Definition replay (id : string) (evs : list incident_event_row) : option string :=
  foldl (replay_step id) (Some "") evs.

(** Primary key, foreign key, and the audit trail that explains every status. *)
Definition audited (d : alert_db) : Prop :=
  NoDup (in_id <$> db_incidents d) /\
  Forall (fun e => ev_incident_id e ∈ (in_id <$> db_incidents d)) (db_incident_events d) /\
  Forall (fun r => replay (in_id r) (db_incident_events d) = Some (in_status r)) (db_incidents d).

(** A client's call. *)
Inductive incident_op :=
  | OpOpenOrAttach (alert : AlertRef)
  | OpTransition (incident_id new_status : string) (actor : option string) (note : string)
  | OpAssign (incident_id user_id : string) (actor : option string)
  | OpResolve (incident_id resolution_notes : string) (actor : option string).

(** The call, with what it raises left to the caller. *)
Definition call (env : pg_env alert_db) (o : incident_op) : M (pg alert_db) unit :=
  try_except
    match o with
    | OpOpenOrAttach a => open_or_attach env None a ;; mret tt
    | OpTransition i st actor note => transition env None i st actor note
    | OpAssign i u actor => assign env None i u actor
    | OpResolve i notes actor => resolve env None i notes actor
    end (fun _ => mret tt).

(** The user the call is made by has an id that is a uuid. *)
Definition actor_ok (env : pg_env alert_db) (o : incident_op) : Prop :=
  match o with
  | OpOpenOrAttach _ => True
  | OpTransition _ _ actor _ | OpAssign _ _ actor | OpResolve _ _ actor =>
      match actor with None => True | Some a => pg_uuid_in env a <> None end
  end.

(** [gen_random_uuid()] yields canonical texts. *)
Definition canonical_uuids (env : pg_env alert_db) : Prop :=
  forall n, pg_uuid_in env (pg_uuid env n) = Some (pg_uuid env n).

(** ** Lemmas on the tables *)

Lemma find_incident_some i d r :
  find_incident i d = Some r -> r ∈ db_incidents d /\ in_id r = i.
Proof.
  unfold find_incident. intros H%head_Some_elem_of. apply list_elem_of_filter in H. naive_solver.
Qed.

Lemma find_incident_none i d : find_incident i d = None <-> i ∉ (in_id <$> db_incidents d).
Proof.
  unfold find_incident. rewrite head_None. split.
  - intros H [r [-> Hr]]%list_elem_of_fmap.
    exact (filter_nil_not_elem_of _ _ r H eq_refl Hr).
  - intros H. apply filter_none, Forall_forall. intros r Hr <-. apply H, list_elem_of_fmap. eauto.
Qed.

Lemma NoDup_ids_eq (l : list incident_row) r r' :
  NoDup (in_id <$> l) -> r ∈ l -> r' ∈ l -> in_id r = in_id r' -> r = r'.
Proof.
  induction l as [|a l IH]; intros Hnd Hr Hr' Heq; [by apply elem_of_nil in Hr|].
  apply NoDup_cons in Hnd as [Ha Hnd].
  apply elem_of_cons in Hr, Hr'. destruct Hr as [-> | Hr], Hr' as [-> | Hr']; auto.
  - exfalso. apply Ha, list_elem_of_fmap. eauto.
  - exfalso. apply Ha, list_elem_of_fmap. eauto.
Qed.

(** What [UPDATE ... WHERE id = i] makes of the rows. *)
Definition update_rows (i : string) (f : incident_row -> incident_row) (l : list incident_row) : list incident_row :=
  map (fun r => if bool_decide (in_id r = i) then f r else r) l.

Lemma update_rows_ids i f l : (forall r, in_id (f r) = in_id r) -> in_id <$> update_rows i f l = in_id <$> l.
Proof.
  intros Hf. unfold update_rows. induction l as [|r l IH]; [done|]. csimpl. f_equal; [|exact IH].
  by case_bool_decide.
Qed.

Lemma update_rows_absent i f l : i ∉ (in_id <$> l) -> update_rows i f l = l.
Proof.
  intros H. unfold update_rows. induction l as [|r l IH]; [done|]. csimpl.
  rewrite fmap_cons, not_elem_of_cons in H. rewrite bool_decide_false by naive_solver. f_equal. naive_solver.
Qed.

Lemma elem_of_update_rows i f l r' :
  r' ∈ update_rows i f l <-> exists r, r ∈ l /\ r' = if bool_decide (in_id r = i) then f r else r.
Proof. unfold update_rows. rewrite list_elem_of_fmap. naive_solver. Qed.

(** *** Replaying events *)

Lemma replay_snoc id evs e : replay id (evs ++ [e]) = replay_step id (replay id evs) e.
Proof. unfold replay. by rewrite foldl_app. Qed.

Lemma replay_other id evs : Forall (fun e => ev_incident_id e <> id) evs -> replay id evs = Some "".
Proof.
  induction evs as [|e evs IH] using rev_ind; [done|]. rewrite Forall_app, Forall_singleton, replay_snoc.
  intros [H He]. rewrite IH by done. unfold replay_step. rewrite bool_decide_false; naive_solver.
Qed.

(** An update that keeps id and status keeps the trail. *)
Lemma audited_update d i f :
  (forall r, in_id (f r) = in_id r /\ in_status (f r) = in_status r) ->
  audited d -> audited (set_incidents (update_rows i f (db_incidents d)) d).
Proof.
  intros Hf (Hnd & Hfk & Htrail). unfold audited. simpl.
  rewrite update_rows_ids by (intros; apply Hf). split_and!; [done|done|].
  apply Forall_forall. intros r' (r & Hr & ->)%elem_of_update_rows.
  rewrite Forall_forall in Htrail. specialize (Htrail r Hr).
  case_bool_decide; [|done]. by rewrite (proj1 (Hf r)), (proj2 (Hf r)).
Qed.

(** So does an event that is not a status change. *)
Lemma audited_event d uuid i ty actor o n note now :
  ty <> "STATUS_CHANGE" -> i ∈ (in_id <$> db_incidents d) -> audited d ->
  audited (set_incident_events (db_incident_events d ++ [IncidentEventRow uuid i ty actor o n note now]) d).
Proof.
  intros Hty Hi (Hnd & Hfk & Htrail). unfold audited. simpl. split_and!; [done | |].
  - apply Forall_app. split; [done|]. by apply Forall_singleton.
  - eapply Forall_impl; [exact Htrail|]. intros r Hr. rewrite replay_snoc. unfold replay_step.
    rewrite bool_decide_false; [exact Hr | simpl; tauto].
Qed.

(** A valid move together with the event that records it. *)
Lemma audited_transition d i r f uuid actor note now new :
  find_incident i d = Some r -> is_valid_transition (in_status r) new = true ->
  (forall r, in_id (f r) = in_id r /\ in_status (f r) = new) ->
  audited d ->
  audited (AlertDb (db_alert_rules d) (db_alerts d) (update_rows i f (db_incidents d))
    (db_incident_events d ++
     [IncidentEventRow uuid i "STATUS_CHANGE" actor (null_if_empty (in_status r)) (null_if_empty new) note now])).
Proof.
  intros [Hr Hi]%find_incident_some Hv Hf (Hnd & Hfk & Htrail). unfold audited. simpl.
  rewrite update_rows_ids by (intros; apply Hf). split_and!; [done | |].
  - apply Forall_app. split; [done|]. apply Forall_singleton. simpl. subst i.
    apply list_elem_of_fmap. eauto.
  - apply Forall_forall. intros r' (r0 & Hr0 & ->)%elem_of_update_rows.
    pose proof (proj1 (Forall_forall _ _) Htrail r0 Hr0) as H0. simpl in H0.
    case_bool_decide as Hid.
    + rewrite (proj1 (Hf r0)), (proj2 (Hf r0)), replay_snoc, H0. unfold replay_step.
      rewrite bool_decide_true by (simpl; auto). simpl. rewrite !coalesce_null_if_empty.
      assert (r0 = r) as -> by (eapply NoDup_ids_eq; eauto; congruence).
      rewrite bool_decide_true by done. rewrite Hv, orb_true_r. done.
    + rewrite replay_snoc, H0. unfold replay_step. rewrite bool_decide_false; [done|].
      simpl. naive_solver.
Qed.

(** A new incident together with its opening event. *)
Lemma audited_insert d row uuid actor note now :
  in_id row ∉ (in_id <$> db_incidents d) -> in_status row = "OPEN" -> audited d ->
  audited (AlertDb (db_alert_rules d) (db_alerts d) (db_incidents d ++ [row])
    (db_incident_events d ++ [IncidentEventRow uuid (in_id row) "STATUS_CHANGE" actor None (Some "OPEN") note now])).
Proof.
  intros Hid Hst (Hnd & Hfk & Htrail). unfold audited. simpl. rewrite fmap_app. split_and!.
  - apply NoDup_app. split_and!; [done | | apply NoDup_singleton]. intros x Hx ->%list_elem_of_singleton. done.
  - apply Forall_app. split; [|apply Forall_singleton; simpl; set_solver].
    eapply Forall_impl; [exact Hfk|]. intros e. simpl. set_solver.
  - apply Forall_app. split.
    + apply Forall_forall. intros r Hr. rewrite replay_snoc.
      rewrite (proj1 (Forall_forall _ _) Htrail r Hr). unfold replay_step.
      rewrite bool_decide_false; [done|]. simpl. intros [Heq _]. apply Hid. rewrite Heq.
      apply list_elem_of_fmap. eauto.
    + apply Forall_singleton. rewrite replay_snoc, replay_other.
      * unfold replay_step. rewrite bool_decide_true by done. by rewrite Hst.
      * eapply Forall_impl; [exact Hfk|]. simpl. intros e He Heq. apply Hid. by rewrite <- Heq.
Qed.

(** *** Methods, statement by statement, when nothing interferes *)

Section Quiet.
  Context (env : pg_env alert_db) (Hq : quiet env).

Lemma step_uuid {A} (s : string) (k : string -> statement alert_db A) st :
    execute env (with_uuid env s k) st =
    match pg_uuid_in env s with
    | Some u => let '(r, d) := k u (pg_now env (pg_count st)) (pg_uuid env (pg_count st)) (pg_db st) in
                (r, Pg (S (pg_count st)) d)
    | None => (Raise (OtherError "InvalidTextRepresentation" s), Pg (S (pg_count st)) (pg_db st))
    end.
  Proof. rewrite execute_quiet by done. unfold with_uuid. by destruct (pg_uuid_in env s). Qed.

  (** A statement keeps [P] when it does with every [now()] and fresh uuid. *)
Lemma keeps_execute {A} (P : alert_db -> Prop) (stmt : statement alert_db A) :
    (forall now uuid d, P d -> P (snd (stmt now uuid d))) ->
    preserves (fun s => P (pg_db s)) (execute env stmt).
  Proof.
    intros H. apply preserves_execute; [|auto]. intros n d. by rewrite (proj2 Hq).
  Qed.

Lemma keeps_uuid {A} (P : alert_db -> Prop) s (k : string -> statement alert_db A) :
    (forall u now uuid d, P d -> P (snd (k u now uuid d))) ->
    forall now uuid d, P d -> P (snd (with_uuid env s k now uuid d)).
  Proof. intros H now uuid d HP. unfold with_uuid. destruct (pg_uuid_in env s); simpl; auto. Qed.

Lemma keeps_uuid_opt {A} (P : alert_db -> Prop) o (k : option string -> statement alert_db A) :
    (forall u now uuid d, P d -> P (snd (k u now uuid d))) ->
    forall now uuid d, P d -> P (snd (with_uuid_opt env o k now uuid d)).
  Proof. intros H now uuid d HP. destruct o; simpl; [apply keeps_uuid|]; auto. Qed.

Lemma keeps_select {A} (P : alert_db -> Prop) (f : alert_db -> A) now uuid d :
    P d -> P (snd (select f now uuid d)).
  Proof. done. Qed.

Lemma keeps_insert_event i ty actor o n note now uuid d :
    ty <> "STATUS_CHANGE" -> audited d -> audited (snd (insert_event i ty actor o n note now uuid d)).
  Proof.
    intros Hty Ha. unfold insert_event. destruct (find_incident i d) as [r|] eqn:E; [|done].
    apply find_incident_some in E as [Hr <-]. simpl. apply audited_event; [done | | done].
    apply list_elem_of_fmap. eauto.
  Qed.

Lemma keeps_log_event i ty actor o n note :
    ty <> "STATUS_CHANGE" -> preserves (fun s => audited (pg_db s)) (log_event env i ty actor o n note).
  Proof.
    intros Hty. apply keeps_execute, keeps_uuid. intros u. apply keeps_uuid_opt. intros.
    by apply keeps_insert_event.
  Qed.

Lemma keeps_update i f now uuid d :
    (forall now r, in_id (f now r) = in_id r /\ in_status (f now r) = in_status r) ->
    audited d -> audited (snd (update_incident i f now uuid d)).
  Proof.
    intros Hf Ha. unfold update_incident. case_bool_decide; [|done]. simpl. by apply audited_update.
  Qed.

End Quiet.

(** What a resolved [actor_user_id] is stored as. *)
Definition actor_in (env : pg_env alert_db) (actor : option string) : option string :=
  a ← actor; pg_uuid_in env a.

Lemma log_event_quiet env i u ty actor o n note st r :
  quiet env -> pg_uuid_in env i = Some u -> find_incident u (pg_db st) = Some r ->
  match actor with None => True | Some a => pg_uuid_in env a <> None end ->
  log_event env i ty actor o n note st =
  (Ok tt, Pg (S (pg_count st)) (set_incident_events (db_incident_events (pg_db st) ++
     [IncidentEventRow (pg_uuid env (pg_count st)) u ty (actor_in env actor) (null_if_empty o) (null_if_empty n)
        note (pg_now env (pg_count st))]) (pg_db st))).
Proof.
  intros Hq Hu Hr Ha. unfold log_event. rewrite step_uuid, Hu by done.
  unfold with_uuid_opt, with_uuid, insert_event. destruct actor as [a|]; simpl.
  - destruct (pg_uuid_in env a); [|done]. by rewrite Hr.
  - by rewrite Hr.
Qed.

Lemma find_incident_update i f (d : alert_db) r :
  (forall r, in_id (f r) = in_id r) -> find_incident i d = Some r ->
  exists r', find_incident i (set_incidents (update_rows i f (db_incidents d)) d) = Some r'.
Proof.
  intros Hf Hr. destruct (find_incident i (set_incidents _ d)) as [r'|] eqn:E; [eauto|].
  apply find_incident_none in E. simpl in E. rewrite update_rows_ids in E by done.
  apply find_incident_none in E. congruence.
Qed.

(** [transition] in full: what it raises, and the tables it leaves. *)
Lemma transition_quiet env id i new actor note st :
  quiet env -> pg_uuid_in env id = Some i ->
  match actor with None => True | Some a => pg_uuid_in env a <> None end ->
  let n := pg_count st in let d := pg_db st in
  transition env None id new actor note st =
  match find_incident i d with
  | None => (Raise (RuntimeError ("load incident " +:+ id +:+ ": not found")), Pg (S n) d)
  | Some r =>
      if is_valid_transition (in_status r) new then
        let rows := update_rows i (with_status new (pg_now env (S n))) (db_incidents d) in
        if bool_decide (index_ok (set_incidents rows d)) then
          (Ok tt, Pg (S (S (S n))) (AlertDb (db_alert_rules d) (db_alerts d) rows
             (db_incident_events d ++
              [IncidentEventRow (pg_uuid env (S (S n))) i "STATUS_CHANGE" (actor_in env actor)
                 (null_if_empty (in_status r)) (null_if_empty new) note (pg_now env (S (S n)))])))
        else (Raise (UniqueViolation "idx_incidents_one_active_per_machine"), Pg (S (S n)) d)
      else (Raise (ValueError ("invalid incident transition " +:+ in_status r +:+ " -> " +:+ new)), Pg (S n) d)
  end.
Proof.
  intros Hq Hid Ha n d. unfold transition.
  erewrite bind_ok by (rewrite step_uuid, Hid by done; unfold select; simpl; reflexivity).
  fold n d. destruct (find_incident i d) as [r|] eqn:E; [|done].
  change (in_status <$> Some r) with (Some (in_status r)). cbn beta iota zeta.
  destruct (is_valid_transition _ _); [|done].
  set (rows := update_rows i _ _).
  assert (Hup : execute env (with_uuid env id (fun i => update_incident i (with_status new))) (Pg (S n) d) =
      if bool_decide (index_ok (set_incidents rows d)) then (Ok tt, Pg (S (S n)) (set_incidents rows d))
      else (Raise (UniqueViolation "idx_incidents_one_active_per_machine"), Pg (S (S n)) d)).
  { rewrite step_uuid, Hid by done. unfold update_incident. cbn [pg_count pg_db].
    fold (update_rows i (with_status new (pg_now env (S n))) (db_incidents d)). fold rows.
    by destruct (bool_decide _). }
  case_bool_decide; [|by rewrite (bind_raise _ _ _ _ _ Hup)]. rewrite (bind_ok _ _ _ _ _ Hup).
  destruct (find_incident_update i (with_status new (pg_now env (S n))) d r) as [r' Hr']; [done..|].
  erewrite bind_ok by (eapply log_event_quiet; cbn [pg_db]; eauto). done.
Qed.

(** Neither a log entry nor a faulty insertion is the error of the lost race. *)
Definition is_runtime_error (e : exn) : bool := match e with RuntimeError _ => true | _ => false end.

(** What the [INSERT] of [open_or_attach] can do: nothing, or one new row. *)
Lemma insert_for_alert_shape env alert now uuid d :
  let '(r, d') := insert_for_alert env alert now uuid d in
  (d' = d /\ match r with
             | Ok (Some _) => False
             | Ok None => exists m, (null_if_empty (ref_machine_id alert) ≫= pg_uuid_in env) = Some m /\
                                    m ∈ active_machines (db_incidents d)
             | Raise e => is_runtime_error e = false
             end) \/
  (r = Ok (Some uuid) /\ (uuid ∉ (in_id <$> db_incidents d)) /\
   exists row, d' = set_incidents (db_incidents d ++ [row]) d /\ in_id row = uuid /\ in_status row = "OPEN" /\
     in_machine_id row = (null_if_empty (ref_machine_id alert) ≫= pg_uuid_in env) /\
     forall m, in_machine_id row = Some m -> m ∉ active_machines (db_incidents d)).
Proof.
  unfold insert_for_alert, with_uuid_opt, with_uuid, insert_incident.
  destruct (pg_uuid_in env (ref_organization_id alert)); [|by left].
  destruct (pg_uuid_in env (ref_id alert)); [|by left].
  destruct (null_if_empty (ref_factory_id alert)) as [f|]; [destruct (pg_uuid_in env f); [|by left]|];
  (destruct (null_if_empty (ref_machine_id alert)) as [m|]; csimpl; [destruct (pg_uuid_in env m); [|by left]|]);
  (destruct (null_if_empty (ref_device_id alert)) as [v|]; [destruct (pg_uuid_in env v); [|by left]|]);
  (destruct (null_if_empty (ref_sensor_id alert)) as [w|]; [destruct (pg_uuid_in env w); [|by left]|]);
  repeat case_bool_decide; try (by left); try (left; split; [done|]; by eauto);
  right; (split; [done|]); (split; [done|]); eexists; naive_solver.
Qed.

Lemma keeps_open_or_attach env alert :
  quiet env -> canonical_uuids env ->
  preserves (fun s => audited (pg_db s)) (open_or_attach env None alert).
Proof.
  intros Hq Hc. unfold open_or_attach. apply preserves_bind.
  { apply keeps_execute, keeps_uuid; [done|]. intros ????. exact id. }
  intros [existing|].
  { apply preserves_bind; [by apply keeps_log_event|]. intros. apply preserves_ret. }
  intros st Ha.
  pose proof (insert_for_alert_shape env alert (pg_now env (pg_count st)) (pg_uuid env (pg_count st)) (pg_db st)) as H.
  pose proof (execute_quiet env (insert_for_alert env alert) st Hq) as Hx.
  destruct (insert_for_alert _ _ _ _ _) as [r d']. destruct H as [[-> Hr] | (-> & Hid & row & -> & Hrow & Hopen & _)].
  - destruct r as [[i|]|]; [done | rewrite (bind_ok _ _ _ _ _ Hx) | by rewrite (bind_raise _ _ _ _ _ Hx)].
    apply preserves_bind with (P := fun s => audited (pg_db s)); [| |done].
    { apply keeps_execute, keeps_uuid; [done|]. intros ????. exact id. }
    intros [id|]; [apply preserves_ret | apply preserves_raise].
  - rewrite (bind_ok _ _ _ _ _ Hx). erewrite bind_ok; cycle 1.
    { eapply log_event_quiet; [done | apply Hc | | done]. cbn [pg_db db_incidents set_incidents].
      unfold find_incident. cbn [db_incidents set_incidents]. rewrite filter_app.
      rewrite (filter_none _ (db_incidents _)); cycle 1.
      { apply Forall_forall. intros r Hr Heq. apply Hid, list_elem_of_fmap. eauto. }
      rewrite filter_cons_True by done. done. }
    simpl. rewrite <- Hrow. apply (audited_insert (pg_db st)); [by rewrite Hrow | done | done].
Qed.

Lemma keeps_transition env id new actor note :
  quiet env -> match actor with None => True | Some a => pg_uuid_in env a <> None end ->
  preserves (fun s => audited (pg_db s)) (transition env None id new actor note).
Proof.
  intros Hq Hactor st Ha. destruct (pg_uuid_in env id) as [i|] eqn:Hid.
  - rewrite (transition_quiet env id i) by done. cbn zeta.
    destruct (find_incident i (pg_db st)) as [r|] eqn:Hr; [|done].
    destruct (is_valid_transition _ _) eqn:Hv; [|done].
    case_bool_decide; [|done]. simpl. by eapply audited_transition.
  - unfold transition. erewrite bind_raise by (rewrite step_uuid, Hid by done; reflexivity). done.
Qed.

Lemma keeps_call env o :
  quiet env -> canonical_uuids env -> actor_ok env o ->
  preserves (fun s => audited (pg_db s)) (call env o).
Proof.
  intros Hq Hc Ho. unfold call. apply preserves_try; [|intros; apply preserves_ret].
  destruct o as [a | i new actor note | i u actor | i notes actor]; simpl in Ho.
  - apply preserves_bind; [by apply keeps_open_or_attach | intros; apply preserves_ret].
  - by apply keeps_transition.
  - unfold assign. apply preserves_bind.
    { apply keeps_execute, keeps_uuid; [done|]. intros w. apply keeps_uuid. intros. by apply keeps_update. }
    intros _. apply preserves_bind; [by apply keeps_log_event | intros; apply preserves_ret].
  - unfold resolve. apply preserves_bind; [|intros; by apply keeps_transition].
    apply keeps_execute, keeps_uuid; [done|]. intros. by apply keeps_update.
Qed.

(** *** One active incident per machine *)

(** The active incident of a machine, if it has one. *)
Definition active_incident (m : string) (d : alert_db) : option string :=
  in_id <$> head (filter (fun r => is_active_for m r = true) (db_incidents d)).

(** The other clients keep the index, and do not take an active incident away. *)
Definition others_keep_active (env : pg_env alert_db) : Prop :=
  forall n d, index_ok d -> index_ok (pg_others env n d) /\
    forall m i, active_incident m d = Some i -> active_incident m (pg_others env n d) = Some i.

Lemma elem_of_active_machines m l :
  m ∈ active_machines l <-> exists r, r ∈ l /\ is_active_for m r = true.
Proof.
  unfold active_machines. rewrite list_elem_of_omap. unfold is_active_for.
  split; intros (r & Hr & H); exists r; (split; [done|]); destruct (active_status _); simpl in *;
    [by apply bool_decide_eq_true | done | by apply bool_decide_eq_true in H | done].
Qed.

Lemma active_machines_snoc l r :
  active_machines (l ++ [r]) =
  active_machines l ++ (if active_status (in_status r) then match in_machine_id r with Some m => [m] | None => [] end else []).
Proof.
  unfold active_machines. rewrite omap_app. simpl. destruct (active_status _); [|done].
  by destruct (in_machine_id r).
Qed.

Lemma active_incident_in m d : m ∈ active_machines (db_incidents d) -> exists i, active_incident m d = Some i.
Proof.
  intros (r & Hr & H)%elem_of_active_machines. unfold active_incident.
  assert (Hf : r ∈ filter (fun r => is_active_for m r = true) (db_incidents d)) by (apply list_elem_of_filter; eauto).
  destruct (filter _ _) as [|r' l]; [by apply elem_of_nil in Hf | simpl; eauto].
Qed.

Lemma active_incident_events m evs d : active_incident m (set_incident_events evs d) = active_incident m d.
Proof. done. Qed.

Lemma log_event_spec env i ty actor o n note st :
  others_keep_active env -> index_ok (pg_db st) ->
  let '(r, st') := log_event env i ty actor o n note st in
  index_ok (pg_db st') /\
  (forall m x, active_incident m (pg_db st) = Some x -> active_incident m (pg_db st') = Some x) /\
  match r with Ok _ => True | Raise e => (exists n k, pg_fault env n = Some (k, e)) \/ is_runtime_error e = false end.
Proof.
  intros Ho Hok. unfold log_event, execute, with_uuid_opt, with_uuid, insert_event.
  destruct (Ho (pg_count st) (pg_db st) Hok) as [Hok' Hact].
  destruct (pg_uuid_in env i); [destruct actor as [a|]; [destruct (pg_uuid_in env a)|]|];
    try (destruct (find_incident _ _)); destruct (pg_fault env (pg_count st)) as [[[] e]|] eqn:E; simpl;
    (split; [done|]); (split; [auto|]); eauto.
Qed.

Lemma select_active_spec env s m st :
  others_keep_active env -> index_ok (pg_db st) -> pg_uuid_in env s = Some m ->
  let '(r, st') := execute env (with_uuid env s select_active) st in
  index_ok (pg_db st') /\ (forall x, active_incident m (pg_db st) = Some x -> active_incident m (pg_db st') = Some x) /\
  match r with Ok row => row = active_incident m (pg_db st') | Raise e => exists n k, pg_fault env n = Some (k, e) end.
Proof.
  intros Ho Hok Hm. unfold execute, with_uuid. rewrite Hm. unfold select_active, select.
  destruct (Ho (pg_count st) (pg_db st) Hok) as [Hok' Hact].
  destruct (pg_fault env (pg_count st)) as [[k e]|] eqn:E; [destruct k|]; simpl; split_and!; eauto.
Qed.

(** [INSERT]: the index holds after it, and a row it returned is the active one. *)
Lemma insert_spec env alert m st :
  others_keep_active env -> index_ok (pg_db st) ->
  null_if_empty (ref_machine_id alert) ≫= pg_uuid_in env = Some m ->
  let '(r, st') := execute env (insert_for_alert env alert) st in
  index_ok (pg_db st') /\
  match r with
  | Ok (Some i) => active_incident m (pg_db st') = Some i
  | Ok None => exists i, active_incident m (pg_db st') = Some i
  | Raise e => (exists n k, pg_fault env n = Some (k, e)) \/ is_runtime_error e = false
  end.
Proof.
  intros Ho Hok Hm. unfold execute. destruct (Ho (pg_count st) (pg_db st) Hok) as [Hok' _].
  set (d := pg_others _ _ _) in *. set (n := pg_count st).
  pose proof (insert_for_alert_shape env alert (pg_now env n) (pg_uuid env n) d) as H.
  destruct (insert_for_alert _ _ _ _ _) as [r d'].
  assert (Hd' : index_ok d' /\ match r with
      | Ok (Some i) => active_incident m d' = Some i
      | Ok None => exists i, active_incident m d' = Some i
      | Raise e => is_runtime_error e = false end).
  { destruct H as [[-> Hr] | (-> & Hid & row & -> & Hrow & Hopen & Hmac & Hnew)].
    - split; [done|]. destruct r as [[i|]|]; [done | | done]. destruct Hr as (m' & Hm' & Hin).
      simplify_eq. by apply active_incident_in.
    - rewrite Hm in Hmac. specialize (Hnew m Hmac).
      assert (Ha : is_active_for m row = true)
        by (unfold is_active_for; rewrite Hopen, Hmac; by rewrite bool_decide_true).
      split.
      + unfold index_ok. cbn [db_incidents set_incidents]. rewrite active_machines_snoc, Hopen, Hmac. simpl.
        apply NoDup_app. split_and!; [done | | apply NoDup_singleton].
        intros x Hx ->%list_elem_of_singleton. done.
      + unfold active_incident. cbn [db_incidents set_incidents]. rewrite filter_app, (filter_none _ (db_incidents d)).
        * rewrite filter_cons_True by done. simpl. by rewrite Hrow.
        * apply Forall_forall. intros r Hr Hact. apply Hnew, elem_of_active_machines. eauto. }
  destruct Hd' as [Hd' Hr]. destruct (pg_fault env n) as [[[] e]|] eqn:E; simpl; split; eauto.
  destruct r as [[]|]; eauto.
Qed.

(** *** Reads see one organization *)

Lemma filter_org_absorb (l : list incident_row) o (P : incident_row -> Prop) `{!forall r, Decision (P r)} :
  (forall r, P r -> in_organization_id r = o) ->
  filter P l = filter P (filter (fun r => in_organization_id r = o) l).
Proof.
  intros Hp. rewrite filter_filter_and. induction l as [|r l IH]; [done|].
  rewrite !filter_cons. repeat case_decide; rewrite ?IH; naive_solver.
Qed.

(** The incidents of organization [o]. *)
Definition org_incidents (o : string) (d : alert_db) : list incident_row :=
  filter (fun r => in_organization_id r = o) (db_incidents d).

Lemma listed_org o f d d' : org_incidents o d = org_incidents o d' -> listed o f d = listed o f d'.
Proof.
  intros H. unfold listed. f_equal.
  rewrite (filter_org_absorb (db_incidents d) o), (filter_org_absorb (db_incidents d') o) by naive_solver.
  unfold org_incidents in H. by rewrite H.
Qed.

Lemma newest_first_total : Total newest_first.
Proof. intros a b. unfold newest_first. lia. Qed.

(** ** An example surrounding for the witnesses *)

Definition demo_env (others : nat -> alert_db -> alert_db) : pg_env alert_db :=
  PgEnv (fun _ => None) others (fun n => Z.of_nat n) (fun n => "u" +:+ pretty.pretty n)
    (fun s => if bool_decide (s = "") then None else Some s).

Lemma demo_quiet : quiet (demo_env (fun _ d => d)).
Proof. done. Qed.

Lemma demo_canonical : canonical_uuids (demo_env (fun _ d => d)).
Proof. intros n. done. Qed.

Definition demo_alert : AlertRef := mkAlertRef "al" "org" "HIGH" "" "m1" "" "" "hot" "too hot".
Definition demo_row (id status : string) : incident_row :=
  IncidentRow id "org" (Some "al") None (Some "m1") None None "HIGH" status "hot" "too hot" None None 0 None None.

(** ** Theorems *)




(** A rival that opens the machine's incident just before statement 1. *)
Definition demo_rival (n : nat) (d : alert_db) : alert_db :=
  if bool_decide (n = 1 /\ active_machines (db_incidents d) = [])
  then set_incidents (db_incidents d ++ [demo_row "rival" "OPEN"]) d else d.


Lemma active_machines_update i f l :
  (forall r, in_status (f r) = in_status r /\ in_machine_id (f r) = in_machine_id r) ->
  active_machines (update_rows i f l) = active_machines l.
Proof.
  intros Hf. unfold active_machines, update_rows. induction l as [|x l IH]; [done|].
  csimpl. rewrite IH. case_bool_decide; [|done]. by rewrite (proj1 (Hf x)), (proj2 (Hf x)).
Qed.

(** Reads are isolated by organization and page one list.  Two databases
    that agree on the incidents of organization [o] give [get] and [list] the
    same answers for [o], whatever the others' incidents are; and the pages of
    [list] are the slices of one list of [o]'s incidents (those with the status
    asked for), newest first. *)
Theorem incident_reads_isolated (env : pg_env alert_db) (org o : string) (d d' : alert_db) (n : nat) :
  quiet env -> pg_uuid_in env org = Some o -> org_incidents o d = org_incidents o d' ->
  (forall id, eval (get_incident env org id) (Pg n d) = eval (get_incident env org id) (Pg n d')) /\
  forall status_filter, exists rows,
    StronglySorted newest_first rows /\
    rows ≡ₚ filter (fun r => status_filter = "" \/ in_status r = status_filter) (org_incidents o d) /\
    forall limit offset, (0 <= limit)%Z -> (0 <= offset)%Z ->
      eval (list_incidents env org status_filter limit offset) (Pg n d) =
        Ok (row_to_incident <$> take (Z.to_nat limit) (drop (Z.to_nat offset) rows)) /\
      eval (list_incidents env org status_filter limit offset) (Pg n d') =
        Ok (row_to_incident <$> take (Z.to_nat limit) (drop (Z.to_nat offset) rows)).
Proof.
  intros Hq Ho Horg. split.
  - intros id. unfold get_incident, eval, mbind, M_bind. rewrite !step_uuid by done.
    unfold with_uuid. rewrite Ho. destruct (pg_uuid_in env id) as [i|]; [|done]. simpl.
    rewrite (filter_org_absorb (db_incidents d) o), (filter_org_absorb (db_incidents d') o) by naive_solver.
    unfold org_incidents in Horg. by rewrite Horg.
  - intros f. exists (listed o f d). split_and!.
    + apply StronglySorted_merge_sort; [|apply newest_first_total].
      intros a b c. unfold newest_first. lia.
    + unfold listed, org_incidents. rewrite merge_sort_Permutation, filter_filter_and.
      erewrite list_filter_iff; [reflexivity|]. naive_solver.
    + intros limit offset Hl Hf. unfold list_incidents, eval, mbind, M_bind. rewrite !step_uuid, Ho by done.
      rewrite (proj2 (Z.ltb_ge offset 0)), (proj2 (Z.ltb_ge limit 0)) by done. simpl.
      by rewrite (listed_org o f d d' Horg).
Qed.

Lemma incident_reads_isolated_witness :
  org_incidents "org" (AlertDb [] [] [demo_row "u1" "OPEN"] []) =
    org_incidents "org" (AlertDb [] [] [demo_row "u1" "OPEN";
      IncidentRow "x" "rivals" None None None None None "HIGH" "OPEN" "t" "" None None 9 None None] []) /\
  forall id,
    eval (get_incident (demo_env (fun _ d => d)) "org" id) (Pg 0 (AlertDb [] [] [demo_row "u1" "OPEN"] [])) =
    eval (get_incident (demo_env (fun _ d => d)) "org" id) (Pg 0 (AlertDb [] [] [demo_row "u1" "OPEN";
      IncidentRow "x" "rivals" None None None None None "HIGH" "OPEN" "t" "" None None 9 None None] [])).
Proof.
  split; [by vm_compute|].
  exact (proj1 (incident_reads_isolated (demo_env (fun _ d => d)) "org" "org"
    (AlertDb [] [] [demo_row "u1" "OPEN"] [])
    (AlertDb [] [] [demo_row "u1" "OPEN";
      IncidentRow "x" "rivals" None None None None None "HIGH" "OPEN" "t" "" None None 9 None None] [])
    0 demo_quiet eq_refl ltac:(by vm_compute))).
Defined.

(** [resolve] on an incident that cannot be resolved raises, but its
    resolution notes have been overwritten already, and no event says so. *)
Theorem rejected_resolve_overwrites_notes (env : pg_env alert_db) (id i notes : string) (actor : option string)
    (st : pg alert_db) (r : incident_row) :
  quiet env -> pg_uuid_in env id = Some i -> find_incident i (pg_db st) = Some r ->
  is_valid_transition (in_status r) "RESOLVED" = false -> index_ok (pg_db st) ->
  match actor with None => True | Some a => pg_uuid_in env a <> None end ->
  resolve env None id notes actor st =
  (Raise (ValueError ("invalid incident transition " +:+ in_status r +:+ " -> RESOLVED")),
   Pg (S (S (pg_count st)))
      (set_incidents (update_rows i (with_resolution_notes notes) (db_incidents (pg_db st))) (pg_db st))).
Proof.
  intros Hq Hid Hr Hv Hok Ha. unfold resolve.
  set (d' := set_incidents (update_rows i (with_resolution_notes notes) (db_incidents (pg_db st))) (pg_db st)).
  assert (Hok' : index_ok d').
  { unfold index_ok in *. subst d'. cbn [db_incidents set_incidents]. by rewrite active_machines_update. }
  assert (Hup : execute env (with_uuid env id (fun i => update_incident i (fun _ => with_resolution_notes notes))) st =
      (Ok tt, Pg (S (pg_count st)) d')).
  { rewrite step_uuid, Hid by done. unfold update_incident.
    fold (update_rows i (with_resolution_notes notes) (db_incidents (pg_db st))). fold d'.
    by rewrite bool_decide_true. }
  rewrite (bind_ok _ _ _ _ _ Hup), (transition_quiet env id i) by done. cbn [pg_count pg_db].
  destruct (find_incident i d') as [r'|] eqn:Hr'.
  - assert (in_status r' = in_status r) as ->; [|by rewrite Hv].
    revert Hr Hr'. subst d'. unfold find_incident. cbn [db_incidents set_incidents].
    unfold update_rows. clear. induction (db_incidents (pg_db st)) as [|x l IH]; [done|].
    csimpl. destruct (decide (in_id x = i)) as [Hx|Hx].
    + rewrite bool_decide_true, !filter_cons_True by done. simpl. intros. by simplify_eq.
    + rewrite bool_decide_false, !filter_cons_False by done. apply IH.
  - exfalso. apply find_incident_none in Hr'. subst d'. cbn [db_incidents set_incidents] in Hr'.
    rewrite update_rows_ids in Hr' by done. apply find_incident_none in Hr'. congruence.
Qed.

Lemma rejected_resolve_overwrites_notes_witness :
  is_valid_transition "CLOSED" "RESOLVED" = false /\
  resolve (demo_env (fun _ d => d)) None "u1" "late" None (Pg 0 (AlertDb [] [] [demo_row "u1" "CLOSED"] [])) =
  (Raise (ValueError "invalid incident transition CLOSED -> RESOLVED"),
   Pg 2 (AlertDb [] [] [with_resolution_notes "late" (demo_row "u1" "CLOSED")] [])).
Proof.
  split; [done|].
  apply (rejected_resolve_overwrites_notes (demo_env (fun _ d => d)) "u1" "u1" "late" None
    (Pg 0 (AlertDb [] [] [demo_row "u1" "CLOSED"] [])) (demo_row "u1" "CLOSED")); try done.
  constructor.
Defined.

(** Another client's call, complete, just before statement [k]. *)
Definition interposed (k : nat) (o : incident_op) (n : nat) (d : alert_db) : alert_db :=
  if bool_decide (n = k) then pg_db (exec (call (demo_env (fun _ d => d)) o) (Pg 10 d)) else d.

(** [C32] [transition] reads the status in one statement and writes it in the
    next: a client that closes the incident in between has its [CLOSED]
    overwritten by the first client's [INVESTIGATING], although the lifecycle
    makes [CLOSED] terminal, and the trail no longer replays. *)
Theorem concurrent_transition_reopens_closed :
  exists d, audited d /\ index_ok d /\
  let env := demo_env (interposed 1 (OpTransition "u1" "CLOSED" None "")) in
  let '(r, st) := transition env None "u1" "INVESTIGATING" None "" (Pg 0 d) in
  r = Ok tt /\ in_status <$> db_incidents (pg_db st) = ["INVESTIGATING"] /\
  (ev_new_value <$> db_incident_events (pg_db st)) =
    [Some "OPEN"; Some "RESOLVED"; Some "CLOSED"; Some "INVESTIGATING"] /\
  is_valid_transition "CLOSED" "INVESTIGATING" = false /\
  replay "u1" (db_incident_events (pg_db st)) = None.
Proof.
  exists (AlertDb [] [] [demo_row "u1" "RESOLVED"]
    [IncidentEventRow "e1" "u1" "STATUS_CHANGE" None None (Some "OPEN") "" 0;
     IncidentEventRow "e2" "u1" "STATUS_CHANGE" None (Some "OPEN") (Some "RESOLVED") "" 0]).
  split; [|split; [constructor | by vm_compute]].
  split_and!; repeat constructor; try set_solver; try (by vm_compute).
Qed.
