(* ===== verification/Auth.v ===== *)
(** [shared/auth.py] and [shared/audit.py]: the role permissions, tenancy and
    password rules, tokens, and the login / refresh-rotation / logout service.
    The users, the audit log and the Redis keys of the refresh tokens are one
    store whose commands are atomic and may fail ([Postgres.execute]).  bcrypt
    and PyJWT are parameters; the properties of theirs the service relies on
    are named hypotheses. *)

From stdpp Require Import prelude strings gmap.
From Stdlib Require Import ZArith Lia Ascii.
From S2P Require Import Prelude PyFloat Effects Postgres.

Local Open Scope Z_scope.

Definition TOKEN_TYPE_ACCESS : string := "access".
Definition TOKEN_TYPE_REFRESH : string := "refresh".

(** ** RBAC *)

Definition PERM_DEVICES_READ : string := "devices:read".
Definition PERM_DEVICES_WRITE : string := "devices:write".
Definition PERM_TELEMETRY_READ : string := "telemetry:read".
Definition PERM_ALERTS_READ : string := "alerts:read".
Definition PERM_ALERTS_MANAGE : string := "alerts:manage".
Definition PERM_INCIDENTS_READ : string := "incidents:read".
Definition PERM_INCIDENTS_MANAGE : string := "incidents:manage".
Definition PERM_FACTORIES_READ : string := "factories:read".
Definition PERM_FACTORIES_MANAGE : string := "factories:manage".
Definition PERM_USERS_MANAGE : string := "users:manage".
Definition PERM_SYSTEM_ADMIN : string := "system:admin".

Definition ROLE_ADMIN : string := "ADMIN".
Definition ROLE_FACTORY_MANAGER : string := "FACTORY_MANAGER".
Definition ROLE_ENGINEER : string := "ENGINEER".
Definition ROLE_TECHNICIAN : string := "TECHNICIAN".
Definition ROLE_VIEWER : string := "VIEWER".

Definition ROLE_PERMISSIONS : list (string * list string) :=
  [(ROLE_ADMIN,
    [PERM_DEVICES_READ; PERM_DEVICES_WRITE; PERM_TELEMETRY_READ;
     PERM_ALERTS_READ; PERM_ALERTS_MANAGE; PERM_INCIDENTS_READ; PERM_INCIDENTS_MANAGE;
     PERM_FACTORIES_READ; PERM_FACTORIES_MANAGE; PERM_USERS_MANAGE; PERM_SYSTEM_ADMIN]);
   (ROLE_FACTORY_MANAGER,
    [PERM_DEVICES_READ; PERM_DEVICES_WRITE; PERM_TELEMETRY_READ;
     PERM_ALERTS_READ; PERM_ALERTS_MANAGE; PERM_INCIDENTS_READ; PERM_INCIDENTS_MANAGE;
     PERM_FACTORIES_READ; PERM_FACTORIES_MANAGE]);
   (ROLE_ENGINEER,
    [PERM_DEVICES_READ; PERM_DEVICES_WRITE; PERM_TELEMETRY_READ;
     PERM_ALERTS_READ; PERM_ALERTS_MANAGE; PERM_INCIDENTS_READ; PERM_INCIDENTS_MANAGE;
     PERM_FACTORIES_READ]);
   (ROLE_TECHNICIAN,
    [PERM_DEVICES_READ; PERM_TELEMETRY_READ;
     PERM_ALERTS_READ; PERM_INCIDENTS_READ; PERM_INCIDENTS_MANAGE;
     PERM_FACTORIES_READ]);
   (ROLE_VIEWER,
    [PERM_DEVICES_READ; PERM_TELEMETRY_READ; PERM_ALERTS_READ; PERM_INCIDENTS_READ; PERM_FACTORIES_READ])].

Definition ALL_ROLES : list string :=
  [ROLE_ADMIN; ROLE_FACTORY_MANAGER; ROLE_ENGINEER; ROLE_TECHNICIAN; ROLE_VIEWER].

(** [ROLE_PERMISSIONS.get(role, [])]. *)
Definition role_permissions (role : string) : list string := default [] (dict_get ROLE_PERMISSIONS role).

(** The two nested loops; [seen] and [out] hold the same permissions. *)
Definition add_permission (st : gset string * list string) (perm : string) : gset string * list string :=
  let '(seen, out) := st in
  if bool_decide (perm ∈ seen) then (seen, out) else ({[ perm ]} ∪ seen, out ++ [perm]).

Definition add_role (st : gset string * list string) (role : string) : gset string * list string :=
  foldl add_permission st (role_permissions role).

Definition permissions_for_roles (roles : list string) : list string :=
  snd (foldl add_role (∅, []) roles).

Definition has_permission (permissions : list string) (required : string) : bool :=
  bool_decide (required ∈ permissions).

(** ** Tenancy *)

Definition require_same_organization (token_org_id resource_org_id : string) : res unit :=
  if bool_decide (token_org_id = resource_org_id) then Ok tt
  else Raise (CrossTenantError "resource belongs to a different organization").

(** ** Passwords *)

Definition MAX_PASSWORD_BYTES : Z := 72.

(** [s.encode("utf-8")] of a string of code points; [None] is the
    [UnicodeEncodeError] (a [ValueError]) of a surrogate. *)
Definition utf8_char (c : Z) : option (list Z) :=
  if c <? 128 then Some [c]
  else if c <? 2048 then Some [192 + c / 64; 128 + c mod 64]
  else if (55296 <=? c) && (c <=? 57343) then None
  else if c <? 65536 then Some [224 + c / 4096; 128 + (c / 64) mod 64; 128 + c mod 64]
  else Some [240 + c / 262144; 128 + (c / 4096) mod 64; 128 + (c / 64) mod 64; 128 + c mod 64].

Definition utf8_encode (s : list Z) : res (list Z) :=
  match mapM utf8_char s with
  | Some bs => Ok (concat bs)
  | None => Raise (ValueError "surrogates not allowed")
  end.

(** [int]s as text in messages. *)
Definition check_password_length (password : list Z) : res unit :=
  match utf8_encode password with
  | Raise e => Raise e
  | Ok bs => if MAX_PASSWORD_BYTES <? Z.of_nat (length bs)
             then Raise (ValueError ("password must be at most " +:+ pretty.pretty MAX_PASSWORD_BYTES +:+ " bytes (UTF-8)"))
             else Ok tt
  end.

Section Passwords.
  (** [str.isalpha] and [str.isdigit] of the characters beyond ASCII. *)
  Variables unicode_alpha unicode_digit : Z -> bool.
  (** [bcrypt.hashpw(bytes, gensalt())] and [bcrypt.checkpw(bytes, hashed)]. *)
  Variable hashpw : list Z -> string.
  Variable checkpw : list Z -> string -> res bool.

Definition isalpha (c : Z) : bool :=
  if c <? 128 then ((65 <=? c) && (c <=? 90)) || ((97 <=? c) && (c <=? 122)) else unicode_alpha c.
Definition isdigit (c : Z) : bool :=
  if c <? 128 then (48 <=? c) && (c <=? 57) else unicode_digit c.

Definition hash_password (plain : list Z) : res string :=
  match check_password_length plain with
  | Raise e => Raise e
  | Ok _ => match utf8_encode plain with Raise e => Raise e | Ok bs => Ok (hashpw bs) end
  end.

(** Only a [ValueError] is [False]; another exception of bcrypt goes through. *)
Definition verify_password (hashed : string) (plain : list Z) : res bool :=
  match utf8_encode plain with
  | Raise _ => Ok false
  | Ok bs => match checkpw bs hashed with Raise (ValueError _) => Ok false | r => r end
  end.

Definition validate_password_strength (password : list Z) : res unit :=
  if Z.of_nat (length password) <? 8 then Raise (ValueError "password must be at least 8 characters")
  else match check_password_length password with
       | Raise e => Raise e
       | Ok _ =>
           let has_letter := existsb isalpha password in
           let has_digit := existsb isdigit password in
           if negb has_letter || negb has_digit
           then Raise (ValueError "password must contain at least one letter and one digit")
           else Ok tt
       end.

End Passwords.

(** ** Tokens *)

(** Datetimes are microseconds since the epoch. *)
Record Claims := mkClaims {
  c_user_id : string; c_organization_id : string; c_email : string;
  c_roles : list string; c_permissions : list string; c_token_type : string; c_jti : string;
  c_issued_at : option Z; c_expires_at : option Z
}.

(** A JWT payload; [None] is a missing (or [null]) key. *)
Record payload := Payload {
  pl_sub : option string; pl_jti : option string; pl_iat : option Z; pl_exp : option Z;
  pl_user_id : option string; pl_organization_id : option string; pl_email : option string;
  pl_roles : option (list string); pl_permissions : option (list string); pl_token_type : option string
}.

Definition microseconds : Z := 1000000.

Definition _new_base_claims (now : Z) (user_id org_id email : string) (roles : list string)
    (token_type : string) (ttl : Z) (jti : string) : Claims :=
  mkClaims user_id org_id email roles (permissions_for_roles roles) token_type jti (Some now) (Some (now + ttl)).

(** [repr] of the token types, which hold no quote. *)
Definition repr_token_type (t : option string) : string :=
  match t with None => "None" | Some t => "'" +:+ t +:+ "'" end.

Section Tokens.
  (** [jwt.encode(payload, secret, "HS256")]; [jwt.decode] at a given time. *)
  Variable jwt_encode : payload -> string -> string.
  Variable jwt_decode : string -> string -> Z -> res payload.

Definition token_payload (now : Z) (claims : Claims) : payload :=
  let seconds (t : option Z) := default now t / microseconds in
  Payload (Some (c_user_id claims)) (Some (c_jti claims))
    (Some (seconds (c_issued_at claims))) (Some (seconds (c_expires_at claims)))
    (Some (c_user_id claims)) (Some (c_organization_id claims)) (Some (c_email claims))
    (Some (c_roles claims)) (Some (c_permissions claims)) (Some (c_token_type claims)).

Definition issue_token (now : Z) (claims : Claims) (secret : string) : string :=
  jwt_encode (token_payload now claims) secret.

Definition parse_and_validate (now : Z) (token_string secret expected_type : string) : res Claims :=
  match jwt_decode token_string secret now with
  | Raise e => Raise e
  | Ok p =>
      if bool_decide (pl_token_type p <> Some expected_type)
      then Raise (ValueError ("expected token_type " +:+ repr_token_type (Some expected_type) +:+ ", got "
                              +:+ repr_token_type (pl_token_type p)))
      else Ok (mkClaims (default "" (pl_user_id p)) (default "" (pl_organization_id p)) (default "" (pl_email p))
             (default [] (pl_roles p)) (default [] (pl_permissions p)) (default "" (pl_token_type p))
             (default "" (pl_jti p)) ((fun s => s * microseconds) <$> pl_iat p)
             ((fun s => s * microseconds) <$> pl_exp p))
  end.

(** PyJWT on the tokens this code makes: what was encoded decodes with the same
    secret while it is not expired (and was not issued in the future), and is
    refused once it expired. *)
Definition jwt_roundtrip : Prop := forall p secret now iat exp,
  pl_iat p = Some iat -> pl_exp p = Some exp ->
  (iat * microseconds <= now -> now < exp * microseconds ->
   jwt_decode (jwt_encode p secret) secret now = Ok p) /\
  (exp * microseconds <= now -> exists e, jwt_decode (jwt_encode p secret) secret now = Raise e).

End Tokens.

(** ** The service *)

Record user_row := UserRow {
  us_id : string; us_organization_id : string; us_email : string; us_password_hash : string; us_is_active : bool
}.

Inductive meta_value := MetaStr (s : string) | MetaList (l : list string).

(** [audit.Entry]. *)
Record Entry := mkEntry {
  en_action : string; en_resource_type : string; en_result : string;
  en_organization_id : option string; en_user_id : option string; en_resource_id : option string;
  en_ip_address : option string; en_request_id : option string; en_metadata : list (string * meta_value)
}.

Definition RESULT_SUCCESS : string := "SUCCESS".
Definition RESULT_FAILURE : string := "FAILURE".

(** The tables and the Redis keys (value, expiry) of the service; a row of
    [db_user_roles] is a row of the join of [user_roles] and [roles]. *)
Record auth_db := AuthDb {
  db_users : list user_row;
  db_user_roles : list (string * string);
  db_audit_logs : list Entry;
  db_redis : gmap string (string * Z)
}.

Definition set_audit_logs (l : list Entry) (d : auth_db) : auth_db :=
  AuthDb (db_users d) (db_user_roles d) l (db_redis d).
Definition set_redis (r : gmap string (string * Z)) (d : auth_db) : auth_db :=
  AuthDb (db_users d) (db_user_roles d) (db_audit_logs d) r.

Definition _refresh_redis_key (jti : string) : string := "refresh_token:" +:+ jti.

(** [DEL key]: how many keys were removed; an expired key is not there. *)
Definition redis_delete (key : string) : statement auth_db Z := fun now _ d =>
  match db_redis d !! key with
  | Some (_, expiry) => (Ok (if now <? expiry then 1 else 0), set_redis (delete key (db_redis d)) d)
  | None => (Ok 0, d)
  end.

(** [SET key value EX seconds]. *)
Definition redis_set_ex (key value : string) (seconds : Z) : statement auth_db unit := fun now _ d =>
  if seconds <=? 0 then (Raise (OtherError "ResponseError" "invalid expire time in 'set' command"), d)
  else (Ok tt, set_redis (<[key := (value, now + seconds * microseconds)]> (db_redis d)) d).

Definition insert_audit (e : Entry) : statement auth_db unit :=
  update (fun _ d => set_audit_logs (db_audit_logs d ++ [e]) d).

Record TokenPair := mkTokenPair { access_token : string; refresh_token : string; expires_at : Z }.

Section Service.
  Variable env : pg_env auth_db.
  Variable checkpw : list Z -> string -> res bool.
  Variable jwt_encode : payload -> string -> string.
  Variable jwt_decode : string -> string -> Z -> res payload.
  Variables access_secret refresh_secret : string.
  (** The lifetimes of the tokens, in microseconds. *)
  Variables access_ttl refresh_ttl : Z.

(** [datetime.now(utc)] and [uuid.uuid4()]: local, so they do not fail. *)
Definition read_clock : M (pg auth_db) Z := fun s =>
  (Ok (pg_now env (pg_count s)), Pg (S (pg_count s)) (pg_db s)).
Definition uuid4 : M (pg auth_db) string := fun s =>
  (Ok (pg_uuid env (pg_count s)), Pg (S (pg_count s)) (pg_db s)).

(** [audit.Logger.log]: the cast of the two uuid columns, then the insertion. *)
Definition audit_log (e : Entry) : M (pg auth_db) unit :=
  execute env (with_uuid_opt env (en_organization_id e) (fun _ =>
    with_uuid_opt env (en_user_id e) (fun _ => insert_audit e))).

Definition _log_auth (org_id user_id : option string) (action result ip_address : string)
    (metadata : list (string * meta_value)) : M (pg auth_db) unit :=
  try_except (audit_log (mkEntry action "user" result org_id user_id None (null_if_empty ip_address) None metadata))
    (fun _ => mret tt).

Definition _roles_for_user (user_id : string) : M (pg auth_db) (list string) :=
  execute env (with_uuid env user_id (fun u =>
    select (fun d => snd <$> filter (fun r => fst r = u) (db_user_roles d)))).

Definition _issue_pair (user_id org_id email : string) (roles : list string) : M (pg auth_db) TokenPair :=
  access_jti ← uuid4;
  now ← read_clock;
  let access_claims := _new_base_claims now user_id org_id email roles TOKEN_TYPE_ACCESS access_ttl access_jti in
  let access_token := issue_token jwt_encode now access_claims access_secret in
  refresh_jti ← uuid4;
  now' ← read_clock;
  let refresh_claims := _new_base_claims now' user_id org_id email roles TOKEN_TYPE_REFRESH refresh_ttl refresh_jti in
  let refresh_token := issue_token jwt_encode now' refresh_claims refresh_secret in
  execute env (redis_set_ex (_refresh_redis_key refresh_jti) user_id (refresh_ttl / microseconds)) ;;
  mret (mkTokenPair access_token refresh_token (now + access_ttl)).

Definition find_user (email : string) (d : auth_db) : option user_row :=
  head (filter (fun u => us_email u = email) (db_users d)).

Definition login (email : string) (password : list Z) (ip_address : string) : M (pg auth_db) TokenPair :=
  row ← execute env (select (find_user email));
  match (row : option user_row) with
  | None =>
      _log_auth None None "user.login" RESULT_FAILURE ip_address
        [("email", MetaStr email); ("reason", MetaStr "no such user")] ;;
      raise (InvalidCredentialsError "invalid email or password")
  | Some u =>
      ok ← of_res (verify_password checkpw (us_password_hash u) password);
      if negb ok then
        _log_auth (Some (us_organization_id u)) (Some (us_id u)) "user.login" RESULT_FAILURE ip_address
          [("reason", MetaStr "bad password")] ;;
        raise (InvalidCredentialsError "invalid email or password")
      else if negb (us_is_active u) then
        _log_auth (Some (us_organization_id u)) (Some (us_id u)) "user.login" RESULT_FAILURE ip_address
          [("reason", MetaStr "inactive account")] ;;
        raise (UserInactiveError "user account is inactive")
      else
        roles ← _roles_for_user (us_id u);
        pair ← _issue_pair (us_id u) (us_organization_id u) email roles;
        _log_auth (Some (us_organization_id u)) (Some (us_id u)) "user.login" RESULT_SUCCESS ip_address
          [("roles", MetaList roles)] ;;
        mret pair
  end.

(** [parse_and_validate] of a refresh token, every error a [TokenRevokedError]. *)
Definition parse_refresh (token : string) : M (pg auth_db) Claims :=
  now ← read_clock;
  match parse_and_validate jwt_decode now token refresh_secret TOKEN_TYPE_REFRESH with
  | Ok claims => mret claims
  | Raise exc => raise (TokenRevokedError (exn_str exc))
  end.

Definition refresh_access_token (token ip_address : string) : M (pg auth_db) TokenPair :=
  claims ← parse_refresh token;
  deleted ← execute env (redis_delete (_refresh_redis_key (c_jti claims)));
  if bool_decide (deleted = 0) then
    _log_auth (Some (c_organization_id claims)) (Some (c_user_id claims)) "user.refresh_token_reuse"
      RESULT_FAILURE ip_address [("jti", MetaStr (c_jti claims))] ;;
    raise (TokenRevokedError "refresh token has been revoked or already used")
  else
    roles ← _roles_for_user (c_user_id claims);
    _issue_pair (c_user_id claims) (c_organization_id claims) (c_email claims) roles.

Definition logout (token ip_address : string) : M (pg auth_db) unit :=
  claims ← parse_refresh token;
  execute env (redis_delete (_refresh_redis_key (c_jti claims))) ;;
  _log_auth (Some (c_organization_id claims)) (Some (c_user_id claims)) "user.logout" RESULT_SUCCESS ip_address [].

End Service.

(** ** Lemmas on the permissions *)

Lemma add_permission_spec seen out perm seen' out' :
  (forall p, p ∈ seen <-> p ∈ out) -> NoDup out -> add_permission (seen, out) perm = (seen', out') ->
  (forall p, p ∈ seen' <-> p ∈ out') /\ NoDup out' /\ (forall p, p ∈ out' <-> p ∈ out \/ p = perm).
Proof.
  intros Hs Hnd. unfold add_permission. case_bool_decide as Hin; intros [= <- <-].
  - split_and!; [done | done |]. intros p. rewrite Hs in Hin. naive_solver.
  - split_and!.
    + intros p. rewrite elem_of_union, elem_of_singleton, elem_of_app, list_elem_of_singleton, Hs. tauto.
    + apply NoDup_app. split_and!; [done | | apply NoDup_singleton].
      intros x Hx ->%list_elem_of_singleton. apply Hin, Hs, Hx.
    + intros p. rewrite elem_of_app, list_elem_of_singleton. tauto.
Qed.

Lemma add_permissions_spec perms : forall seen out seen' out',
  (forall p, p ∈ seen <-> p ∈ out) -> NoDup out -> foldl add_permission (seen, out) perms = (seen', out') ->
  (forall p, p ∈ seen' <-> p ∈ out') /\ NoDup out' /\ (forall p, p ∈ out' <-> p ∈ out \/ p ∈ perms).
Proof.
  induction perms as [|perm perms IH]; intros seen out seen' out' Hs Hnd; cbn [foldl].
  - intros [= <- <-]. split_and!; [done | done |]. intros p. rewrite elem_of_nil. tauto.
  - destruct (add_permission (seen, out) perm) as [s1 o1] eqn:E. intros H.
    destruct (add_permission_spec _ _ _ _ _ Hs Hnd E) as (Hs1 & Hnd1 & Ho1).
    destruct (IH _ _ _ _ Hs1 Hnd1 H) as (Hs2 & Hnd2 & Ho2). split_and!; [done | done |].
    intros p. rewrite Ho2, Ho1, elem_of_cons. tauto.
Qed.

Lemma add_roles_spec roles : forall seen out seen' out',
  (forall p, p ∈ seen <-> p ∈ out) -> NoDup out -> foldl add_role (seen, out) roles = (seen', out') ->
  NoDup out' /\ (forall p, p ∈ out' <-> p ∈ out \/ exists r, r ∈ roles /\ p ∈ role_permissions r).
Proof.
  induction roles as [|r roles IH]; intros seen out seen' out' Hs Hnd; cbn [foldl].
  - intros [= <- <-]. split; [done|]. intros p. split; [tauto|].
    intros [? | (r & Hr%elem_of_nil & _)]; done.
  - destruct (add_role (seen, out) r) as [s1 o1] eqn:E. intros H.
    destruct (add_permissions_spec _ _ _ _ _ Hs Hnd E) as (Hs1 & Hnd1 & Ho1).
    destruct (IH _ _ _ _ Hs1 Hnd1 H) as (Hnd2 & Ho2). split; [done|].
    intros p. rewrite Ho2, Ho1. setoid_rewrite elem_of_cons. naive_solver.
Qed.

(** ** The refresh-token key stays absent *)

Section Absent.
  Context (env : pg_env auth_db) (key : string).

Definition absent (s : pg auth_db) : Prop := db_redis (pg_db s) !! key = None.

  (** The other clients do not create the key. *)
  Hypothesis others_absent : forall n d, db_redis d !! key = None -> db_redis (pg_others env n d) !! key = None.

Lemma absent_execute {A} (stmt : statement auth_db A) :
    (forall now uuid d, db_redis d !! key = None -> db_redis (snd (stmt now uuid d)) !! key = None) ->
    preserves absent (execute env stmt).
  Proof. intros H. apply (preserves_execute (fun d => db_redis d !! key = None)); auto. Qed.

Lemma absent_log org user action result ip meta :
    preserves absent (_log_auth env org user action result ip meta).
  Proof.
    apply preserves_try; [|intros; apply preserves_ret]. apply absent_execute. intros now uuid d Hd.
    unfold with_uuid_opt, with_uuid. repeat case_match; done.
  Qed.

Lemma absent_roles user : preserves absent (_roles_for_user env user).
  Proof. apply absent_execute. intros now uuid d Hd. unfold with_uuid. by case_match. Qed.

Lemma absent_delete key' : preserves absent (execute env (redis_delete key')).
  Proof.
    apply absent_execute. intros now uuid d Hd. unfold redis_delete.
    destruct (db_redis d !! key') as [[v ex]|]; [|done]. simpl. destruct (decide (key' = key)) as [->|].
    - apply lookup_delete_eq.
    - by rewrite lookup_delete_ne.
  Qed.

Lemma deleted_absent s r s' : execute env (redis_delete key) s = (Ok r, s') -> absent s'.
  Proof.
    unfold execute, redis_delete, absent. destruct (pg_fault env (pg_count s)) as [[k e]|].
    - by destruct (db_redis _ !! key) as [[v ex]|].
    - destruct (db_redis _ !! key) as [[v ex]|] eqn:E; intros [= <- <-]; simpl; [apply lookup_delete_eq | done].
  Qed.

Lemma delete_absent s r s' : absent s -> execute env (redis_delete key) s = (Ok r, s') -> r = 0.
  Proof.
    unfold absent, execute, redis_delete. intros Hs%(others_absent (pg_count s)). rewrite Hs.
    destruct (pg_fault env (pg_count s)) as [[k e]|]; [done|]. by intros [= <- <-].
  Qed.

Lemma absent_issue enc sa sr ta tr user org email roles :
    (forall n, _refresh_redis_key (pg_uuid env n) <> key) ->
    preserves absent (_issue_pair env enc sa sr ta tr user org email roles).
  Proof.
    intros Hf s Hs. unfold _issue_pair. do 4 (erewrite bind_ok by reflexivity).
    apply preserves_bind with (P := absent); [|intros; apply preserves_ret|exact Hs].
    apply absent_execute. intros now uuid d Hd. unfold redis_set_ex. case_match; [done|]. simpl.
    by rewrite lookup_insert_ne.
  Qed.

End Absent.

(** ** The requests of the service's clients *)

Inductive auth_op :=
  | ReqLogin (email : string) (password : list Z) (ip : string)
  | ReqRefresh (token ip : string)
  | ReqLogout (token ip : string).

Section Requests.
  Variable env : pg_env auth_db.
  Variable checkpw : list Z -> string -> res bool.
  Variable jwt_encode : payload -> string -> string.
  Variable jwt_decode : string -> string -> Z -> res payload.
  Variables access_secret refresh_secret : string.
  Variables access_ttl refresh_ttl : Z.

Definition serve (o : auth_op) : M (pg auth_db) unit :=
  try_except
    match o with
    | ReqLogin email password ip =>
        login env checkpw jwt_encode access_secret refresh_secret access_ttl refresh_ttl email password ip ;; mret tt
    | ReqRefresh token ip =>
        refresh_access_token env jwt_encode jwt_decode access_secret refresh_secret access_ttl refresh_ttl token ip ;;
        mret tt
    | ReqLogout token ip => logout env jwt_decode refresh_secret token ip
    end (fun _ => mret tt).

Lemma absent_parse key token : preserves (absent key) (parse_refresh env jwt_decode refresh_secret token).
  Proof.
    intros s Hs. unfold parse_refresh. erewrite bind_ok by reflexivity.
    by destruct (parse_and_validate _ _ _ _ _).
  Qed.

Lemma absent_serve key o :
    (forall n d, db_redis d !! key = None -> db_redis (pg_others env n d) !! key = None) ->
    (forall n, _refresh_redis_key (pg_uuid env n) <> key) ->
    preserves (absent key) (serve o).
  Proof.
    intros Ho Hf. apply preserves_try; [|intros; apply preserves_ret].
    destruct o as [email password ip | token ip | token ip]; simpl.
    - apply preserves_bind; [|intros; apply preserves_ret]. unfold login. apply preserves_bind.
      { apply absent_execute; auto. }
      intros [u|]; [|apply preserves_bind; [by apply absent_log | intros; apply preserves_raise]].
      apply preserves_bind; [by intros s|]. intros ok.
      destruct (negb ok); [apply preserves_bind; [by apply absent_log | intros; apply preserves_raise]|].
      destruct (negb _); [apply preserves_bind; [by apply absent_log | intros; apply preserves_raise]|].
      apply preserves_bind; [by apply absent_roles|]. intros roles.
      apply preserves_bind; [by apply absent_issue|]. intros pair.
      apply preserves_bind; [by apply absent_log | intros; apply preserves_ret].
    - apply preserves_bind; [|intros; apply preserves_ret]. unfold refresh_access_token.
      apply preserves_bind; [apply absent_parse|]. intros claims.
      apply preserves_bind; [by apply absent_delete|]. intros deleted. case_bool_decide.
      + apply preserves_bind; [by apply absent_log | intros; apply preserves_raise].
      + apply preserves_bind; [by apply absent_roles|]. intros roles. by apply absent_issue.
    - unfold logout. apply preserves_bind; [apply absent_parse|]. intros claims.
      apply preserves_bind; [by apply absent_delete|]. intros _. by apply absent_log.
  Qed.

  (** Where a refresh or a logout got past the token, the key is gone. *)
Lemma parse_refresh_jti token jti s claims s' :
    (forall now p, jwt_decode token refresh_secret now = Ok p -> default "" (pl_jti p) = jti) ->
    parse_refresh env jwt_decode refresh_secret token s = (Ok claims, s') ->
    c_jti claims = jti /\ pg_db s' = pg_db s.
  Proof.
    intros Hdec. unfold parse_refresh. erewrite bind_ok by reflexivity.
    unfold parse_and_validate. destruct (jwt_decode token refresh_secret _) as [p|] eqn:E; [|done].
    case_bool_decide; [done|]. intros [= <- <-]. split; [|done]. by apply (Hdec _ _ E).
  Qed.

End Requests.

(** ** A concrete token format for the witnesses *)

#[export] Instance payload_eq_dec : EqDecision payload.
Proof. solve_decision. Defined.

#[export] Instance payload_countable : Countable payload.
Proof.
  refine (inj_countable'
    (fun p => (pl_sub p, pl_jti p, pl_iat p, pl_exp p, pl_user_id p,
       (pl_organization_id p, pl_email p, pl_roles p, pl_permissions p, pl_token_type p)))
    (fun '(a, b, c, d, e, (f, g, h, i, j)) => Payload a b c d e f g h i j) _).
  by intros [].
Defined.

Fixpoint bits (p : positive) : string :=
  match p with xH => "" | xO p => String "0"%char (bits p) | xI p => String "1"%char (bits p) end.
Fixpoint unbits (s : string) : positive :=
  match s with EmptyString => xH | String c s => if Ascii.eqb c "0"%char then xO (unbits s) else xI (unbits s) end.

Lemma unbits_bits p : unbits (bits p) = p.
Proof. induction p as [p IH | p IH |]; simpl; by rewrite ?IH. Qed.

Definition demo_encode (p : payload) (secret : string) : string := bits (encode (p, secret)).
Definition demo_decode (token secret : string) (now : Z) : res payload :=
  match decode (A:=payload * string) (unbits token) with
  | Some (p, s) =>
      if bool_decide (s = secret /\ default 0 (pl_iat p) * microseconds <= now < default 0 (pl_exp p) * microseconds)
      then Ok p else Raise (OtherError "InvalidTokenError" "")
  | None => Raise (OtherError "DecodeError" "")
  end.

Lemma demo_decode_encode p secret now :
  demo_decode (demo_encode p secret) secret now =
  if bool_decide (default 0 (pl_iat p) * microseconds <= now < default 0 (pl_exp p) * microseconds)
  then Ok p else Raise (OtherError "InvalidTokenError" "").
Proof.
  unfold demo_decode, demo_encode. rewrite unbits_bits, decode_encode.
  repeat case_bool_decide; naive_solver.
Qed.

Lemma demo_roundtrip : jwt_roundtrip demo_encode demo_decode.
Proof.
  intros p secret now iat exp Hi He. rewrite demo_decode_encode, Hi, He. simpl. split.
  - intros. by rewrite bool_decide_true.
  - intros. rewrite bool_decide_false by lia. eauto.
Qed.

Definition demo_auth_env : pg_env auth_db :=
  PgEnv (fun _ => None) (fun _ d => d) (fun n => Z.of_nat n) (fun n => "u" +:+ pretty.pretty n) (fun s => Some s).

Definition demo_claims (ty : string) : Claims :=
  mkClaims "u" "org" "a@b" [ROLE_VIEWER] (permissions_for_roles [ROLE_VIEWER]) ty "jti" (Some 1500000) (Some 9500000).

(** ** Theorems *)

(** The permissions of a set of roles are the union of the roles' entries in
    [ROLE_PERMISSIONS], each once; so [has_permission] holds of exactly the
    permissions some role lists, and no role but [ADMIN] gives [system:admin]. *)
Theorem permissions_are_union (roles : list string) :
  NoDup (permissions_for_roles roles) /\
  (forall p, has_permission (permissions_for_roles roles) p = true <->
     exists r, r ∈ roles /\ p ∈ role_permissions r) /\
  (has_permission (permissions_for_roles roles) PERM_SYSTEM_ADMIN = true <-> ROLE_ADMIN ∈ roles).
Proof.
  unfold permissions_for_roles. destruct (foldl add_role (∅, []) roles) as [seen out] eqn:E. simpl.
  destruct (add_roles_spec roles ∅ [] seen out) as (Hnd & Hout); [set_solver | constructor | done |].
  assert (Hp : forall p, has_permission out p = true <-> exists r, r ∈ roles /\ p ∈ role_permissions r).
  { intros p. unfold has_permission. rewrite bool_decide_eq_true, Hout, elem_of_nil. tauto. }
  split_and!; [done | done |]. rewrite Hp. split.
  - intros (r & Hr & Hperm). unfold role_permissions in Hperm. simpl in Hperm.
    repeat case_bool_decide; subst; simpl in Hperm; [done | exfalso..];
      repeat (apply elem_of_cons in Hperm as [Hperm | Hperm]; [discriminate Hperm|]);
      by apply elem_of_nil in Hperm.
  - intros Hr. exists ROLE_ADMIN. split; [done|]. unfold role_permissions. simpl.
    apply (bool_decide_unpack _). by vm_compute.
Qed.

(** [C31] A token of this service parses back to the claims it was issued for
    (times floored to the second) exactly when the type asked for is its own,
    while it is valid; the other type is a [ValueError], and after its expiry it
    is refused whatever the type. *)
Theorem token_roundtrip_by_type (enc : payload -> string -> string) (dec : string -> string -> Z -> res payload)
    (claims : Claims) (secret ty : string) (issued expires now now' : Z) :
  jwt_roundtrip enc dec -> c_issued_at claims = Some issued -> c_expires_at claims = Some expires ->
  let floor t := t / microseconds * microseconds in
  let token := issue_token enc now claims secret in
  (floor issued <= now' -> now' < floor expires ->
   parse_and_validate dec now' token secret ty =
     if bool_decide (c_token_type claims = ty)
     then Ok (mkClaims (c_user_id claims) (c_organization_id claims) (c_email claims) (c_roles claims)
                (c_permissions claims) ty (c_jti claims) (Some (floor issued)) (Some (floor expires)))
     else Raise (ValueError ("expected token_type " +:+ repr_token_type (Some ty) +:+ ", got "
                             +:+ repr_token_type (Some (c_token_type claims))))) /\
  (floor expires <= now' -> exists e, parse_and_validate dec now' token secret ty = Raise e).
Proof.
  intros Hj Hi He floor token.
  destruct (Hj (token_payload now claims) secret now' (issued / microseconds) (expires / microseconds)) as [Hval Hexp];
    [unfold token_payload; simpl; by rewrite Hi | unfold token_payload; simpl; by rewrite He |].
  split.
  - intros Hfi Hfe. unfold parse_and_validate, token, issue_token. rewrite Hval by done. simpl.
    destruct (decide (c_token_type claims = ty)) as [->|Hne].
    + rewrite bool_decide_false by (intros []; done). rewrite bool_decide_true by done. by rewrite Hi, He.
    + rewrite bool_decide_true by congruence. rewrite bool_decide_false by done. reflexivity.
  - intros Hfe. unfold parse_and_validate, token, issue_token. destruct (Hexp Hfe) as [e ->]. eauto.
Qed.

Lemma token_roundtrip_by_type_witness :
  jwt_roundtrip demo_encode demo_decode /\
  exists e, parse_and_validate demo_decode 2000000
    (issue_token demo_encode 0 (demo_claims TOKEN_TYPE_ACCESS) "k") "k" TOKEN_TYPE_REFRESH = Raise e.
Proof.
  split; [exact demo_roundtrip|]. eexists.
  apply (proj1 (token_roundtrip_by_type demo_encode demo_decode (demo_claims TOKEN_TYPE_ACCESS) "k" TOKEN_TYPE_REFRESH
    1500000 9500000 0 2000000 demo_roundtrip eq_refl eq_refl)); vm_compute; congruence.
Defined.

(** [C8] A refresh token is redeemed at most once.  After a successful
    [refresh_access_token], whatever requests the service then serves and
    whatever commands fail, the same token is never accepted again (given that
    [uuid4] does not repeat its id and no other client creates its key). *)
Theorem refresh_token_single_use (env : pg_env auth_db) checkpw enc dec access refresh ta tr
    (token jti ip ip' : string) (s s' : pg auth_db) (pair : TokenPair) (ops : list auth_op) :
  (forall now p, dec token refresh now = Ok p -> default "" (pl_jti p) = jti) ->
  (forall n, pg_uuid env n <> jti) ->
  (forall n d, db_redis d !! _refresh_redis_key jti = None ->
     db_redis (pg_others env n d) !! _refresh_redis_key jti = None) ->
  refresh_access_token env enc dec access refresh ta tr token ip s = (Ok pair, s') ->
  is_ok (eval (refresh_access_token env enc dec access refresh ta tr token ip')
    (exec (for_each ops (serve env checkpw enc dec access refresh ta tr)) s')) = false.
Proof.
  intros Hdec Huuid Hothers Hok. set (key := _refresh_redis_key jti).
  assert (Hf : forall n, _refresh_redis_key (pg_uuid env n) <> key).
  { intros n Heq. apply (Huuid n). by apply string_app_inj_l in Heq. }
  assert (Hs' : absent key s').
  { unfold refresh_access_token, mbind, M_bind in Hok.
    destruct (parse_refresh env dec refresh token s) as [[claims|] s1] eqn:E1; [|done].
    destruct (parse_refresh_jti env dec refresh token jti s claims s1 Hdec E1) as [Hj _]. rewrite Hj in Hok.
    destruct (execute env (redis_delete (_refresh_redis_key jti)) s1) as [[r|] s2] eqn:E2; [|done].
    assert (H2 : absent key s2) by (by eapply deleted_absent).
    case_bool_decide.
    - assert (H3 := preserves_bind (absent key) _ (fun _ : unit => raise (A:=TokenPair)
        (TokenRevokedError "refresh token has been revoked or already used"))
        (absent_log env key Hothers (Some (c_organization_id claims)) (Some (c_user_id claims))
           "user.refresh_token_reuse" RESULT_FAILURE ip [("jti", MetaStr jti)])
        (fun _ => preserves_raise _ _) s2 H2).
      unfold mbind, M_bind in H3. rewrite Hok in H3. exact H3.
    - assert (H3 := preserves_bind (absent key) _ _ (absent_roles env key Hothers (c_user_id claims))
        (fun roles => absent_issue env key Hothers enc access refresh ta tr (c_user_id claims)
           (c_organization_id claims) (c_email claims) roles Hf) s2 H2).
      unfold mbind, M_bind in H3. rewrite Hok in H3. exact H3. }
  set (s3 := exec _ s').
  assert (H3 : absent key s3).
  { apply (preserves_for_each (absent key)); [|exact Hs']. intros o. by apply absent_serve. }
  unfold eval, refresh_access_token, mbind, M_bind.
  assert (H4 := absent_parse env dec refresh key token s3 H3).
  destruct (parse_refresh env dec refresh token s3) as [[claims|] s4] eqn:E4; [|done]. simpl in H4.
  destruct (parse_refresh_jti env dec refresh token jti s3 claims s4 Hdec E4) as [-> _].
  destruct (execute env (redis_delete (_refresh_redis_key jti)) s4) as [[r|] s5] eqn:E5; [|done].
  apply (delete_absent env key Hothers) in E5 as ->; [|done]. rewrite bool_decide_true by done.
  by destruct (_log_auth _ _ _ _ _ _ _ s5) as [[]].
Qed.

Definition demo_refresh_decode (token secret : string) (now : Z) : res payload :=
  if bool_decide (token = "tok")
  then Ok (token_payload 0 (demo_claims TOKEN_TYPE_REFRESH)) else Raise (OtherError "DecodeError" "").

Definition demo_auth_db : auth_db :=
  AuthDb [UserRow "u" "org" "a@b" "hash" true] [("u", ROLE_VIEWER)] []
    {[ "refresh_token:jti" := ("u", 9000000) ]}.

(** The second redemption and a login in between. *)
Lemma refresh_token_single_use_witness :
  is_ok (eval (refresh_access_token demo_auth_env (fun _ _ => "new") demo_refresh_decode "a" "r" 1000000 2000000
                 "tok" "ip") (Pg 0 demo_auth_db)) = true /\
  is_ok (eval (refresh_access_token demo_auth_env (fun _ _ => "new") demo_refresh_decode "a" "r" 1000000 2000000
                 "tok" "ip'")
    (exec (for_each [ReqLogin "a@b" [97] "ip"]
             (serve demo_auth_env (fun _ _ => Ok true) (fun _ _ => "new") demo_refresh_decode "a" "r" 1000000 2000000))
       (exec (refresh_access_token demo_auth_env (fun _ _ => "new") demo_refresh_decode "a" "r" 1000000 2000000
                "tok" "ip") (Pg 0 demo_auth_db)))) = false.
Proof.
  split; [by vm_compute|].
  eapply (refresh_token_single_use demo_auth_env (fun _ _ => Ok true) (fun _ _ => "new") demo_refresh_decode "a" "r"
    1000000 2000000 "tok" "jti" "ip" "ip'" (Pg 0 demo_auth_db)).
  - intros now p. unfold demo_refresh_decode. rewrite bool_decide_true by done. by intros [= <-].
  - intros n. done.
  - done.
  - apply run_eq; by vm_compute.
Defined.

(** [login], when nothing fails: an unknown email and a wrong password raise
    the same error, an inactive account its own, each with one audit row that
    names the reason; a valid login stores the refresh token's id in Redis for
    the refresh lifetime, audits the success, and returns tokens that carry the
    user's identity, roles and the union of the roles' permissions. *)
Theorem login_decision (env : pg_env auth_db) checkpw enc access refresh ta tr (email ip : string)
    (password : list Z) (s : pg auth_db) :
  quiet env -> microseconds <= tr ->
  Forall (fun u => pg_uuid_in env (us_id u) = Some (us_id u) /\ pg_uuid_in env (us_organization_id u) <> None)
    (db_users (pg_db s)) ->
  let d := pg_db s in
  let n := pg_count s in
  let audit org user result meta :=
    mkEntry "user.login" "user" result org user None (null_if_empty ip) None meta in
  let logged e d := set_audit_logs (db_audit_logs d ++ [e]) d in
  let invalid := Raise (InvalidCredentialsError "invalid email or password") in
  let '(r, s') := login env checkpw enc access refresh ta tr email password ip s in
  match find_user email d with
  | None =>
      r = invalid /\
      pg_db s' = logged (audit None None RESULT_FAILURE [("email", MetaStr email); ("reason", MetaStr "no such user")]) d
  | Some u =>
      let who := audit (Some (us_organization_id u)) (Some (us_id u)) in
      match verify_password checkpw (us_password_hash u) password with
      | Raise e => r = Raise e /\ pg_db s' = d
      | Ok false => r = invalid /\ pg_db s' = logged (who RESULT_FAILURE [("reason", MetaStr "bad password")]) d
      | Ok true =>
          if us_is_active u then
            let roles := snd <$> filter (fun x => fst x = us_id u) (db_user_roles d) in
            let claims k ty ttl :=
              mkClaims (us_id u) (us_organization_id u) email roles (permissions_for_roles roles) ty
                (pg_uuid env (n + k)) (Some (pg_now env (n + k + 1))) (Some (pg_now env (n + k + 1) + ttl)) in
            r = Ok (mkTokenPair (enc (token_payload 0 (claims 2%nat TOKEN_TYPE_ACCESS ta)) access)
                      (enc (token_payload 0 (claims 4%nat TOKEN_TYPE_REFRESH tr)) refresh) (pg_now env (n + 3) + ta)) /\
            pg_db s' = logged (who RESULT_SUCCESS [("roles", MetaList roles)])
              (set_redis (<[_refresh_redis_key (pg_uuid env (n + 4)) :=
                 (us_id u, pg_now env (n + 6) + tr / microseconds * microseconds)]> (db_redis d)) d)
          else r = Raise (UserInactiveError "user account is inactive") /\
               pg_db s' = logged (who RESULT_FAILURE [("reason", MetaStr "inactive account")]) d
      end
  end.
Proof.
  intros Hq Htr Husers d n audit logged invalid. unfold login.
  assert (Hlog : forall org user result meta s0,
      (match org with Some o => pg_uuid_in env o <> None | None => True end) ->
      (match user with Some u => pg_uuid_in env u <> None | None => True end) ->
      _log_auth env org user "user.login" result ip meta s0 =
      (Ok tt, Pg (S (pg_count s0)) (logged (audit org user result meta) (pg_db s0)))).
  { intros org user result meta s0 Ho Hu. unfold _log_auth, try_except, audit_log. rewrite execute_quiet by done.
    unfold with_uuid_opt, with_uuid. simpl.
    destruct org as [o|]; [destruct (pg_uuid_in env o); [|done]|];
      (destruct user as [u|]; [destruct (pg_uuid_in env u); [|done]|]); done. }
  erewrite bind_ok by (rewrite execute_quiet by done; reflexivity). fold d n.
  destruct (find_user email d) as [u|] eqn:Hu; [|by erewrite bind_ok by (by apply Hlog)].
  assert (Hids : pg_uuid_in env (us_id u) = Some (us_id u) /\ pg_uuid_in env (us_organization_id u) <> None).
  { unfold find_user in Hu. apply head_Some_elem_of, list_elem_of_filter in Hu as [_ Hu].
    by apply (proj1 (Forall_forall _ _) Husers). }
  destruct Hids as [Hid Horg]. unfold of_res.
  destruct (verify_password checkpw (us_password_hash u) password) as [[]|e]; [| |done];
    erewrite bind_ok by reflexivity; cbn [negb].
  - destruct (us_is_active u); cbn [negb]; [|by erewrite bind_ok by (apply Hlog; [done | congruence])].
    erewrite bind_ok by (unfold _roles_for_user; rewrite execute_quiet by done; unfold with_uuid; rewrite Hid; reflexivity).
    unfold _issue_pair. cbn [pg_count pg_db]. cbv zeta beta.
    rewrite <- !plus_n_Sm, !Nat.add_0_r.
    erewrite bind_ok; cycle 1.
    { do 4 (erewrite bind_ok by reflexivity). cbn [pg_count pg_db].
      erewrite bind_ok; [reflexivity|]. rewrite execute_quiet by done. unfold redis_set_ex.
      rewrite (proj2 (Z.leb_gt (tr / microseconds) 0)); [reflexivity|].
      apply Z.lt_le_trans with 1; [done|]. apply Z.div_le_lower_bound; [done | lia]. }
    erewrite bind_ok by (apply Hlog; [done | congruence]).
    done.
  - by erewrite bind_ok by (apply Hlog; [done | congruence]).
Qed.

Lemma login_decision_witness :
  eval (login demo_auth_env (fun _ _ => Ok false) (fun _ _ => "t") "a" "r" 1000000 1000000 "a@b" [97] "ip")
    (Pg 0 demo_auth_db) = Raise (InvalidCredentialsError "invalid email or password").
Proof.
  assert (H := login_decision demo_auth_env (fun _ _ => Ok false) (fun _ _ => "t") "a" "r" 1000000 1000000 "a@b" "ip" [97]
    (Pg 0 demo_auth_db)).
  assert (Hu : Forall (fun u => pg_uuid_in demo_auth_env (us_id u) = Some (us_id u) /\
      pg_uuid_in demo_auth_env (us_organization_id u) <> None) (db_users demo_auth_db)) by (repeat constructor; done).
  specialize (H ltac:(done) ltac:(done) Hu). cbn zeta in H. unfold eval. vm_compute in H |- *. exact (proj1 H).
Defined.
