(* ===== verification/Events.v ===== *)
(** [shared/events.py]: the messages the services exchange, and Python's
    datetimes as far as the services compare and subtract them.  A datetime
    without a time zone cannot be compared with one that has it, which the wire
    format allows.  [pydantic] (parsing and dumping) is a parameter of the models
    that use these types. *)

From stdpp Require Import prelude strings.
From Stdlib Require Import ZArith Lia SpecFloat.
From S2P Require Import Prelude PyFloat Effects.

Local Open Scope Z_scope.

(** ** Datetimes *)

(** Microseconds since the epoch, or (no time zone) since its wall-clock reading. *)
Inductive datetime := Aware (us : Z) | Naive (us : Z).

#[export] Instance datetime_eq_dec : EqDecision datetime.
Proof. solve_decision. Defined.

(** A field of type [datetime | None]. *)
Abbreviation timestamp := (option datetime).

(** 0001-01-01 and the last microsecond of 9999. *)
Definition datetime_min : Z := -62135596800000000.
Definition datetime_max : Z := 253402300799999999.

Definition in_range (us : Z) : bool := (datetime_min <=? us) && (us <=? datetime_max).

(** [timedelta(seconds=n)] for whole [n]. *)
Definition seconds (n : Z) : Z := n * 1000000.

(** [a < b] on two fields. *)
Definition dt_lt (a b : timestamp) : res bool :=
  match a, b with
  | Some (Aware x), Some (Aware y) | Some (Naive x), Some (Naive y) => Ok (x <? y)
  | Some _, Some _ => Raise (TypeError "can't compare offset-naive and offset-aware datetimes")
  | _, _ => Raise (TypeError "'<' not supported between instances")
  end.

(** [a > b] and [a >= b]. *)
Definition dt_gt (a b : timestamp) : res bool := dt_lt b a.
Definition dt_ge (a b : timestamp) : res bool :=
  match dt_lt a b with Ok r => Ok (negb r) | Raise e => Raise e end.

(** [a - timedelta]. *)
Definition dt_minus (a : timestamp) (us : Z) : res timestamp :=
  match a with
  | Some (Aware x) => if in_range (x - us) then Ok (Some (Aware (x - us)))
                      else Raise (OtherError "OverflowError" "date value out of range")
  | Some (Naive x) => if in_range (x - us) then Ok (Some (Naive (x - us)))
                      else Raise (OtherError "OverflowError" "date value out of range")
  | None => Raise (TypeError "unsupported operand type(s) for -")
  end.

(** [(a - b)] in microseconds. *)
Definition dt_diff (a b : timestamp) : res Z :=
  match a, b with
  | Some (Aware x), Some (Aware y) | Some (Naive x), Some (Naive y) => Ok (x - y)
  | Some _, Some _ => Raise (TypeError "can't subtract offset-naive and offset-aware datetimes")
  | _, _ => Raise (TypeError "unsupported operand type(s) for -")
  end.

(** [td.total_seconds()]: microseconds divided by a million, correctly rounded. *)
Definition total_seconds (us : Z) : float := SFdiv prec emax (float_of_Z us) (float_of_Z 1000000).

(** ** Constants *)

Definition VALID_METRICS : list string :=
  ["temperature"; "vibration"; "pressure"; "rpm"; "current"; "voltage"; "power"; "humidity"; "acoustic_level"].

Definition SCHEMA_VERSION : Z := 1.

Definition ERROR_TYPE_VALIDATION : string := "VALIDATION_ERROR".
Definition ERROR_TYPE_TRANSIENT : string := "TRANSIENT_ERROR".

Definition SEVERITY_INFO : string := "INFO".
Definition SEVERITY_WARNING : string := "WARNING".
Definition SEVERITY_HIGH : string := "HIGH".
Definition SEVERITY_CRITICAL : string := "CRITICAL".

Definition ALERT_STATUS_OPEN : string := "OPEN".
Definition ALERT_STATUS_ACKNOWLEDGED : string := "ACKNOWLEDGED".
Definition ALERT_STATUS_SUPPRESSED : string := "SUPPRESSED".
Definition ALERT_STATUS_RESOLVED : string := "RESOLVED".

Definition ALERT_EVENT_CREATED : string := "CREATED".
Definition ALERT_EVENT_ESCALATED : string := "ESCALATED".
Definition ALERT_EVENT_RESOLVED : string := "RESOLVED".

(** ** Messages *)

Record TelemetryEvent := mkTelemetryEvent {
  te_event_id : string; te_organization_id : string; te_factory_id : string;
  te_production_line_id : string; te_machine_id : string; te_device_id : string; te_sensor_id : string;
  te_timestamp : timestamp; te_sequence_number : Z; te_metric : string; te_value : float; te_unit : string
}.

(** The fields [NormalizedTelemetryEvent] adds to its base class. *)
Record NormalizedTelemetryEvent := mkNormalizedTelemetryEvent {
  nt_event : TelemetryEvent;
  nt_correlation_id : string; nt_ingested_at : datetime; nt_schema_version : Z
}.

Record MachineStatusEvent := mkMachineStatusEvent {
  ms_organization_id : string; ms_factory_id : string; ms_machine_id : string;
  ms_status : string; ms_timestamp : timestamp
}.

Record MachineEvent := mkMachineEvent {
  me_organization_id : string; me_factory_id : string; me_machine_id : string;
  me_device_id : string; me_sensor_id : string; me_status : string; me_event_type : string;
  me_timestamp : timestamp
}.

Record NormalizedMachineEvent := mkNormalizedMachineEvent {
  nm_event : MachineEvent;
  nm_correlation_id : string; nm_ingested_at : datetime; nm_schema_version : Z
}.

(** A JSON object's values, as far as [MachineEvent] has them; [isoformat] is
    [pydantic]'s rendering of a datetime. *)
Inductive jvalue := JStr (s : string) | JTime (t : datetime) | JInt (n : Z) | JNull.

(** [bool(value)] of a value [model_dump] returns. *)
Definition truthy (v : jvalue) : bool :=
  match v with JStr s => negb (bool_decide (s = "")) | JTime _ => true | JInt n => negb (n =? 0) | JNull => false end.

Definition jtime (t : timestamp) : jvalue := match t with Some t => JTime t | None => JNull end.

(** [model_dump(mode="json")]: fields in the order of their declaration. *)
Definition machine_event_fields (e : MachineEvent) : list (string * jvalue) :=
  [("organization_id", JStr (me_organization_id e)); ("factory_id", JStr (me_factory_id e));
   ("machine_id", JStr (me_machine_id e)); ("device_id", JStr (me_device_id e));
   ("sensor_id", JStr (me_sensor_id e)); ("status", JStr (me_status e));
   ("event_type", JStr (me_event_type e)); ("timestamp", jtime (me_timestamp e))].

Definition normalized_machine_event_fields (e : NormalizedMachineEvent) : list (string * jvalue) :=
  machine_event_fields (nm_event e) ++
  [("correlation_id", JStr (nm_correlation_id e)); ("ingested_at", JTime (nm_ingested_at e));
   ("schema_version", JInt (nm_schema_version e))].

(** The loop of [MachineEvent.model_dump_json]: [d.pop] of the optional fields
    that are falsy, before [json.dumps]. *)
Definition optional_fields : list string := ["device_id"; "sensor_id"; "status"; "event_type"].

Definition pop_falsy (d : list (string * jvalue)) (field : string) : list (string * jvalue) :=
  match dict_get d field with
  | Some v => if truthy v then d else filter (fun kv => fst kv <> field) d
  | None => d
  end.

Definition omit_empty (d : list (string * jvalue)) : list (string * jvalue) := foldl pop_falsy d optional_fields.

Record DeadLetterRecord := mkDeadLetterRecord {
  dl_original_payload : string; dl_error : string; dl_error_type : string; dl_service : string;
  dl_processing_stage : string; dl_retry_count : Z; dl_timestamp : datetime;
  dl_correlation_id : string; dl_source_topic : string
}.

Record AnomalyDetected := mkAnomalyDetected {
  ad_anomaly_id : string; ad_event_id : string; ad_organization_id : string; ad_factory_id : string;
  ad_production_line_id : string; ad_machine_id : string; ad_device_id : string; ad_sensor_id : string;
  ad_metric : string; ad_value : float; ad_severity : string; ad_score : float;
  ad_methods : list string; ad_reason : string; ad_detected_at : datetime
}.

Record AlertEvent := mkAlertEvent {
  ae_alert_id : string; ae_event_type : string; ae_organization_id : string; ae_alert_rule_id : string;
  ae_factory_id : string; ae_machine_id : string; ae_device_id : string; ae_sensor_id : string;
  ae_severity : string; ae_status : string; ae_title : string; ae_description : string;
  ae_escalation_level : Z; ae_triggered_at : datetime; ae_timestamp : datetime
}.

(** ** Lemmas *)

#[export] Instance jvalue_eq_dec : EqDecision jvalue.
Proof. solve_decision. Defined.

(** The wire format of a machine event: every field but the optional ones that
    are empty, in the order of their declaration. *)
Lemma omit_empty_fields (e : NormalizedMachineEvent) :
  omit_empty (normalized_machine_event_fields e) =
  filter (fun kv => fst kv ∈ optional_fields -> snd kv <> JStr "") (normalized_machine_event_fields e).
Proof.
  destruct e as [[org fac mac dev sen sta ety ts] cid ing ver].
  unfold omit_empty, optional_fields, pop_falsy, normalized_machine_event_fields, machine_event_fields. simpl.
  destruct dev, sen, sta, ety; simpl; repeat case_decide; simpl; try done; set_solver.
Qed.
