(* ===== verification/Kafka.v ===== *)
(** The Kafka side the services share: [produce_and_wait] and [protected_write]
    (the same code in [ingestion/kafka_producer.py], [stream-processor/kafka_io.py],
    [anomaly-detector/kafka_io.py] and, without the breaker,
    [alert-service/kafka_io.py]), the consumer's [lag], and the poll / process /
    commit loop.  librdkafka and the broker are an oracle: what the n-th produce
    call meets. *)

From stdpp Require Import prelude strings pretty gmap.
From Stdlib Require Import ZArith Lia.
From S2P Require Import Prelude PyFloat Effects Reliability Events.

Local Open Scope Z_scope.

(** ** Producing *)

(** What happens to one produce call: [produce] raises; how many messages are
    outstanding when [flush] returns; what the delivery callback was given
    ([None]: it was not called); whether the broker stored the message. *)
Record delivery := Delivery {
  dv_produce : option exn;
  dv_remaining : Z;
  dv_err : option (option string);
  dv_stored : bool
}.

Record message := Message { mg_topic : string; mg_key : string; mg_value : string }.

#[export] Instance message_eq_dec : EqDecision message.
Proof. solve_decision. Defined.

(** How many messages were produced, and what the broker stored, in order. *)
Record kafka := Kafka { kf_calls : nat; kf_log : list message }.

Section Producer.
  Variable broker : nat -> delivery.

Definition produce_and_wait (topic key value : string) : M kafka unit := fun k =>
  let d := broker (kf_calls k) in
  let k' := Kafka (S (kf_calls k)) (if dv_stored d then kf_log k ++ [Message topic key value] else kf_log k) in
  match dv_produce d with
  | Some e => (Raise e, k')
  | None =>
      if 0 <? dv_remaining d then
        (Raise (KafkaPublishError ("kafka produce to " +:+ topic +:+ " timed out waiting for delivery ("
                  +:+ pretty (dv_remaining d) +:+ " message(s) still outstanding)")), k')
      else match dv_err d with
           | Some (Some err) => (Raise (KafkaPublishError ("kafka produce to " +:+ topic +:+ " failed: " +:+ err)), k')
           | _ => (Ok tt, k')
           end
  end.

(** librdkafka with [acks=all]: when nothing is outstanding after [flush] the
    callback of the message has run, and without an error it was stored. *)
Definition acks_all : Prop := forall n,
  dv_produce (broker n) = None -> dv_remaining (broker n) <= 0 ->
  match dv_err (broker n) with
  | None => False
  | Some None => dv_stored (broker n) = true
  | Some (Some _) => True
  end.

Lemma produce_ok topic key value k k' :
  acks_all -> produce_and_wait topic key value k = (Ok tt, k') ->
  kf_log k' = kf_log k ++ [Message topic key value].
Proof.
  intros Hacks. unfold produce_and_wait. specialize (Hacks (kf_calls k)).
  destruct (dv_produce _); [done|]. destruct (Z.ltb_spec 0 (dv_remaining (broker (kf_calls k)))); [done|].
  specialize (Hacks eq_refl ltac:(lia)). destruct (dv_err _) as [[err|]|]; [done | | done].
  rewrite Hacks. by intros [= <-].
Qed.

(** A broker that stores and confirms every message. *)
Definition delivers : Prop := forall n,
  dv_produce (broker n) = None /\ dv_remaining (broker n) = 0 /\ dv_err (broker n) = Some None /\ dv_stored (broker n) = true.

Lemma delivers_acks : delivers -> acks_all.
Proof. intros Hd n _ _. by destruct (Hd n) as (_ & _ & -> & ->). Qed.

Lemma produce_delivers topic key value k : delivers ->
  produce_and_wait topic key value k = (Ok tt, Kafka (S (kf_calls k)) (kf_log k ++ [Message topic key value])).
Proof. intros Hd. unfold produce_and_wait. by destruct (Hd (kf_calls k)) as (-> & -> & -> & ->). Qed.

(** The log is never rewritten. *)
Definition log_grows (k k' : kafka) : Prop := kf_log k `prefix_of` kf_log k'.

#[export] Instance log_grows_preorder : PreOrder log_grows.
Proof. split; [intros k; unfold log_grows; reflexivity | intros k1 k2 k3; unfold log_grows; apply transitivity]. Qed.

Lemma produce_grows topic key value : moves log_grows (produce_and_wait topic key value).
Proof.
  intros k. unfold produce_and_wait, log_grows.
  repeat case_match; simpl; try done; by apply prefix_app_r.
Qed.

End Producer.

(** ** Publishing behind the breaker *)

Section Publishing.
  Context {S : Type} `{Part S breaker} `{Part S kafka}.
  Variable broker : nat -> delivery.
  Variable clock : S -> float.
  Variable sleep : float -> M S unit.

(** [protected_write(topic, lambda: produce_and_wait(producer, topic, key, payload, headers))]. *)
Definition protected_write (max_retries : Z) (delay : float) (topic key value : string) : M S unit :=
  protected clock sleep max_retries delay
    (KafkaPublishError ("circuit breaker open for kafka topic " +:+ topic))
    (lift (produce_and_wait broker topic key value)).

(** Success means the broker has the message, when the two parts are separate. *)
Lemma protected_write_stored (max : Z) delay topic key value s s' :
  (forall (b : breaker) s, part_get (T:=kafka) (part_set b s) = part_get s) ->
  acks_all broker -> protected_write max delay topic key value s = (Ok tt, s') ->
  Message topic key value ∈ kf_log (part_get s').
Proof.
  intros Hsep Hacks Hok. unfold protected_write in Hok.
  destruct (protected_ok_inv _ _ _ _ _ _ _ _ Hok) as (s1 & s2 & H2 & ->). rewrite Hsep. unfold lift in H2.
  destruct (produce_and_wait _ _ _ _ _) as [r k'] eqn:E. injection H2 as -> <-. rewrite part_get_set.
  rewrite (produce_ok broker _ _ _ _ _ Hacks E). apply elem_of_app. right. by apply list_elem_of_singleton.
Qed.

(** With the broker up and the breaker CLOSED the message is stored at once. *)
Lemma protected_write_delivers (max : Z) delay topic key value s :
  (forall (k : kafka) s, part_get (T:=breaker) (part_set k s) = part_get s) ->
  (forall (b : breaker) s, part_get (T:=kafka) (part_set b s) = part_get s) ->
  delivers broker -> br_state (part_get s) = CLOSED -> 0 < max ->
  exists s', protected_write max delay topic key value s = (Ok tt, s') /\
    kf_log (part_get s') = kf_log (part_get s) ++ [Message topic key value] /\ br_state (part_get s') = CLOSED.
Proof.
  intros Hkb Hbk Hd Hc Hmax. eexists. split.
  - apply protected_succeeds; [exact Hc | exact Hmax|]. unfold lift. by rewrite produce_delivers.
  - by rewrite Hbk, !part_get_set.
Qed.

Lemma moves_protected_write (R : S -> S -> Prop) `{!PreOrder R} (max : Z) delay topic key value :
  (forall (b : breaker) s, R s (part_set b s)) ->
  (forall (k : kafka) s, log_grows (part_get s) k -> R s (part_set k s)) ->
  (forall d, moves R (sleep d)) ->
  moves R (protected_write max delay topic key value).
Proof.
  intros Hb Hk Hs. apply moves_protected; [done..|]. intros s. unfold lift.
  pose proof (produce_grows broker topic key value (part_get s)) as Hg.
  destruct (produce_and_wait _ _ _ _ _) as [r k']. by apply Hk.
Qed.

End Publishing.

(** ** Prometheus counters *)

(** Counters by name, then label. *)
Record metrics := Metrics { mt_counters : gmap string Z }.

Definition counter (m : metrics) (name : string) : Z := default 0 (mt_counters m !! name).

Definition inc_by {S} `{Part S metrics} (name : string) (n : Z) : M S unit :=
  lift (modify (fun m => Metrics (<[name := counter m name + n]> (mt_counters m)))).
Definition inc {S} `{Part S metrics} (name : string) : M S unit := inc_by name 1.

(** The stream processor's and the detector's [_consume_loop] observe how long
    [_process_message] took, once it returned: the histogram's count. *)
Definition timed {S} `{Part S metrics} {A} (m : M S A) : M S A :=
  a ← m; inc "processing_latency_seconds" ;; mret a.

Lemma timed_raise {S} `{Part S metrics} {A} (m : M S A) s e : eval m s = Raise e -> timed m s = (Raise e, exec m s).
Proof. intros H1%run_eq. unfold timed, mbind, M_bind. by rewrite H1. Qed.

(** ** The consumer's lag *)

(** A partition with its position. *)
Record partition := Partition { tp_id : Z; tp_offset : Z }.

Definition is_kafka_exception (e : exn) : bool :=
  match e with OtherError c _ => bool_decide (c = "KafkaException") | _ => false end.

Section Lag.
  (** [get_watermark_offsets(tp)]: low and high, or [None]. *)
  Variable watermarks : partition -> res (option (Z * Z)).

Fixpoint lag_loop (total : Z) (positions : list partition) : res Z :=
  match positions with
  | [] => Ok total
  | tp :: positions =>
      if tp_offset tp <? 0 then lag_loop total positions
      else match watermarks tp with
           | Raise e => Raise e
           | Ok None => lag_loop total positions
           | Ok (Some (_, high)) => lag_loop (total + Z.max 0 (high - tp_offset tp)) positions
           end
  end.

(** [assignment] and [position], each of which may raise. *)
Definition lag (assignment : res (list partition)) (position : list partition -> res (list partition)) : res Z :=
  match assignment with
  | Raise e => if is_kafka_exception e then Ok 0 else Raise e
  | Ok [] => Ok 0
  | Ok assigned =>
      match position assigned with
      | Raise e => if is_kafka_exception e then Ok 0 else Raise e
      | Ok positions => lag_loop 0 positions
      end
  end.

End Lag.

(** ** Poll, process, commit *)

(** A fetched message: its offset in the partition and its value. *)
Record fetched := Fetched { ft_offset : Z; ft_value : string }.

(** What one [poll] meets; with a message, the error of its [commit]. *)
Inductive poll_event :=
  | PollError
  | PollNone
  | PollMessage (m : fetched) (commit_error : option exn).

Section ConsumeLoop.
  Context {S : Type}.
  (** [_process_message]: whether to commit. *)
  Variable process : fetched -> M S bool.

(** The service's state, and the offset the group's next member starts from. *)
Definition on_service {A} (m : M S A) : M (S * Z) A := fun s =>
  let '(r, s1) := m (fst s) in (r, (s1, snd s)).
Definition set_committed (o : Z) : M (S * Z) unit := fun s => (Ok tt, (fst s, o)).

(** [kio.commit(msg)], with the [except KafkaException]. *)
Definition commit (m : fetched) (error : option exn) : M (S * Z) unit :=
  match error with
  | None => set_committed (ft_offset m + 1)
  | Some e => if is_kafka_exception e then mret tt else raise e
  end.

(** The iterations of [while not shutdown_event.is_set()]. *)
Fixpoint consume_loop (events : list poll_event) : M (S * Z) unit :=
  match events with
  | [] => mret tt
  | (PollError | PollNone) :: events => consume_loop events
  | PollMessage m error :: events =>
      should_commit ← on_service (process m);
      (if (should_commit : bool) then commit m error else mret tt) ;;
      consume_loop events
  end.

End ConsumeLoop.

(** ** Lemmas on the loop and the lag *)

Lemma lag_loop_nonneg watermarks total positions r :
  0 <= total -> lag_loop watermarks total positions = Ok r -> total <= r.
Proof.
  revert total. induction positions as [|tp ps IH]; intros total Ht; simpl; [intros [= <-]; lia|].
  destruct (_ <? 0); [by apply IH|]. destruct (watermarks tp) as [[[low high]|]|]; [| by apply IH | done].
  intros Hr. apply IH in Hr; lia.
Qed.

Lemma consume_loop_app {S} (process : fetched -> M S bool) evs evs' s :
  consume_loop process (evs ++ evs') s =
  match consume_loop process evs s with
  | (Ok _, s') => consume_loop process evs' s'
  | (Raise e, s') => (Raise e, s')
  end.
Proof.
  revert s. induction evs as [|[| |m err] evs IH]; intros s; simpl; [done | apply IH | apply IH |].
  unfold mbind, M_bind. destruct (on_service (process m) s) as [[b|e] s1]; [|done].
  destruct ((if b then commit m err else mret tt) s1) as [[[]|e] s2]; [apply IH | done].
Qed.
