(* ===== verification/Ingestion.v ===== *)
(** [services/ingestion]: validation ([validate.py]), publishing with dead
    letters ([kafka_producer.py]), the handlers and the worker ([main.py]), and
    the bounded queue between the MQTT callback and the workers
    ([mqtt_client.py]). *)

From stdpp Require Import prelude strings pretty gmap.
From Stdlib Require Import ZArith Lia Ascii.
From S2P Require Import Prelude PyFloat Effects PyStr Reliability Events Kafka.

Local Open Scope Z_scope.

(** ** [validate.py] *)

Section Validate.
  (** [repr(text)], and the text of the [ValueError] of [uuid.UUID(text)]. *)
  Variables repr uuid_error : string -> string.

Definition require_uuid (field value : string) : res unit :=
  if bool_decide (value = "") then Raise (ValueError (field +:+ " must not be empty"))
  else match uuid_of_string value with
       | Some _ => Ok tt
       | None => Raise (ValueError (field +:+ " " +:+ repr value +:+ " is not a valid UUID: " +:+ uuid_error value))
       end.

(** A check, and the ones after it when it passes. *)
Definition andthen (a b : res unit) : res unit := match a with Ok _ => b | Raise e => Raise e end.
Definition check (bad : bool) (msg : string) : res unit := if bad then Raise (ValueError msg) else Ok tt.

(** [str] of a float in a message: only infinities and NaN get there. *)
Definition nonfinite_str (x : float) : string :=
  if is_nan x then "nan" else if fltb x fzero then "-inf" else "inf".

Definition validate_telemetry (evt : TelemetryEvent) : res unit :=
  andthen (require_uuid "event_id" (te_event_id evt))
  (andthen (require_uuid "organization_id" (te_organization_id evt))
  (andthen (require_uuid "factory_id" (te_factory_id evt))
  (andthen (require_uuid "production_line_id" (te_production_line_id evt))
  (andthen (require_uuid "machine_id" (te_machine_id evt))
  (andthen (require_uuid "device_id" (te_device_id evt))
  (andthen (require_uuid "sensor_id" (te_sensor_id evt))
  (andthen (check (bool_decide (te_timestamp evt = None)) "timestamp must not be empty")
  (andthen (check (te_sequence_number evt =? 0) "sequence_number must be present and greater than zero")
  (andthen (check (negb (bool_decide (te_metric evt ∈ VALID_METRICS)))
              ("metric " +:+ repr (te_metric evt) +:+ " is not a recognized sensor metric"))
  (andthen (check (is_nan (te_value evt) || is_inf (te_value evt))
              ("value must be a finite number, got " +:+ nonfinite_str (te_value evt)))
  (check (bool_decide (te_unit evt = "")) "unit must not be empty"))))))))))).

Definition validate_machine_event (evt : MachineEvent) : res unit :=
  andthen (require_uuid "organization_id" (me_organization_id evt))
  (andthen (require_uuid "factory_id" (me_factory_id evt))
  (andthen (require_uuid "machine_id" (me_machine_id evt))
  (andthen (check (bool_decide (me_timestamp evt = None)) "timestamp must not be empty")
  (check (bool_decide (me_status evt = "") && bool_decide (me_event_type evt = ""))
     "machine event must set either status or event_type")))).

Lemma require_uuid_ok field value : require_uuid field value = Ok tt <-> is_Some (uuid_of_string value).
Proof.
  unfold require_uuid. case_bool_decide as Hv; [subst; vm_compute; split; [done | by intros []]|].
  destruct (uuid_of_string value); split; intros Hu; done || (by eexists) || (by destruct Hu).
Qed.

End Validate.

Lemma andthen_ok a b : andthen a b = Ok tt <-> a = Ok tt /\ b = Ok tt.
Proof. destruct a as [[]|]; simpl; naive_solver. Qed.

Lemma check_ok bad msg : check bad msg = Ok tt <-> bad = false.
Proof. destruct bad; simpl; naive_solver. Qed.

(** The events that pass. *)
Definition telemetry_valid (evt : TelemetryEvent) : Prop :=
  Forall (fun id => is_Some (uuid_of_string id))
    [te_event_id evt; te_organization_id evt; te_factory_id evt; te_production_line_id evt;
     te_machine_id evt; te_device_id evt; te_sensor_id evt] /\
  te_timestamp evt <> None /\ te_sequence_number evt <> 0 /\ te_metric evt ∈ VALID_METRICS /\
  is_finite (te_value evt) = true /\ te_unit evt <> "".

Lemma validate_telemetry_ok repr uuid_error evt :
  validate_telemetry repr uuid_error evt = Ok tt <-> telemetry_valid evt.
Proof.
  unfold validate_telemetry, telemetry_valid.
  rewrite !andthen_ok, !require_uuid_ok, !check_ok, !Forall_cons, !bool_decide_eq_false, Z.eqb_neq.
  rewrite negb_false_iff, bool_decide_eq_true, orb_false_iff.
  assert (Hfin : is_finite (te_value evt) = true <-> is_nan (te_value evt) = false /\ is_inf (te_value evt) = false)
    by (destruct (te_value evt); simpl; naive_solver).
  rewrite Hfin. split; [intros H; split_and!; try tauto; by apply Forall_nil | tauto].
Qed.

(** ** The service's state *)

Record InboundMessage := mkInboundMessage { im_topic : string; im_payload : string }.

#[export] Instance inbound_eq_dec : EqDecision InboundMessage.
Proof. solve_decision. Defined.

Record ing := Ing {
  ig_kafka : kafka;
  ig_breaker : breaker;
  ig_metrics : metrics;
  (** the messages whose [ack] closure was called, in order *)
  ig_acked : list InboundMessage;
  (** reads of the clock and of [uuid4] so far *)
  ig_reads : nat;
  ig_slept : list float
}.

#[export] Program Instance ing_kafka_part : Part ing kafka := {|
  part_get := ig_kafka;
  part_set k s := Ing k (ig_breaker s) (ig_metrics s) (ig_acked s) (ig_reads s) (ig_slept s) |}.
Solve All Obligations with (intros; by repeat match goal with s : ing |- _ => destruct s end).
#[export] Program Instance ing_breaker_part : Part ing breaker := {|
  part_get := ig_breaker;
  part_set b s := Ing (ig_kafka s) b (ig_metrics s) (ig_acked s) (ig_reads s) (ig_slept s) |}.
Solve All Obligations with (intros; by repeat match goal with s : ing |- _ => destruct s end).
#[export] Program Instance ing_metrics_part : Part ing metrics := {|
  part_get := ig_metrics;
  part_set m s := Ing (ig_kafka s) (ig_breaker s) m (ig_acked s) (ig_reads s) (ig_slept s) |}.
Solve All Obligations with (intros; by repeat match goal with s : ing |- _ => destruct s end).

(** The fields of [Config] the sink reads. *)
Record sink_config := SinkConfig {
  topic_telemetry_raw : string; topic_device_events : string; topic_dead_letter : string;
  kafka_max_retries : Z; kafka_retry_base_delay_seconds : float
}.

(** [pydantic], and what surrounds the service. *)
Record ing_world := IngWorld {
  w_broker : nat -> delivery;
  w_clock : ing -> float;
  w_utc_now : nat -> Z;
  w_uuid4 : nat -> string;
  w_load_telemetry : string -> res TelemetryEvent;
  w_load_machine : string -> res MachineEvent;
  w_dump_telemetry : NormalizedTelemetryEvent -> res string;
  (** [json.dumps(d, separators=(",", ":"))] *)
  w_json_dumps : list (string * jvalue) -> res string;
  w_dump_dead_letter : DeadLetterRecord -> res string;
  (** [bytes.decode("utf-8", errors="replace")] *)
  w_decode : string -> string;
  w_repr : string -> string;
  w_uuid_error : string -> string
}.

Section Sink.
  Variable w : ing_world.
  Variable cfg : sink_config.

Definition sleep (d : float) : M ing unit := modify (fun s =>
  Ing (ig_kafka s) (ig_breaker s) (ig_metrics s) (ig_acked s) (ig_reads s) (ig_slept s ++ [d])).
Definition read {A} (f : nat -> A) : M ing A := fun s =>
  (Ok (f (ig_reads s)),
   Ing (ig_kafka s) (ig_breaker s) (ig_metrics s) (ig_acked s) (S (ig_reads s)) (ig_slept s)).
Definition ack (job : InboundMessage) : M ing unit := modify (fun s =>
  Ing (ig_kafka s) (ig_breaker s) (ig_metrics s) (ig_acked s ++ [job]) (ig_reads s) (ig_slept s)).

(** *** [KafkaSink] *)

Definition _dead_letter (raw_payload : string) (cause : exn) (error_type stage correlation_id source_topic : string)
  : M ing unit :=
  now ← read (w_utc_now w);
  payload ← of_res (w_dump_dead_letter w (mkDeadLetterRecord (w_decode w raw_payload) (exn_str cause) error_type
    "ingestion" stage (kafka_max_retries cfg) (Aware now) correlation_id source_topic));
  try_else (lift (produce_and_wait (w_broker w) (topic_dead_letter cfg) correlation_id payload))
    (fun exc => inc "messages_failed_total:kafka_unreachable" ;;
                raise (KafkaPublishError ("dead-letter write also failed: " +:+ exn_str exc)))
    (fun _ => inc "dlq_messages_total" ;; inc "messages_processed_total:dead_letter").

Definition _write_with_protection (topic key payload : string) : M ing unit :=
  protected_write (w_broker w) (w_clock w) sleep (kafka_max_retries cfg) (kafka_retry_base_delay_seconds cfg)
    topic key payload.

Definition publish_telemetry (key : string) (evt : NormalizedTelemetryEvent) (raw_payload source_topic : string)
  : M ing unit :=
  match w_dump_telemetry w evt with
  | Raise exc => raise (ErrPermanent ("marshal normalized telemetry: " +:+ exn_str exc))
  | Ok payload =>
      try_except
        (_write_with_protection (topic_telemetry_raw cfg) key payload ;; inc "messages_processed_total:success")
        (fun exc => _dead_letter raw_payload exc ERROR_TYPE_TRANSIENT "kafka_publish" (nt_correlation_id evt) source_topic)
  end.

Definition publish_machine_event (key : string) (evt : NormalizedMachineEvent) (raw_payload source_topic : string)
  : M ing unit :=
  match w_json_dumps w (omit_empty (normalized_machine_event_fields evt)) with
  | Raise exc => raise (ErrPermanent ("marshal normalized machine event: " +:+ exn_str exc))
  | Ok payload =>
      try_except
        (_write_with_protection (topic_device_events cfg) key payload ;; inc "messages_processed_total:success")
        (fun exc => _dead_letter raw_payload exc ERROR_TYPE_TRANSIENT "kafka_publish" (nm_correlation_id evt) source_topic)
  end.

Definition dead_letter_validation_failure (raw_payload : string) (validation_err : exn)
    (correlation_id source_topic : string) : M ing unit :=
  _dead_letter raw_payload validation_err ERROR_TYPE_VALIDATION "validation" correlation_id source_topic.

(** *** The handlers of [main.py] *)

(** [try: dead_letter(...) except: return]; [job.ack()]. *)
Definition dead_letter_and_ack (job : InboundMessage) (exc : exn) (correlation_id : M ing string) : M ing unit :=
  inc "messages_failed_total:validation" ;;
  try_else (cid ← correlation_id; dead_letter_validation_failure (im_payload job) exc cid (im_topic job))
    (fun _ => mret tt)
    (fun _ => ack job).

Definition _handle_telemetry (job : InboundMessage) : M ing unit :=
  match w_load_telemetry w (im_payload job) with
  | Raise exc => dead_letter_and_ack job exc (read (w_uuid4 w))
  | Ok raw =>
      match validate_telemetry (w_repr w) (w_uuid_error w) raw with
      | Raise exc => dead_letter_and_ack job exc (mret (te_event_id raw))
      | Ok _ =>
          now ← read (w_utc_now w);
          let normalized := mkNormalizedTelemetryEvent raw (te_event_id raw) (Aware now) SCHEMA_VERSION in
          try_else (publish_telemetry (te_device_id raw) normalized (im_payload job) (im_topic job))
            (fun exc => match exc with KafkaPublishError _ => mret tt | _ => raise exc end)
            (fun _ => ack job)
      end
  end.

Definition _handle_machine_event (job : InboundMessage) : M ing unit :=
  match w_load_machine w (im_payload job) with
  | Raise exc => dead_letter_and_ack job exc (read (w_uuid4 w))
  | Ok raw =>
      correlation_id ← read (w_uuid4 w);
      match validate_machine_event (w_repr w) (w_uuid_error w) raw with
      | Raise exc => dead_letter_and_ack job exc (mret correlation_id)
      | Ok _ =>
          now ← read (w_utc_now w);
          let normalized := mkNormalizedMachineEvent raw correlation_id (Aware now) SCHEMA_VERSION in
          try_else (publish_machine_event (me_device_id raw) normalized (im_payload job) (im_topic job))
            (fun exc => match exc with KafkaPublishError _ => mret tt | _ => raise exc end)
            (fun _ => ack job)
      end
  end.

(** The [finally] observes the latency histogram: counted here. *)
Definition _process_message (job : InboundMessage) : M ing unit :=
  try_finally
    (if endswith (im_topic job) "/telemetry" then
       inc "messages_received_total:telemetry" ;; _handle_telemetry job
     else if endswith (im_topic job) "/status" then
       inc "messages_received_total:status" ;; _handle_machine_event job
     else if endswith (im_topic job) "/events" then
       inc "messages_received_total:events" ;; _handle_machine_event job
     else ack job)
    (inc "processing_latency_seconds").

End Sink.

(** ** The queue and its workers *)

(** A worker pool: the queue, [shutdown_event], the running workers, the sink's
    state, and the messages whose processing raised (they end a worker). *)
Record pool := Pool {
  pl_jobs : list InboundMessage;
  pl_shutdown : bool;
  pl_workers : nat;
  pl_sink : ing
}.

(** [jobs.put_nowait(job)] of a [queue.Queue(maxsize)]; [false] is [queue.Full].
    A size that is not positive is unbounded. *)
Definition put_nowait {A} (maxsize : Z) (job : A) (jobs : list A) : bool * list A :=
  if (0 <? maxsize) && (maxsize <=? Z.of_nat (length jobs)) then (false, jobs) else (true, jobs ++ [job]).

(** The MQTT callback [handler]: nothing while shutting down, and a message that
    does not fit is left unacked. *)
Definition on_message (maxsize : Z) (msg : InboundMessage) (p : pool) : pool :=
  if pl_shutdown p then p
  else Pool (snd (put_nowait maxsize msg (pl_jobs p))) (pl_shutdown p) (pl_workers p) (pl_sink p).

(** The steps of the callback thread, the signal handler and the workers.  A
    worker that takes a job processes it; it ends when the queue is empty during
    the drain, or when processing raises. *)
Inductive pool_step (w : ing_world) (cfg : sink_config) (maxsize : Z) : pool -> pool -> Prop :=
  | step_message msg p : pool_step w cfg maxsize p (on_message maxsize msg p)
  | step_shutdown p :
      pool_step w cfg maxsize p (Pool (pl_jobs p) true (pl_workers p) (pl_sink p))
  | step_work job jobs stop n s s' r :
      _process_message w cfg job s = (r, s') ->
      pool_step w cfg maxsize (Pool (job :: jobs) stop (S n) s)
        (Pool jobs stop (if is_ok r then S n else n) s')
  | step_worker_exits stop n s :
      stop = true -> pool_step w cfg maxsize (Pool [] stop (S n) s) (Pool [] stop n s).

Inductive pool_reachable (w : ing_world) (cfg : sink_config) (maxsize : Z) : pool -> Prop :=
  | pool_start n s : ig_acked s = [] -> pool_reachable w cfg maxsize (Pool [] false n s)
  | pool_more p p' :
      pool_reachable w cfg maxsize p -> pool_step w cfg maxsize p p' -> pool_reachable w cfg maxsize p'.

(** ** What an acknowledgement stands for *)

Definition recognized (job : InboundMessage) : bool :=
  endswith (im_topic job) "/telemetry" || endswith (im_topic job) "/status" || endswith (im_topic job) "/events".

(** The broker's log holds the message [job] carries, normalized on its topic,
    or a dead-letter record with its payload. *)
Definition recorded (w : ing_world) (cfg : sink_config) (log : list message) (job : InboundMessage) : Prop :=
  exists m, m ∈ log /\
   ((mg_topic m = topic_telemetry_raw cfg /\ exists evt,
       w_load_telemetry w (im_payload job) = Ok (nt_event evt) /\
       validate_telemetry (w_repr w) (w_uuid_error w) (nt_event evt) = Ok tt /\
       mg_key m = te_device_id (nt_event evt) /\ w_dump_telemetry w evt = Ok (mg_value m)) \/
    (mg_topic m = topic_device_events cfg /\ exists evt,
       w_load_machine w (im_payload job) = Ok (nm_event evt) /\
       validate_machine_event (w_repr w) (w_uuid_error w) (nm_event evt) = Ok tt /\
       mg_key m = me_device_id (nm_event evt) /\
       w_json_dumps w (omit_empty (normalized_machine_event_fields evt)) = Ok (mg_value m)) \/
    (mg_topic m = topic_dead_letter cfg /\ exists r,
       dl_original_payload r = w_decode w (im_payload job) /\ dl_source_topic r = im_topic job /\
       w_dump_dead_letter w r = Ok (mg_value m))).

Lemma recorded_mono w cfg log log' job : log `prefix_of` log' -> recorded w cfg log job -> recorded w cfg log' job.
Proof. intros [l ->] (m & Hm & H). exists m. split; [|done]. apply elem_of_app. by left. Qed.

(** ** Lemmas on the handlers *)

Section Handlers.
  Context (w : ing_world) (cfg : sink_config).

(** Nothing acked, and the log only grew. *)
Definition silent (s s' : ing) : Prop :=
  ig_acked s' = ig_acked s /\ log_grows (ig_kafka s) (ig_kafka s').

#[local] Instance silent_preorder : PreOrder silent.
Proof.
  split; [intros s; split; reflexivity|]. intros s1 s2 s3 [H1 H2] [H3 H4]. split; [congruence | by etrans].
Qed.

Lemma silent_inc name : moves silent (inc (S:=ing) name).
Proof. intros s. split; reflexivity. Qed.

Lemma silent_read {A} (f : nat -> A) : moves silent (read f).
Proof. intros s. split; reflexivity. Qed.

Lemma silent_sleep d : moves silent (sleep d).
Proof. intros s. split; reflexivity. Qed.

Lemma silent_of_res {A} (r : res A) : moves silent (of_res r).
Proof. intros s. split; reflexivity. Qed.

Lemma silent_produce topic key value : moves silent (lift (produce_and_wait (w_broker w) topic key value)).
Proof.
  intros s. unfold lift. pose proof (produce_grows (w_broker w) topic key value (part_get s)) as Hg.
  destruct (produce_and_wait _ _ _ _ _) as [r k']. split; [reflexivity | exact Hg].
Qed.

Lemma silent_write topic key payload : moves silent (_write_with_protection w cfg topic key payload).
Proof.
  apply moves_protected_write; [apply _ | | | apply silent_sleep].
  - intros b s. split; reflexivity.
  - intros k s Hk. split; [reflexivity | exact Hk].
Qed.

Lemma silent_dead_letter raw cause ty stage cid topic : moves silent (_dead_letter w cfg raw cause ty stage cid topic).
Proof.
  unfold _dead_letter. apply moves_bind; [apply _ | apply silent_read|]. intros now.
  apply moves_bind; [apply _ | apply silent_of_res|]. intros payload.
  apply moves_try_else; [apply _ | apply silent_produce | |].
  - intros exc. apply moves_bind; [apply _ | apply silent_inc | intros; apply moves_raise, _].
  - intros _. apply moves_bind; [apply _ | apply silent_inc | intros; apply silent_inc].
Qed.

(** A dead letter that succeeded is in the log. *)
Lemma dead_letter_recorded job cause ty stage cid s s' :
  acks_all (w_broker w) ->
  _dead_letter w cfg (im_payload job) cause ty stage cid (im_topic job) s = (Ok tt, s') ->
  recorded w cfg (kf_log (ig_kafka s')) job.
Proof.
  intros Hacks. unfold _dead_letter. erewrite bind_ok by reflexivity. unfold of_res.
  destruct (w_dump_dead_letter w _) as [payload|] eqn:Ed; [|by erewrite bind_raise by reflexivity].
  erewrite bind_ok by reflexivity. unfold try_else, lift.
  destruct (produce_and_wait _ _ _ _ _) as [[[]|exc] k'] eqn:Ep; [|done].
  apply (produce_ok _ _ _ _ _ _ Hacks) in Ep. intros [= <-]. simpl. rewrite Ep.
  eexists. split; [apply elem_of_app; right; by apply list_elem_of_singleton|]. simpl. right. right.
  split; [done|]. eexists. split_and!; [| | exact Ed]; done.
Qed.

Lemma write_stored topic key payload s s' :
  acks_all (w_broker w) -> _write_with_protection w cfg topic key payload s = (Ok tt, s') ->
  Message topic key payload ∈ kf_log (ig_kafka s').
Proof. intros Hacks Hok. by eapply (protected_write_stored _ _ _ _ _ _ _ _ s s') in Hok. Qed.

(** Publishing: silent, and recorded when it does not raise. *)
Definition publishes (job : InboundMessage) (m : M ing unit) : Prop :=
  moves silent m /\ forall s s', m s = (Ok tt, s') -> recorded w cfg (kf_log (ig_kafka s')) job.

Lemma publish_or_dead_letter job topic key payload ty stage cid :
  acks_all (w_broker w) ->
  (forall log, Message topic key payload ∈ log -> recorded w cfg log job) ->
  publishes job (try_except
    (_write_with_protection w cfg topic key payload ;; inc "messages_processed_total:success")
    (fun exc => _dead_letter w cfg (im_payload job) exc ty stage cid (im_topic job))).
Proof.
  intros Hacks Hrec. split.
  - apply moves_try; [apply _ | |intros; apply silent_dead_letter].
    apply moves_bind; [apply _ | apply silent_write | intros; apply silent_inc].
  - intros s s'. unfold try_except, mbind, M_bind.
    destruct (_write_with_protection w cfg topic key payload s) as [[[]|exc] s1] eqn:E.
    + intros [= <-]. simpl. apply Hrec. by eapply write_stored.
    + by apply dead_letter_recorded.
Qed.

Lemma publish_telemetry_publishes job evt :
  acks_all (w_broker w) ->
  w_load_telemetry w (im_payload job) = Ok (nt_event evt) ->
  validate_telemetry (w_repr w) (w_uuid_error w) (nt_event evt) = Ok tt ->
  publishes job (publish_telemetry w cfg (te_device_id (nt_event evt)) evt (im_payload job) (im_topic job)).
Proof.
  intros Hacks Hl Hv. unfold publish_telemetry.
  destruct (w_dump_telemetry w evt) as [payload|] eqn:Ed.
  - apply publish_or_dead_letter; [done|]. intros log Hm. eexists. split; [exact Hm|]. left. eauto 10.
  - split; [apply moves_raise, _ | done].
Qed.

Lemma publish_machine_event_publishes job evt :
  acks_all (w_broker w) ->
  w_load_machine w (im_payload job) = Ok (nm_event evt) ->
  validate_machine_event (w_repr w) (w_uuid_error w) (nm_event evt) = Ok tt ->
  publishes job (publish_machine_event w cfg (me_device_id (nm_event evt)) evt (im_payload job) (im_topic job)).
Proof.
  intros Hacks Hl Hv. unfold publish_machine_event.
  destruct (w_json_dumps w _) as [payload|] eqn:Ed.
  - apply publish_or_dead_letter; [done|]. intros log Hm. eexists. split; [exact Hm|]. right. left. eauto 10.
  - split; [apply moves_raise, _ | done].
Qed.

(** At most one ack, of this job, once it is recorded. *)
Definition acks_recorded (job : InboundMessage) (s s' : ing) : Prop :=
  log_grows (ig_kafka s) (ig_kafka s') /\
  (ig_acked s' = ig_acked s \/
   (ig_acked s' = ig_acked s ++ [job] /\ (recognized job = true -> recorded w cfg (kf_log (ig_kafka s')) job))).

Lemma silent_then job s s1 s' : silent s s1 -> acks_recorded job s1 s' -> acks_recorded job s s'.
Proof.
  intros [Ha Hl] [Hl' H]. split; [by etrans|]. by rewrite Ha in H.
Qed.

Lemma silent_acks job s s' : silent s s' -> acks_recorded job s s'.
Proof. intros [Ha Hl]. split; auto. Qed.

(** The pattern of every handler: publish, swallow some errors, then ack. *)
Lemma publish_then_ack job m (h : exn -> M ing unit) :
  publishes job m -> (forall e, moves silent (h e)) ->
  moves (acks_recorded job) (try_else m h (fun _ => ack job)).
Proof.
  intros [Hm Hok] Hh s. unfold try_else. specialize (Hm s).
  destruct (m s) as [[[]|e] s1] eqn:E; simpl in Hm.
  - apply (silent_then _ _ s1); [done|]. split; [unfold log_grows; reflexivity|]. right.
    split; [done|]. intros _. simpl. by eapply Hok.
  - apply silent_acks. etrans; [exact Hm | apply Hh].
Qed.

Lemma bind_silent {A} job (m : M ing A) (k : A -> M ing unit) :
  moves silent m -> (forall a, moves (acks_recorded job) (k a)) -> moves (acks_recorded job) (m ≫= k).
Proof.
  intros Hm Hk s. unfold mbind, M_bind. specialize (Hm s).
  destruct (m s) as [[a|e] s1]; simpl in *; [eapply silent_then; [exact Hm | apply Hk] | by apply silent_acks].
Qed.

Lemma dead_letter_and_ack_acks job exc cid :
  acks_all (w_broker w) -> moves silent cid ->
  moves (acks_recorded job) (dead_letter_and_ack w cfg job exc cid).
Proof.
  intros Hacks Hcid. unfold dead_letter_and_ack. apply bind_silent; [apply silent_inc|]. intros _.
  apply publish_then_ack; [|intros; by apply moves_ret, _]. split.
  - apply moves_bind; [apply _ | exact Hcid | intros; apply silent_dead_letter].
  - intros s s'. unfold mbind, M_bind. destruct (cid s) as [[c|] s1]; [|done]. by apply dead_letter_recorded.
Qed.

Lemma handle_telemetry_acks job :
  acks_all (w_broker w) -> moves (acks_recorded job) (_handle_telemetry w cfg job).
Proof.
  intros Hacks. unfold _handle_telemetry.
  destruct (w_load_telemetry w _) as [raw|exc] eqn:El; [|apply dead_letter_and_ack_acks; [done | apply silent_read]].
  destruct (validate_telemetry _ _ raw) as [[]|exc] eqn:Ev;
    [|apply dead_letter_and_ack_acks; [done | apply moves_ret, _]].
  apply bind_silent; [apply silent_read|]. intros now. cbn zeta. apply publish_then_ack.
  - apply (publish_telemetry_publishes job (mkNormalizedTelemetryEvent raw _ _ _)); done.
  - intros e. destruct e; first [apply moves_ret, _ | apply moves_raise, _].
Qed.

Lemma handle_machine_event_acks job :
  acks_all (w_broker w) -> moves (acks_recorded job) (_handle_machine_event w cfg job).
Proof.
  intros Hacks. unfold _handle_machine_event.
  destruct (w_load_machine w _) as [raw|exc] eqn:El; [|apply dead_letter_and_ack_acks; [done | apply silent_read]].
  apply bind_silent; [apply silent_read|]. intros cid.
  destruct (validate_machine_event _ _ raw) as [[]|exc] eqn:Ev;
    [|apply dead_letter_and_ack_acks; [done | apply moves_ret, _]].
  apply bind_silent; [apply silent_read|]. intros now. cbn zeta. apply publish_then_ack.
  - apply (publish_machine_event_publishes job (mkNormalizedMachineEvent raw _ _ _)); done.
  - intros e. destruct e; first [apply moves_ret, _ | apply moves_raise, _].
Qed.

Lemma process_message_acks job :
  acks_all (w_broker w) -> moves (acks_recorded job) (_process_message w cfg job).
Proof.
  intros Hacks s. unfold _process_message, try_finally.
  match goal with |- context [?m s] => assert (H : moves (acks_recorded job) m) end.
  { destruct (endswith _ "/telemetry") eqn:E1.
    { apply bind_silent; [apply silent_inc | intros _; by apply handle_telemetry_acks]. }
    destruct (endswith _ "/status") eqn:E2.
    { apply bind_silent; [apply silent_inc | intros _; by apply handle_machine_event_acks]. }
    destruct (endswith _ "/events") eqn:E3.
    { apply bind_silent; [apply silent_inc | intros _; by apply handle_machine_event_acks]. }
    intros s0. split; [unfold log_grows; reflexivity|]. right. split; [done|].
    unfold recognized. by rewrite E1, E2, E3. }
  specialize (H s). by destruct (_ s) as [r s1].
Qed.

End Handlers.

(** ** An example surrounding for the witnesses *)

Definition demo_uuid : string := "12345678-1234-5678-1234-567812345678".
Definition demo_event (seq : Z) : TelemetryEvent :=
  mkTelemetryEvent demo_uuid demo_uuid demo_uuid demo_uuid demo_uuid demo_uuid demo_uuid
    (Some (Aware 0)) seq "temperature" fone "C".

(** A broker that stores everything; payload "e" is an event, all else is malformed. *)
Definition demo_delivery : delivery := Delivery None 0 (Some None) true.
Definition demo_world (broker : nat -> delivery) : ing_world :=
  IngWorld broker (fun _ => fzero) (fun n => Z.of_nat n) (fun n => "u" +:+ pretty n)
    (fun p => if bool_decide (p = "e") then Ok (demo_event 1) else Raise (ValueError "bad json"))
    (fun _ => Raise (ValueError "bad json"))
    (fun _ => Ok "normalized") (fun _ => Ok "machine") (fun r => Ok ("dlq:" +:+ dl_original_payload r))
    (fun p => p) (fun s => s) (fun s => s).
Definition demo_config : sink_config := SinkConfig "telemetry.raw" "device.events" "dead-letter" 3 fone.
Definition demo_ing : ing := Ing (Kafka 0 []) (new_breaker 5 fone) (Metrics ∅) [] 0 [].

(** ** Theorems *)

(** [validate_telemetry] accepts exactly the events whose seven ids are
    texts of uuids, that have a timestamp, a known metric, a finite value, a
    unit, and a sequence number other than zero: a negative one passes, although
    the message says "greater than zero".  Any refusal is a [ValueError]. *)
Theorem validate_telemetry_accepts (repr uuid_error : string -> string) (evt : TelemetryEvent) :
  (validate_telemetry repr uuid_error evt = Ok tt <->
   Forall (fun id => is_Some (uuid_of_string id))
     [te_event_id evt; te_organization_id evt; te_factory_id evt; te_production_line_id evt;
      te_machine_id evt; te_device_id evt; te_sensor_id evt] /\
   te_timestamp evt <> None /\ te_sequence_number evt <> 0 /\ te_metric evt ∈ VALID_METRICS /\
   is_finite (te_value evt) = true /\ te_unit evt <> "") /\
  (forall e, validate_telemetry repr uuid_error evt = Raise e -> exists m, e = ValueError m).
Proof.
  split.
  - apply validate_telemetry_ok.
  - assert (Ha : forall a b, (forall e, a = Raise e -> exists m, e = ValueError m) ->
        (forall e, b = Raise e -> exists m, e = ValueError m) ->
        forall e, andthen a b = Raise e -> exists m, e = ValueError m)
      by (intros [[]|ea] b Hx Hy e; simpl; [apply Hy | intros [= <-]; by apply Hx]).
    assert (Hr : forall f v e, require_uuid repr uuid_error f v = Raise e -> exists m, e = ValueError m).
    { intros f v e. unfold require_uuid. case_bool_decide; [intros [= <-]; eauto|].
      destruct (uuid_of_string v); [done | intros [= <-]; eauto]. }
    assert (Hc : forall b m e, check b m = Raise e -> exists m, e = ValueError m)
      by (intros [] m e; [intros [= <-]; eauto | done]).
    unfold validate_telemetry. repeat (apply Ha; [first [apply Hr | apply Hc]|]). apply Hc.
Qed.

(** [C14] At-least-once hand-over.  In every state the callback thread, the signal
    handler and the workers can reach, whatever fails, every acknowledged message
    of a subscribed topic is in the broker's log: normalized on its topic, keyed
    by its device, or as a dead letter with its payload.  And the queue never
    holds more than its capacity. *)
Theorem acked_messages_are_recorded (w : ing_world) (cfg : sink_config) (maxsize : Z) (p : pool) :
  acks_all (w_broker w) -> 0 < maxsize -> pool_reachable w cfg maxsize p ->
  (forall job, job ∈ ig_acked (pl_sink p) -> recognized job = true ->
     recorded w cfg (kf_log (ig_kafka (pl_sink p))) job) /\
  Z.of_nat (length (pl_jobs p)) <= maxsize.
Proof.
  intros Hacks Hmax. induction 1 as [n s Hs|p p' _ [IHr IHq] Hstep].
  { simpl. split; [|lia]. intros job Hjob. rewrite Hs in Hjob. by apply elem_of_nil in Hjob. }
  destruct Hstep as [msg p | p | job jobs stop n s s' r Hproc | stop n s Hstop]; simpl in *; [| done | | done].
  - unfold on_message. destruct (pl_shutdown p); simpl; [done|]. split; [done|]. unfold put_nowait.
    destruct (Z.leb_spec maxsize (Z.of_nat (length (pl_jobs p)))); rewrite ?andb_true_r, ?andb_false_r; simpl;
      [by rewrite (proj2 (Z.ltb_lt 0 maxsize) Hmax) | rewrite length_app; simpl; lia].
  - split; [|lia]. pose proof (process_message_acks w cfg job Hacks s) as [Hlog Hacked]. rewrite Hproc in *. simpl in *.
    intros job' Hjob' Hrec. destruct Hacked as [Heq | [Heq Hnew]]; rewrite Heq in Hjob'.
    + eapply recorded_mono; [exact Hlog | by apply IHr].
    + apply elem_of_app in Hjob' as [Hjob' | ->%list_elem_of_singleton]; [|by apply Hnew].
      eapply recorded_mono; [exact Hlog | by apply IHr].
Qed.

(** A message is enqueued and processed; it is acked, and so in the log. *)
Lemma acked_messages_are_recorded_witness :
  let job := mkInboundMessage "factory/f/machine/m/sensor/s/telemetry" "e" in
  let s := exec (_process_message (demo_world (fun _ => demo_delivery)) demo_config job) demo_ing in
  ig_acked s = [job] /\ recorded (demo_world (fun _ => demo_delivery)) demo_config (kf_log (ig_kafka s)) job.
Proof.
  cbn zeta. split; [by vm_compute|].
  set (w := demo_world (fun _ => demo_delivery)).
  set (job := mkInboundMessage _ _). set (s := exec _ _).
  assert (Hreach : pool_reachable w demo_config 10 (Pool [] false 1 s)).
  { assert (H0 : pool_reachable w demo_config 10 (Pool [] false 1 demo_ing)) by (apply pool_start; reflexivity).
    assert (H1 : pool_reachable w demo_config 10 (Pool [job] false 1 demo_ing))
      by exact (pool_more _ _ _ _ _ H0 (step_message w demo_config 10 job (Pool [] false 1 demo_ing))).
    refine (pool_more _ _ _ _ _ H1 (step_work w demo_config 10 job [] false 0 demo_ing s (Ok tt) _)).
    apply run_eq; by vm_compute. }
  refine (proj1 (acked_messages_are_recorded w demo_config 10 (Pool [] false 1 s) _ _ Hreach) job _ _).
  - by intros n _ _.
  - done.
  - apply list_elem_of_In. vm_compute. by left.
  - by vm_compute.
Defined.
