(* ===== verification/Window.v ===== *)
(** [stream-processor/window.py] and [registry.py]: the event-time ordered
    buffer of one series, its windowed statistics, and the registry of series.
    The methods run under the buffer's lock, so each is one atomic operation of
    the buffer's state; an exception leaves what was done before it. *)

From stdpp Require Import prelude strings gmap sorting.
From Stdlib Require Import ZArith Lia Ascii SpecFloat.
From S2P Require Import Prelude PyFloat Effects Events.

Local Open Scope Z_scope.

(** ** [window.py] *)

Record Sample := mkSample { sm_at : timestamp; sm_value : float }.

Record WindowStats := mkWindowStats {
  ws_count : Z; ws_moving_avg : float; ws_moving_stddev : float;
  ws_min : float; ws_max : float; ws_rate_of_change : float
}.

(** The [while] of [add], from the end of the list: how many samples stay
    before the new one. *)
Fixpoint find_slot (newest_first : list Sample) (at_ : timestamp) : res nat :=
  match newest_first with
  | [] => Ok 0%nat
  | s :: older =>
      match dt_gt (sm_at s) at_ with
      | Raise e => Raise e
      | Ok true => find_slot older at_
      | Ok false => Ok (length newest_first)
      end
  end.

(** The trim loop: how many samples at the front are older than [cutoff]. *)
Fixpoint count_older (samples : list Sample) (cutoff : timestamp) : res nat :=
  match samples with
  | [] => Ok 0%nat
  | s :: rest =>
      match dt_lt (sm_at s) cutoff with
      | Raise e => Raise e
      | Ok true => match count_older rest cutoff with Ok n => Ok (S n) | Raise e => Raise e end
      | Ok false => Ok 0%nat
      end
  end.

Definition insert_at {A} (i : nat) (x : A) (l : list A) : list A := take i l ++ x :: drop i l.

(** [SeriesBuffer.add]; [max_window] is in microseconds. *)
Definition add (max_window : Z) (at_ : timestamp) (value : float) : M (list Sample) unit :=
  samples ← get;
  i ← of_res (find_slot (rev samples) at_);
  modify (insert_at i (mkSample at_ value)) ;;
  samples ← get;
  cutoff ← of_res (dt_minus (sm_at (last_or (mkSample None fzero) samples)) max_window);
  j ← of_res (count_older samples cutoff);
  modify (drop j).

(** [[s for s in self._samples if s.at >= cutoff]]. *)
Fixpoint in_window (cutoff : timestamp) (samples : list Sample) : res (list Sample) :=
  match samples with
  | [] => Ok []
  | s :: rest =>
      match dt_ge (sm_at s) cutoff with
      | Raise e => Raise e
      | Ok keep => match in_window cutoff rest with
                   | Ok l => Ok (if (keep : bool) then s :: l else l)
                   | Raise e => Raise e
                   end
      end
  end.

(** [x / n] for an integer [n]. *)
Definition fdiv_int (x : float) (n : Z) : arith_error + float :=
  if n =? 0 then inl ZeroDivisionError else inr (SFdiv prec emax x (float_of_Z n)).

Definition lift_arith {A} (r : arith_error + A) : res A :=
  match r with inr a => Ok a | inl e => Raise (ArithError e) end.

(** [sequence] of the generator in [variance]. *)
Fixpoint squares (avg : float) (values : list float) : res (list float) :=
  match values with
  | [] => Ok []
  | v :: rest =>
      match fsquare (fsub v avg) with
      | inl e => Raise (ArithError e)
      | inr q => match squares avg rest with Ok qs => Ok (q :: qs) | Raise e => Raise e end
      end
  end.

(** The last value minus the first, per second of event time. *)
Definition rate_of_change (first last : Sample) (n : nat) : res float :=
  if (1 <? Z.of_nat n) then
    res_bind (dt_diff (sm_at last) (sm_at first)) (fun us =>
      let elapsed := total_seconds us in
      if fgtb elapsed fzero then lift_arith (fdiv (fsub (sm_value last) (sm_value first)) elapsed) else Ok fzero)
  else Ok fzero.

(** [_compute_stats] of the non-empty list [s0 :: rest]. *)
Definition _compute_stats (s0 : Sample) (rest : list Sample) : res WindowStats :=
  let samples := s0 :: rest in
  let values := sm_value <$> samples in
  let n := Z.of_nat (length samples) in
  let lo := fmin_list (sm_value s0) (sm_value <$> rest) in
  let hi := fmax_list (sm_value s0) (sm_value <$> rest) in
  res_bind (lift_arith (fdiv_int (fsum values) n)) (fun avg =>
  res_bind (squares avg values) (fun sq =>
  res_bind (lift_arith (fdiv_int (fsum sq) n)) (fun variance =>
  res_bind (lift_arith (fsqrt variance)) (fun stddev =>
  res_bind (rate_of_change s0 (last_or s0 rest) (length samples)) (fun rate =>
  Ok (mkWindowStats n avg stddev lo hi rate)))))).

(** [stats_for]: [None] is [ok=False]. *)
Definition stats_for (now : timestamp) (window : Z) (samples : list Sample) : res (option WindowStats) :=
  res_bind (dt_minus now window) (fun cutoff =>
  res_bind (in_window cutoff samples) (fun l =>
  match l with
  | [] => Ok None
  | s0 :: rest => res_bind (_compute_stats s0 rest) (fun st => Ok (Some st))
  end)).

(** ** [registry.py] *)

Record SeriesKey := mkSeriesKey {
  sk_factory_id : string; sk_production_line_id : string; sk_machine_id : string;
  sk_device_id : string; sk_sensor_id : string; sk_metric : string
}.

(** [SeriesKey.id]. *)
Definition series_id (k : SeriesKey) : string := sk_device_id k +:+ "|" +:+ sk_metric k.

(** [_buffers] and [_keys]: dictionaries with the same keys, in insertion order. *)
Record TrackedSeries := mkTrackedSeries { ts_key : SeriesKey; ts_buf : list Sample }.
Definition registry : Type := list (string * TrackedSeries).

Definition set_buf (id : string) (buf : list Sample) (r : registry) : registry :=
  map (fun e => if bool_decide (fst e = id) then (fst e, mkTrackedSeries (ts_key (snd e)) buf) else e) r.

Definition buf_of (id : string) (r : registry) : list Sample := default [] (ts_buf <$> dict_get r id).

(** [SeriesRegistry.record]: a new series keeps the key it was first seen with. *)
Definition record (max_window : Z) (key : SeriesKey) (at_ : timestamp) (value : float) : M registry unit := fun r =>
  let id := series_id key in
  let r := match dict_get r id with Some _ => r | None => r ++ [(id, mkTrackedSeries key [])] end in
  let '(x, buf) := add max_window at_ value (buf_of id r) in
  (x, set_buf id buf r).

Definition snapshot (r : registry) : list TrackedSeries := snd <$> r.

(** ** Lemmas: the buffer on aware timestamps *)

(** A sample with a time zone: when, in microseconds, and its value. *)
Definition aware (x : Z * float) : Sample := mkSample (Some (Aware (fst x))) (snd x).

Definition earlier (a b : Z * float) : Prop := fst a <= fst b.

Lemma earlier_last l y x : StronglySorted earlier (l ++ [y]) -> x ∈ l ++ [y] -> fst x <= fst y.
Proof.
  intros Hs [Hx | ->%list_elem_of_singleton]%elem_of_app; [|lia].
  eapply (StronglySorted_app_1_elem_of earlier l [y]); [done | done | by apply list_elem_of_singleton].
Qed.

(** [find_slot]: the samples from there on are newer than [t], the one before
    is not. *)
Lemma find_slot_aware t l : exists l1 l2,
  l = l1 ++ l2 /\ find_slot (rev (aware <$> l)) (Some (Aware t)) = Ok (length l1) /\
  Forall (fun x => t < fst x) l2 /\ (forall y, last l1 = Some y -> fst y <= t).
Proof.
  induction l as [|x l (l1 & l2 & -> & Hf & Hl2 & Hl1)] using rev_ind; [by exists [], []|].
  rewrite fmap_app, rev_app_distr. simpl. unfold dt_gt. simpl. destruct (Z.ltb_spec t (fst x)).
  - exists l1, (l2 ++ [x]). rewrite app_assoc. split_and!; [done | exact Hf | | done].
    apply Forall_app. split; [done|]. by apply Forall_singleton.
  - exists ((l1 ++ l2) ++ [x]), []. rewrite app_nil_r. split_and!; [done | | constructor |].
    + f_equal. rewrite length_rev, length_fmap, !length_app. simpl. lia.
    + intros y. rewrite last_snoc. by intros [= <-].
Qed.

(** The place where [add] puts a sample keeps the order. *)
Lemma insert_sorted l1 l2 x :
  StronglySorted earlier (l1 ++ l2) -> Forall (fun y => fst x < fst y) l2 ->
  (forall y, last l1 = Some y -> fst y <= fst x) -> StronglySorted earlier (l1 ++ x :: l2).
Proof.
  intros (H12 & H1 & H2)%StronglySorted_app Hl2 Hl1.
  apply StronglySorted_app. split_and!; [| done |].
  - intros y z Hy [-> | Hz]%elem_of_cons; [|by apply H12].
    destruct l1 as [|w l _] using rev_ind; [by apply elem_of_nil in Hy|].
    specialize (Hl1 w (last_snoc _ _)). pose proof (earlier_last _ _ _ H1 Hy). unfold earlier. lia.
  - constructor; [done|]. eapply Forall_impl; [exact Hl2|]. unfold earlier. intros; simpl in *; lia.
Qed.

(** The trim loop drops what the filter drops. *)
Lemma count_older_aware c l : StronglySorted earlier l ->
  exists j, count_older (aware <$> l) (Some (Aware c)) = Ok j /\ drop j l = filter (fun x => c <= fst x) l.
Proof.
  induction 1 as [|x l Hs (j & Hj & Hd) Hx]; [by exists 0%nat|].
  csimpl. destruct (Z.ltb_spec (fst x) c).
  - exists (S j). rewrite Hj. split; [done|]. rewrite filter_cons_False by lia. exact Hd.
  - exists 0%nat. split; [done|]. simpl. rewrite filter_all; [done|]. constructor; [done|].
    eapply Forall_impl; [exact Hx|]. unfold earlier. intros; simpl in *; lia.
Qed.

(** [add] on a sorted buffer of aware samples. *)
Lemma add_aware W x l :
  StronglySorted earlier l -> (forall y, y ∈ x :: l -> in_range (fst y - W) = true) ->
  exists l1 l2 n, l = l1 ++ l2 /\ StronglySorted earlier (l1 ++ x :: l2) /\
    Forall (fun y => fst x < fst y) l2 /\ (forall y, y ∈ l1 -> fst y <= fst x) /\
    n ∈ x :: l /\ (forall y, y ∈ x :: l -> fst y <= fst n) /\
    add W (Some (Aware (fst x))) (snd x) (aware <$> l) =
      (Ok tt, aware <$> filter (fun y => fst n - W <= fst y) (l1 ++ x :: l2)).
Proof.
  intros Hs Hr. destruct (find_slot_aware (fst x) l) as (l1 & l2 & -> & Hf & Hl2 & Hl1).
  pose proof (insert_sorted l1 l2 x Hs Hl2 Hl1) as Hs'.
  destruct (exists_last (l := l1 ++ x :: l2) ltac:(by destruct l1)) as (pre & n & Hn).
  assert (Hnx : forall y, y ∈ l1 ++ x :: l2 <-> y ∈ x :: l1 ++ l2)
    by (intros y; rewrite elem_of_app, !elem_of_cons, elem_of_app; tauto).
  exists l1, l2, n. split_and!; [done | done | done | | | |].
  - intros y Hy. eapply (StronglySorted_app_1_elem_of earlier l1 (x :: l2)); [done | done | by left].
  - apply Hnx. rewrite Hn. apply elem_of_app. right. by left.
  - intros y Hy%Hnx. rewrite Hn in *. by eapply earlier_last.
  - unfold add. erewrite bind_ok by reflexivity. unfold of_res. rewrite Hf. erewrite bind_ok by reflexivity.
    erewrite bind_ok by reflexivity. erewrite bind_ok by reflexivity.
    replace (insert_at (length l1) (mkSample (Some (Aware (fst x))) (snd x)) (aware <$> l1 ++ l2))
      with (aware <$> l1 ++ x :: l2); cycle 1.
    { unfold insert_at. rewrite !fmap_app. rewrite <- (length_fmap aware l1) at 1 2.
      by rewrite take_app_length, drop_app_length. }
    replace (last_or _ (aware <$> l1 ++ x :: l2)) with (aware n)
      by (unfold last_or; rewrite Hn, fmap_app; simpl; by rewrite last_snoc).
    cbn [dt_minus sm_at aware]. rewrite Hr by (apply Hnx; rewrite Hn; apply elem_of_app; right; by left).
    erewrite bind_ok by reflexivity.
    destruct (count_older_aware (fst n - W) _ Hs') as (j & -> & Hd). erewrite bind_ok by reflexivity.
    unfold modify. f_equal. rewrite <- Hd, fmap_drop. done.
Qed.

(** The buffer after a sequence of arrivals. *)
Definition record_all (W : Z) (arrivals : list (Z * float)) : M (list Sample) unit :=
  for_each arrivals (fun x => add W (Some (Aware (fst x))) (snd x)).

Lemma record_all_snoc W arr x s :
  record_all W (arr ++ [x]) s =
  match record_all W arr s with
  | (Ok _, s') => add W (Some (Aware (fst x))) (snd x) s'
  | (Raise e, s') => (Raise e, s')
  end.
Proof.
  unfold record_all. revert s. induction arr as [|y arr IH]; intros s; simpl.
  - unfold mbind at 1, M_bind, mret, M_ret. by destruct (add _ _ _ s) as [[[]|e] s1].
  - unfold mbind, M_bind. destruct (add _ _ _ s) as [[[]|e] s1]; [apply IH | done].
Qed.

(** The arrivals at event time [t]. *)
Definition at_time (t : Z) (l : list (Z * float)) : list (Z * float) := filter (fun x => fst x = t) l.

Lemma elem_of_at_time x t l : x ∈ at_time t l <-> fst x = t /\ x ∈ l.
Proof. unfold at_time; by rewrite list_elem_of_filter. Qed.

Lemma at_time_none t l : Forall (fun y => fst y <> t) l -> at_time t l = [].
Proof. apply filter_none. Qed.

(** What the buffer holds: sorted, and at each time within the window of every
    arrival, the arrivals of that time in their order. *)
Definition holds_window (W : Z) (arr l : list (Z * float)) : Prop :=
  StronglySorted earlier l /\
  forall t, at_time t l = if bool_decide (Forall (fun x => fst x - W <= t) arr) then at_time t arr else [].

Lemma newest_exists (arr : list (Z * float)) x :
  exists n, n ∈ x :: arr /\ forall y, y ∈ x :: arr -> fst y <= fst n.
Proof.
  revert x. induction arr as [|z arr IH]; intros x.
  - exists x. split; [by left|]. intros y ->%list_elem_of_singleton. lia.
  - destruct (IH z) as (n & Hn & Hmax). destruct (Z.le_ge_cases (fst x) (fst n)).
    + exists n. split; [by right|]. intros y [-> | Hy]%elem_of_cons; [done | by apply Hmax].
    + exists x. split; [by left|]. intros y [-> | Hy]%elem_of_cons; [lia|]. specialize (Hmax y Hy). lia.
Qed.

(** No arrival is newer than the newest sample held. *)
Lemma holds_window_newest W arr l n :
  0 <= W -> holds_window W arr l -> (forall y, y ∈ l -> fst y <= n) -> forall y, y ∈ arr -> fst y <= n.
Proof.
  intros HW [Hs Ht] Hn y Hy. destruct arr as [|x arr]; [by apply elem_of_nil in Hy|].
  destruct (newest_exists arr x) as (m & Hm & Hmax). specialize (Hmax y Hy) as Hym.
  specialize (Ht (fst m)). rewrite bool_decide_true in Ht; cycle 1.
  { apply Forall_forall. intros z Hz. specialize (Hmax z Hz). lia. }
  assert (Hin : m ∈ at_time (fst m) l) by (rewrite Ht; by apply elem_of_at_time).
  apply elem_of_at_time in Hin as [_ Hin]. specialize (Hn m Hin). lia.
Qed.

Lemma holds_window_elem W arr l y : holds_window W arr l -> y ∈ l -> y ∈ arr.
Proof.
  intros [_ Ht] Hy. assert (Hin : y ∈ at_time (fst y) l) by (by apply elem_of_at_time).
  rewrite Ht in Hin. case_bool_decide; [by apply elem_of_at_time in Hin as [_ Hin] | by apply elem_of_nil in Hin].
Qed.

(** One arrival keeps [holds_window]. *)
Lemma holds_window_add W arr l x :
  0 <= W -> holds_window W arr l -> Forall (fun y => in_range (fst y - W) = true) (arr ++ [x]) ->
  exists l', add W (Some (Aware (fst x))) (snd x) (aware <$> l) = (Ok tt, aware <$> l') /\
             holds_window W (arr ++ [x]) l'.
Proof.
  intros HW Hh Hr. pose proof Hh as [Hs Ht].
  assert (Hrl : forall y, y ∈ x :: l -> in_range (fst y - W) = true).
  { intros y Hy. rewrite Forall_forall in Hr. apply Hr. apply elem_of_app.
    apply elem_of_cons in Hy as [-> | Hy]; [right; by left | left; by eapply holds_window_elem]. }
  destruct (add_aware W x l Hs Hrl) as (l1 & l2 & n & -> & Hs' & Hl2 & Hl1 & Hn & Hmax & ->).
  eexists. split; [done|]. split.
  { clear -Hs'. induction Hs' as [|y m Hm IH Hy]; [constructor|]. rewrite filter_cons.
    case_decide; [|done]. constructor; [done|]. apply Forall_forall. intros z [_ Hz]%list_elem_of_filter.
    rewrite Forall_forall in Hy. by apply Hy. }
  intros t. unfold at_time at 1. rewrite filter_filter_and.
  assert (Hnew : Forall (fun y => fst y - W <= t) (arr ++ [x]) <-> fst n - W <= t).
  { split.
    - rewrite Forall_forall. intros Hall. apply Hall. apply elem_of_app.
      apply elem_of_cons in Hn as [-> | Hn]; [right; by left | left; by eapply holds_window_elem].
    - intros Hnt. apply Forall_app. split; [|apply Forall_singleton; specialize (Hmax x ltac:(by left)); lia].
      apply Forall_forall. intros y Hy.
      assert (fst y <= fst n); [|lia]. eapply holds_window_newest; [exact HW | exact Hh | | exact Hy].
      intros z Hz. apply Hmax. by right. }
  destruct (decide (fst n - W <= t)) as [Hnt | Hnt].
  - rewrite bool_decide_true by (by apply Hnew).
    transitivity (at_time t (l1 ++ x :: l2)).
    { unfold at_time. apply list_filter_iff. intros y. naive_solver lia. }
    specialize (Ht t). rewrite bool_decide_true in Ht
      by (apply Hnew, Forall_app in Hnt as [Hnt _]; exact Hnt).
    unfold at_time in *. rewrite !filter_app in *. rewrite <- Ht.
    destruct (decide (fst x = t)) as [<- | Hxt].
    + rewrite !filter_cons_True by done. rewrite (filter_none _ l2)
        by (eapply Forall_impl; [exact Hl2 | simpl; intros; lia]). by rewrite app_nil_r.
    + rewrite !filter_cons_False by done. by rewrite app_nil_r.
  - rewrite bool_decide_false by (by rewrite Hnew). apply filter_none, Forall_forall. intros y Hy. lia.
Qed.

(** ** Lemmas: the statistics *)

Lemma fmin_list_spec (x : float) xs :
  Forall (fun v => v <> S754_nan) (x :: xs) ->
  fmin_list x xs ∈ x :: xs /\ forall v, v ∈ x :: xs -> fleb (fmin_list x xs) v = true.
Proof.
  revert x. unfold fmin_list. induction xs as [|y xs IH]; intros x Hnan; simpl.
  - split; [by left|]. intros v ->%list_elem_of_singleton. apply fleb_refl. by apply Forall_inv in Hnan.
  - inversion Hnan as [|? ? Hx Hrest]; subst. inversion Hrest as [|? ? Hy Hxs]; subst.
    assert (Hm : fmin x y <> S754_nan) by (unfold fmin; by destruct (fltb y x)).
    destruct (IH (fmin x y)) as [Hin Hle]; [by constructor|].
    assert (Hmx : fleb (fmin x y) x = true /\ fleb (fmin x y) y = true).
    { unfold fmin. destruct (fltb y x) eqn:E.
      - split; [by apply fltb_fleb | by apply fleb_refl].
      - split; [by apply fleb_refl | by apply fltb_false_fleb]. }
    specialize (Hle (fmin x y) ltac:(by left)) as Hmm. split.
    + apply elem_of_cons in Hin as [-> | Hin]; [|right; by right]. unfold fmin. destruct (fltb y x); [right|]; by left.
    + intros v [-> | [-> | Hv]%elem_of_cons]%elem_of_cons;
        [eapply fleb_trans; [exact Hmm | apply Hmx].. | apply Hle; by right].
Qed.

Lemma fmax_list_spec (x : float) xs :
  Forall (fun v => v <> S754_nan) (x :: xs) ->
  fmax_list x xs ∈ x :: xs /\ forall v, v ∈ x :: xs -> fleb v (fmax_list x xs) = true.
Proof.
  revert x. unfold fmax_list. induction xs as [|y xs IH]; intros x Hnan; simpl.
  - split; [by left|]. intros v ->%list_elem_of_singleton. apply fleb_refl. by apply Forall_inv in Hnan.
  - inversion Hnan as [|? ? Hx Hrest]; subst. inversion Hrest as [|? ? Hy Hxs]; subst.
    assert (Hm : fmax x y <> S754_nan) by (unfold fmax; by destruct (fgtb y x)).
    destruct (IH (fmax x y)) as [Hin Hle]; [by constructor|].
    assert (Hmx : fleb x (fmax x y) = true /\ fleb y (fmax x y) = true).
    { unfold fmax, fgtb. destruct (fltb x y) eqn:E.
      - split; [by apply fltb_fleb | by apply fleb_refl].
      - split; [by apply fleb_refl | by apply fltb_false_fleb]. }
    specialize (Hle (fmax x y) ltac:(by left)) as Hmm. split.
    + apply elem_of_cons in Hin as [-> | Hin]; [|right; by right]. unfold fmax. destruct (fgtb y x); [right|]; by left.
    + intros v [-> | [-> | Hv]%elem_of_cons]%elem_of_cons;
        [eapply fleb_trans; [apply Hmx | exact Hmm].. | apply Hle; by right].
Qed.

(** What [_compute_stats] can raise: the square of a deviation that overflows,
    or a root of a sum that rounding made negative. *)
Definition variance_error (e : exn) : Prop := e = ArithError OverflowError \/ e = ArithError DomainError.

Lemma squares_error avg values e : squares avg values = Raise e -> e = ArithError OverflowError.
Proof.
  induction values as [|v values IH]; simpl; [done|]. unfold fsquare.
  destruct (is_finite _ && is_inf _); [by intros [= <-]|].
  destruct (squares avg values); [done | auto].
Qed.

Lemma fdiv_nonzero x y : is_zero y = false -> exists r, fdiv x y = inr r.
Proof. unfold fdiv. intros ->. eauto. Qed.

Lemma positive_nonzero x : fgtb x fzero = true -> is_zero x = false.
Proof. destruct x as [s | s | | s m e]; [by destruct s | done..]. Qed.

Lemma last_or_aware x l : exists y, last_or (aware x) (aware <$> l) = aware y.
Proof.
  unfold last_or. destruct l as [|y l _] using rev_ind; [by exists x|].
  exists y. rewrite fmap_app. simpl. by rewrite last_snoc.
Qed.

(** The rate of change of aware samples never raises. *)
Lemma rate_of_change_ok x y n : exists r, rate_of_change (aware x) (aware y) n = Ok r.
Proof.
  unfold rate_of_change. destruct (_ <? _); [|eauto]. simpl.
  destruct (fgtb _ fzero) eqn:E; [|eauto].
  destruct (fdiv_nonzero (fsub (snd y) (snd x)) (total_seconds (fst y - fst x)) (positive_nonzero _ E)) as [r ->].
  simpl. eauto.
Qed.

(** ** Lemmas: the registry *)

Lemma dict_get_snoc {V} (d : list (string * V)) k k' v :
  dict_get (d ++ [(k', v)]) k = match dict_get d k with Some x => Some x
                                | None => if bool_decide (k' = k) then Some v else None end.
Proof. induction d as [|[k0 v0] d IH]; simpl; [done|]. destruct (bool_decide (k0 = k)); [done | apply IH]. Qed.

Lemma dict_get_set_buf id buf r k :
  dict_get (set_buf id buf r) k =
  (fun t => if bool_decide (k = id) then mkTrackedSeries (ts_key t) buf else t) <$> dict_get r k.
Proof.
  induction r as [|[k0 t0] r IH]; [done|]. unfold set_buf in *. csimpl.
  destruct (decide (k0 = k)) as [-> | Hk].
  - rewrite (bool_decide_true (k = k)) by done. destruct (decide (k = id)) as [->|Hne].
    + rewrite bool_decide_true by done. csimpl. by rewrite bool_decide_true.
    + rewrite bool_decide_false by done. csimpl. by rewrite bool_decide_true.
  - rewrite (bool_decide_false (k0 = k)) by done.
    destruct (bool_decide (k0 = id)); csimpl; by rewrite bool_decide_false.
Qed.

(** [record] on a series whose buffer is sorted and aware. *)
Lemma record_aware W key x r l :
  buf_of (series_id key) r = aware <$> l -> StronglySorted earlier l ->
  (forall y, y ∈ x :: l -> in_range (fst y - W) = true) ->
  exists r', record W key (Some (Aware (fst x))) (snd x) r = (Ok tt, r').
Proof.
  intros Hb Hs Hr. destruct (add_aware W x l Hs Hr) as (l1 & l2 & n & _ & _ & _ & _ & _ & _ & Hadd). unfold record.
  set (r0 := match dict_get r (series_id key) with Some _ => r | None => r ++ [(series_id key, mkTrackedSeries key [])] end).
  assert (Hb0 : buf_of (series_id key) r0 = buf_of (series_id key) r).
  { subst r0. unfold buf_of. destruct (dict_get r (series_id key)) eqn:E; [by rewrite E|].
    rewrite dict_get_snoc, E. by rewrite bool_decide_true. }
  rewrite Hb0, Hb, Hadd. by eexists.
Qed.

(** ** Theorems *)

(** [C20] The buffer is the window.  After any non-empty sequence of arrivals, in
    any order of event times, the buffer is sorted by event time and holds, at
    each time within [W] of the newest arrival, exactly the arrivals of that
    time in their order of arrival, and nothing older: what sorting everything
    that ever arrived (stably) and filtering once would give. *)
Theorem buffer_is_window (W : Z) (arrivals : list (Z * float)) (newest : Z) :
  0 <= W -> Forall (fun x => in_range (fst x - W) = true) arrivals ->
  (exists v, (newest, v) ∈ arrivals) -> Forall (fun x => fst x <= newest) arrivals ->
  exists l, record_all W arrivals [] = (Ok tt, aware <$> l) /\
    StronglySorted earlier l /\
    forall t, at_time t l = if bool_decide (newest - W <= t) then at_time t arrivals else [].
Proof.
  intros HW Hr [v Hv] Hmax.
  assert (Hall : exists l, record_all W arrivals [] = (Ok tt, aware <$> l) /\ holds_window W arrivals l).
  { clear v Hv Hmax. induction arrivals as [|x arr IH] using rev_ind.
    - exists []. split; [done|]. split; [constructor|]. intros t. by case_bool_decide.
    - destruct IH as (l & Hl & Hh); [by apply Forall_app in Hr as [? _]|].
      rewrite record_all_snoc, Hl. by apply holds_window_add. }
  destruct Hall as (l & Hl & Hs & Ht). exists l. split_and!; [done | done |].
  intros t. rewrite Ht. apply (f_equal (fun b : bool => if b then at_time t arrivals else [])).
  apply bool_decide_ext. rewrite Forall_forall in *. split.
  - intros H. exact (H _ Hv).
  - intros H x Hx. specialize (Hmax x Hx). lia.
Qed.

(** A late sample and a tie: 30, 10 (late), 30 again, 95: with a window of 70,
    the 10 is gone and the two at 30 are in order. *)
Lemma buffer_is_window_witness :
  exists l, record_all 70 [(30, fone); (10, ftwo); (30, ftwo); (95, fone)] [] = (Ok tt, aware <$> l) /\
    StronglySorted earlier l /\
    forall t, at_time t l = if bool_decide (95 - 70 <= t)
                            then at_time t [(30, fone); (10, ftwo); (30, ftwo); (95, fone)] else [].
Proof.
  apply (buffer_is_window 70 [(30, fone); (10, ftwo); (30, ftwo); (95, fone)] 95).
  - lia.
  - repeat constructor.
  - exists fone. set_solver.
  - repeat constructor; simpl; lia.
Defined.



(** The registry keeps the series apart: recording a sample changes the
    buffer of its own device and metric only, by [add]; it starts a series where
    there is none, and an existing series keeps the key it was first seen with.
    Devices whose ids hold no ['|'] never share a series. *)
Theorem registry_isolates_series (W : Z) (key : SeriesKey) (at_ : timestamp) (v : float) (r : registry) :
  let '(x, r') := record W key at_ v r in
  (x, buf_of (series_id key) r') = add W at_ v (buf_of (series_id key) r) /\
  (forall id, id <> series_id key -> dict_get r' id = dict_get r id) /\
  ts_key <$> dict_get r' (series_id key) =
    Some (default key (ts_key <$> dict_get r (series_id key))) /\
  (forall key', has_char "|"%char (sk_device_id key) = false -> has_char "|"%char (sk_device_id key') = false ->
     series_id key = series_id key' -> sk_device_id key = sk_device_id key' /\ sk_metric key = sk_metric key').
Proof.
  unfold record. set (id := series_id key).
  set (r1 := match dict_get r id with Some _ => r | None => r ++ [(id, mkTrackedSeries key [])] end).
  assert (Hr1 : dict_get r1 id = Some (default (mkTrackedSeries key []) (dict_get r id)) /\
                forall k, k <> id -> dict_get r1 k = dict_get r k).
  { subst r1. destruct (dict_get r id) as [t|] eqn:E; [done|]. split.
    - rewrite dict_get_snoc, E. by rewrite bool_decide_true.
    - intros k Hk. rewrite dict_get_snoc. rewrite bool_decide_false by congruence. by destruct (dict_get r k). }
  destruct Hr1 as [Hid Hother].
  assert (Hbuf : buf_of id r1 = buf_of id r) by (unfold buf_of; rewrite Hid; by destruct (dict_get r id)).
  rewrite Hbuf. destruct (add W at_ v (buf_of id r)) as [x buf] eqn:E. split_and!.
  - f_equal. unfold buf_of. rewrite dict_get_set_buf, Hid. simpl. by rewrite bool_decide_true.
  - intros k Hk. rewrite dict_get_set_buf, (Hother k Hk). rewrite bool_decide_false by done.
    by destruct (dict_get r k).
  - rewrite dict_get_set_buf, Hid. simpl. rewrite bool_decide_true by done. simpl. by destruct (dict_get r id).
  - intros key' H1 H2 Heq. unfold id, series_id in Heq. by apply (sep_inj "|"%char).
Qed.
