(* ===== verification/StreamProcessor.v ===== *)
(** [services/stream-processor]: deduplication ([dedup.py]), the InfluxDB sink
    ([influx.py]), the Kafka side ([kafka_io.py]) and the processing of one
    message, the window flusher and the lag reporter ([main.py]). *)

From stdpp Require Import prelude strings pretty gmap.
From Stdlib Require Import ZArith Lia Ascii SpecFloat.
From S2P Require Import Prelude PyFloat Effects PyStr Reliability Events Kafka Window Ingestion.

Local Open Scope Z_scope.

(** [_duration_label] of a whole number of seconds, as Go's [Duration.String]. *)
Definition _duration_label (total : Z) : string :=
  if total <? 60 then pretty total +:+ "s"
  else
    let hours := total / 3600 in
    let rem := total mod 3600 in
    let minutes := rem / 60 in
    let seconds := rem mod 60 in
    if 0 <? hours then pretty hours +:+ "h" +:+ pretty minutes +:+ "m" +:+ pretty seconds +:+ "s"
    else pretty minutes +:+ "m" +:+ pretty seconds +:+ "s".

(** ** State *)

(** An InfluxDB point. *)
Inductive field_value := FFloat (x : float) | FInt (n : Z).
Record point := Point {
  pt_measurement : string; pt_tags : list (string * string);
  pt_fields : list (string * field_value); pt_time : timestamp
}.

Record sp := Sp {
  sp_kafka : kafka;
  sp_kafka_breaker : breaker;
  sp_influx_breaker : breaker;
  sp_influx_calls : nat;
  (** the points InfluxDB accepted, in order *)
  sp_points : list point;
  sp_redis_calls : nat;
  (** the keys of Redis with their expiry *)
  sp_redis : gmap string Z;
  sp_registry : registry;
  sp_metrics : metrics;
  sp_reads : nat
}.

#[export] Program Instance sp_kafka_part : Part sp kafka := {|
  part_get := sp_kafka;
  part_set k s := Sp k (sp_kafka_breaker s) (sp_influx_breaker s) (sp_influx_calls s) (sp_points s)
                     (sp_redis_calls s) (sp_redis s) (sp_registry s) (sp_metrics s) (sp_reads s) |}.
Solve All Obligations with (intros; by repeat match goal with s : sp |- _ => destruct s end).
#[export] Program Instance sp_registry_part : Part sp registry := {|
  part_get := sp_registry;
  part_set r s := Sp (sp_kafka s) (sp_kafka_breaker s) (sp_influx_breaker s) (sp_influx_calls s) (sp_points s)
                     (sp_redis_calls s) (sp_redis s) r (sp_metrics s) (sp_reads s) |}.
Solve All Obligations with (intros; by repeat match goal with s : sp |- _ => destruct s end).
#[export] Program Instance sp_metrics_part : Part sp metrics := {|
  part_get := sp_metrics;
  part_set m s := Sp (sp_kafka s) (sp_kafka_breaker s) (sp_influx_breaker s) (sp_influx_calls s) (sp_points s)
                     (sp_redis_calls s) (sp_redis s) (sp_registry s) m (sp_reads s) |}.
Solve All Obligations with (intros; by repeat match goal with s : sp |- _ => destruct s end).
(** The two breakers: [KafkaIO._breaker] and [InfluxSink._breaker]. *)
Program Definition kafka_breaker_part : Part sp breaker := {|
  part_get := sp_kafka_breaker;
  part_set b s := Sp (sp_kafka s) b (sp_influx_breaker s) (sp_influx_calls s) (sp_points s)
                     (sp_redis_calls s) (sp_redis s) (sp_registry s) (sp_metrics s) (sp_reads s) |}.
Solve All Obligations with (intros; by repeat match goal with s : sp |- _ => destruct s end).
Program Definition influx_breaker_part : Part sp breaker := {|
  part_get := sp_influx_breaker;
  part_set b s := Sp (sp_kafka s) (sp_kafka_breaker s) b (sp_influx_calls s) (sp_points s)
                     (sp_redis_calls s) (sp_redis s) (sp_registry s) (sp_metrics s) (sp_reads s) |}.
Solve All Obligations with (intros; by repeat match goal with s : sp |- _ => destruct s end).

(** The fields of [Config] the service reads; windows are whole seconds. *)
Record sp_config := SpConfig {
  sc_topic_processed : string; sc_topic_dead_letter : string;
  sc_dedup_ttl_seconds : Z; sc_windows_seconds : list Z;
  sc_influx_max_retries : Z; sc_influx_retry_delay : float;
  sc_kafka_max_retries : Z; sc_kafka_retry_delay : float
}.

(** What surrounds the service.  A command of Redis or a write to InfluxDB may
    fail; the flag says whether it took effect nevertheless. *)
Record sp_world := SpWorld {
  v_broker : nat -> delivery;
  v_influx : nat -> option (bool * exn);
  v_redis : nat -> option (bool * exn);
  (** the clock of the Redis server *)
  v_redis_now : nat -> Z;
  v_clock : sp -> float;
  v_utc_now : nat -> Z;
  v_load : string -> res NormalizedTelemetryEvent;
  v_dump : NormalizedTelemetryEvent -> res string;
  v_dump_dead_letter : DeadLetterRecord -> res string;
  v_decode : string -> string
}.

Section StreamProcessor.
  Variable w : sp_world.
  Variable cfg : sp_config.
  (** [time.sleep]: no state of the service changes. *)
Definition no_sleep (_ : float) : M sp unit := mret tt.

Definition read_utc : M sp Z := fun s =>
  (Ok (v_utc_now w (sp_reads s)),
   Sp (sp_kafka s) (sp_kafka_breaker s) (sp_influx_breaker s) (sp_influx_calls s) (sp_points s)
      (sp_redis_calls s) (sp_redis s) (sp_registry s) (sp_metrics s) (S (sp_reads s))).

(** ** [dedup.py] *)

Definition dedup_key (event_id : string) : string := "dedup:telemetry:" +:+ event_id.

(** [SET key 1 EX ttl NX]: [true] when the key was not there. *)
Definition set_nx (key : string) (ttl now : Z) (r : gmap string Z) : res bool * gmap string Z :=
  if ttl <=? 0 then (Raise (OtherError "ResponseError" "invalid expire time in 'set' command"), r)
  else match r !! key with
       | Some expiry => if now <? expiry then (Ok false, r) else (Ok true, <[key := now + seconds ttl]> r)
       | None => (Ok true, <[key := now + seconds ttl]> r)
       end.

Definition claim (event_id : string) : M sp bool := fun s =>
  let n := sp_redis_calls s in
  let '(x, r) := set_nx (dedup_key event_id) (sc_dedup_ttl_seconds cfg) (v_redis_now w n) (sp_redis s) in
  let st r := Sp (sp_kafka s) (sp_kafka_breaker s) (sp_influx_breaker s) (sp_influx_calls s) (sp_points s)
                 (S n) r (sp_registry s) (sp_metrics s) (sp_reads s) in
  match v_redis w n with
  | Some (kept, e) => (Raise e, st (if (kept : bool) then r else sp_redis s))
  | None => (x, st r)
  end.

(** ** [influx.py] *)

(** [self._write_api.write(record=points)]. *)
Definition influx_write (points : list point) : M sp unit := fun s =>
  let n := sp_influx_calls s in
  let st ps := Sp (sp_kafka s) (sp_kafka_breaker s) (sp_influx_breaker s) (S n) ps
                  (sp_redis_calls s) (sp_redis s) (sp_registry s) (sp_metrics s) (sp_reads s) in
  match v_influx w n with
  | Some (kept, e) => (Raise e, st (if (kept : bool) then sp_points s ++ points else sp_points s))
  | None => (Ok tt, st (sp_points s ++ points))
  end.

Definition influx_write_with_protection (points : list point) : M sp unit :=
  protected (H:=influx_breaker_part) (v_clock w) no_sleep (sc_influx_max_retries cfg) (sc_influx_retry_delay cfg)
    (RuntimeError "circuit breaker open for influxdb") (influx_write points).

Definition key_tags (key : SeriesKey) : list (string * string) :=
  [("factory_id", sk_factory_id key); ("production_line_id", sk_production_line_id key);
   ("machine_id", sk_machine_id key); ("device_id", sk_device_id key);
   ("sensor_id", sk_sensor_id key); ("metric", sk_metric key)].

Definition raw_point (key : SeriesKey) (at_ : timestamp) (value : float) : point :=
  Point "sensor_telemetry" (key_tags key) [("value", FFloat value)] at_.

Definition write_raw_point (key : SeriesKey) (at_ : timestamp) (value : float) : M sp unit :=
  influx_write_with_protection [raw_point key at_ value].

Definition write_aggregate_batch (points : list point) : M sp unit :=
  match points with [] => mret tt | _ => influx_write_with_protection points end.

Definition build_aggregate_point (key : SeriesKey) (window_label : string) (at_ : timestamp) (stats : WindowStats) : point :=
  Point "sensor_telemetry_agg" (key_tags key ++ [("window", window_label)])
    [("moving_avg", FFloat (ws_moving_avg stats)); ("moving_stddev", FFloat (ws_moving_stddev stats));
     ("min", FFloat (ws_min stats)); ("max", FFloat (ws_max stats));
     ("rate_of_change", FFloat (ws_rate_of_change stats)); ("count", FInt (ws_count stats))] at_.

(** ** [kafka_io.py] *)

Definition publish_processed (key : string) (evt : NormalizedTelemetryEvent) : M sp unit :=
  match v_dump w evt with
  | Raise exc => raise (ErrPermanent ("marshal processed telemetry: " +:+ exn_str exc))
  | Ok payload =>
      protected_write (H:=kafka_breaker_part) (v_broker w) (v_clock w) no_sleep (sc_kafka_max_retries cfg)
        (sc_kafka_retry_delay cfg) (sc_topic_processed cfg) key payload
  end.

Definition dead_letter (raw_payload : string) (cause : exn) (stage correlation_id : string) : M sp unit :=
  now ← read_utc;
  payload ← of_res (v_dump_dead_letter w (mkDeadLetterRecord (v_decode w raw_payload) (exn_str cause)
    ERROR_TYPE_TRANSIENT "stream-processor" stage 0 (Aware now) correlation_id "telemetry.raw"));
  lift (produce_and_wait (v_broker w) (sc_topic_dead_letter cfg) correlation_id payload).

(** ** [main.py] *)

(** The [except] of each stage: count, dead-letter, and whether to commit. *)
Definition fail_stage (reason : string) (raw : string) (exc : exn) (stage correlation_id : string) : M sp bool :=
  inc ("messages_failed_total:" +:+ reason) ;;
  try_else (dead_letter raw exc stage correlation_id)
    (fun _ => mret false)
    (fun _ => inc "dlq_messages_total" ;; mret true).

Definition series_key (evt : TelemetryEvent) : SeriesKey :=
  mkSeriesKey (te_factory_id evt) (te_production_line_id evt) (te_machine_id evt) (te_device_id evt)
    (te_sensor_id evt) (te_metric evt).

Definition max_window : Z := seconds (foldr Z.max 0 (sc_windows_seconds cfg)).

Definition _process_message (msg : fetched) : M sp bool :=
  inc "messages_consumed_total" ;;
  match v_load w (ft_value msg) with
  | Raise exc => fail_stage "unmarshal" (ft_value msg) exc "unmarshal" ""
  | Ok n =>
      let evt := nt_event n in
      try_else (claim (te_event_id evt))
        (fun _ => inc "messages_failed_total:dedup_unavailable" ;; mret false)
        (fun first_seen =>
          if negb first_seen then inc "duplicate_events_total" ;; mret true
          else
            let key := series_key evt in
            try_else (write_raw_point key (te_timestamp evt) (te_value evt))
              (fun exc => fail_stage "influx_write" (ft_value msg) exc "influxdb_write" (te_event_id evt))
              (fun _ =>
                lift (record max_window key (te_timestamp evt) (te_value evt)) ;;
                try_else (publish_processed (te_device_id evt) n)
                  (fun exc => fail_stage "republish" (ft_value msg) exc "republish_processed" (te_event_id evt))
                  (fun _ => mret true)))
  end.

(** The inner loop of [_flush_once]: the points of one series. *)
Fixpoint series_points (now : timestamp) (series : TrackedSeries) (windows : list Z) : res (list point) :=
  match windows with
  | [] => Ok []
  | win :: windows =>
      match stats_for now (seconds win) (ts_buf series) with
      | Raise e => Raise e
      | Ok st =>
          match series_points now series windows with
          | Raise e => Raise e
          | Ok ps => Ok (match st with
                         | Some st => build_aggregate_point (ts_key series) (_duration_label win) now st :: ps
                         | None => ps
                         end)
          end
      end
  end.

Fixpoint flush_points (now : timestamp) (tracked : list TrackedSeries) (windows : list Z) : res (list point) :=
  match tracked with
  | [] => Ok []
  | t :: tracked =>
      match series_points now t windows with
      | Raise e => Raise e
      | Ok ps => match flush_points now tracked windows with
                 | Raise e => Raise e
                 | Ok qs => Ok (ps ++ qs)
                 end
      end
  end.

Definition _flush_once : M sp unit :=
  now ← read_utc;
  r ← gets sp_registry;
  points ← of_res (flush_points (Some (Aware now)) (snapshot r) (sc_windows_seconds cfg));
  try_else (write_aggregate_batch points)
    (fun _ => mret tt)
    (fun _ => inc_by "windowed_aggregates_written_total" (Z.of_nat (length points))).

(** [_run_window_flusher]: one flush per tick until shutdown; what a flush
    raises ends the thread. *)
Fixpoint _run_window_flusher (ticks : nat) : M sp unit :=
  match ticks with O => mret tt | S ticks => _flush_once ;; _run_window_flusher ticks end.

(** [_run_lag_reporter]: the gauge after each tick's answer of [lag]. *)
Fixpoint _run_lag_reporter (answers : list (res Z)) : M sp unit :=
  match answers with
  | [] => mret tt
  | a :: answers =>
      n ← of_res a;
      lift (modify (fun m => Metrics (<["kafka_consumer_lag" := n]> (mt_counters m)))) ;;
      _run_lag_reporter answers
  end.

(** What [_consume_loop] does with a message before the commit. *)
Definition _process_timed (msg : fetched) : M sp bool := timed (_process_message msg).
Definition _consume_loop : list poll_event -> M (sp * Z) unit := consume_loop _process_timed.

End StreamProcessor.

(** ** Lemmas *)

Section Lemmas.
  Context (w : sp_world) (cfg : sp_config).

(** Redis and the registry untouched; what was stored stays. *)
Definition kept (s s' : sp) : Prop :=
  sp_redis s' = sp_redis s /\ sp_redis_calls s' = sp_redis_calls s /\ sp_registry s' = sp_registry s /\
  sp_points s `prefix_of` sp_points s' /\ log_grows (sp_kafka s) (sp_kafka s').

#[local] Instance kept_preorder : PreOrder kept.
Proof.
  split; [intros s; split_and!; reflexivity|].
  intros s1 s2 s3 (R1 & C1 & G1 & P1 & L1) (R2 & C2 & G2 & P2 & L2).
  split_and!; [congruence.. | by etrans | by etrans].
Qed.

Lemma kept_inc_by name n : moves kept (inc_by (S:=sp) name n).
Proof. intros s. split_and!; reflexivity. Qed.

Lemma kept_read : moves kept (read_utc w).
Proof. intros s. split_and!; reflexivity. Qed.

Lemma kept_produce topic key value : moves kept (lift (produce_and_wait (v_broker w) topic key value)).
Proof.
  intros s. unfold lift. pose proof (produce_grows (v_broker w) topic key value (part_get s)) as Hg.
  destruct (produce_and_wait _ _ _ _ _) as [r k']. split_and!; [reflexivity.. | exact Hg].
Qed.

Lemma kept_influx points : moves kept (influx_write w points).
Proof.
  intros s. unfold influx_write. destruct (v_influx w _) as [[[] e]|]; split_and!; simpl; try reflexivity;
    by apply prefix_app_r.
Qed.

Lemma kept_protected_influx points : moves kept (influx_write_with_protection w cfg points).
Proof.
  apply moves_protected; [apply _ | | | apply kept_influx].
  - intros b s. split_and!; reflexivity.
  - intros d s. split_and!; reflexivity.
Qed.

Lemma kept_publish key evt : moves kept (publish_processed w cfg key evt).
Proof.
  unfold publish_processed. destruct (v_dump w evt); [|apply moves_raise, _].
  apply moves_protected_write; [apply _ | | |].
  - intros b s. split_and!; reflexivity.
  - intros k s Hk. split_and!; try reflexivity. exact Hk.
  - intros d s. split_and!; reflexivity.
Qed.

Lemma kept_dead_letter raw exc stage cid : moves kept (dead_letter w cfg raw exc stage cid).
Proof.
  unfold dead_letter. apply moves_bind; [apply _ | apply kept_read|]. intros now.
  apply moves_bind; [apply _ | intros s; split_and!; reflexivity | intros; apply kept_produce].
Qed.

Lemma kept_fail_stage reason raw exc stage cid : moves kept (fail_stage w cfg reason raw exc stage cid).
Proof.
  unfold fail_stage. apply moves_bind; [apply _ | apply kept_inc_by|]. intros _.
  apply moves_try_else; [apply _ | apply kept_dead_letter | intros; apply moves_ret, _ |].
  intros _. apply moves_bind; [apply _ | apply kept_inc_by | intros; apply moves_ret, _].
Qed.

(** The message is in the dead-letter topic. *)
Definition dead_lettered (raw : string) (s : sp) : Prop :=
  exists m r, m ∈ kf_log (sp_kafka s) /\ mg_topic m = sc_topic_dead_letter cfg /\
    dl_original_payload r = v_decode w raw /\ v_dump_dead_letter w r = Ok (mg_value m).

(** A stage that failed commits only once the message is dead-lettered. *)
Lemma fail_stage_committed reason raw exc stage cid s s' :
  acks_all (v_broker w) -> fail_stage w cfg reason raw exc stage cid s = (Ok true, s') -> dead_lettered raw s'.
Proof.
  intros Hacks. unfold fail_stage. erewrite bind_ok by reflexivity. unfold try_else.
  match goal with |- context [dead_letter w cfg raw exc stage cid ?s1] => set (s1' := s1) end.
  destruct (dead_letter w cfg raw exc stage cid s1') as [[[]|e] s2] eqn:E; [|done].
  intros [= <-]. unfold dead_letter in E. erewrite bind_ok in E by reflexivity. unfold of_res in E.
  destruct (v_dump_dead_letter w _) as [payload|] eqn:Ed; [|by erewrite bind_raise in E by reflexivity].
  erewrite bind_ok in E by reflexivity. unfold lift in E.
  destruct (produce_and_wait _ _ _ _ _) as [r k'] eqn:Ep. injection E as -> <-.
  apply (produce_ok _ _ _ _ _ _ Hacks) in Ep. 
  eexists (Message (sc_topic_dead_letter cfg) cid payload), _. split_and!; [| | | exact Ed]; [|done..].
  simpl. rewrite Ep. apply elem_of_app. right. by apply list_elem_of_singleton.
Qed.

Lemma write_raw_stored key at_ v s s' :
  write_raw_point w cfg key at_ v s = (Ok tt, s') -> raw_point key at_ v ∈ sp_points s'.
Proof.
  unfold write_raw_point, influx_write_with_protection. intros H.
  destruct (protected_ok_inv (H:=influx_breaker_part) _ _ _ _ _ _ _ _ H) as (s1 & s2 & H2 & ->).
  unfold influx_write in H2. destruct (v_influx w _) as [[kept e]|]; [done|]. injection H2 as <-. simpl.
  apply elem_of_app. right. by apply list_elem_of_singleton.
Qed.

Lemma publish_stored key evt s s' :
  acks_all (v_broker w) -> publish_processed w cfg key evt s = (Ok tt, s') ->
  exists payload, v_dump w evt = Ok payload /\
    Message (sc_topic_processed cfg) key payload ∈ kf_log (sp_kafka s').
Proof.
  intros Hacks. unfold publish_processed. destruct (v_dump w evt) as [payload|]; [|done]. intros H.
  exists payload. split; [done|].
  eapply (protected_write_stored (H:=kafka_breaker_part) (H0:=sp_kafka_part)); [done | exact Hacks | exact H].
Qed.

(** Claiming changes Redis only. *)
Lemma claim_effect id s r s' :
  claim w cfg id s = (r, s') ->
  s' = Sp (sp_kafka s) (sp_kafka_breaker s) (sp_influx_breaker s) (sp_influx_calls s) (sp_points s)
          (S (sp_redis_calls s)) (sp_redis s') (sp_registry s) (sp_metrics s) (sp_reads s) /\
  (r = Ok false -> exists expiry, sp_redis s !! dedup_key id = Some expiry) /\
  (v_redis w (sp_redis_calls s) = None -> r = Ok true ->
   sp_redis s' !! dedup_key id =
     Some (v_redis_now w (sp_redis_calls s) + seconds (sc_dedup_ttl_seconds cfg))).
Proof.
  unfold claim. set (n := sp_redis_calls s).
  destruct (set_nx _ _ _ _) as [x rd] eqn:E. destruct (v_redis w n) as [[kept e]|].
  - intros [= <- <-]. split_and!; done.
  - intros [= <- <-]. split; [done|]. simpl. revert E. unfold set_nx.
    destruct (_ <=? 0); [by intros [= <- <-]|].
    destruct (sp_redis s !! dedup_key id) as [expiry|] eqn:Er.
    + destruct (v_redis_now w n <? expiry); intros [= <- <-].
      * split; [by eauto | done].
      * split; [done|]. intros _ _. apply lookup_insert_eq.
    + intros [= <- <-]. split; [done|]. intros _ _. apply lookup_insert_eq.
Qed.

Lemma set_nx_claimed key ttl now r expiry :
  0 < ttl -> r !! key = Some expiry -> now < expiry -> set_nx key ttl now r = (Ok false, r).
Proof.
  intros Ht Hr Hn. unfold set_nx. rewrite (proj2 (Z.leb_gt _ _) Ht), Hr. by rewrite (proj2 (Z.ltb_lt _ _) Hn).
Qed.

End Lemmas.

(** What a commit means.  When [_process_message] asks for the commit, the
    message is in the dead-letter topic, or its event id had been claimed
    before, or all of it happened: the raw point is in InfluxDB, the sample was
    recorded in its series, and the event is on [telemetry.processed], keyed by
    its device. *)
Lemma stream_committed (w : sp_world) (cfg : sp_config) (msg : fetched) (s s' : sp) :
  acks_all (v_broker w) -> _process_message w cfg msg s = (Ok true, s') ->
  dead_lettered w cfg (ft_value msg) s' \/
  exists n, v_load w (ft_value msg) = Ok n /\
    let evt := nt_event n in
    ((exists expiry, sp_redis s !! dedup_key (te_event_id evt) = Some expiry) \/
     (raw_point (series_key evt) (te_timestamp evt) (te_value evt) ∈ sp_points s' /\
      sp_registry s' = snd (record (max_window cfg) (series_key evt) (te_timestamp evt) (te_value evt) (sp_registry s)) /\
      exists payload, v_dump w n = Ok payload /\
        Message (sc_topic_processed cfg) (te_device_id evt) payload ∈ kf_log (sp_kafka s'))).
Proof.
  intros Hacks. unfold _process_message. erewrite bind_ok by reflexivity.
  match goal with |- context [match v_load w _ with _ => _ end ?s1] => set (s0 := s1) end.
  assert (Hs0 : sp_redis s0 = sp_redis s /\ sp_registry s0 = sp_registry s) by done.
  destruct Hs0 as [Hred Hreg]. clearbody s0.
  destruct (v_load w (ft_value msg)) as [n|exc]; [|intros H; left; by eapply fail_stage_committed].
  cbn zeta. unfold try_else at 1. destruct (claim w cfg _ s0) as [[first|e] s1] eqn:Ec; [|done].
  destruct (claim_effect w cfg _ _ _ _ Ec) as (Hs1 & Hdup & _).
  destruct first; cbn [negb]; [|intros _; right; exists n; split; [done|]; left; rewrite <- Hred; by apply Hdup].
  unfold try_else at 1.
  destruct (write_raw_point w cfg _ _ _ s1) as [[[]|e] s2] eqn:Ew; [|intros H; left; by eapply fail_stage_committed].
  pose proof (kept_protected_influx w cfg [raw_point (series_key (nt_event n)) (te_timestamp (nt_event n)) (te_value (nt_event n))] s1)
    as (_ & _ & Hr2 & _ & _).
  unfold write_raw_point in Ew. rewrite Ew in Hr2. simpl in Hr2.
  unfold mbind, M_bind, lift. simpl. destruct (record _ _ _ _ (sp_registry s2)) as [[[]|e] r3] eqn:Er; [|done].
  match goal with |- context [try_else _ _ _ ?s3'] => set (s3 := s3') end.
  unfold try_else at 1. destruct (publish_processed w cfg _ n s3) as [[[]|e] s4] eqn:Ep.
  - intros [= <-]. right. exists n. split; [done|]. right.
    pose proof (kept_publish w cfg (te_device_id (nt_event n)) n s3) as (_ & _ & Hr4 & Hp4 & _).
    rewrite Ep in *. simpl in *. split_and!.
    + destruct Hp4 as [more ->]. apply elem_of_app. left. by eapply (write_raw_stored w cfg _ _ _ s1 s2).
    + rewrite Hr4. simpl. rewrite <- Hreg. replace (sp_registry s0) with (sp_registry s2); [by rewrite Er|].
      rewrite Hr2, Hs1. done.
    + by eapply publish_stored.
  - intros H. left. by eapply fail_stage_committed.
Qed.

(** ** Theorems *)

(** *** An example surrounding *)

Definition demo_normalized : NormalizedTelemetryEvent :=
  mkNormalizedTelemetryEvent (demo_event 1) demo_uuid (Aware 0) SCHEMA_VERSION.

Definition demo_sp_world (broker : nat -> delivery) (influx : nat -> option (bool * exn)) : sp_world :=
  SpWorld broker influx (fun _ => None) (fun _ => 0) (fun _ => fzero) (fun _ => 0)
    (fun p => if bool_decide (p = "e") then Ok demo_normalized else Raise (ValueError "bad json"))
    (fun _ => Ok "processed") (fun r => Ok ("dlq:" +:+ dl_original_payload r)) (fun p => p).

Definition demo_sp_config : sp_config :=
  SpConfig "telemetry.processed" "dead-letter" 3600 [10; 30; 60; 300; 900] 1 fone 1 fone.

Definition demo_sp : sp :=
  Sp (Kafka 0 []) (new_breaker 5 fone) (new_breaker 5 fone) 0 [] 0 ∅ [] (Metrics ∅) 0.

(** A broker that is down. *)
Definition demo_down : delivery := Delivery None 1 None false.

(** [C39] A held message is not reprocessed.  When [_process_message] claims an
    event id and then declines to commit (no stage and no dead letter
    succeeded), a redelivery of the message before the claim expires is taken
    for a duplicate: it is committed, and nothing of it is written to InfluxDB,
    to Kafka or to the windows. *)
Theorem held_message_dropped_on_redelivery (w : sp_world) (cfg : sp_config) (msg : fetched)
    (n : NormalizedTelemetryEvent) (s s' : sp) :
  v_load w (ft_value msg) = Ok n -> 0 < sc_dedup_ttl_seconds cfg ->
  v_redis w (sp_redis_calls s) = None -> v_redis w (S (sp_redis_calls s)) = None ->
  v_redis_now w (S (sp_redis_calls s)) <
    v_redis_now w (sp_redis_calls s) + seconds (sc_dedup_ttl_seconds cfg) ->
  _process_message w cfg msg s = (Ok false, s') ->
  exists s'', _process_message w cfg msg s' = (Ok true, s'') /\
    sp_points s'' = sp_points s' /\ kf_log (sp_kafka s'') = kf_log (sp_kafka s') /\
    sp_registry s'' = sp_registry s'.
Proof.
  intros Hload Httl Hr1 Hr2 Hnow Hheld.
  assert (Hclaimed : sp_redis s' !! dedup_key (te_event_id (nt_event n)) =
      Some (v_redis_now w (sp_redis_calls s) + seconds (sc_dedup_ttl_seconds cfg)) /\
      sp_redis_calls s' = S (sp_redis_calls s)).
  { revert Hheld. unfold _process_message. erewrite bind_ok by reflexivity. rewrite Hload. cbn zeta.
    match goal with |- try_else _ _ _ ?s1 = _ -> _ => set (s0 := s1) end.
    assert (Hs0 : sp_redis_calls s0 = sp_redis_calls s) by done. clearbody s0.
    unfold try_else at 1. destruct (claim w cfg _ s0) as [[first|e] s1] eqn:Ec.
    2: { unfold claim in Ec. rewrite Hs0, Hr1 in Ec. unfold set_nx in Ec.
         rewrite (proj2 (Z.leb_gt _ _) Httl) in Ec.
         destruct (_ !! _) as [x|]; [destruct (_ <? x)|]; discriminate Ec. }
    destruct (claim_effect w cfg _ _ _ _ Ec) as (Hs1 & _ & Hset). rewrite Hs0 in *.
    destruct first; cbn [negb]; [|done]. specialize (Hset Hr1 eq_refl).
    assert (Hk : forall s2, kept s1 s2 -> sp_redis s2 !! dedup_key (te_event_id (nt_event n)) =
        Some (v_redis_now w (sp_redis_calls s) + seconds (sc_dedup_ttl_seconds cfg)) /\
        sp_redis_calls s2 = S (sp_redis_calls s)).
    { intros s2 (-> & -> & _). split; [done|]. by rewrite Hs1. }
    assert (Hstage : forall s2 reason exc stage cid s3, sp_redis s2 = sp_redis s1 -> sp_redis_calls s2 = sp_redis_calls s1 ->
        fail_stage w cfg reason (ft_value msg) exc stage cid s2 = (Ok false, s3) ->
        sp_redis s3 !! dedup_key (te_event_id (nt_event n)) =
        Some (v_redis_now w (sp_redis_calls s) + seconds (sc_dedup_ttl_seconds cfg)) /\
        sp_redis_calls s3 = S (sp_redis_calls s)).
    { intros s2 reason exc stage cid s3 H1 H2 H3.
      pose proof (kept_fail_stage w cfg reason (ft_value msg) exc stage cid s2) as (Hk1 & Hk2 & _).
      rewrite H3 in *. simpl in *. rewrite Hk1, Hk2, H1, H2. split; [done|]. by rewrite Hs1. }
    unfold try_else at 1, write_raw_point.
    pose proof (kept_protected_influx w cfg [raw_point (series_key (nt_event n)) (te_timestamp (nt_event n)) (te_value (nt_event n))] s1)
      as (Hk1 & Hk2 & _).
    destruct (influx_write_with_protection w cfg _ s1) as [[[]|e] s2]; simpl in Hk1, Hk2;
      [|by apply Hstage].
    unfold mbind, M_bind, lift. simpl. destruct (record _ _ _ _ _) as [[[]|e] r3]; [|done].
    match goal with |- try_else _ _ _ ?s3' = _ -> _ => set (s3 := s3') end.
    unfold try_else at 1. pose proof (kept_publish w cfg (te_device_id (nt_event n)) n s3) as (Hk3 & Hk4 & _).
    destruct (publish_processed w cfg _ n s3) as [[[]|e] s4]; [done|]. simpl in Hk3, Hk4.
    apply Hstage; congruence. }
  destruct Hclaimed as [Hkey Hcalls].
  unfold _process_message. erewrite bind_ok by reflexivity. rewrite Hload. cbn zeta.
  unfold try_else at 1, claim. cbn [sp_redis_calls sp_redis]. simpl. rewrite Hcalls.
  rewrite (set_nx_claimed _ _ _ _ _ Httl Hkey Hnow), Hr2. simpl. eexists. split; [reflexivity|]. done.
Qed.

(** InfluxDB and the broker are down for the first delivery, and up again: the
    reading is nowhere. *)
Lemma held_message_dropped_on_redelivery_witness :
  let w := demo_sp_world (fun k => match k with 0%nat => demo_down | _ => demo_delivery end)
             (fun k => match k with 0%nat => Some (false, RuntimeError "down") | _ => None end) in
  let s' := exec (_process_message w demo_sp_config (Fetched 7 "e")) demo_sp in
  (sp_points s', kf_log (sp_kafka s')) = ([], []) /\
  exists s'', _process_message w demo_sp_config (Fetched 7 "e") s' = (Ok true, s'') /\
    sp_points s'' = sp_points s' /\ kf_log (sp_kafka s'') = kf_log (sp_kafka s') /\
    sp_registry s'' = sp_registry s'.
Proof.
  cbn zeta. split; [by vm_compute|].
  apply (held_message_dropped_on_redelivery
    (demo_sp_world (fun k => match k with 0%nat => demo_down | _ => demo_delivery end)
       (fun k => match k with 0%nat => Some (false, RuntimeError "down") | _ => None end))
    demo_sp_config (Fetched 7 "e") demo_normalized demo_sp); [reflexivity | done | done | done | done |].
  apply run_eq; by vm_compute.
Defined.

(** A reading can end the window flusher.  Two readings that validation
    accepts (finite values), far enough apart: the square in the variance
    overflows, the [OverflowError] leaves [_flush_once], and the flusher thread
    with it; nothing is written then or later. *)
Theorem flush_overflow_escapes :
  let v := S754_finite false 1 600 in
  let evt := mkTelemetryEvent demo_uuid demo_uuid demo_uuid demo_uuid demo_uuid demo_uuid demo_uuid
               (Some (Aware 0)) 1 "temperature" v "C" in
  validate_telemetry (fun s => s) (fun s => s) evt = Ok tt /\
  let r := snd (record (max_window demo_sp_config) (series_key evt) (Some (Aware 0)) v
             (snd (record (max_window demo_sp_config) (series_key evt) (Some (Aware 0)) (fopp v) []))) in
  let s := Sp (Kafka 0 []) (new_breaker 5 fone) (new_breaker 5 fone) 0 [] 0 ∅ r (Metrics ∅) 0 in
  forall ticks, (0 < ticks)%nat ->
  exists s', _run_window_flusher (demo_sp_world (fun _ => demo_delivery) (fun _ => None)) demo_sp_config ticks s =
    (Raise (ArithError OverflowError), s') /\ sp_points s' = [].
Proof.
  cbn zeta. split; [by vm_compute|]. intros [|ticks] Ht; [lia|]. cbn [_run_window_flusher].
  eexists. split.
  - apply bind_raise. apply run_eq; by vm_compute.
  - by vm_compute.
Qed.

(** Offsets only say where to resume.  After any run of the loop over messages
    with increasing offsets, the committed offset is past every message that
    was committed, and so past every message that was held before it: a held
    message is never fetched again by the group once a later one is committed. *)
Theorem held_offset_passed (w : sp_world) (cfg : sp_config) (held next : fetched) (between : list poll_event)
    (s s1 s2 s' : sp) (c c2 : Z) :
  ft_offset held < ft_offset next ->
  _process_timed w cfg held s = (Ok false, s1) ->
  _consume_loop w cfg between (s1, c) = (Ok tt, (s2, c2)) ->
  _process_timed w cfg next s2 = (Ok true, s') ->
  exists c', _consume_loop w cfg (PollMessage held None :: between ++ [PollMessage next None]) (s, c) = (Ok tt, (s', c')) /\
    ft_offset held < c'.
Proof.
  intros Hlt Hheld Hbetween Hnext. exists (ft_offset next + 1). split; [|lia].
  unfold _consume_loop in *. cbn [consume_loop]. unfold on_service at 1, mbind at 1, M_bind. cbn [fst snd].
  rewrite Hheld. cbn [snd]. unfold mbind at 1, mret, M_ret.
  rewrite consume_loop_app, Hbetween. cbn [consume_loop].
  unfold on_service, mbind, M_bind. cbn [fst snd]. rewrite Hnext. reflexivity.
Qed.

Lemma held_offset_passed_witness :
  let w := demo_sp_world (fun k => match k with 0%nat => demo_down | _ => demo_delivery end)
             (fun k => match k with 0%nat => Some (false, RuntimeError "down") | _ => None end) in
  let s' := exec (_process_timed w demo_sp_config (Fetched 8 "x"))
              (exec (_process_timed w demo_sp_config (Fetched 7 "e")) demo_sp) in
  exists c', _consume_loop w demo_sp_config (PollMessage (Fetched 7 "e") None :: [] ++ [PollMessage (Fetched 8 "x") None])
    (demo_sp, 7) = (Ok tt, (s', c')) /\ 7 < c'.
Proof.
  cbn zeta.
  apply (held_offset_passed (demo_sp_world (fun k => match k with 0%nat => demo_down | _ => demo_delivery end)
       (fun k => match k with 0%nat => Some (false, RuntimeError "down") | _ => None end)) demo_sp_config
    (Fetched 7 "e") (Fetched 8 "x") [] demo_sp
    (exec (_process_timed (demo_sp_world (fun k => match k with 0%nat => demo_down | _ => demo_delivery end)
       (fun k => match k with 0%nat => Some (false, RuntimeError "down") | _ => None end)) demo_sp_config (Fetched 7 "e")) demo_sp)
    (exec (_process_timed (demo_sp_world (fun k => match k with 0%nat => demo_down | _ => demo_delivery end)
       (fun k => match k with 0%nat => Some (false, RuntimeError "down") | _ => None end)) demo_sp_config (Fetched 7 "e")) demo_sp)
    _ 7 7).
  - done.
  - apply run_eq; by vm_compute.
  - reflexivity.
  - apply run_eq; by vm_compute.
Defined.
