(* ===== verification/Detect.v ===== *)
(** [anomaly-detector/rules.py], [stats.py] and [detect.py]: the operating-range
    rule, the EWMA z-score tracker, and the combination of the detectors. *)

From stdpp Require Import prelude strings gmap.
From Stdlib Require Import ZArith Lia SpecFloat.
From S2P Require Import Prelude PyFloat Effects PyStr Events Window.

Local Open Scope Z_scope.

(** ** [rules.py] *)

Record MetricRange := mkMetricRange { mr_min : float; mr_max : float }.

(** [MetricRange()]. *)
Definition default_range : MetricRange := mkMetricRange fzero fzero.

Definition clamp01 (v : float) : float :=
  if fltb v fzero then fzero else if fgtb v fone then fone else v.

(** A detector's verdict: fired, severity, score. *)
Definition verdict : Type := bool * string * float.
Definition no_verdict : verdict := (false, "", fzero).

Definition half : float := flit 5 10.
Definition one_fifth : float := flit 2 10.

(** The part of [rule_check] after the overshoot is known. *)
Definition rule_verdict (overshoot : float) : verdict :=
  let score := clamp01 overshoot in
  let severity := if fgeb overshoot half then SEVERITY_CRITICAL
                  else if fgeb overshoot one_fifth then SEVERITY_HIGH else SEVERITY_WARNING in
  (true, severity, score).

Definition rule_check (value : float) (r : MetricRange) : res verdict :=
  let span := fsub (mr_max r) (mr_min r) in
  if fleb span fzero then Ok no_verdict
  else if fgtb value (mr_max r) then
    res_bind (lift_arith (fdiv (fsub value (mr_max r)) span)) (fun o => Ok (rule_verdict o))
  else if fltb value (mr_min r) then
    res_bind (lift_arith (fdiv (fsub (mr_min r) value) span)) (fun o => Ok (rule_verdict o))
  else Ok no_verdict.

(** ** [stats.py] *)

Record EWMATracker := mkEWMATracker {
  ew_alpha : float; ew_mean : float; ew_variance : float; ew_sample_count : Z; ew_initialized : bool
}.

Definition new_tracker (alpha : float) : EWMATracker := mkEWMATracker alpha fzero fzero 0 false.

(** [EWMATracker.update]: z-score and count, and the tracker afterwards. *)
Definition ewma_update (value : float) (t : EWMATracker) : res (float * Z) * EWMATracker :=
  if negb (ew_initialized t) then (Ok (fzero, 1), mkEWMATracker (ew_alpha t) value fzero 1 true)
  else
    match fsqrt (ew_variance t) with
    | inl e => (Raise (ArithError e), t)
    | inr stddev =>
        match (if fgtb stddev fzero then fdiv (fsub value (ew_mean t)) stddev else inr fzero) with
        | inl e => (Raise (ArithError e), t)
        | inr z_score =>
            let delta := fsub value (ew_mean t) in
            let mean := fadd (ew_mean t) (fmul (ew_alpha t) delta) in
            let variance := fmul (fsub fone (ew_alpha t))
                              (fadd (ew_variance t) (fmul (fmul (ew_alpha t) delta) delta)) in
            let n := ew_sample_count t + 1 in
            (Ok (z_score, n), mkEWMATracker (ew_alpha t) mean variance n true)
        end
    end.

(** [StatisticalTrackers]: one tracker per [f"{device_id}|{metric}"]. *)
Record StatisticalTrackers := mkStatisticalTrackers {
  st_alpha : float; st_trackers : gmap string EWMATracker
}.

Definition tracker_key (device_id metric : string) : string := device_id +:+ "|" +:+ metric.

Definition tracker_of (s : StatisticalTrackers) (key : string) : EWMATracker :=
  default (new_tracker (st_alpha s)) (st_trackers s !! key).

Definition trackers_update (device_id metric : string) (value : float) : M StatisticalTrackers (float * Z) := fun s =>
  let key := tracker_key device_id metric in
  let '(r, t) := ewma_update value (tracker_of s key) in
  (r, mkStatisticalTrackers (st_alpha s) (<[key := t]> (st_trackers s))).

Definition stat_check (z_score : float) (sample_count min_samples : Z) (threshold : float) : res verdict :=
  if sample_count <? min_samples then Ok no_verdict
  else
    let abs_z := fabs z_score in
    if fltb abs_z threshold then Ok no_verdict
    else
      res_bind (lift_arith (fdiv abs_z (fmul threshold ftwo))) (fun q =>
      let score := clamp01 q in
      let severity := if fgeb abs_z (fmul threshold (flit 16 10)) then SEVERITY_CRITICAL
                      else if fgeb abs_z (fmul threshold (flit 13 10)) then SEVERITY_HIGH else SEVERITY_WARNING in
      Ok (true, severity, score)).

(** ** [detect.py] *)

Record Detection := mkDetection {
  dt_method : string; dt_severity : string; dt_score : float; dt_reason : string
}.

Definition SEVERITY_RANK : list (string * Z) :=
  [(SEVERITY_INFO, 0); (SEVERITY_WARNING, 1); (SEVERITY_HIGH, 2); (SEVERITY_CRITICAL, 3)].

Definition isolation_check (score threshold : float) : verdict :=
  if fltb score threshold then no_verdict
  else
    let severity := if fgeb score (flit 75 100) then SEVERITY_CRITICAL
                    else if fgeb score (fadd threshold (flit 6 100)) then SEVERITY_HIGH else SEVERITY_WARNING in
    (true, severity, score).

(** The thresholds of [Config]. *)
Record detect_config := DetectConfig {
  min_samples_for_zscore : Z; zscore_threshold : float; forest_score_threshold : float
}.

(** The detection of a verdict that fired. *)
Definition detection (method reason : string) (v : verdict) : list Detection :=
  let '(fired, severity, score) := v in
  if (fired : bool) then [mkDetection method severity score reason] else [].

Definition run_detectors (value : float) (rng : MetricRange) (has_range : bool) (z_score : float) (sample_count : Z)
    (cfg : detect_config) (forest_score : float) (has_forest : bool) : res (list Detection) :=
  res_bind (if has_range then rule_check value rng else Ok no_verdict) (fun rule =>
  res_bind (stat_check z_score sample_count (min_samples_for_zscore cfg) (zscore_threshold cfg)) (fun stat =>
  let forest := if has_forest then isolation_check forest_score (forest_score_threshold cfg) else no_verdict in
  Ok (detection "RULE" ("value " +:+ fmt_fixed 2 value +:+ " outside safe operating range ["
                  +:+ fmt_fixed 2 (mr_min rng) +:+ ", " +:+ fmt_fixed 2 (mr_max rng) +:+ "]") rule ++
      detection "STATISTICAL" ("z-score " +:+ fmt_fixed 2 z_score +:+ " exceeds threshold "
                  +:+ fmt_fixed 2 (zscore_threshold cfg) +:+ " against rolling baseline") stat ++
      detection "ISOLATION_FOREST" ("isolation forest anomaly score " +:+ fmt_fixed 3 forest_score
                  +:+ " exceeds threshold " +:+ fmt_fixed 3 (forest_score_threshold cfg)) forest))).

(** [_SEVERITY_RANK[severity]]; the detectors only give severities that are keys. *)
Definition severity_rank (s : string) : Z := default (-1) (dict_get SEVERITY_RANK s).

(** The accumulators of the loop of [combine_detections]. *)
Record combined := mkCombined {
  cb_severity : string; cb_score : float; cb_methods : list string; cb_reason : string
}.

Definition combine_step (c : combined) (r : Detection) : combined :=
  mkCombined
    (if severity_rank (cb_severity c) <? severity_rank (dt_severity r) then dt_severity r else cb_severity c)
    (if fgtb (dt_score r) (cb_score c) then dt_score r else cb_score c)
    (cb_methods c ++ [dt_method r])
    (if bool_decide (cb_reason c = "") then dt_reason r else cb_reason c +:+ "; " +:+ dt_reason r).

Definition combine_detections (results : list Detection) : combined :=
  foldl combine_step (mkCombined SEVERITY_INFO fzero [] "") results.

(** ** Lemmas *)

Lemma clamp01_bounds v : v <> S754_nan -> fleb fzero (clamp01 v) = true /\ fleb (clamp01 v) fone = true.
Proof.
  intros Hv. unfold clamp01, fgtb.
  assert (H1 : fone <> S754_nan) by done. assert (H0 : fzero <> S754_nan) by done.
  destruct (fltb v fzero) eqn:E0; [split; done|].
  destruct (fltb fone v) eqn:E1; [split; done|]. split.
  - by apply fltb_false_fleb.
  - by apply fltb_false_fleb.
Qed.

(** The verdict of the rule, for an overshoot that is a number. *)
Lemma rule_verdict_score o : o <> S754_nan ->
  fleb fzero (snd (rule_verdict o)) = true /\ fleb (snd (rule_verdict o)) fone = true.
Proof. apply clamp01_bounds. Qed.

Lemma positive_span r : fleb (fsub (mr_max r) (mr_min r)) fzero = false ->
  is_finite (fsub (mr_max r) (mr_min r)) = true -> is_zero (fsub (mr_max r) (mr_min r)) = false.
Proof. by destruct (fsub _ _) as [[]|[]| |[]]. Qed.

(** A tracker whose variance has no sign: [sqrt] is defined on it. *)
Definition tracker_ok (t : EWMATracker) : Prop :=
  fneg (ew_variance t) = false /\ fneg (ew_alpha t) = false /\ fneg (fsub fone (ew_alpha t)) = false.

Lemma fsqrt_ok x : fneg x = false -> exists y, fsqrt x = inr y.
Proof. intros Hx. unfold fsqrt. rewrite fneg_not_lt by done. eauto. Qed.

Lemma ewma_update_ok value t : tracker_ok t ->
  exists z n, fst (ewma_update value t) = Ok (z, n) /\ tracker_ok (snd (ewma_update value t)) /\
    ew_alpha (snd (ewma_update value t)) = ew_alpha t.
Proof.
  intros (Hv & Ha & H1a). unfold ewma_update. destruct (ew_initialized t); cbn [negb]; [|simpl; unfold tracker_ok; eauto 10].
  destruct (fsqrt_ok _ Hv) as [sd ->].
  assert (Hz : exists z, (if fgtb sd fzero then fdiv (fsub value (ew_mean t)) sd else inr fzero) = inr z).
  { destruct (fgtb sd fzero) eqn:E; [|eauto]. apply fdiv_nonzero. by apply positive_nonzero. }
  destruct Hz as [z ->]. cbv zeta. cbn [fst snd]. exists z, (ew_sample_count t + 1). split; [done|]. split; [|done].
  split_and!; cbn [ew_variance ew_alpha]; [|done|done].
  apply fmul_nonneg. rewrite H1a. rewrite xorb_false_l. apply fadd_nonneg; [done|]. by apply fmul_square_nonneg.
Qed.

(** *** Combining *)

Definition known_severity (s : string) : Prop := s ∈ map fst SEVERITY_RANK.

Lemma combine_snoc results r : combine_detections (results ++ [r]) = combine_step (combine_detections results) r.
Proof. unfold combine_detections. by rewrite foldl_app. Qed.

(** The trackers' invariant: every variance can be rooted, and every tracker has
    the common [alpha]. *)
Definition trackers_ok (s : StatisticalTrackers) : Prop :=
  fneg (st_alpha s) = false /\ fneg (fsub fone (st_alpha s)) = false /\
  forall key t, st_trackers s !! key = Some t -> tracker_ok t.

Lemma tracker_of_ok s key : trackers_ok s -> tracker_ok (tracker_of s key).
Proof.
  intros (Ha & H1a & Ht). unfold tracker_of. destruct (st_trackers s !! key) as [t|] eqn:E; [by eapply Ht|].
  by split_and!.
Qed.

(** One reading: it is counted in its own series only. *)
Lemma trackers_update_ok d m v s : trackers_ok s -> exists z n s', trackers_update d m v s = (Ok (z, n), s') /\
  trackers_ok s' /\ n = ew_sample_count (tracker_of s' (tracker_key d m)) /\
  n = (if ew_initialized (tracker_of s (tracker_key d m))
     then ew_sample_count (tracker_of s (tracker_key d m)) + 1 else 1) /\
  forall key, key <> tracker_key d m -> st_trackers s' !! key = st_trackers s !! key.
Proof.
  intros Hs. pose proof (tracker_of_ok s (tracker_key d m) Hs) as Ht.
  destruct (ewma_update_ok v _ Ht) as (z & n & Hz & Hok & _). unfold trackers_update.
  destruct (ewma_update v (tracker_of s (tracker_key d m))) as [r t'] eqn:E. simpl in Hz, Hok. subst r.
  exists z, n. eexists. split; [done|]. split_and!.
  - destruct Hs as (H1 & H2 & H3). split_and!; [done..|]. intros key t. simpl.
    destruct (decide (key = tracker_key d m)) as [->|]; [rewrite lookup_insert_eq; by intros [= <-]|].
    rewrite lookup_insert_ne by done. apply H3.
  - unfold tracker_of at 1. simpl. rewrite lookup_insert_eq. simpl. revert E. unfold ewma_update.
    destruct (negb _); [by intros [= _ <- <-]|]. destruct (fsqrt _) as [|sd]; [done|].
    destruct (if fgtb sd fzero then _ else _); [done|]. by intros [= _ <- <-].
  - revert E. unfold ewma_update. destruct (ew_initialized _); cbn [negb]; [|by intros [= _ <- _]].
    destruct (fsqrt _) as [|sd]; [done|]. destruct (if fgtb sd fzero then _ else _); [done|].
    by intros [= _ <- _].
  - intros key Hkey. simpl. by rewrite lookup_insert_ne.
Qed.

(** Outside a range that is not empty the rule fires. *)
Lemma rule_check_outside value r :
  fgtb (fsub (mr_max r) (mr_min r)) fzero = true -> fgtb value (mr_max r) = true \/ fltb value (mr_min r) = true ->
  exists severity score, rule_check value r = Ok (true, severity, score).
Proof.
  intros Hspan Hout. unfold rule_check. rewrite (fltb_asym _ _ Hspan).
  pose proof (positive_nonzero _ Hspan) as Hz. unfold fdiv. rewrite Hz.
  destruct (fgtb value (mr_max r)); [do 2 eexists; reflexivity|].
  destruct Hout as [Hout | ->]; [done | do 2 eexists; reflexivity].
Qed.

(** A score of a detector: a finite number, or NaN. *)
Definition score_ok (x : float) : Prop := is_finite x = true \/ x = S754_nan.

Lemma clamp01_score v : score_ok (clamp01 v).
Proof.
  unfold score_ok, clamp01. destruct v as [s|[]| |s m e]; try (by vm_compute; auto).
  repeat case_match; auto.
Qed.

Lemma rule_check_score value r v : rule_check value r = Ok v -> score_ok (snd v).
Proof.
  unfold rule_check. destruct (fleb _ _); [intros [= <-]; by left|].
  assert (H : forall x, res_bind (lift_arith x) (fun o => Ok (rule_verdict o)) = Ok v -> score_ok (snd v))
    by (intros [e|o]; [done | intros [= <-]; apply clamp01_score]).
  destruct (fgtb _ _); [apply H|]. destruct (fltb _ _); [apply H | intros [= <-]; by left].
Qed.

Lemma stat_check_score z n min threshold v : stat_check z n min threshold = Ok v -> score_ok (snd v).
Proof.
  unfold stat_check. destruct (n <? min); [intros [= <-]; by left|]. cbv zeta. destruct (fltb _ _); [intros [= <-]; by left|].
  destruct (lift_arith _) as [q|]; [|done]. intros [= <-]. apply clamp01_score.
Qed.

Lemma detection_scores method reason v : score_ok (snd v) -> Forall (fun d => score_ok (dt_score d)) (detection method reason v).
Proof. destruct v as [[[] severity] x]; intros Hx; [by apply Forall_singleton | by apply Forall_nil]. Qed.

(** The scores of what the detectors report. *)
Lemma run_detectors_scores value rng has_range z n cfg x has_forest results :
  score_ok x -> run_detectors value rng has_range z n cfg x has_forest = Ok results ->
  Forall (fun d => score_ok (dt_score d)) results.
Proof.
  intros Hx. unfold run_detectors.
  destruct (if has_range then rule_check value rng else Ok no_verdict) as [rule|e] eqn:Er; [|done]. cbn [res_bind].
  assert (Hrule : score_ok (snd rule)).
  { destruct has_range; [by eapply rule_check_score | injection Er as <-; by left]. }
  destruct (stat_check _ _ _ _) as [stat|e] eqn:Es; [|done]. apply stat_check_score in Es. cbn [res_bind].
  intros [= <-]. rewrite !Forall_app. split_and!; apply detection_scores; [done | done|].
  destruct has_forest; [|by left]. unfold isolation_check. destruct (fltb _ _); [by left | exact Hx].
Qed.

(** The combined score is never NaN: a NaN does not exceed it. *)
Lemma combine_score_finite results :
  Forall (fun d => score_ok (dt_score d)) results -> is_finite (cb_score (combine_detections results)) = true.
Proof.
  induction results as [|r results IH] using rev_ind; [done|]. rewrite Forall_app, Forall_singleton. intros [Hall Hr].
  specialize (IH Hall). rewrite combine_snoc. destruct (combine_detections results) as [sev x methods reason]. simpl in *.
  destruct (fgtb (dt_score r) x) eqn:E; [|done]. destruct Hr as [Hr | Hr]; [done|].
  unfold fgtb in E. apply fltb_not_nan in E as [_ E]. by rewrite Hr in E.
Qed.

(** ** Theorems *)

(** The rule fires exactly outside the range.  For finite readings and a
    range whose span is finite: [rule_check] never raises; it fires when and only
    when the range is not empty and the value lies strictly outside it; a score
    it gives is in [[0, 1]], and the severity is the band of the overshoot. *)
Theorem rule_check_spec (value : float) (r : MetricRange) :
  is_finite value = true -> is_finite (mr_min r) = true -> is_finite (mr_max r) = true ->
  is_finite (fsub (mr_max r) (mr_min r)) = true ->
  exists fired severity score, rule_check value r = Ok (fired, severity, score) /\
    (fired = true <-> fgtb (fsub (mr_max r) (mr_min r)) fzero = true /\
                      (fgtb value (mr_max r) = true \/ fltb value (mr_min r) = true)) /\
    (fired = true ->
       fleb fzero score = true /\ fleb score fone = true /\
       exists overshoot, score = clamp01 overshoot /\
         severity = (if fgeb overshoot half then SEVERITY_CRITICAL
                     else if fgeb overshoot one_fifth then SEVERITY_HIGH else SEVERITY_WARNING)).
Proof.
  intros Hv Hmin Hmax Hspan. set (span := fsub (mr_max r) (mr_min r)) in *. unfold rule_check. fold span.
  assert (Hn : span <> S754_nan) by (by destruct span).
  destruct (fleb span fzero) eqn:E0.
  { exists false, "", fzero. split; [done|]. split; [|done]. split; [done|].
    intros [Hpos _]. exfalso. unfold fgtb in Hpos. by rewrite (fltb_asym _ _ Hpos) in E0. }
  assert (Hpos : fgtb span fzero = true) by (apply fleb_false_fltb; done).
  assert (Hz : is_zero span = false) by (by apply positive_nonzero).
  assert (Hover : forall a b, is_finite a = true -> is_finite b = true ->
      exists o, fdiv (fsub a b) span = inr o /\ o <> S754_nan).
  { intros a b Ha Hb. unfold fdiv. rewrite Hz. eexists. split; [done|].
    apply SFdiv_not_nan; [by apply fsub_not_nan | done | done]. }
  assert (Hfire : forall o, o <> S754_nan ->
      fleb fzero (clamp01 o) = true /\ fleb (clamp01 o) fone = true /\
       exists overshoot, clamp01 o = clamp01 overshoot /\
         snd (fst (rule_verdict o)) = (if fgeb overshoot half then SEVERITY_CRITICAL
                     else if fgeb overshoot one_fifth then SEVERITY_HIGH else SEVERITY_WARNING)).
  { intros o Ho. destruct (clamp01_bounds o Ho). split_and!; [done..|]. by exists o. }
  destruct (fgtb value (mr_max r)) eqn:E1; [|destruct (fltb value (mr_min r)) eqn:E2].
  - destruct (Hover value (mr_max r) Hv Hmax) as (o & -> & Ho). do 3 eexists. split; [reflexivity|].
    split; [split; [intros _; split; [exact Hpos | auto] | done]|]. intros _. by apply Hfire.
  - destruct (Hover (mr_min r) value Hmin Hv) as (o & -> & Ho). do 3 eexists. split; [reflexivity|].
    split; [split; [intros _; split; [exact Hpos | auto] | done]|]. intros _. by apply Hfire.
  - exists false, "", fzero. split; [done|]. split; [|done]. split; [done|]. by intros [_ [|]].
Qed.

Lemma rule_check_spec_witness :
  exists fired severity score,
    rule_check (float_of_Z 130) (mkMetricRange (float_of_Z 20) (float_of_Z 120)) = Ok (fired, severity, score) /\
    (fired = true <-> fgtb (fsub (float_of_Z 120) (float_of_Z 20)) fzero = true /\
                      (fgtb (float_of_Z 130) (float_of_Z 120) = true \/ fltb (float_of_Z 130) (float_of_Z 20) = true)) /\
    (fired = true ->
       fleb fzero score = true /\ fleb score fone = true /\
       exists overshoot, score = clamp01 overshoot /\
         severity = (if fgeb overshoot half then SEVERITY_CRITICAL
                     else if fgeb overshoot one_fifth then SEVERITY_HIGH else SEVERITY_WARNING)).
Proof. apply (rule_check_spec (float_of_Z 130) (mkMetricRange (float_of_Z 20) (float_of_Z 120))); by vm_compute. Defined.

(** The statistical baseline never fails.  With [alpha] in [[0, 1]], from the
    empty trackers and for any readings of any series, infinities and NaN
    included, [update] returns: the variance keeps its sign, so [sqrt] is
    defined and nothing is divided by zero.  The count it returns is one more
    than the series' count, and the other series are untouched. *)
Theorem trackers_update_total (alpha : float) (readings : list (string * string * float)) device metric value :
  fneg alpha = false -> fneg (fsub fone alpha) = false ->
  let feed := for_each readings (fun x => trackers_update (fst (fst x)) (snd (fst x)) (snd x) ;; mret tt) in
  exists s s' z n,
    feed (mkStatisticalTrackers alpha ∅) = (Ok tt, s) /\
    trackers_update device metric value s = (Ok (z, n), s') /\
    n = ew_sample_count (tracker_of s' (tracker_key device metric)) /\
    n = (if ew_initialized (tracker_of s (tracker_key device metric))
         then ew_sample_count (tracker_of s (tracker_key device metric)) + 1 else 1) /\
    forall key, key <> tracker_key device metric -> st_trackers s' !! key = st_trackers s !! key.
Proof.
  intros Ha H1a feed.
  pose proof trackers_update_ok as Hstep.
  assert (Hfeed : forall s, trackers_ok s -> exists s', feed s = (Ok tt, s') /\ trackers_ok s').
  { subst feed. induction readings as [|[[d m] v] readings IH]; intros s Hs; [by eexists|].
    destruct (Hstep d m v s Hs) as (z & n & s1 & H1 & Hs1 & _). simpl. unfold mbind, M_bind, mret, M_ret in *.
    rewrite H1. by apply IH. }
  destruct (Hfeed (mkStatisticalTrackers alpha ∅)) as (s & Hs & Hok).
  { split_and!; [done..|]. intros key t. cbn [st_trackers]. by rewrite lookup_empty. }
  destruct (Hstep device metric value s Hok) as (z & n & s' & H1 & _ & H2 & H3 & H4).
  exists s, s', z, n. by split_and!.
Qed.

Lemma trackers_update_total_witness :
  fneg (flit 1 10) = false /\ fneg (fsub fone (flit 1 10)) = false /\
  exists s s' z n,
    for_each [("d", "temperature", fone); ("d", "temperature", S754_nan)]
      (fun x => trackers_update (fst (fst x)) (snd (fst x)) (snd x) ;; mret tt)
      (mkStatisticalTrackers (flit 1 10) ∅) = (Ok tt, s) /\
    trackers_update "d" "temperature" (finf true) s = (Ok (z, n), s') /\
    n = ew_sample_count (tracker_of s' (tracker_key "d" "temperature")) /\
    n = (if ew_initialized (tracker_of s (tracker_key "d" "temperature"))
         then ew_sample_count (tracker_of s (tracker_key "d" "temperature")) + 1 else 1) /\
    forall key, key <> tracker_key "d" "temperature" -> st_trackers s' !! key = st_trackers s !! key.
Proof.
  split; [by vm_compute|]. split; [by vm_compute|].
  apply (trackers_update_total (flit 1 10) [("d", "temperature", fone); ("d", "temperature", S754_nan)]
    "d" "temperature" (finf true)); by vm_compute.
Defined.

(** One record for all detectors.  Combining detections of the four
    severities with scores that are numbers: the methods are listed in order,
    the severity is the worst (at least INFO) and the score the greatest (at
    least 0) of the detections. *)
Theorem combine_detections_worst (results : list Detection) :
  Forall (fun r => known_severity (dt_severity r) /\ dt_score r <> S754_nan) results ->
  let c := combine_detections results in
  cb_methods c = dt_method <$> results /\
  (forall r, r ∈ results -> severity_rank (dt_severity r) <= severity_rank (cb_severity c)) /\
  (cb_severity c = SEVERITY_INFO \/ cb_severity c ∈ dt_severity <$> results) /\
  fleb fzero (cb_score c) = true /\
  (forall r, r ∈ results -> fleb (dt_score r) (cb_score c) = true) /\
  (cb_score c = fzero \/ cb_score c ∈ dt_score <$> results) /\
  (cb_reason c = "" <-> Forall (fun r => dt_reason r = "") results).
Proof.
  cbv zeta. induction results as [|r results IH] using rev_ind; intros Hall.
  { split_and!; try done; [intros r Hr; by apply elem_of_nil in Hr | by left | intros r Hr; by apply elem_of_nil in Hr | by left]. }
  apply Forall_app in Hall as [Hall Hr]. apply Forall_singleton in Hr as [Hsev Hscore].
  specialize (IH Hall). rewrite combine_snoc. destruct (combine_detections results) as [sev score methods reason].
  simpl in *. destruct IH as (-> & IH1 & IH2 & IH3 & IH4 & IH5 & IH6).
  assert (Hsn : score <> S754_nan) by (exact (proj2 (fleb_not_nan _ _ IH3))).
  assert (Hmax : fleb score (if fgtb (dt_score r) score then dt_score r else score) = true /\
                 fleb (dt_score r) (if fgtb (dt_score r) score then dt_score r else score) = true).
  { unfold fgtb. destruct (fltb score (dt_score r)) eqn:E.
    - split; [by apply fltb_fleb | by apply fleb_refl].
    - split; [by apply fleb_refl | by apply fltb_false_fleb]. }
  destruct Hmax as [Hm1 Hm2].
  split_and!.
  - by rewrite fmap_app.
  - intros r' [Hr' | ->%list_elem_of_singleton]%elem_of_app.
    + specialize (IH1 r' Hr'). destruct (Z.ltb_spec (severity_rank sev) (severity_rank (dt_severity r))); lia.
    + destruct (Z.ltb_spec (severity_rank sev) (severity_rank (dt_severity r))); lia.
  - rewrite fmap_app. destruct (_ <? _); [right; apply elem_of_app; right; by left|].
    destruct IH2 as [-> | IH2]; [by left | right; apply elem_of_app; by left].
  - by eapply fleb_trans.
  - intros r' [Hr' | ->%list_elem_of_singleton]%elem_of_app; [|done]. eapply fleb_trans; [by apply IH4 | done].
  - rewrite fmap_app. destruct (fgtb _ _); [right; apply elem_of_app; right; by left|].
    destruct IH5 as [-> | IH5]; [by left | right; apply elem_of_app; by left].
  - rewrite Forall_app, Forall_singleton, <- IH6. case_bool_decide as Hreason; [naive_solver|].
    split; [|tauto]. destruct reason; [done | discriminate].
Qed.

Lemma combine_detections_worst_witness :
  let results := [mkDetection "RULE" SEVERITY_WARNING (flit 1 10) "range"; mkDetection "STATISTICAL" SEVERITY_HIGH (flit 7 10) "z"] in
  Forall (fun r => known_severity (dt_severity r) /\ dt_score r <> S754_nan) results /\
  cb_methods (combine_detections results) = ["RULE"; "STATISTICAL"] /\
  cb_severity (combine_detections results) = SEVERITY_HIGH.
Proof.
  assert (H : Forall (fun r => known_severity (dt_severity r) /\ dt_score r <> S754_nan)
    [mkDetection "RULE" SEVERITY_WARNING (flit 1 10) "range"; mkDetection "STATISTICAL" SEVERITY_HIGH (flit 7 10) "z"]).
  { repeat constructor; try (by vm_compute); unfold known_severity; apply (bool_decide_unpack _); by vm_compute. }
  split; [exact H|]. split; [exact (proj1 (combine_detections_worst _ H)) | by vm_compute].
Defined.
