(* ===== verification/IsolationForest.v ===== *)
(** [anomaly-detector/isolationforest.py]: fitting and scoring.  The random
    generator is an oracle indexed by the number of draws; [math.log] and
    [math.pow] are parameters.  A row that is too short raises [IndexError], as
    Python's indexing does. *)

From stdpp Require Import prelude strings sorting.
From Stdlib Require Import ZArith Lia SpecFloat.
From S2P Require Import Prelude PyFloat Effects Window.

Local Open Scope Z_scope.

Abbreviation row := (list float).

Definition index_error : exn := OtherError "IndexError" "list index out of range".

(** [row[feature]]. *)
Definition feature_of (feature : nat) (x : row) : res float :=
  match x !! feature with Some v => Ok v | None => Raise index_error end.

(** [_ITreeNode]. *)
Inductive itree :=
  | Leaf (size : nat)
  | Node (split_feature : nat) (split_value : float) (left right : itree).

(** [random.Random]: what the n-th draw returns. *)
Record rng := Rng {
  rg_random : nat -> float;
  rg_randrange : nat -> nat -> nat;
  rg_sample : nat -> list row -> nat -> list row
}.

Definition euler_mascheroni : float := flit 5772156649 10000000000.

Section Forest.
  (** [math.log] of a positive number, and [math.pow(2, x)]. *)
  Variable flog : float -> float.
  Variable pow2 : float -> res float.
  Variable g : rng.

Definition average_path_length_normalizer (n : nat) : float :=
  if Z.of_nat n <=? 1 then fzero
  else if Z.of_nat n =? 2 then fone
  else
    let harmonic := fadd (flog (float_of_Z (Z.of_nat n - 1))) euler_mascheroni in
    fsub (fmul ftwo harmonic)
         (SFdiv prec emax (float_of_Z (2 * (Z.of_nat n - 1))) (float_of_Z (Z.of_nat n))).

(** The loop of [_feature_range]. *)
Fixpoint widen (feature : nat) (data : list row) (lo hi : float) : res (float * float) :=
  match data with
  | [] => Ok (lo, hi)
  | x :: data =>
      res_bind (feature_of feature x) (fun v =>
      widen feature data (if fltb v lo then v else lo) (if fgtb v hi then v else hi))
  end.

Definition _feature_range (data : list row) (feature : nat) : res (float * float) :=
  match data with
  | [] => Raise index_error
  | x :: _ => res_bind (feature_of feature x) (fun v => widen feature data v v)
  end.

(** [[row for row in data if p(row[feature])]]. *)
Fixpoint rows_where (p : float -> bool) (feature : nat) (data : list row) : res (list row) :=
  match data with
  | [] => Ok []
  | x :: data =>
      res_bind (feature_of feature x) (fun v =>
      res_bind (rows_where p feature data) (fun l => Ok (if p v then x :: l else l)))
  end.

Definition draw {A} (f : nat -> A) : M nat A := fun n => (Ok (f n), S n).

Section TrySplit.
  (** [_build_tree] one level down. *)
  Variable build : list row -> M nat itree.

(** The [for _ in range(num_features)] of [_build_tree], [tries] iterations left. *)
Fixpoint try_split (tries num_features : nat) (data : list row) : M nat itree :=
  match tries with
  | O => mret (Leaf (length data))
  | S tries =>
      feature ← draw (fun i => rg_randrange g i num_features);
      range ← of_res (_feature_range data feature);
      let '(lo, hi) := (range : float * float) in
      if feqb lo hi then try_split tries num_features data
      else
        u ← draw (rg_random g);
        let split_value := fadd lo (fmul u (fsub hi lo)) in
        left_rows ← of_res (rows_where (fun v => fltb v split_value) feature data);
        right_rows ← of_res (rows_where (fun v => fgeb v split_value) feature data);
        match (left_rows : list row), (right_rows : list row) with
        | [], _ | _, [] => try_split tries num_features data
        | _, _ =>
            l ← build left_rows;
            r ← build right_rows;
            mret (Node feature split_value l r)
        end
  end.

End TrySplit.

(** [_build_tree], [remaining] being [max_depth - depth]. *)
Fixpoint _build_tree (remaining : nat) (data : list row) : M nat itree :=
  match remaining with
  | O => mret (Leaf (length data))
  | S remaining =>
      match data with
      | [] | [_] => mret (Leaf (length data))
      | x :: _ => try_split (_build_tree remaining) (length x) (length x) data
      end
  end.

Fixpoint _path_length (x : row) (node : itree) (depth : Z) : res float :=
  match node with
  | Leaf size => Ok (fadd (float_of_Z depth) (average_path_length_normalizer size))
  | Node feature split_value l r =>
      res_bind (feature_of feature x) (fun v =>
      if fltb v split_value then _path_length x l (depth + 1) else _path_length x r (depth + 1))
  end.

Record IsolationForest := mkIsolationForest {
  if_trees : list itree; if_subsample_size : nat; if_avg_path_norm_c : float
}.

Fixpoint path_lengths (x : row) (trees : list itree) : res (list float) :=
  match trees with
  | [] => Ok []
  | t :: trees =>
      res_bind (_path_length x t 0) (fun p => res_bind (path_lengths x trees) (fun ps => Ok (p :: ps)))
  end.

Definition score (f : IsolationForest) (x : row) : res float :=
  match if_trees f with
  | [] => Ok fzero
  | trees =>
      if feqb (if_avg_path_norm_c f) fzero then Ok fzero
      else
        res_bind (path_lengths x trees) (fun ps =>
        res_bind (lift_arith (fdiv_int (fsum ps) (Z.of_nat (length trees)))) (fun avg_path =>
        res_bind (lift_arith (fdiv (fopp avg_path) (if_avg_path_norm_c f))) pow2))
  end.

Definition _sample_without_replacement (data : list row) (n : nat) : M nat (list row) :=
  if (length data <=? n)%nat then mret data else draw (fun i => rg_sample g i data n).

Fixpoint fit_trees (num_trees : nat) (data : list row) (subsample_size max_depth : nat) : M nat (list itree) :=
  match num_trees with
  | O => mret []
  | S num_trees =>
      sample ← _sample_without_replacement data subsample_size;
      t ← _build_tree max_depth sample;
      ts ← fit_trees num_trees data subsample_size max_depth;
      mret (t :: ts)
  end.

(** [math.ceil(math.log2(n))]: exact for the sizes below [2^48]. *)
Definition ceil_log2 (n : nat) : nat := Z.to_nat (Z.log2_up (Z.of_nat n)).

Definition fit_isolation_forest (data : list row) (num_trees subsample_size : nat) : M nat IsolationForest :=
  let subsample_size := Nat.min subsample_size (length data) in
  let max_depth := ceil_log2 (Nat.max subsample_size 2) in
  trees ← fit_trees num_trees data subsample_size max_depth;
  mret (mkIsolationForest trees subsample_size (average_path_length_normalizer subsample_size)).

End Forest.

(** ** What a fitted tree is *)

(** [random.Random] as documented. *)
Definition rng_ok (g : rng) : Prop :=
  (forall i n, (0 < n)%nat -> (rg_randrange g i n < n)%nat) /\
  (forall i data n, (n <= length data)%nat ->
     length (rg_sample g i data n) = n /\ exists rest, rg_sample g i data n ++ rest ≡ₚ data).

Definition side (p : float -> bool) (feature : nat) (data : list row) : list row :=
  filter (fun x => p (default fnan (x !! feature)) = true) data.

(** Every split separates its rows into two non-empty sides, and every leaf
    counts the rows that reach it. *)
Fixpoint fits (data : list row) (t : itree) : Prop :=
  match t with
  | Leaf n => n = length data
  | Node f v l r =>
      side (fun x => fltb x v) f data <> [] /\ side (fun x => fgeb x v) f data <> [] /\
      fits (side (fun x => fltb x v) f data) l /\ fits (side (fun x => fgeb x v) f data) r
  end.

Fixpoint depth (t : itree) : nat :=
  match t with Leaf _ => 0 | Node _ _ l r => S (Nat.max (depth l) (depth r)) end.

Fixpoint leaf_sizes (t : itree) : nat :=
  match t with Leaf n => n | Node _ _ l r => leaf_sizes l + leaf_sizes r end.

(** The features a tree looks at. *)
Fixpoint uses_features (k : nat) (t : itree) : Prop :=
  match t with Leaf _ => True | Node f _ l r => (f < k)%nat /\ uses_features k l /\ uses_features k r end.

Definition rectangular (k : nat) (data : list row) : Prop := Forall (fun x => length x = k) data.
Definition no_nan (data : list row) : Prop := Forall (Forall (fun v => v <> S754_nan)) data.

(** ** Lemmas *)

Lemma feature_of_ok k f (x : row) : (f < k)%nat -> length x = k -> feature_of f x = Ok (default fnan (x !! f)).
Proof.
  intros Hf Hx. unfold feature_of. destruct (lookup_lt_is_Some_2 x f) as [v Hv]; [lia|]. by rewrite Hv.
Qed.

Lemma rows_where_ok k p f data :
  (f < k)%nat -> rectangular k data -> rows_where p f data = Ok (side p f data).
Proof.
  intros Hf. induction 1 as [|x data Hx _ IH]; [done|]. simpl. rewrite (feature_of_ok k) by done. simpl.
  rewrite IH. simpl. unfold side. rewrite filter_cons. destruct (p _) eqn:E.
  - by rewrite decide_True.
  - by rewrite decide_False.
Qed.

Lemma widen_ok k f data lo hi : (f < k)%nat -> rectangular k data -> exists r, widen f data lo hi = Ok r.
Proof.
  intros Hf Hd. revert lo hi. induction Hd as [|x data Hx _ IH]; intros lo hi; [by eexists|].
  simpl. rewrite (feature_of_ok k) by done. simpl. apply IH.
Qed.

Lemma feature_range_ok k f data : (f < k)%nat -> rectangular k data -> data <> [] ->
  exists r, _feature_range data f = Ok r.
Proof.
  intros Hf Hd Hne. destruct data as [|x data]; [done|]. unfold _feature_range.
  rewrite (feature_of_ok k) by (done || by apply Forall_inv in Hd).
  exact (widen_ok k f (x :: data) _ _ Hf Hd).
Qed.

Lemma Forall_side P p f data : Forall P data -> Forall P (side p f data).
Proof.
  intros H. apply Forall_forall. unfold side. intros x [_ Hx]%list_elem_of_filter.
  by apply (proj1 (Forall_forall _ _) H).
Qed.

(** What building a tree from [data] gives, with at most [d] levels. *)
Definition builds (k d : nat) (m : M nat itree) (data : list row) : Prop :=
  forall c, exists t c', m c = (Ok t, c') /\ fits data t /\ (depth t <= d)%nat /\ uses_features k t.

Lemma builds_leaf k d data : builds k d (mret (Leaf (length data))) data.
Proof. intros c. eexists _, _. split; [done|]. simpl. split_and!; [done | lia | done]. Qed.

Lemma try_split_builds g k d build tries data :
  rng_ok g -> rectangular k data -> data <> [] -> (0 < k)%nat ->
  (forall l, rectangular k l -> builds k d (build l) l) ->
  builds k (S d) (try_split g build tries k data) data.
Proof.
  intros [Hrange _] Hrect Hne Hk Hbuild. induction tries as [|tries IH]; [apply builds_leaf|]. intros c.
  cbn [try_split]. erewrite bind_ok by reflexivity.
  set (f := rg_randrange g c k). assert (Hf : (f < k)%nat) by (by apply Hrange).
  destruct (feature_range_ok k f data Hf Hrect Hne) as [[lo hi] Hlh]. rewrite Hlh.
  erewrite bind_ok by reflexivity. cbv beta iota zeta. destruct (feqb lo hi) eqn:Eq; [exact (IH (S c))|].
  erewrite bind_ok by reflexivity. set (v := fadd lo _).
  rewrite !(rows_where_ok k) by done. erewrite bind_ok by reflexivity. erewrite bind_ok by reflexivity.
  destruct (side (fun x => fltb x v) f data) as [|x1 l1] eqn:El; [exact (IH (S (S c)))|].
  destruct (side (fun x => fgeb x v) f data) as [|x2 l2] eqn:Er; [exact (IH (S (S c)))|].
  destruct (Hbuild (x1 :: l1) ltac:(rewrite <- El; by apply Forall_side) (S (S c)))
    as (tl & c1 & Hl & Hfl & Hdl & Hul).
  destruct (Hbuild (x2 :: l2) ltac:(rewrite <- Er; by apply Forall_side) c1)
    as (tr & c2 & Hr & Hfr & Hdr & Hur).
  erewrite bind_ok by exact Hl. erewrite bind_ok by exact Hr. eexists _, _. split; [done|].
  simpl. rewrite El, Er. split_and!; [done | done | done | done | lia | done | done | done].
Qed.

Lemma build_tree_builds g k d data : rng_ok g -> rectangular k data -> (0 < k)%nat ->
  builds k d (_build_tree g d data) data.
Proof.
  intros Hg Hrect Hk. revert data Hrect. induction d as [|d IH]; intros data Hrect; [apply builds_leaf|].
  simpl. destruct data as [|x [|y data]]; [apply builds_leaf.. |].
  assert (length x = k) as -> by (by apply Forall_inv in Hrect).
  by apply try_split_builds.
Qed.

(** Without NaN no row is lost between the two sides. *)
Lemma side_partition f v data :
  v <> S754_nan -> Forall (fun x => default fnan (x !! f) <> S754_nan) data ->
  (length (side (fun x => fltb x v) f data) + length (side (fun x => fgeb x v) f data) = length data)%nat.
Proof.
  intros Hv. unfold side. induction 1 as [|x data Hx _ IH]; [done|]. rewrite !filter_cons. simpl.
  destruct (fltb (default fnan (x !! f)) v) eqn:E.
  - rewrite decide_True by done. rewrite decide_False; [simpl; lia|].
    unfold fgeb. by rewrite (fltb_asym _ _ E).
  - rewrite decide_False by done. rewrite decide_True; [simpl; lia|].
    unfold fgeb. by apply fltb_false_fleb.
Qed.

Lemma fits_leaf_sizes k data t :
  rectangular k data -> no_nan data -> uses_features k t -> fits data t -> leaf_sizes t = length data.
Proof.
  revert data. induction t as [n | f v l IHl r IHr]; intros data Hrect Hnan Hu Hfits; [done|].
  simpl in *. destruct Hfits as (Hl & Hr & Hfl & Hfr). destruct Hu as (Hf & Hul & Hur).
  rewrite (IHl _ (Forall_side _ _ _ _ Hrect) (Forall_side _ _ _ _ Hnan) Hul Hfl).
  rewrite (IHr _ (Forall_side _ _ _ _ Hrect) (Forall_side _ _ _ _ Hnan) Hur Hfr).
  apply side_partition.
  - destruct (side (fun x => fltb x v) f data) as [|x l'] eqn:E; [done|].
    assert (Hx : x ∈ side (fun x => fltb x v) f data) by (rewrite E; by left).
    unfold side in Hx. apply list_elem_of_filter in Hx as [Hx _]. exact (proj2 (fltb_not_nan _ _ Hx)).
  - apply Forall_forall. intros x Hx. unfold rectangular in Hrect; rewrite Forall_forall in Hrect. specialize (Hrect x Hx).
    destruct (lookup_lt_is_Some_2 x f) as [y Hy]; [lia|]. rewrite Hy. simpl.
    apply (proj1 (Forall_forall _ _)) with (x := x) in Hnan; [|done].
    eapply (proj1 (Forall_forall _ _)) in Hnan; [exact Hnan|]. by eapply list_elem_of_lookup_2.
Qed.

(** A row as long as the training rows has a path in every fitted tree. *)
Lemma path_length_ok flog k x t d :
  length x = k -> uses_features k t -> exists p, _path_length flog x t d = Ok p.
Proof.
  intros Hx. revert d. induction t as [n | f v l IHl r IHr]; intros d Hu; simpl; [eauto|].
  destruct Hu as (Hf & Hul & Hur). rewrite (feature_of_ok k) by done. simpl.
  destruct (fltb _ v); auto.
Qed.

(** One tree per round, each fitting its sample. *)
Definition fitted (k d : nat) (data : list row) (n : nat) (t : itree) : Prop :=
  exists sample rest, sample ++ rest ≡ₚ data /\ length sample = n /\
    fits sample t /\ (depth t <= d)%nat /\ uses_features k t.

Lemma fit_trees_ok g k d num data n :
  rng_ok g -> rectangular k data -> (0 < k)%nat -> (n <= length data)%nat ->
  forall c, exists ts c', fit_trees g num data n d c = (Ok ts, c') /\ length ts = num /\
    Forall (fitted k d data n) ts.
Proof.
  intros Hg Hrect Hk Hn. induction num as [|num IH]; intros c; [eexists _, _; split; [done|]; by split; constructor|].
  cbn [fit_trees].
  assert (Hsample : exists sample rest c1, _sample_without_replacement g data n c = (Ok sample, c1) /\
      sample ++ rest ≡ₚ data /\ length sample = n).
  { unfold _sample_without_replacement. destruct (Nat.leb_spec (length data) n).
    - exists data, [], c. rewrite app_nil_r. split_and!; [done | done | lia].
    - destruct (proj2 Hg c data n ltac:(lia)) as [Hlen [rest Hrest]].
      exists (rg_sample g c data n), rest. eexists. split; [done|]. by split. }
  destruct Hsample as (sample & rest & c1 & Hs & Hperm & Hlen). erewrite bind_ok by exact Hs.
  assert (Hrs : rectangular k sample).
  { unfold rectangular in *. rewrite <- Hperm in Hrect. by apply Forall_app in Hrect as [? _]. }
  destruct (build_tree_builds g k d sample Hg Hrs Hk c1) as (t & c2 & Ht & Hfit & Hdep & Huse).
  erewrite bind_ok by exact Ht. destruct (IH c2) as (ts & c3 & Hts & Hlts & Hall).
  erewrite bind_ok by exact Hts. eexists _, _. split; [done|]. split; [simpl; by f_equal|].
  constructor; [|done]. exists sample, rest. by split_and!.
Qed.

(** ** An example generator: always the last feature, the first rows, 1/2 *)

Definition demo_rng : rng := Rng (fun _ => flit 5 10) (fun _ n => (n - 1)%nat) (fun _ data n => take n data).

Lemma demo_rng_ok : rng_ok demo_rng.
Proof.
  split; [intros i n Hn; simpl; lia|]. intros i data n Hn. simpl. split; [rewrite length_take; lia|].
  exists (drop n data). by rewrite take_drop.
Qed.

(** ** Theorems *)

(** [C29] Fitting a forest.  On rows of one positive width, whatever the generator
    draws, [fit_isolation_forest] returns a forest of [num_trees] trees.  Each
    tree fits a sample drawn without replacement of the size asked for (or all
    of the data): every split has rows on both sides, no tree is deeper than the
    limit [ceil (log2 size)], and without NaN the leaves count every row of the
    sample once. *)
Theorem fit_isolation_forest_ok flog (g : rng) (k num_trees subsample_size : nat) (data : list row) (c : nat) :
  rng_ok g -> (0 < k)%nat -> rectangular k data ->
  let n := Nat.min subsample_size (length data) in
  exists f c', fit_isolation_forest flog g data num_trees subsample_size c = (Ok f, c') /\
    length (if_trees f) = num_trees /\ if_subsample_size f = n /\
    Forall (fun t => exists sample rest, sample ++ rest ≡ₚ data /\ length sample = n /\ fits sample t /\
              (depth t <= ceil_log2 (Nat.max n 2))%nat /\ uses_features k t /\
              (no_nan data -> leaf_sizes t = n)) (if_trees f).
Proof.
  intros Hg Hk Hrect n. unfold fit_isolation_forest. fold n.
  destruct (fit_trees_ok g k (ceil_log2 (Nat.max n 2)) num_trees data n Hg Hrect Hk ltac:(lia) c)
    as (ts & c' & Hts & Hlen & Hall).
  erewrite bind_ok by exact Hts. eexists _, _. split; [done|]. split; [done|]. split; [done|].
  eapply Forall_impl; [exact Hall|]. intros t (sample & rest & Hperm & Hls & Hfit & Hdep & Huse).
  exists sample, rest. split_and!; [done..|]. intros Hnan.
  rewrite <- Hls. apply (fits_leaf_sizes k).
  - unfold rectangular in *. rewrite <- Hperm in Hrect. by apply Forall_app in Hrect as [? _].
  - unfold no_nan in *. rewrite <- Hperm in Hnan. by apply Forall_app in Hnan as [? _].
  - done.
  - done.
Qed.

Definition demo_rows : list row := [[fone; fone]; [fone; ftwo]; [ftwo; float_of_Z 9]].

Lemma fit_isolation_forest_ok_witness :
  rectangular 2 demo_rows /\
  exists f c', fit_isolation_forest (fun x => x) demo_rng demo_rows 4 256 0%nat = (Ok f, c') /\
    length (if_trees f) = 4%nat.
Proof.
  assert (Hr : rectangular 2 demo_rows) by (repeat constructor). split; [exact Hr|].
  destruct (fit_isolation_forest_ok (fun x => x) demo_rng 2 4 256 demo_rows 0%nat demo_rng_ok ltac:(lia) Hr)
    as (f & c' & Hf & Hlen & _).
  exists f, c'. by split.
Defined.
