(* ===== verification/FeatureStore.v ===== *)
(** [anomaly-detector/featurestore.py], [catalog.py] and [forestregistry.py]:
    the feature vectors and training buffers, the device catalog, and the forest
    of each machine type. *)

From stdpp Require Import prelude strings gmap sorting.
From Stdlib Require Import ZArith Lia.
From S2P Require Import Prelude PyFloat Effects Reliability Events Kafka Detect IsolationForest.

(** ** [featurestore.py] *)

(** [_latest] and [_training_data]; the latter in insertion order, which is the
    order the trainer visits the machine types in. *)
Record feature_store := mkFeatureStore {
  fs_latest : gmap string (gmap string float);
  fs_training_data : list (string * list row);
  fs_buffer_size : Z
}.

Definition new_feature_store (buffer_size : Z) : feature_store := mkFeatureStore ∅ [] buffer_size.

(** The loop over [feature_order]: [None] while a metric is missing. *)
Fixpoint assemble (values : gmap string float) (feature_order : list string) : option row :=
  match feature_order with
  | [] => Some []
  | m :: order => v ← values !! m; rest ← assemble values order; Some (v :: rest)
  end.

Definition values_of (device_id : string) (fs : feature_store) : gmap string float :=
  default ∅ (fs_latest fs !! device_id).

Definition training_snapshot (machine_type : string) (fs : feature_store) : list row :=
  default [] (dict_get (fs_training_data fs) machine_type).

Definition machine_types_with_data (fs : feature_store) : list string := fst <$> fs_training_data fs.

(** [observe]: the vector when it is complete. *)
Definition observe (device_id machine_type metric : string) (value : float) (feature_order : list string)
    (fs : feature_store) : option row * feature_store :=
  let values := <[metric := value]> (values_of device_id fs) in
  let latest := <[device_id := values]> (fs_latest fs) in
  let seen := mkFeatureStore latest (fs_training_data fs) (fs_buffer_size fs) in
  match feature_order with
  | [] => (None, seen)
  | _ =>
      match assemble values feature_order with
      | None => (None, seen)
      | Some vector =>
          let buf := training_snapshot machine_type fs ++ [vector] in
          let buf := if (fs_buffer_size fs <? Z.of_nat (length buf))%Z
                     then keep_last (Z.to_nat (fs_buffer_size fs)) buf else buf in
          (Some vector, mkFeatureStore latest (dict_set (fs_training_data fs) machine_type buf) (fs_buffer_size fs))
      end
  end.

(** ** [catalog.py] *)

Record DeviceInfo := mkDeviceInfo { di_machine_type : string; di_ranges : gmap string MetricRange }.

Record catalog := mkCatalog { ct_devices : gmap string DeviceInfo; ct_feature_order : gmap string (list string) }.

(** A row of [_CATALOG_QUERY]. *)
Record catalog_row := CatalogRow {
  cr_device_id : string; cr_machine_type : string; cr_metric : string; cr_lo : float; cr_hi : float
}.

(** [sorted(metrics)]. *)
Definition str_le (a b : string) : Prop := String.leb a b = true.
#[export] Instance str_le_dec a b : Decision (str_le a b) := decide (String.leb a b = true).

(** One iteration of the loop of [refresh]; a device keeps the machine type of
    its first row. *)
Definition refresh_row (acc : gmap string DeviceInfo * gmap string (gset string)) (r : catalog_row)
  : gmap string DeviceInfo * gmap string (gset string) :=
  let '(devices, metrics_by_type) := acc in
  let info := default (mkDeviceInfo (cr_machine_type r) ∅) (devices !! cr_device_id r) in
  let info := mkDeviceInfo (di_machine_type info)
                (<[cr_metric r := mkMetricRange (cr_lo r) (cr_hi r)]> (di_ranges info)) in
  (<[cr_device_id r := info]> devices,
   <[cr_machine_type r := {[ cr_metric r ]} ∪ default ∅ (metrics_by_type !! cr_machine_type r)]> metrics_by_type).

Definition refresh (rows : list catalog_row) : catalog :=
  let '(devices, metrics_by_type) := foldl refresh_row (∅, ∅) rows in
  mkCatalog devices ((fun ms : gset string => merge_sort str_le (elements ms)) <$> metrics_by_type).

Definition lookup_device (device_id : string) (c : catalog) : option DeviceInfo := ct_devices c !! device_id.
Definition features_for (machine_type : string) (c : catalog) : list string :=
  default [] (ct_feature_order c !! machine_type).

(** ** [forestregistry.py] *)

Definition MIN_TRAINING_SAMPLES : nat := 60.

Definition forest_registry : Type := list (string * IsolationForest).
Definition get_forest (machine_type : string) (r : forest_registry) : option IsolationForest := dict_get r machine_type.
Definition set_forest (machine_type : string) (f : IsolationForest) (r : forest_registry) : forest_registry :=
  dict_set r machine_type f.
Definition trained_machine_types (r : forest_registry) : list string := fst <$> r.

(** One round of [run_forest_trainer] on a service's state, with the generator's
    draws and the registry as a part of it; an exception ends the trainer. *)
Section Trainer.
  Context {S : Type} `{Part S (nat * forest_registry)} `{Part S metrics}.
  Variable flog : float -> float.
  Variable g : rng.
  Variables num_trees subsample_size : nat.

(** [fit_isolation_forest] and [registry.set]. *)
Definition fit_and_set (mt : string) (data : list row) : M (nat * forest_registry) unit := fun s =>
  let '(r, n) := fit_isolation_forest flog g data num_trees subsample_size (fst s) in
  match r with
  | Ok f => (Ok tt, (n, set_forest mt f (snd s)))
  | Raise e => (Raise e, (n, snd s))
  end.

Fixpoint train_types (fs : feature_store) (types : list string) : M S unit :=
  match types with
  | [] => mret tt
  | mt :: types =>
      let data := training_snapshot mt fs in
      if (length data <? MIN_TRAINING_SAMPLES)%nat then train_types fs types
      else
        lift (fit_and_set mt data) ;;
        inc "isolation_forests_trained_total" ;;
        train_types fs types
  end.

Definition train_once (fs : feature_store) : M S unit :=
  train_types fs (machine_types_with_data fs).

End Trainer.

(** ** Lemmas *)

Lemma assemble_mapM values order : assemble values order = mapM (fun m => values !! m) order.
Proof. induction order as [|m order IH]; [done|]. simpl. by rewrite IH. Qed.

Lemma assemble_some values order v :
  assemble values order = Some v <-> Forall2 (fun m x => values !! m = Some x) order v.
Proof. rewrite assemble_mapM. apply mapM_Some. Qed.

Lemma assemble_length values order v : assemble values order = Some v -> length v = length order.
Proof. intros H%assemble_some. by apply Forall2_length in H. Qed.

(** ** What one reading does to the feature store *)

(** The last known values are exactly updated, the vector is complete or
    absent, and the buffer keeps the newest [buffer_size] vectors. *)
Lemma observe_spec device_id mt metric value order fs :
  let '(v, fs') := observe device_id mt metric value order fs in
  (forall d, values_of d fs' = if bool_decide (d = device_id) then <[metric := value]> (values_of d fs) else values_of d fs) /\
  v = (match order with [] => None | _ => assemble (<[metric := value]> (values_of device_id fs)) order end) /\
  (forall mt', training_snapshot mt' fs' =
     match v with
     | Some x => if bool_decide (mt' = mt) then
                   (if (fs_buffer_size fs <? Z.of_nat (S (length (training_snapshot mt fs))))%Z
                    then keep_last (Z.to_nat (fs_buffer_size fs)) (training_snapshot mt fs ++ [x])
                    else training_snapshot mt fs ++ [x])
                 else training_snapshot mt' fs
     | None => training_snapshot mt' fs
     end).
Proof.
  assert (Hval : forall d tr, values_of d (mkFeatureStore (<[device_id := <[metric := value]> (values_of device_id fs)]> (fs_latest fs))
      tr (fs_buffer_size fs)) = if bool_decide (d = device_id) then <[metric := value]> (values_of d fs) else values_of d fs).
  { intros d tr. unfold values_of at 1. cbn [fs_latest]. case_bool_decide as Hd.
    - subst d. by rewrite lookup_insert_eq.
    - by rewrite lookup_insert_ne by done. }
  unfold observe. destruct order as [|m order]; [by split_and!|].
  destruct (assemble _ (m :: order)) as [v|]; [|by split_and!].
  split; [intros d; apply Hval|]. split; [done|]. intros mt'. unfold training_snapshot at 1. cbn [fs_training_data].
  rewrite length_app, Nat.add_1_r. case_bool_decide as Hmt.
  - subst mt'. by rewrite dict_get_set_eq.
  - rewrite dict_get_set_ne by congruence. done.
Qed.

(** No training buffer outgrows its bound. *)
Definition buffers_bounded (fs : feature_store) : Prop :=
  forall mt, (Z.of_nat (length (training_snapshot mt fs)) <= Z.max 0 (fs_buffer_size fs))%Z.

Lemma observe_bounded device_id mt metric value order fs :
  buffers_bounded fs -> buffers_bounded (snd (observe device_id mt metric value order fs)) /\
  fs_buffer_size (snd (observe device_id mt metric value order fs)) = fs_buffer_size fs.
Proof.
  intros Hb. pose proof (observe_spec device_id mt metric value order fs) as Hspec.
  assert (Hsize : fs_buffer_size (snd (observe device_id mt metric value order fs)) = fs_buffer_size fs).
  { unfold observe. destruct order as [|m order]; [done|]. by destruct (assemble _ (m :: order)). }
  split; [|exact Hsize]. intros mt'. rewrite Hsize.
  destruct (observe device_id mt metric value order fs) as [v fs']. simpl in *.
  destruct Hspec as (_ & _ & ->). specialize (Hb mt') as Hb'. destruct v as [x|]; [|done].
  case_bool_decide as Hmt; [subst mt'|done].
  destruct (Z.ltb_spec (fs_buffer_size fs) (Z.of_nat (S (length (training_snapshot mt fs))))).
  - pose proof (keep_last_length (Z.to_nat (fs_buffer_size fs)) (training_snapshot mt fs ++ [x])). lia.
  - rewrite length_app. simpl. lia.
Qed.

(** *** The catalog *)

(** A row of the query by device and metric: the last one counts. *)
Definition row_matches (device metric : string) (r : catalog_row) : Prop :=
  cr_device_id r = device /\ cr_metric r = metric.

Lemma refresh_snoc rows r :
  foldl refresh_row (∅, ∅) (rows ++ [r]) = refresh_row (foldl refresh_row (∅, ∅) rows) r.
Proof. by rewrite foldl_app. Qed.

(** The metrics of a machine type are those of its rows. *)
Lemma refresh_metrics rows mt m :
  m ∈ default ∅ ((foldl refresh_row (∅, ∅) rows).2 !! mt) <->
  exists r, r ∈ rows /\ cr_machine_type r = mt /\ cr_metric r = m.
Proof.
  induction rows as [|r rows IH] using rev_ind.
  - simpl. rewrite lookup_empty. simpl. set_solver.
  - rewrite refresh_snoc. destruct (foldl refresh_row (∅, ∅) rows) as [dev ms]. simpl in *.
    destruct (decide (cr_machine_type r = mt)) as [<- | Hne].
    + rewrite lookup_insert_eq. simpl. set_solver.
    + rewrite lookup_insert_ne by done. rewrite IH. set_solver.
Qed.

Lemma features_for_spec rows mt :
  Sorted str_le (features_for mt (refresh rows)) /\ NoDup (features_for mt (refresh rows)) /\
  forall m, m ∈ features_for mt (refresh rows) <-> exists r, r ∈ rows /\ cr_machine_type r = mt /\ cr_metric r = m.
Proof.
  unfold features_for, refresh. pose proof (refresh_metrics rows mt) as Hm.
  destruct (foldl refresh_row (∅, ∅) rows) as [dev ms]. cbn [ct_feature_order snd] in *.
  rewrite lookup_fmap. destruct (ms !! mt) as [s|]; simpl in *.
  - split_and!.
    + apply Sorted_merge_sort. intros a b. unfold str_le. destruct (String.leb_total a b); auto.
    + rewrite merge_sort_Permutation. apply NoDup_elements.
    + intros m. rewrite merge_sort_Permutation, elem_of_elements. apply Hm.
  - split_and!; [constructor | constructor |]. intros m. rewrite <- Hm. set_solver.
Qed.
