(* ===== verification/AnomalyDetector.v ===== *)
(** [anomaly-detector/idempotency.py], [kafka_io.py] and [main.py]: the claim of
    an event id in Postgres, the processing of one message, and the background
    threads (catalog refresh, forest training). *)

From stdpp Require Import prelude strings pretty gmap.
From Stdlib Require Import ZArith Lia SpecFloat.
From S2P Require Import Prelude PyFloat Effects Reliability Events Kafka Window Ingestion.
From S2P Require Import Detect IsolationForest FeatureStore.

Local Open Scope Z_scope.

(** ** State *)

Record ad := Ad {
  ad_kafka : kafka;
  ad_breaker : breaker;
  ad_metrics : metrics;
  (** claims attempted so far, and the keys of scope [anomaly_detection] *)
  ad_claims : nat;
  ad_claimed : gset string;
  ad_catalog : catalog;
  ad_trackers : StatisticalTrackers;
  ad_fs : feature_store;
  ad_forests : forest_registry;
  ad_draws : nat;
  ad_reads : nat
}.

#[export] Program Instance ad_kafka_part : Part ad kafka := {|
  part_get := ad_kafka;
  part_set k s := Ad k (ad_breaker s) (ad_metrics s) (ad_claims s) (ad_claimed s) (ad_catalog s) (ad_trackers s)
                     (ad_fs s) (ad_forests s) (ad_draws s) (ad_reads s) |}.
Solve All Obligations with (intros; by repeat match goal with s : ad |- _ => destruct s end).
#[export] Program Instance ad_breaker_part : Part ad breaker := {|
  part_get := ad_breaker;
  part_set b s := Ad (ad_kafka s) b (ad_metrics s) (ad_claims s) (ad_claimed s) (ad_catalog s) (ad_trackers s)
                     (ad_fs s) (ad_forests s) (ad_draws s) (ad_reads s) |}.
Solve All Obligations with (intros; by repeat match goal with s : ad |- _ => destruct s end).
#[export] Program Instance ad_metrics_part : Part ad metrics := {|
  part_get := ad_metrics;
  part_set m s := Ad (ad_kafka s) (ad_breaker s) m (ad_claims s) (ad_claimed s) (ad_catalog s) (ad_trackers s)
                     (ad_fs s) (ad_forests s) (ad_draws s) (ad_reads s) |}.
Solve All Obligations with (intros; by repeat match goal with s : ad |- _ => destruct s end).
#[export] Program Instance ad_trackers_part : Part ad StatisticalTrackers := {|
  part_get := ad_trackers;
  part_set t s := Ad (ad_kafka s) (ad_breaker s) (ad_metrics s) (ad_claims s) (ad_claimed s) (ad_catalog s) t
                     (ad_fs s) (ad_forests s) (ad_draws s) (ad_reads s) |}.
Solve All Obligations with (intros; by repeat match goal with s : ad |- _ => destruct s end).
#[export] Program Instance ad_fs_part : Part ad feature_store := {|
  part_get := ad_fs;
  part_set f s := Ad (ad_kafka s) (ad_breaker s) (ad_metrics s) (ad_claims s) (ad_claimed s) (ad_catalog s)
                     (ad_trackers s) f (ad_forests s) (ad_draws s) (ad_reads s) |}.
Solve All Obligations with (intros; by repeat match goal with s : ad |- _ => destruct s end).
#[export] Program Instance ad_trainer_part : Part ad (nat * forest_registry) := {|
  part_get s := (ad_draws s, ad_forests s);
  part_set p s := Ad (ad_kafka s) (ad_breaker s) (ad_metrics s) (ad_claims s) (ad_claimed s) (ad_catalog s)
                     (ad_trackers s) (ad_fs s) (snd p) (fst p) (ad_reads s) |}.
Solve All Obligations with (intros; repeat match goal with p : (_ * _)%type |- _ => destruct p end;
  by repeat match goal with s : ad |- _ => destruct s end).

(** The fields of [Config] the service reads. *)
Record ad_config := AdConfig {
  ac_topic_anomalies : string; ac_topic_dead_letter : string;
  ac_kafka_max_retries : Z; ac_kafka_retry_delay : float;
  ac_detect : detect_config;
  ac_forest_num_trees : nat; ac_forest_subsample_size : nat
}.

Record ad_world := AdWorld {
  y_broker : nat -> delivery;
  (** the error of the n-th claim, and whether it was committed nevertheless *)
  y_claim : nat -> option (bool * exn);
  y_clock : ad -> float;
  y_utc_now : nat -> Z;
  y_uuid4 : nat -> string;
  y_load : string -> res NormalizedTelemetryEvent;
  y_dump : AnomalyDetected -> res string;
  y_dump_dead_letter : DeadLetterRecord -> res string;
  y_decode : string -> string;
  y_flog : float -> float;
  y_pow2 : float -> res float;
  y_rng : rng
}.

Section AnomalyDetector.
  Variable w : ad_world.
  Variable cfg : ad_config.

Definition ad_sleep (_ : float) : M ad unit := mret tt.

Definition ad_read {A} (f : nat -> A) : M ad A := fun s =>
  (Ok (f (ad_reads s)),
   Ad (ad_kafka s) (ad_breaker s) (ad_metrics s) (ad_claims s) (ad_claimed s) (ad_catalog s) (ad_trackers s)
      (ad_fs s) (ad_forests s) (ad_draws s) (S (ad_reads s))).

(** [claim_telemetry_event_once]: [INSERT ... ON CONFLICT (scope, key) DO NOTHING
    RETURNING id], and the commit. *)
Definition claim_telemetry_event_once (event_id : string) : M ad bool := fun s =>
  let n := ad_claims s in
  let st c := Ad (ad_kafka s) (ad_breaker s) (ad_metrics s) (S n) c (ad_catalog s) (ad_trackers s)
                 (ad_fs s) (ad_forests s) (ad_draws s) (ad_reads s) in
  let claimed := ad_claimed s in
  match y_claim w n with
  | Some (kept, e) => (Raise e, st (if (kept : bool) then {[ event_id ]} ∪ claimed else claimed))
  | None => (Ok (negb (bool_decide (event_id ∈ claimed))), st ({[ event_id ]} ∪ claimed))
  end.

(** ** [kafka_io.py] *)

Definition publish_anomaly (key : string) (evt : AnomalyDetected) : M ad unit :=
  match y_dump w evt with
  | Raise exc => raise (ErrPermanent ("marshal anomaly: " +:+ exn_str exc))
  | Ok payload =>
      protected_write (y_broker w) (y_clock w) ad_sleep (ac_kafka_max_retries cfg) (ac_kafka_retry_delay cfg)
        (ac_topic_anomalies cfg) key payload
  end.

Definition dead_letter (raw_payload : string) (cause : exn) (stage correlation_id : string) : M ad unit :=
  now ← ad_read (y_utc_now w);
  payload ← of_res (y_dump_dead_letter w (mkDeadLetterRecord (y_decode w raw_payload) (exn_str cause)
    ERROR_TYPE_TRANSIENT "anomaly-detector" stage 0 (Aware now) correlation_id "telemetry.processed"));
  lift (produce_and_wait (y_broker w) (ac_topic_dead_letter cfg) correlation_id payload).

(** ** [main.py] *)

Definition fail_stage (reason : string) (raw : string) (exc : exn) (stage correlation_id : string) : M ad bool :=
  inc ("messages_failed_total:" +:+ reason) ;;
  try_else (dead_letter raw exc stage correlation_id)
    (fun _ => mret false)
    (fun _ => inc "dlq_messages_total" ;; mret true).

(** Level 3: the vector of the device, and its score when there is a forest. *)
Definition forest_level (device_id metric : string) (value : float) (info : option DeviceInfo) : M ad (float * bool) :=
  match info with
  | None => mret (fzero, false)
  | Some i =>
      order ← gets (fun s => features_for (di_machine_type i) (ad_catalog s));
      vector ← lift (fun fs => let '(v, fs) := observe device_id (di_machine_type i) metric value order fs in (Ok v, fs));
      forest ← gets (fun s => get_forest (di_machine_type i) (ad_forests s));
      match (vector : option row), (forest : option IsolationForest) with
      | Some x, Some f => sc ← of_res (score (y_flog w) (y_pow2 w) f x); mret (sc, true)
      | _, _ => mret (fzero, false)
      end
  end.

Definition range_of (metric : string) (info : option DeviceInfo) : option MetricRange :=
  info ≫= (fun i => di_ranges i !! metric).

(** The three levels on one reading. *)
Definition detect_levels (evt : TelemetryEvent) : M ad (list Detection) :=
  info ← gets (fun s => lookup_device (te_device_id evt) (ad_catalog s));
  let rng := range_of (te_metric evt) info in
  '(z_score, sample_count) ← lift (trackers_update (te_device_id evt) (te_metric evt) (te_value evt));
  '(forest_score, has_forest) ← forest_level (te_device_id evt) (te_metric evt) (te_value evt) info;
  of_res (run_detectors (te_value evt) (default default_range rng) (bool_decide (is_Some rng)) z_score sample_count
            (ac_detect cfg) forest_score has_forest).

(** [AnomalyDetected(...)] of an event and its detections. *)
Definition anomaly_of (anomaly_id : string) (now : Z) (evt : TelemetryEvent) (results : list Detection) : AnomalyDetected :=
  let c := combine_detections results in
  mkAnomalyDetected anomaly_id (te_event_id evt) (te_organization_id evt) (te_factory_id evt)
    (te_production_line_id evt) (te_machine_id evt) (te_device_id evt) (te_sensor_id evt) (te_metric evt)
    (te_value evt) (cb_severity c) (cb_score c) (cb_methods c) (cb_reason c) (Aware now).

Definition _process_message (msg : fetched) : M ad bool :=
  inc "messages_consumed_total" ;;
  match y_load w (ft_value msg) with
  | Raise exc => fail_stage "unmarshal" (ft_value msg) exc "unmarshal" ""
  | Ok n =>
      let evt := nt_event n in
      try_else (claim_telemetry_event_once (te_event_id evt))
        (fun _ => mret false)
        (fun claimed =>
          if negb claimed then mret true
          else
            results ← detect_levels evt;
            match (results : list Detection) with
            | [] => mret true
            | _ =>
                for_each results (fun r => inc ("anomalies_detected_total:" +:+ dt_method r)) ;;
                anomaly_id ← ad_read (y_uuid4 w);
                now ← ad_read (y_utc_now w);
                try_else (publish_anomaly (te_device_id evt) (anomaly_of anomaly_id now evt results))
                  (fun exc => fail_stage "publish_anomaly" (ft_value msg) exc "publish_anomaly" (te_event_id evt))
                  (fun _ => mret true)
            end)
  end.

Definition _process_timed (msg : fetched) : M ad bool := timed (_process_message msg).
Definition _consume_loop : list poll_event -> M (ad * Z) unit := consume_loop _process_timed.

(** One tick of the catalog refresher: the rows of the query, or its error,
    which leaves the old catalog. *)
Definition refresh_tick (rows : res (list catalog_row)) : M ad unit :=
  match rows with
  | Ok rows => modify (fun s =>
      Ad (ad_kafka s) (ad_breaker s) (ad_metrics s) (ad_claims s) (ad_claimed s) (refresh rows) (ad_trackers s)
         (ad_fs s) (ad_forests s) (ad_draws s) (ad_reads s))
  | Raise _ => mret tt
  end.

(** One tick of [_run_lag_reporter], on the answer of [kio.lag()]. *)
Definition lag_tick (answer : res Z) : M ad unit :=
  n ← of_res answer;
  lift (modify (fun m => Metrics (<["kafka_consumer_lag" := n]> (mt_counters m)))).

(** One tick of [run_forest_trainer]. *)
Definition train_tick : M ad unit :=
  fs ← gets ad_fs;
  train_once (y_flog w) (y_rng w) (ac_forest_num_trees cfg) (ac_forest_subsample_size cfg) fs.

End AnomalyDetector.

(** ** Histories *)

(** What the threads of the service do, one at a time. *)
Inductive ad_op :=
  | OpMessage (msg : fetched)
  | OpRefresh (rows : res (list catalog_row))
  | OpTrain.

Definition ad_step (w : ad_world) (cfg : ad_config) (o : ad_op) (s : ad) : ad :=
  match o with
  | OpMessage msg => exec (_process_message w cfg msg) s
  | OpRefresh rows => exec (refresh_tick rows) s
  | OpTrain => exec (train_tick w cfg) s
  end.

Definition ad_run (w : ad_world) (cfg : ad_config) (ops : list ad_op) (s : ad) : ad :=
  foldl (fun s o => ad_step w cfg o s) s ops.

(** ** Lemmas *)

Section Lemmas.
  Context (w : ad_world) (cfg : ad_config).

(** The claims stay. *)
Definition claims_grow (s s' : ad) : Prop := ad_claimed s ⊆ ad_claimed s'.

#[local] Instance claims_grow_preorder : PreOrder claims_grow.
Proof. split; [by intros s x | intros s1 s2 s3 H12 H23; unfold claims_grow in *; by etrans]. Qed.

(** The claims, the detectors' state and the counters of claims are not touched;
    the broker's log only grows. *)
Definition undetected (s s' : ad) : Prop :=
  ad_claims s' = ad_claims s /\ ad_claimed s' = ad_claimed s /\ ad_catalog s' = ad_catalog s /\
  ad_trackers s' = ad_trackers s /\ ad_fs s' = ad_fs s /\ ad_forests s' = ad_forests s /\
  ad_draws s' = ad_draws s /\ log_grows (ad_kafka s) (ad_kafka s').

#[local] Instance undetected_preorder : PreOrder undetected.
Proof.
  split; [intros s; split_and!; reflexivity|].
  intros s1 s2 s3 (? & ? & ? & ? & ? & ? & ? & L1) (? & ? & ? & ? & ? & ? & ? & L2).
  split_and!; [congruence.. | by etrans].
Qed.

Lemma undetected_inc name : moves undetected (inc (S:=ad) name).
Proof. intros s. split_and!; reflexivity. Qed.

Lemma undetected_read {A} (f : nat -> A) : moves undetected (ad_read f).
Proof. intros s. split_and!; reflexivity. Qed.

Lemma undetected_dead_letter raw exc stage cid : moves undetected (dead_letter w cfg raw exc stage cid).
Proof.
  unfold dead_letter. apply moves_bind; [apply _ | apply undetected_read|]. intros now.
  apply moves_bind; [apply _ | intros s; split_and!; reflexivity|]. intros payload s. unfold lift.
  pose proof (produce_grows (y_broker w) (ac_topic_dead_letter cfg) cid payload (part_get s)) as Hg.
  destruct (produce_and_wait _ _ _ _ _) as [r k']. split_and!; [reflexivity.. | exact Hg].
Qed.

Lemma undetected_fail_stage reason raw exc stage cid : moves undetected (fail_stage w cfg reason raw exc stage cid).
Proof.
  unfold fail_stage. apply moves_bind; [apply _ | apply undetected_inc|]. intros _.
  apply moves_try_else; [apply _ | apply undetected_dead_letter | intros; apply moves_ret, _ |].
  intros _. apply moves_bind; [apply _ | apply undetected_inc | intros; apply moves_ret, _].
Qed.

Lemma undetected_publish key evt : moves undetected (publish_anomaly w cfg key evt).
Proof.
  unfold publish_anomaly. destruct (y_dump w evt); [|apply moves_raise, _].
  apply moves_protected_write; [apply _ | | |].
  - intros b s. split_and!; reflexivity.
  - intros k s Hk. split_and!; try reflexivity. exact Hk.
  - intros d s. split_and!; reflexivity.
Qed.

(** Counting, naming and publishing a record of detections. *)
Definition report (msg : fetched) (evt : TelemetryEvent) (results : list Detection) : M ad bool :=
  for_each results (fun r => inc ("anomalies_detected_total:" +:+ dt_method r)) ;;
  anomaly_id ← ad_read (y_uuid4 w);
  now ← ad_read (y_utc_now w);
  try_else (publish_anomaly w cfg (te_device_id evt) (anomaly_of anomaly_id now evt results))
    (fun exc => fail_stage w cfg "publish_anomaly" (ft_value msg) exc "publish_anomaly" (te_event_id evt))
    (fun _ => mret true).

Lemma undetected_report msg evt results : moves undetected (report msg evt results).
Proof.
  unfold report. apply moves_bind; [apply _ | apply moves_for_each; [apply _ | intros; apply undetected_inc]|].
  intros _. apply moves_bind; [apply _ | apply undetected_read|]. intros id.
  apply moves_bind; [apply _ | apply undetected_read|]. intros now.
  apply moves_try_else; [apply _ | apply undetected_publish | intros; apply undetected_fail_stage |].
  intros _. apply moves_ret, _.
Qed.

(** The event was seen: the three levels, and the report. *)
Definition detect_and_report (msg : fetched) (evt : TelemetryEvent) : M ad bool :=
  results ← detect_levels w cfg evt;
  match (results : list Detection) with [] => mret true | _ => report msg evt results end.

(** The message is in the dead-letter topic. *)
Definition dead_lettered (raw : string) (s : ad) : Prop :=
  exists m r, m ∈ kf_log (ad_kafka s) /\ mg_topic m = ac_topic_dead_letter cfg /\
    dl_original_payload r = y_decode w raw /\ y_dump_dead_letter w r = Ok (mg_value m).

Lemma detector_fail_stage_committed reason raw exc stage cid s s' :
  acks_all (y_broker w) -> fail_stage w cfg reason raw exc stage cid s = (Ok true, s') -> dead_lettered raw s'.
Proof.
  intros Hacks. unfold fail_stage. erewrite bind_ok by reflexivity. unfold try_else.
  match goal with |- context [dead_letter w cfg raw exc stage cid ?s1] => set (s1' := s1) end.
  destruct (dead_letter w cfg raw exc stage cid s1') as [[[]|e] s2] eqn:E; [|done].
  intros [= <-]. unfold dead_letter in E. erewrite bind_ok in E by reflexivity. unfold of_res in E.
  destruct (y_dump_dead_letter w _) as [payload|] eqn:Ed; [|by erewrite bind_raise in E by reflexivity].
  erewrite bind_ok in E by reflexivity. unfold lift in E.
  destruct (produce_and_wait _ _ _ _ _) as [r k'] eqn:Ep. injection E as -> <-.
  apply (produce_ok _ _ _ _ _ _ Hacks) in Ep.
  eexists (Message (ac_topic_dead_letter cfg) cid payload), _. split_and!; [| | | exact Ed]; [|done..].
  simpl. rewrite Ep. apply elem_of_app. right. by apply list_elem_of_singleton.
Qed.

(** A report that asks for the commit: published, or dead-lettered. *)
Lemma report_committed msg evt results s s' :
  acks_all (y_broker w) -> report msg evt results s = (Ok true, s') ->
  dead_lettered (ft_value msg) s' \/
  exists anomaly_id now payload, y_dump w (anomaly_of anomaly_id now evt results) = Ok payload /\
    Message (ac_topic_anomalies cfg) (te_device_id evt) payload ∈ kf_log (ad_kafka s').
Proof.
  intros Hacks. unfold report.
  assert (Hcount : exists s0, for_each results (fun r => inc ("anomalies_detected_total:" +:+ dt_method r)) s = (Ok tt, s0)).
  { clear. revert s. induction results as [|r results IH]; intros s; [by eexists|].
    cbn [for_each]. erewrite bind_ok by reflexivity. apply IH. }
  destruct Hcount as [s0 Hs0]. erewrite bind_ok by exact Hs0.
  erewrite bind_ok by reflexivity. erewrite bind_ok by reflexivity. unfold try_else.
  match goal with |- context [publish_anomaly w cfg _ ?a ?s1] => set (an := a); set (s1' := s1) end.
  destruct (publish_anomaly w cfg (te_device_id evt) an s1') as [[[]|e] s2] eqn:E.
  - intros [= <-]. right. exists (y_uuid4 w (ad_reads s0)), (y_utc_now w (S (ad_reads s0))).
    revert E. unfold publish_anomaly. change (anomaly_of _ _ evt results) with an.
    destruct (y_dump w an) as [payload|] eqn:Ed; [|done]. intros H. exists payload. split; [done|].
    eapply (protected_write_stored (H:=ad_breaker_part) (H0:=ad_kafka_part)); [done | exact Hacks | exact H].
  - intros H. left. by eapply detector_fail_stage_committed.
Qed.

(** Detecting leaves the claims and the broker alone. *)
Definition unclaimed (s s' : ad) : Prop :=
  ad_claims s' = ad_claims s /\ ad_claimed s' = ad_claimed s /\ ad_kafka s' = ad_kafka s.

#[local] Instance unclaimed_preorder : PreOrder unclaimed.
Proof. split; [by intros s | intros s1 s2 s3 (? & ? & ?) (? & ? & ?); split_and!; congruence]. Qed.

Lemma unclaimed_detect_levels evt : moves unclaimed (detect_levels w cfg evt).
Proof.
  unfold detect_levels. apply moves_bind; [apply _ | by intros s|]. intros info.
  apply moves_bind; [apply _ | |].
  { intros s. unfold lift. by destruct (trackers_update _ _ _ _). }
  intros [z n]. apply moves_bind; [apply _ | | intros [sc has] s; done].
  unfold forest_level. destruct info as [i|]; [|by intros s].
  apply moves_bind; [apply _ | by intros s|]. intros order.
  apply moves_bind; [apply _ | |].
  { intros s. unfold lift. by destruct (observe _ _ _ _ _ _). }
  intros v. apply moves_bind; [apply _ | by intros s|]. intros f.
  destruct v as [x|]; [|by intros s]. destruct f as [f|]; [|by intros s].
  apply moves_bind; [apply _ | by intros s | by intros sc s].
Qed.

Lemma unclaimed_grow s s' : unclaimed s s' -> claims_grow s s'.
Proof. intros (_ & H & _). unfold claims_grow. by rewrite H. Qed.

Lemma undetected_grow s s' : undetected s s' -> claims_grow s s'.
Proof. intros (_ & H & _). unfold claims_grow. by rewrite H. Qed.

Lemma detect_and_report_grow msg evt : moves claims_grow (detect_and_report msg evt).
Proof.
  unfold detect_and_report. apply moves_bind; [apply _ | intros s; apply unclaimed_grow, unclaimed_detect_levels|].
  intros [|r rs]; [apply moves_ret, _|]. intros s. apply undetected_grow, undetected_report.
Qed.

(** One message, up to its claim. *)
Lemma process_message_unfold msg :
  _process_message w cfg msg =
  (inc "messages_consumed_total" ;;
   match y_load w (ft_value msg) with
   | Raise exc => fail_stage w cfg "unmarshal" (ft_value msg) exc "unmarshal" ""
   | Ok n =>
       try_else (claim_telemetry_event_once w (te_event_id (nt_event n)))
         (fun _ => mret false)
         (fun claimed => if negb claimed then mret true else detect_and_report msg (nt_event n))
   end).
Proof. reflexivity. Qed.

Lemma claim_grow id : moves claims_grow (claim_telemetry_event_once w id).
Proof.
  intros s. unfold claim_telemetry_event_once, claims_grow.
  destruct (y_claim w _) as [[[] e]|]; simpl; [apply union_subseteq_r | done | apply union_subseteq_r].
Qed.

Lemma process_message_grow msg : moves claims_grow (_process_message w cfg msg).
Proof.
  rewrite process_message_unfold.
  apply moves_bind; [apply _ | intros s; apply undetected_grow, undetected_inc|]. intros _.
  destruct (y_load w (ft_value msg)) as [n|exc].
  - apply moves_try_else; [apply _ | apply claim_grow | intros; apply moves_ret, _|].
    intros []; cbn [negb]; [apply detect_and_report_grow | apply moves_ret, _].
  - intros s. apply undetected_grow, undetected_fail_stage.
Qed.

Lemma train_once_grow flog g num size fs : moves claims_grow (train_once (S:=ad) flog g num size fs).
Proof.
  unfold train_once. induction (machine_types_with_data fs) as [|mt types IH]; simpl; [apply moves_ret, _|].
  case_match; [done|]. apply moves_bind; [apply _ | | intros _; apply moves_bind; [apply _ | by intros s x | done]].
  intros s. unfold lift. destruct (fit_and_set _ _ _ _ _ _ _). by intros x.
Qed.

Lemma ad_run_grow ops s : claims_grow s (ad_run w cfg ops s).
Proof.
  revert s. induction ops as [|o ops IH]; intros s; [reflexivity|]. simpl. etrans; [|apply IH].
  destruct o as [msg|[rows|]|]; [apply process_message_grow | by intros x | by intros x |].
  unfold ad_step, exec, train_tick. erewrite bind_ok by reflexivity. apply train_once_grow.
Qed.

(** Once a claim was not refused by Postgres, the event is claimed. *)
Lemma processed_claimed msg n s :
  y_load w (ft_value msg) = Ok n -> y_claim w (ad_claims s) = None ->
  te_event_id (nt_event n) ∈ ad_claimed (exec (_process_message w cfg msg) s).
Proof.
  intros Hload Hclaim. unfold exec. rewrite process_message_unfold. erewrite bind_ok by reflexivity. rewrite Hload.
  unfold try_else at 1, claim_telemetry_event_once. simpl. rewrite Hclaim.
  match goal with |- _ ∈ ad_claimed (snd ((if negb ?b then _ else _) ?s1)) => set (first := b); set (s1' := s1) end.
  assert (Hin : te_event_id (nt_event n) ∈ ad_claimed s1') by (apply elem_of_union_l; by apply elem_of_singleton).
  destruct first; cbn [negb]; [|exact Hin]. by apply detect_and_report_grow.
Qed.

End Lemmas.

(** What a commit of the anomaly detector means.  When [_process_message]
    asks for the commit, the message is in the dead-letter topic, or its event
    had been claimed before, or the three detectors ran on it, left the
    baselines and buffers they leave, and either found nothing or the one record
    that combines their detections is on the anomaly topic, keyed by the
    device. *)
Lemma detector_committed (w : ad_world) (cfg : ad_config) (msg : fetched) (s s' : ad) :
  acks_all (y_broker w) -> _process_message w cfg msg s = (Ok true, s') ->
  dead_lettered w cfg (ft_value msg) s' \/
  exists n, y_load w (ft_value msg) = Ok n /\
    let evt := nt_event n in
    (te_event_id evt ∈ ad_claimed s \/
     exists s0 s1 results, detect_levels w cfg evt s0 = (Ok results, s1) /\
       ad_catalog s0 = ad_catalog s /\ ad_trackers s0 = ad_trackers s /\ ad_fs s0 = ad_fs s /\ ad_forests s0 = ad_forests s /\
       ad_trackers s' = ad_trackers s1 /\ ad_fs s' = ad_fs s1 /\
       (results = [] \/
        exists anomaly_id now payload, y_dump w (anomaly_of anomaly_id now evt results) = Ok payload /\
          Message (ac_topic_anomalies cfg) (te_device_id evt) payload ∈ kf_log (ad_kafka s'))).
Proof.
  intros Hacks. rewrite process_message_unfold. erewrite bind_ok by reflexivity.
  destruct (y_load w (ft_value msg)) as [n|exc]; [|intros H; left; by eapply detector_fail_stage_committed].
  unfold try_else at 1, claim_telemetry_event_once. simpl.
  destruct (y_claim w _) as [[kept e]|]; [done|].
  case_bool_decide as Hin; cbn [negb]; [intros _; right; exists n; split; [done|]; by left|].
  match goal with |- detect_and_report _ _ _ _ ?s0 = _ -> _ => set (s0' := s0) end.
  unfold detect_and_report. unfold mbind, M_bind.
  destruct (detect_levels w cfg (nt_event n) s0') as [[results|e] s1] eqn:E; [|done].
  destruct results as [|r rs].
  - intros [= <-]. right. exists n. split; [done|]. right. exists s0', s1, []. split_and!; try done. by left.
  - intros H. destruct (report_committed w cfg _ _ _ _ _ Hacks H) as [Hd|Hp]; [by left|].
    pose proof (undetected_report w cfg msg (nt_event n) (r :: rs) s1) as (_ & _ & _ & Ht & Hf & _).
    rewrite H in Ht, Hf. simpl in Ht, Hf.
    right. exists n. split; [done|]. right. exists s0', s1, (r :: rs). split_and!; try done. by right.
Qed.

(** ** Theorems *)

(** A redelivery is a full no-op.  Once a message was processed with its
    claim accepted by Postgres (even if the processing raised), then after any
    messages, catalog refreshes and trainings, a redelivery of it is committed
    and changes no baseline, no feature vector, no training buffer, no forest
    and nothing at the broker. *)
Theorem redelivery_is_noop (w : ad_world) (cfg : ad_config) (msg again : fetched) (n : NormalizedTelemetryEvent)
    (s : ad) (ops : list ad_op) :
  y_load w (ft_value msg) = Ok n -> ft_value again = ft_value msg ->
  y_claim w (ad_claims s) = None ->
  let s1 := ad_run w cfg (OpMessage msg :: ops) s in
  y_claim w (ad_claims s1) = None ->
  exists s2, _process_message w cfg again s1 = (Ok true, s2) /\
    ad_trackers s2 = ad_trackers s1 /\ ad_fs s2 = ad_fs s1 /\ ad_forests s2 = ad_forests s1 /\
    ad_kafka s2 = ad_kafka s1 /\ ad_claimed s2 = ad_claimed s1.
Proof.
  intros Hload Hagain Hfirst s1 Hsecond.
  assert (Hin : te_event_id (nt_event n) ∈ ad_claimed s1).
  { apply (ad_run_grow w cfg ops (ad_step w cfg (OpMessage msg) s)). by apply processed_claimed. }
  clearbody s1. rewrite process_message_unfold, Hagain, Hload. erewrite bind_ok by reflexivity.
  unfold try_else at 1, claim_telemetry_event_once. simpl. rewrite Hsecond.
  rewrite bool_decide_true by done. cbn [negb]. eexists. split; [reflexivity|]. simpl. split_and!; [done..|].
  clear - Hin. set_solver.
Qed.

(** *** An example surrounding *)

(** The payload ["t<i>"] is a temperature reading, any other a humidity reading
    of the same device; each has its own event id. *)
Definition demo_reading (p : string) : NormalizedTelemetryEvent :=
  mkNormalizedTelemetryEvent
    (mkTelemetryEvent p demo_uuid demo_uuid demo_uuid demo_uuid "device" demo_uuid (Some (Aware 0)) 1
       (if String.prefix "t" p then "temperature" else "humidity")
       (float_of_Z (Z.of_nat (String.length p))) "C") demo_uuid (Aware 0) SCHEMA_VERSION.

Definition demo_ad_world : ad_world :=
  AdWorld (fun _ => demo_delivery) (fun _ => None) (fun _ => fzero) (fun _ => 0) (fun _ => demo_uuid)
    (fun p => Ok (demo_reading p)) (fun _ => Ok "anomaly") (fun r => Ok ("dlq:" +:+ dl_original_payload r)) (fun p => p)
    (fun x => x) (fun x => Ok x) demo_rng.

Definition demo_ad_config : ad_config :=
  AdConfig "anomalies.detected" "dead-letter" 1 fone (DetectConfig 30 (float_of_Z 3) (flit 62 100)) 1 256.

Definition demo_ad : ad :=
  Ad (Kafka 0 []) (new_breaker 5 fone) (Metrics ∅) 0 ∅ (refresh []) (mkStatisticalTrackers (flit 1 10) ∅)
    (new_feature_store 500) [] 0 0.

Definition demo_catalog_row (metric : string) : catalog_row :=
  CatalogRow "device" "pump" metric (float_of_Z 1) (float_of_Z 2).

Lemma redelivery_is_noop_witness :
  let s1 := ad_run demo_ad_world demo_ad_config [OpMessage (Fetched 0 "t1"); OpMessage (Fetched 1 "t22")] demo_ad in
  ad_claimed s1 = {[ "t1"; "t22" ]} /\
  exists s2, _process_message demo_ad_world demo_ad_config (Fetched 0 "t1") s1 = (Ok true, s2) /\
    ad_trackers s2 = ad_trackers s1 /\ ad_fs s2 = ad_fs s1 /\ ad_forests s2 = ad_forests s1 /\
    ad_kafka s2 = ad_kafka s1 /\ ad_claimed s2 = ad_claimed s1.
Proof.
  split; [by apply (bool_decide_unpack _); vm_compute|].
  apply (redelivery_is_noop demo_ad_world demo_ad_config (Fetched 0 "t1") (Fetched 0 "t1") (demo_reading "t1") demo_ad
    [OpMessage (Fetched 1 "t22")]); reflexivity.
Defined.

(** A pump had two sensors and a forest trained on sixty complete vectors; one
    sensor was removed and the catalog refreshed. *)
Definition removed_sensor_ops : list ad_op :=
  OpRefresh (Ok [demo_catalog_row "humidity"; demo_catalog_row "temperature"]) :: OpMessage (Fetched 0 "h") ::
  ((fun i => OpMessage (Fetched (Z.of_nat i) ("t" +:+ pretty i))) <$> seq 1 60) ++
  [OpTrain; OpRefresh (Ok [demo_catalog_row "humidity"])].
Definition removed_sensor_state : ad := ad_run demo_ad_world demo_ad_config removed_sensor_ops demo_ad.

Lemma removed_sensor_raises :
  eval (_process_message demo_ad_world demo_ad_config (Fetched 61 "h2")) removed_sensor_state = Raise index_error.
Proof. by vm_compute. Qed.

(** What one message raises leaves the loop. *)
Lemma consumer_raises w cfg m e s c err :
  eval (_process_message w cfg m) s = Raise e ->
  _consume_loop w cfg [PollMessage m err] (s, c) = (Raise e, (exec (_process_message w cfg m) s, c)).
Proof.
  intros H%timed_raise. unfold _consume_loop. cbn [consume_loop]. apply bind_raise. unfold on_service, _process_timed.
  cbn [fst snd]. by rewrite H.
Qed.

(** Removing a sensor can kill the consumer.  A pump has two sensors; after
    sixty complete vectors a forest is trained; the temperature sensor is then
    removed and the catalog refreshed, so the vectors have one entry while the
    trees still split on the second: [score] raises [IndexError], which nothing
    in [_process_message] or [_consume_loop] catches, so the consumer ends.  The
    event was claimed before, so its redelivery is skipped as a duplicate. *)
Theorem removed_sensor_ends_consumer :
  let readings := (fun i => OpMessage (Fetched (Z.of_nat i) ("t" +:+ pretty i))) <$> seq 1 60 in
  let ops := OpRefresh (Ok [demo_catalog_row "humidity"; demo_catalog_row "temperature"])
               :: OpMessage (Fetched 0 "h") :: readings ++
             [OpTrain; OpRefresh (Ok [demo_catalog_row "humidity"])] in
  let s := ad_run demo_ad_world demo_ad_config ops demo_ad in
  exists s',
    _consume_loop demo_ad_world demo_ad_config [PollMessage (Fetched 61 "h2") None] (s, 61) = (Raise index_error, (s', 61)) /\
    eval (_process_message demo_ad_world demo_ad_config (Fetched 61 "h2")) s' = Ok true /\
    kf_log (ad_kafka s') = kf_log (ad_kafka s).
Proof.
  cbn zeta. eexists. split_and!; [exact (consumer_raises _ _ _ _ _ _ _ removed_sensor_raises) | by vm_compute..].
Qed.
