(* ===== verification/Alerts.v ===== *)
(** [alert-service/rules.py], [conditions.py], [anomalycount.py] and [store.py]:
    the rule cache, the conditions, the sliding count of anomalies, and the
    persistence of alerts with deduplication, cooldown and escalation.  The SQL
    is a statement on the tables of [Postgres]; the partial unique index
    [idx_alerts_open_dedupe] is checked where the server checks it. *)

From stdpp Require Import prelude strings gmap sorting.
From Stdlib Require Import ZArith Lia Ascii SpecFloat.
From S2P Require Import Prelude PyFloat Effects PyStr Postgres Events.

Local Open Scope Z_scope.

(** ** [rules.py] *)

Record AlertRule := mkAlertRule {
  rl_id : string; rl_organization_id : string; rl_name : string; rl_metric : string; rl_condition : string;
  rl_threshold_value : option float; rl_threshold_min : option float; rl_threshold_max : option float;
  rl_severity : string; rl_cooldown_seconds : Z; rl_window_seconds : Z;
  rl_machine_id : option string; rl_device_id : option string; rl_sensor_id : option string
}.

Definition scope_matches (r : AlertRule) (machine_id device_id sensor_id : string) : bool :=
  let mismatch (scope : option string) (id : string) :=
    match scope with Some s => negb (bool_decide (s = id)) | None => false end in
  if mismatch (rl_machine_id r) machine_id then false
  else if mismatch (rl_device_id r) device_id then false
  else if mismatch (rl_sensor_id r) sensor_id then false
  else true.

(** [AlertRule(id=str(row[0]), ...)]; the columns are canonical texts already. *)
Definition rule_of_row (r : alert_rule_row) : AlertRule :=
  mkAlertRule (ar_id r) (ar_organization_id r) (ar_name r) (ar_metric r) (ar_condition r)
    (ar_threshold_value r) (ar_threshold_min r) (ar_threshold_max r)
    (ar_severity r) (ar_cooldown_seconds r) (ar_window_seconds r)
    (ar_machine_id r) (ar_device_id r) (ar_sensor_id r).

Abbreviation rule_cache := (gmap string (list AlertRule)).

Definition rule_key (org_id metric : string) : string := org_id +:+ "|" +:+ metric.

(** [by_key.setdefault(key, []).append(rule)]. *)
Definition add_rule (by_key : rule_cache) (rule : AlertRule) : rule_cache :=
  let key := rule_key (rl_organization_id rule) (rl_metric rule) in
  <[key := default [] (by_key !! key) ++ [rule]]> by_key.

(** The loop of [refresh] over the rows of its query. *)
Definition cache_of_rows (rows : list alert_rule_row) : rule_cache :=
  foldl (fun by_key r => add_rule by_key (rule_of_row r)) ∅ rows.

Definition select_rules : statement alert_db (list alert_rule_row) :=
  select (fun d => filter (fun r => ar_is_active r = true) (db_alert_rules d)).

Definition rules_for (org_id metric : string) (c : rule_cache) : list AlertRule :=
  default [] (c !! rule_key org_id metric).

(** ** [conditions.py] *)

(** [f(x)] of a threshold that is set: [x is not None and ...]. *)
Definition is_set {A} (x : option A) (f : A -> bool) : bool := match x with Some x => f x | None => false end.

(** An [int] against a [float]: exact for the counts below [2^53]. *)
Definition condition_matches (rule : AlertRule) (value : float) (count_in_window : Z) : bool :=
  if bool_decide (rl_condition rule = "GREATER_THAN") then
    is_set (rl_threshold_value rule) (fun t => fgtb value t)
  else if bool_decide (rl_condition rule = "LESS_THAN") then
    is_set (rl_threshold_value rule) (fun t => fltb value t)
  else if bool_decide (rl_condition rule = "OUTSIDE_RANGE") then
    is_set (rl_threshold_min rule) (fun lo => is_set (rl_threshold_max rule) (fun hi => fltb value lo || fgtb value hi))
  else if bool_decide (rl_condition rule = "ANOMALY_COUNT") then
    is_set (rl_threshold_value rule) (fun t => fgeb (float_of_Z count_in_window) t)
  else false.

(** ** [anomalycount.py] *)

Abbreviation count_tracker := (gmap string (list datetime)).

(** [[t for t in times if t >= cutoff]]. *)
Fixpoint not_older (cutoff : timestamp) (times : list datetime) : res (list datetime) :=
  match times with
  | [] => Ok []
  | t :: times =>
      match dt_ge (Some t) cutoff with
      | Raise e => Raise e
      | Ok keep =>
          match not_older cutoff times with
          | Raise e => Raise e
          | Ok l => Ok (if (keep : bool) then t :: l else l)
          end
      end
  end.

Definition count_record (key : string) (at_ : datetime) (window_seconds : Z) : M count_tracker Z := fun s =>
  match dt_minus (Some at_) (seconds window_seconds) with
  | Raise e => (Raise e, s)
  | Ok cutoff =>
      match not_older cutoff (default [] (s !! key)) with
      | Raise e => (Raise e, s)
      | Ok times => let times := times ++ [at_] in (Ok (Z.of_nat (length times)), <[key := times]> s)
      end
  end.

(** ** [store.py] *)

Definition CREATED : string := "created".
Definition SUPPRESSED_OPEN : string := "suppressed_open".
Definition SUPPRESSED_COOLDOWN : string := "suppressed_cooldown".

Definition SEVERITY_LADDER : list string := ["WARNING"; "HIGH"; "CRITICAL"].

Record Alert := mkAlert {
  a_organization_id : string; a_severity : string;
  a_factory_id : string; a_machine_id : string; a_device_id : string; a_sensor_id : string;
  a_title : string; a_description : string; a_id : string; a_status : string;
  a_triggered_at : option Z; a_escalation_level : Z
}.

(** [ORDER BY triggered_at DESC]; rows with equal times in table order. *)
Definition latest_first (a b : alert_row) : Prop := al_triggered_at b <= al_triggered_at a.
#[export] Instance latest_first_dec a b : Decision (latest_first a b) := Z_le_dec _ _.

(** The alerts of a rule and a dedupe scope. *)
Definition alerts_of (rule_id dedupe_key : string) (d : alert_db) : list alert_row :=
  filter (fun r => al_rule_id r = rule_id /\ al_dedupe_key r = dedupe_key) (db_alerts d).

Definition select_last (rule_id dedupe_key : string) : statement alert_db (option (string * Z)) :=
  select (fun d => (fun r => (al_status r, al_triggered_at r)) <$> head (merge_sort latest_first (alerts_of rule_id dedupe_key d))).

(** The keys the partial unique index constrains. *)
Definition open_keys (l : list alert_row) : list (string * string) :=
  omap (fun r => if bool_decide (al_status r = "OPEN") then Some (al_rule_id r, al_dedupe_key r) else None) l.

(** [idx_alerts_open_dedupe]. *)
Definition open_index_ok (d : alert_db) : Prop := NoDup (open_keys (db_alerts d)).

(** [INSERT INTO alerts ... ON CONFLICT (alert_rule_id, dedupe_key) WHERE
    status = 'OPEN' DO NOTHING RETURNING id, triggered_at]. *)
Definition insert_alert (rule_id org : string) (fac mac dev sen : option string) (a : Alert) (dedupe_key : string)
  : statement alert_db (option (string * Z)) := fun now uuid d =>
  if bool_decide ((rule_id, dedupe_key) ∈ open_keys (db_alerts d)) then (Ok None, d)
  else if bool_decide (uuid ∈ (al_id <$> db_alerts d)) then (Raise (UniqueViolation "alerts_pkey"), d)
  else (Ok (Some (uuid, now)), set_alerts (db_alerts d ++
    [AlertRow uuid org rule_id fac mac dev sen (a_severity a) "OPEN" (a_title a) (a_description a) dedupe_key
       now None 0 None]) d).

(** The [SET] of [escalate]. *)
Definition escalated (new_severity : string) (now : Z) (r : alert_row) : alert_row :=
  AlertRow (al_id r) (al_organization_id r) (al_rule_id r) (al_factory_id r) (al_machine_id r) (al_device_id r)
    (al_sensor_id r) new_severity (al_status r) (al_title r) (al_description r) (al_dedupe_key r)
    (al_triggered_at r) (al_resolved_at r) (al_escalation_level r + 1) (Some now).

Definition update_alert (id : string) (f : Z -> alert_row -> alert_row) : statement alert_db unit :=
  update (fun now d => set_alerts (map (fun r => if bool_decide (al_id r = id) then f now r else r) (db_alerts d)) d).

(** The [WHERE] of [due_for_escalation]. *)
Definition is_due (now after_seconds : Z) (r : alert_row) : bool :=
  bool_decide (al_status r = "OPEN") && (al_escalation_level r <? 2) &&
  (default (al_triggered_at r) (al_last_escalated_at r) <? now - seconds after_seconds).

(** The columns [due_for_escalation] reads back. *)
Definition alert_of_row (r : alert_row) : Alert :=
  mkAlert (al_organization_id r) (al_severity r) "" (coalesce (al_machine_id r)) (coalesce (al_device_id r)) ""
    (al_title r) (al_description r) (al_id r) "" (Some (al_triggered_at r)) (al_escalation_level r).

Definition select_due (after_seconds : Z) : statement alert_db (list alert_row) := fun now _ d =>
  (Ok (filter (fun r => is_due now after_seconds r = true) (db_alerts d)), d).

(** The loop of [next_severity] over the ladder. *)
Fixpoint next_in (ladder : list string) (current : string) : string :=
  match ladder with
  | s :: (s' :: _) as rest => if bool_decide (s = current) then s' else next_in rest current
  | _ => current
  end.
Definition next_severity (current : string) : string := next_in SEVERITY_LADDER current.

Section Store.
  Variable env : pg_env alert_db.
  (** [datetime.now(timezone.utc)] after [n] statements of the process. *)
  Variable service_now : nat -> Z.

Definition refresh_rules : M (pg alert_db) rule_cache :=
  rows ← execute env select_rules; mret (cache_of_rows rows).

(** The [INSERT] of [create_if_due] with its parameters. *)
Definition insert_due (rule_id : string) (alert : Alert) (dedupe_key : string) : statement alert_db (option (string * Z)) :=
  with_uuid env (a_organization_id alert) (fun org =>
  with_uuid env rule_id (fun rule =>
  with_uuid_opt env (null_if_empty (a_factory_id alert)) (fun fac =>
  with_uuid_opt env (null_if_empty (a_machine_id alert)) (fun mac =>
  with_uuid_opt env (null_if_empty (a_device_id alert)) (fun dev =>
  with_uuid_opt env (null_if_empty (a_sensor_id alert)) (fun sen =>
  insert_alert rule org fac mac dev sen alert dedupe_key)))))).

(** [alert.id, alert.triggered_at = ...; alert.status = "OPEN"]. *)
Definition opened (alert : Alert) (id : string) (triggered_at : Z) : Alert :=
  mkAlert (a_organization_id alert) (a_severity alert) (a_factory_id alert) (a_machine_id alert) (a_device_id alert)
    (a_sensor_id alert) (a_title alert) (a_description alert) id "OPEN" (Some triggered_at) (a_escalation_level alert).

Definition insert_if_free (rule_id : string) (alert : Alert) (dedupe_key : string) : M (pg alert_db) (string * option Alert) :=
  inserted ← execute env (insert_due rule_id alert dedupe_key);
  match (inserted : option (string * Z)) with
  | None => mret (SUPPRESSED_OPEN, None)
  | Some (id, triggered_at) => mret (CREATED, Some (opened alert id triggered_at))
  end.

Definition create_if_due (rule_id : string) (cooldown_seconds : Z) (alert : Alert) (dedupe_key : string)
  : M (pg alert_db) (string * option Alert) :=
  row ← execute env (with_uuid env rule_id (fun rule => select_last rule dedupe_key));
  match (row : option (string * Z)) with
  | Some (last_status, last_triggered_at) =>
      if negb (bool_decide (last_status = "RESOLVED")) then mret (SUPPRESSED_OPEN, None)
      else
        now ← gets (fun s => service_now (pg_count s));
        if now - last_triggered_at <? seconds cooldown_seconds then mret (SUPPRESSED_COOLDOWN, None)
        else insert_if_free rule_id alert dedupe_key
  | None => insert_if_free rule_id alert dedupe_key
  end.

Definition due_for_escalation (after_seconds : Z) : M (pg alert_db) (list Alert) :=
  rows ← execute env (select_due after_seconds); mret (alert_of_row <$> (rows : list alert_row)).

Definition escalate (alert_id new_severity : string) : M (pg alert_db) unit :=
  execute env (with_uuid env alert_id (fun i => update_alert i (escalated new_severity))).

End Store.

(** ** Lemmas *)

(** *** The rule cache *)

Lemma rule_key_inj org org' metric metric' :
  has_char "|" org = false -> has_char "|" org' = false ->
  rule_key org metric = rule_key org' metric' -> org = org' /\ metric = metric'.
Proof. intros H H' Heq. by apply (sep_inj "|"). Qed.

(** The ids the database renders hold no separator. *)
Definition plain_orgs (rows : list alert_rule_row) : Prop :=
  Forall (fun r => has_char "|" (ar_organization_id r) = false) rows.

Lemma cache_of_rows_lookup rows org metric :
  plain_orgs rows -> has_char "|" org = false ->
  rules_for org metric (cache_of_rows rows) =
  rule_of_row <$> filter (fun r => ar_organization_id r = org /\ ar_metric r = metric) rows.
Proof.
  intros Hrows Horg. induction rows as [|r rows IH] using rev_ind; [done|].
  apply Forall_app in Hrows as [Hrows Hr]. apply Forall_inv in Hr. specialize (IH Hrows).
  unfold cache_of_rows in *. rewrite foldl_app, filter_app, fmap_app, <- IH. cbn [foldl]. unfold add_rule, rules_for.
  cbn [rl_organization_id rl_metric rule_of_row].
  destruct (decide (ar_organization_id r = org /\ ar_metric r = metric)) as [[<- <-]|Hne].
  - rewrite lookup_insert_eq, filter_cons_True by done. done.
  - assert (Hkey : rule_key (ar_organization_id r) (ar_metric r) <> rule_key org metric).
    { intros Heq. apply Hne. apply rule_key_inj; [exact Hr | exact Horg | exact Heq]. }
    rewrite lookup_insert_ne, filter_cons_False by done. by rewrite filter_nil, app_nil_r.
Qed.

(** *** The count of anomalies *)

(** An arrival counts while no later arrival's cutoff passed it. *)
Fixpoint survivors (window : Z) (arrivals : list Z) : list Z :=
  match arrivals with
  | [] => []
  | t :: later => if forallb (fun t' => t' - window <=? t) later then t :: survivors window later
                  else survivors window later
  end.

Lemma survivors_snoc window l x :
  survivors window (l ++ [x]) = filter (fun t => x - window <= t) (survivors window l) ++ [x].
Proof.
  induction l as [|t l IH]; [done|]. simpl. rewrite forallb_app, IH. simpl. rewrite andb_true_r.
  destruct (forallb _ l); simpl; [|done]. rewrite filter_cons.
  destruct (Z.leb_spec (x - window) t); by rewrite ?decide_True, ?decide_False by lia.
Qed.

(** In order of time, the survivors are the arrivals within the window. *)
Lemma survivors_sorted window l x :
  StronglySorted Z.le (l ++ [x]) ->
  survivors window (l ++ [x]) = filter (fun t => x - window <= t) l ++ [x].
Proof.
  rewrite survivors_snoc. intros Hs. f_equal. induction l as [|t l IH]; [done|]. simpl in Hs.
  apply StronglySorted_inv in Hs as [Hs Ht]. specialize (IH Hs).
  assert (Hx : forall t', t' ∈ l -> t' <= x).
  { intros t' Ht'. clear - Hs Ht'. induction l as [|a l IH]; [by apply elem_of_nil in Ht'|].
    simpl in Hs. apply StronglySorted_inv in Hs as [Hs Ha]. apply elem_of_cons in Ht' as [->|Ht']; [|by apply IH].
    rewrite Forall_app, Forall_singleton in Ha. tauto. }
  simpl. rewrite filter_cons. destruct (forallb _ l) eqn:E.
  - rewrite filter_cons. case_decide; by rewrite IH.
  - rewrite decide_False; [exact IH|]. intros Hle. rewrite (proj2 (forallb_forall _ _)) in E; [done|].
    intros t' Ht'%list_elem_of_In. apply Z.leb_le. specialize (Hx _ Ht'). lia.
Qed.

Lemma not_older_aware c l : not_older (Some (Aware c)) (Aware <$> l) = Ok (Aware <$> filter (fun t => c <= t) l).
Proof.
  induction l as [|t l IH]; [done|]. csimpl. rewrite IH. simpl. rewrite filter_cons.
  destruct (Z.ltb_spec t c); simpl; by rewrite ?decide_True, ?decide_False by lia.
Qed.

(** One call for each arrival. *)
Definition count_all (window : Z) (calls : list (string * Z)) : M count_tracker unit :=
  for_each calls (fun c => count_record (fst c) (Aware (snd c)) window ;; mret tt).

Definition arrivals_of (key : string) (calls : list (string * Z)) : list Z :=
  snd <$> filter (fun c => fst c = key) calls.

Lemma arrivals_snoc key calls key' at_ :
  arrivals_of key (calls ++ [(key', at_)]) = arrivals_of key calls ++ (if decide (key' = key) then [at_] else []).
Proof.
  unfold arrivals_of. rewrite filter_app, fmap_app. f_equal. case_decide as Hk.
  - by rewrite filter_cons_True.
  - by rewrite filter_cons_False.
Qed.

Definition call_in_range (window : Z) (c : string * Z) : Prop := in_range (snd c - seconds window) = true.

Lemma count_record_step window key at_ s l :
  in_range (at_ - seconds window) = true -> default [] (s !! key) = Aware <$> l ->
  count_record key (Aware at_) window s =
  (Ok (Z.of_nat (S (length (filter (fun t => at_ - seconds window <= t) l)))),
   <[key := Aware <$> (filter (fun t => at_ - seconds window <= t) l ++ [at_])]> s).
Proof.
  intros Hr Hl. unfold count_record. cbn [dt_minus]. rewrite Hr, Hl, not_older_aware.
  rewrite length_app, length_fmap, Nat.add_1_r, fmap_app. done.
Qed.

Lemma count_all_state window calls :
  Forall (call_in_range window) calls ->
  exists s, count_all window calls ∅ = (Ok tt, s) /\
    forall key, default [] (s !! key) = Aware <$> survivors (seconds window) (arrivals_of key calls).
Proof.
  induction calls as [|[key at_] calls IH] using rev_ind; intros Hall; [by exists ∅|].
  apply Forall_app in Hall as [Hall Hr]. apply Forall_inv in Hr. unfold call_in_range in Hr. simpl in Hr. destruct (IH Hall) as (s & Hs & Hkeys).
  unfold count_all in *.
  assert (Happ : forall l l' (body : string * Z -> M count_tracker unit) s0 s1, for_each l body s0 = (Ok tt, s1) ->
      for_each (l ++ l') body s0 = for_each l' body s1).
  { clear. intros l l' body. induction l as [|a l IH]; intros s0 s1; simpl; [by intros [= ->]|].
    unfold mbind, M_bind. destruct (body a s0) as [[[]|e] s2]; [apply IH | done]. }
  rewrite (Happ _ _ _ _ _ Hs). cbn [for_each]. unfold mbind, M_bind, mret, M_ret. cbn [fst snd].
  rewrite (count_record_step _ _ _ _ _ Hr (Hkeys key)). eexists. split; [done|]. intros key'. rewrite arrivals_snoc. case_decide as Hk.
  - subst key'. by rewrite lookup_insert_eq, survivors_snoc.
  - rewrite lookup_insert_ne, app_nil_r by done. apply Hkeys.
Qed.

(** *** Creating alerts *)

(** When the alerts of a rule and a dedupe scope were triggered, in table order. *)
Definition triggered (rule_id dedupe_key : string) (d : alert_db) : list Z :=
  al_triggered_at <$> alerts_of rule_id dedupe_key d.

(** What no other client changes of an alert; its status, severity and
    escalation may change. *)
Definition identity (r : alert_row) : string * string * string * Z :=
  (al_id r, al_rule_id r, al_dedupe_key r, al_triggered_at r).

Definition others_keep_alerts (env : pg_env alert_db) : Prop := forall n d,
  identity <$> db_alerts (pg_others env n d) = identity <$> db_alerts d /\
  (open_index_ok d -> open_index_ok (pg_others env n d)).

Lemma triggered_identity rule key d d' :
  identity <$> db_alerts d = identity <$> db_alerts d' -> triggered rule key d = triggered rule key d'.
Proof.
  unfold triggered, alerts_of. revert d'. destruct d as [ru l i e]. intros [ru' l' i' e']. cbn [db_alerts]. clear.
  revert l'. induction l as [|r l IH]; intros [|r' l']; csimpl; try done. intros H. injection H as H1 H2 H3 H4 H.
  rewrite !filter_cons, H2, H3. specialize (IH _ H). case_decide; csimpl; by rewrite ?H4, IH.
Qed.

Lemma latest_first_trans : Transitive latest_first.
Proof. intros a b c. unfold latest_first. lia. Qed.
Lemma latest_first_total : Total latest_first.
Proof. intros a b. unfold latest_first. lia. Qed.

(** The last alert of the scope is a latest one. *)
Lemma select_last_spec rule key now uuid d :
  exists row, select_last rule key now uuid d = (Ok row, d) /\
  match row with
  | None => alerts_of rule key d = []
  | Some (st, t) => (exists r, r ∈ alerts_of rule key d /\ al_status r = st /\ al_triggered_at r = t) /\
                    Forall (fun t' => t' <= t) (triggered rule key d)
  end.
Proof.
  unfold select_last, select. eexists. split; [done|].
  set (l := alerts_of rule key d).
  pose proof (merge_sort_Permutation latest_first l) as Hp.
  assert (Hs : StronglySorted latest_first (merge_sort latest_first l))
    by (apply StronglySorted_merge_sort; [apply latest_first_trans | apply latest_first_total]).
  destruct (merge_sort latest_first l) as [|r rest]; simpl.
  - by apply Permutation_nil in Hp.
  - split.
    + exists r. split; [|done]. rewrite <- Hp. by left.
    + unfold triggered. fold l. rewrite Forall_fmap, Forall_forall. intros r' Hr'. simpl. rewrite <- Hp in Hr'.
      apply StronglySorted_inv in Hs as [_ Hs]. apply elem_of_cons in Hr' as [->|Hr']; [lia|].
      by apply (proj1 (Forall_forall _ _) Hs) in Hr'.
Qed.

Lemma elem_of_open_keys k l :
  k ∈ open_keys l <-> exists r, r ∈ l /\ al_status r = "OPEN" /\ (al_rule_id r, al_dedupe_key r) = k.
Proof.
  unfold open_keys. rewrite list_elem_of_omap. split.
  - intros (r & Hr & Hk). case_bool_decide; [|done]. exists r. naive_solver.
  - intros (r & Hr & Ho & Hk). exists r. split; [done|]. rewrite bool_decide_true by done. by rewrite Hk.
Qed.

(** The [INSERT]: refused, or one OPEN row at the end, triggered now. *)
Lemma insert_due_shape env rule_id alert key now uuid d :
  let '(r, d') := insert_due env rule_id alert key now uuid d in
  (d' = d /\ match r with
             | Ok None => exists rule, pg_uuid_in env rule_id = Some rule /\ (rule, key) ∈ open_keys (db_alerts d)
             | Ok (Some _) => False
             | Raise e => (exists c m, e = OtherError c m) \/ exists c, e = UniqueViolation c
             end) \/
  (r = Ok (Some (uuid, now)) /\
   exists rule row, pg_uuid_in env rule_id = Some rule /\ d' = set_alerts (db_alerts d ++ [row]) d /\
     identity row = (uuid, rule, key, now) /\ al_status row = "OPEN" /\ (rule, key) ∉ open_keys (db_alerts d)).
Proof.
  unfold insert_due, with_uuid_opt, with_uuid, insert_alert.
  repeat case_match; simplify_eq; breflect; try (by left; eauto);
    right; (split; [done|]); do 2 eexists; by split_and!.
Qed.

Lemma triggered_snoc rule key d row :
  triggered rule key (set_alerts (db_alerts d ++ [row]) d) =
  triggered rule key d ++ (if decide (al_rule_id row = rule /\ al_dedupe_key row = key) then [al_triggered_at row] else []).
Proof.
  unfold triggered, alerts_of. cbn [db_alerts set_alerts]. rewrite filter_app, fmap_app. f_equal.
  rewrite filter_cons. by case_decide.
Qed.

Lemma open_keys_snoc d row :
  open_index_ok d -> al_status row = "OPEN" -> (al_rule_id row, al_dedupe_key row) ∉ open_keys (db_alerts d) ->
  open_index_ok (set_alerts (db_alerts d ++ [row]) d).
Proof.
  intros Hok Ho Hnew. unfold open_index_ok in *. cbn [db_alerts set_alerts]. unfold open_keys in *.
  rewrite omap_app. simpl. rewrite bool_decide_true by done.
  apply NoDup_app. split_and!; [done | | apply NoDup_singleton]. by intros k Hk ->%list_elem_of_singleton.
Qed.

(** Alerts of one rule and scope, each at least [gap] after every earlier one. *)
Definition spaced (gap : Z) (rule key : string) (d : alert_db) : Prop :=
  StronglySorted (fun t t' => t + gap <= t') (triggered rule key d).

Definition alerts_ok (gap : Z) (rule key : string) (d : alert_db) : Prop :=
  spaced gap rule key d /\ open_index_ok d.

Lemma spaced_snoc gap (l : list Z) t :
  StronglySorted (fun t t' => t + gap <= t') l -> Forall (fun t' => t' + gap <= t) l ->
  StronglySorted (fun t t' => t + gap <= t') (l ++ [t]).
Proof.
  intros Hs Hl. induction Hs as [|x l Hs IH Hx]; [by repeat constructor|]. apply Forall_cons in Hl as [H1 H2].
  simpl. constructor; [by apply IH|]. apply Forall_app. split; [done|]. by apply Forall_singleton.
Qed.

Lemma others_ok env gap rule key n d :
  others_keep_alerts env -> alerts_ok gap rule key d ->
  alerts_ok gap rule key (pg_others env n d) /\ triggered rule key (pg_others env n d) = triggered rule key d.
Proof.
  intros Ho [Hs Hi]. destruct (Ho n d) as [Hid Hkeep].
  assert (Ht : triggered rule key (pg_others env n d) = triggered rule key d) by by apply triggered_identity.
  split; [|done]. split; [unfold spaced; by rewrite Ht | auto].
Qed.

Lemma insert_if_free_keeps env gap rule_id alert key rule k st :
  others_keep_alerts env -> alerts_ok gap rule k (pg_db st) ->
  (pg_uuid_in env rule_id = Some rule -> key = k ->
     Forall (fun t => t + gap <= pg_now env (pg_count st)) (triggered rule k (pg_db st))) ->
  alerts_ok gap rule k (pg_db (snd (insert_if_free env rule_id alert key st))).
Proof.
  intros Ho Hok Hgap. destruct (others_ok env gap rule k (pg_count st) _ Ho Hok) as [Hok' Htr].
  unfold insert_if_free. set (n := pg_count st) in *.
  assert (Hstep : alerts_ok gap rule k (pg_db (snd (execute env (insert_due env rule_id alert key) st)))).
  { unfold execute. fold n. set (d := pg_others env n (pg_db st)) in *.
    pose proof (insert_due_shape env rule_id alert key (pg_now env n) (pg_uuid env n) d) as H.
    destruct (insert_due _ _ _ _ _ _ _) as [r d'].
    assert (Hd' : alerts_ok gap rule k d').
    { destruct H as [[-> _] | (_ & rule' & row & Hrule & -> & Hid & Hopen & Hnew)]; [done|].
      unfold identity in Hid. injection Hid as _ Hr Hk Ht. destruct Hok' as [Hs Hi]. split.
      - unfold spaced. rewrite triggered_snoc. rewrite Hr, Hk, Ht. case_decide as Hc; [|by rewrite app_nil_r].
        destruct Hc as [-> ->]. apply spaced_snoc; [exact Hs|]. rewrite Htr. by apply Hgap.
      - apply open_keys_snoc; [done..|]. by rewrite Hr, Hk. }
    by destruct (pg_fault env n) as [[[] e]|]. }
  unfold mbind, M_bind. destruct (execute _ _ _) as [[[[i t]|]|e] st']; exact Hstep.
Qed.

Lemma create_if_due_keeps env service_now skew gap rule_id cooldown alert key rule k :
  others_keep_alerts env -> (forall n, service_now n <= pg_now env n + skew) ->
  (pg_uuid_in env rule_id = Some rule -> key = k -> gap + skew <= seconds cooldown) ->
  preserves (fun s => alerts_ok gap rule k (pg_db s)) (create_if_due env service_now rule_id cooldown alert key).
Proof.
  intros Ho Hclock Hgap st Hok. unfold create_if_due.
  destruct (others_ok env gap rule k (pg_count st) _ Ho Hok) as [Hok' Htr].
  unfold mbind at 1, M_bind. unfold execute at 1, with_uuid at 1. set (n := pg_count st) in *.
  set (d := pg_others env n (pg_db st)) in *. destruct (pg_uuid_in env rule_id) as [rule'|] eqn:Hrule.
  2: { destruct (pg_fault env n) as [[[] e]|]; exact Hok'. }
  destruct (select_last_spec rule' key (pg_now env n) (pg_uuid env n) d) as (row & -> & Hrow).
  destruct (pg_fault env n) as [[[] e]|]; [exact Hok' | exact Hok' |].
  destruct row as [[st_ t]|].
  - destruct (negb _); [done|]. unfold mbind, M_bind, gets. cbn [pg_count].
    destruct (Z.ltb_spec (service_now (S n) - t) (seconds cooldown)) as [|Hdue]; [done|].
    apply insert_if_free_keeps; [done | done|]. cbn [pg_count pg_db]. intros Hr ->. simplify_eq.
    destruct Hrow as [_ Hmax]. eapply Forall_impl; [exact Hmax|]. intros t' Ht'.
    cbv beta in *. specialize (Hclock (S n)). specialize (Hgap eq_refl eq_refl). lia.
  - apply insert_if_free_keeps; [done | done|]. cbn [pg_count pg_db]. intros Hr ->. simplify_eq.
    unfold triggered. rewrite Hrow. constructor.
Qed.

(** A call of [create_if_due], with what it raises left to the caller. *)
Record due_call := DueCall { dc_rule : string; dc_cooldown : Z; dc_alert : Alert; dc_key : string }.

Definition create_all (env : pg_env alert_db) (service_now : nat -> Z) (calls : list due_call) : M (pg alert_db) unit :=
  for_each calls (fun c =>
    try_except (create_if_due env service_now (dc_rule c) (dc_cooldown c) (dc_alert c) (dc_key c) ;; mret tt)
      (fun _ => mret tt)).

(** ** Theorems *)

(** The rule cache answers exactly the active rules.  After a refresh in
    which no statement fails, looking up an organization and a metric gives the
    active rules of that organization for that metric, in the order of the
    query, and nothing of another organization whatever the metrics' names. *)
Theorem rule_cache_lookup (env : pg_env alert_db) (s : pg alert_db) (org metric : string) :
  quiet env -> plain_orgs (db_alert_rules (pg_db s)) -> has_char "|" org = false ->
  exists c s', refresh_rules env s = (Ok c, s') /\ pg_db s' = pg_db s /\
    rules_for org metric c =
    rule_of_row <$> filter (fun r => ar_is_active r = true /\ ar_organization_id r = org /\ ar_metric r = metric)
                      (db_alert_rules (pg_db s)).
Proof.
  intros Hq Hp Horg. unfold refresh_rules. erewrite bind_ok by (rewrite execute_quiet by done; reflexivity).
  eexists _, _. split; [reflexivity|]. split; [done|]. rewrite cache_of_rows_lookup; [| |done].
  - f_equal. rewrite filter_filter_and. apply list_filter_iff. naive_solver.
  - unfold plain_orgs in *. rewrite Forall_forall in *. intros r [_ Hr]%list_elem_of_filter. by apply Hp.
Qed.

(** What an ANOMALY_COUNT rule counts.  After any anomalies of any scopes,
    in any order of their timestamps (none so early that its window leaves the
    calendar), [record] returns the number of the scope's anomalies, this one
    included, that no anomaly from then on left behind its window.  When they
    came in order of time these are exactly the ones within the window. *)
Theorem anomaly_count_window (window : Z) (earlier : list (string * Z)) (key : string) (at_ : Z) :
  Forall (call_in_range window) earlier -> in_range (at_ - seconds window) = true ->
  let arrivals := arrivals_of key earlier ++ [at_] in
  exists s s', count_all window earlier ∅ = (Ok tt, s) /\
    count_record key (Aware at_) window s = (Ok (Z.of_nat (length (survivors (seconds window) arrivals))), s') /\
    (StronglySorted Z.le arrivals ->
       survivors (seconds window) arrivals =
       filter (fun t => at_ - seconds window <= t) (arrivals_of key earlier) ++ [at_]).
Proof.
  intros Hearlier Hat arrivals. destruct (count_all_state window earlier Hearlier) as (s & Hs & Hkeys).
  exists s. eexists. split; [done|]. split; [|apply survivors_sorted].
  rewrite (count_record_step window key at_ s _ Hat (Hkeys key)). unfold arrivals.
  by rewrite survivors_snoc, length_app, Nat.add_1_r.
Qed.

Lemma anomaly_count_window_witness :
  let earlier := [("r|d", seconds 10); ("r|e", seconds 11); ("r|d", seconds 400); ("r|d", seconds 350)] in
  let arrivals := arrivals_of "r|d" earlier ++ [seconds 420] in
  survivors (seconds 300) arrivals = [seconds 400; seconds 350; seconds 420] /\
  exists s s', count_all 300 earlier ∅ = (Ok tt, s) /\
    count_record "r|d" (Aware (seconds 420)) 300 s = (Ok (Z.of_nat (length (survivors (seconds 300) arrivals))), s') /\
    (StronglySorted Z.le arrivals ->
       survivors (seconds 300) arrivals =
       filter (fun t => seconds 420 - seconds 300 <= t) (arrivals_of "r|d" earlier) ++ [seconds 420]).
Proof.
  cbn zeta. split; [by vm_compute|].
  apply (anomaly_count_window 300 [("r|d", seconds 10); ("r|e", seconds 11); ("r|d", seconds 400); ("r|d", seconds 350)]
    "r|d" (seconds 420)); [repeat constructor | reflexivity].
Defined.

(** [C21] No alert storm.  Whatever calls of [create_if_due] are made, whatever
    statements fail, and whatever other clients do to the status, severity and
    escalation of alerts: for a rule and a dedupe scope at most one alert is
    open, and each alert is triggered at least the cooldown after every earlier
    one, up to the skew between the service's clock and the database's. *)
Theorem alert_cooldown_spacing (env : pg_env alert_db) (service_now : nat -> Z) (skew gap : Z) (rule key : string)
    (calls : list due_call) (s : pg alert_db) :
  others_keep_alerts env -> (forall n, service_now n <= pg_now env n + skew) ->
  Forall (fun c => pg_uuid_in env (dc_rule c) = Some rule -> dc_key c = key -> gap + skew <= seconds (dc_cooldown c)) calls ->
  spaced gap rule key (pg_db s) -> open_index_ok (pg_db s) ->
  exists s', create_all env service_now calls s = (Ok tt, s') /\
    spaced gap rule key (pg_db s') /\ open_index_ok (pg_db s').
Proof.
  intros Ho Hclock Hcalls Hs Hi. unfold create_all. revert s Hs Hi.
  induction Hcalls as [|c calls Hc _ IH]; intros s Hs Hi; [by exists s|]. cbn [for_each].
  pose proof (create_if_due_keeps env service_now skew gap (dc_rule c) (dc_cooldown c) (dc_alert c) (dc_key c)
    rule key Ho Hclock Hc s (conj Hs Hi)) as [Hs' Hi'].
  destruct (create_if_due env service_now (dc_rule c) (dc_cooldown c) (dc_alert c) (dc_key c) s) as [r s1] eqn:E.
  simpl in Hs', Hi'. erewrite bind_ok with (s' := s1) (a := tt); [by apply IH|].
  unfold try_except. destruct r as [x|e].
  - by rewrite (bind_ok _ _ _ _ _ E).
  - by rewrite (bind_raise _ _ _ _ _ E).
Qed.

(** The ids of an alert that the server accepts: empty, or a uuid. *)
Definition alert_ids_ok (env : pg_env alert_db) (a : Alert) : Prop :=
  pg_uuid_in env (a_organization_id a) <> None /\
  Forall (fun x => x = "" \/ pg_uuid_in env x <> None) [a_factory_id a; a_machine_id a; a_device_id a; a_sensor_id a].

Lemma insert_due_accepted env rule_id rule alert key now uuid d :
  pg_uuid_in env rule_id = Some rule -> alert_ids_ok env alert -> uuid ∉ (al_id <$> db_alerts d) ->
  insert_due env rule_id alert key now uuid d =
  if bool_decide ((rule, key) ∈ open_keys (db_alerts d)) then (Ok None, d)
  else let id x := null_if_empty x ≫= pg_uuid_in env in
    (Ok (Some (uuid, now)), set_alerts (db_alerts d ++
    [AlertRow uuid (default "" (pg_uuid_in env (a_organization_id alert))) rule (id (a_factory_id alert)) (id (a_machine_id alert))
       (id (a_device_id alert)) (id (a_sensor_id alert)) (a_severity alert) "OPEN" (a_title alert) (a_description alert)
       key now None 0 None]) d).
Proof.
  intros Hrule [Horg Hids] Hfresh.
  assert (Hopt : forall x (k : option string -> statement alert_db (option (string * Z))), x = "" \/ pg_uuid_in env x <> None ->
      with_uuid_opt env (null_if_empty x) k = k (null_if_empty x ≫= pg_uuid_in env)).
  { intros x k Hx. unfold null_if_empty, with_uuid_opt, with_uuid. case_bool_decide; [done|]. csimpl.
    destruct (pg_uuid_in env x); [done|]. by destruct Hx. }
  rewrite !Forall_cons in Hids. destruct Hids as (Hf & Hm & Hd & Hs & _).
  unfold insert_due. unfold with_uuid at 1. destruct (pg_uuid_in env (a_organization_id alert)) as [org|]; [|done].
  unfold with_uuid at 1. rewrite Hrule, !Hopt by done. unfold insert_alert. cbn zeta.
  case_bool_decide; [done|]. by rewrite bool_decide_false.
Qed.

(** An OPEN alert was added, triggered now. *)
Definition alert_created (env : pg_env alert_db) (n : nat) (rule key : string) (alert : Alert) (d d' : alert_db)
    (created : option Alert) : Prop :=
  exists row, d' = set_alerts (db_alerts d ++ [row]) d /\
    created = Some (opened alert (al_id row) (al_triggered_at row)) /\
    identity row = (pg_uuid env n, rule, key, pg_now env n) /\
    al_status row = "OPEN" /\ al_severity row = a_severity alert /\ al_title row = a_title alert /\
    al_escalation_level row = 0 /\ al_device_id row = (null_if_empty (a_device_id alert) ≫= pg_uuid_in env).

Lemma insert_if_free_decision env rule_id rule key alert s :
  quiet env -> pg_uuid_in env rule_id = Some rule -> alert_ids_ok env alert ->
  pg_uuid env (pg_count s) ∉ (al_id <$> db_alerts (pg_db s)) ->
  let is_open := (rule, key) ∈ open_keys (db_alerts (pg_db s)) in
  exists result created s', insert_if_free env rule_id alert key s = (Ok (result, created), s') /\
    ((result = SUPPRESSED_OPEN /\ is_open /\ created = None /\ pg_db s' = pg_db s) \/
     (result = CREATED /\ ~ is_open /\
      alert_created env (pg_count s) rule key alert (pg_db s) (pg_db s') created)).
Proof.
  intros Hq Hrule Hids Hfresh. unfold insert_if_free.
  pose proof (execute_quiet env (insert_due env rule_id alert key) s Hq) as Hx.
  rewrite (insert_due_accepted env rule_id rule) in Hx by done. cbn zeta in Hx.
  case_bool_decide as Hin; rewrite (bind_ok _ _ _ _ _ Hx); do 3 eexists; (split; [reflexivity|]).
  - left. by split_and!.
  - right. split_and!; [done..|]. eexists. by split_and!.
Qed.

(** What [create_if_due] decides.  With nothing else running and no fault, for
    accepted ids: an alert is created, OPEN and triggered now, exactly when no
    alert of the rule and scope is open and the latest one, if any, is RESOLVED
    and was triggered at least the cooldown ago; it is refused as
    [suppressed_cooldown] when the latest is RESOLVED and was triggered more
    recently, and as [suppressed_open] otherwise; a refusal changes nothing.
    When the latest alert was resolved plays no role. *)
Theorem create_if_due_decision (env : pg_env alert_db) (service_now : nat -> Z) (rule_id rule key : string)
    (cooldown : Z) (alert : Alert) (s : pg alert_db) :
  quiet env -> pg_uuid_in env rule_id = Some rule -> alert_ids_ok env alert ->
  pg_uuid env (S (pg_count s)) ∉ (al_id <$> db_alerts (pg_db s)) ->
  let last := head (merge_sort latest_first (alerts_of rule key (pg_db s))) in
  let recent r := service_now (S (pg_count s)) - al_triggered_at r < seconds cooldown in
  let due := forall r, last = Some r -> al_status r = "RESOLVED" /\ ~ recent r in
  let is_open := (rule, key) ∈ open_keys (db_alerts (pg_db s)) in
  exists result created s', create_if_due env service_now rule_id cooldown alert key s = (Ok (result, created), s') /\
    ((result = CREATED /\ due /\ ~ is_open /\
      alert_created env (S (pg_count s)) rule key alert (pg_db s) (pg_db s') created) \/
     (result = SUPPRESSED_COOLDOWN /\ (exists r, last = Some r /\ al_status r = "RESOLVED" /\ recent r) /\
      created = None /\ pg_db s' = pg_db s) \/
     (result = SUPPRESSED_OPEN /\ ((exists r, last = Some r /\ al_status r <> "RESOLVED") \/ (due /\ is_open)) /\
      created = None /\ pg_db s' = pg_db s)).
Proof.
  intros Hq Hrule Hids Hfresh last recent due is_open. unfold create_if_due.
  erewrite bind_ok by (rewrite execute_quiet by done; unfold with_uuid; rewrite Hrule; reflexivity).
  destruct (insert_if_free_decision env rule_id rule key alert (Pg (S (pg_count s)) (pg_db s)) Hq Hrule Hids Hfresh)
    as (result & created & s' & Hrun & Hdec).
  assert (Hdue : due -> (result = CREATED /\ due /\ ~ is_open /\
      alert_created env (S (pg_count s)) rule key alert (pg_db s) (pg_db s') created) \/
     (result = SUPPRESSED_OPEN /\ (due /\ is_open) /\ created = None /\ pg_db s' = pg_db s)).
  { intros Hd. destruct Hdec as [(? & ? & ? & ?)|(? & ? & ?)]; [right | left]; by split_and!. }
  fold last. destruct last as [r|] eqn:Elast; csimpl.
  - case_bool_decide as Hst; cbn [negb]; [|do 3 eexists; split; [reflexivity|]; right; right; naive_solver].
    erewrite bind_ok by reflexivity. cbn [pg_count].
    destruct (Z.ltb_spec (service_now (S (pg_count s)) - al_triggered_at r) (seconds cooldown)) as [Hrec|Hrec].
    + do 3 eexists. split; [reflexivity|]. right. left. split_and!; [done | by exists r | done..].
    + do 3 eexists. split; [exact Hrun|].
      destruct Hdue as [H|(H1 & H2 & H3 & H4)]; [|by left | right; right; by auto].
      intros r' [= <-]. unfold recent. split; [done | lia].
  - do 3 eexists. split; [exact Hrun|].
    destruct Hdue as [H|(H1 & H2 & H3 & H4)]; [by intros r | by left | right; right; by auto].
Qed.

(** *** An example surrounding *)

(** One statement every 100 seconds; ids are any non-empty text. *)
Definition demo_alert_env (others : nat -> alert_db -> alert_db) : pg_env alert_db :=
  PgEnv (fun _ => None) others (fun n => seconds (100 * Z.of_nat n)) (fun n => "u" +:+ pretty.pretty n)
    (fun s => if bool_decide (s = "") then None else Some s).

(** Someone resolves every alert. *)
Definition resolve_all (now : Z) (d : alert_db) : alert_db :=
  set_alerts (map (fun r => AlertRow (al_id r) (al_organization_id r) (al_rule_id r) (al_factory_id r) (al_machine_id r)
    (al_device_id r) (al_sensor_id r) (al_severity r) "RESOLVED" (al_title r) (al_description r) (al_dedupe_key r)
    (al_triggered_at r) (Some now) (al_escalation_level r) (al_last_escalated_at r)) (db_alerts d)) d.

Definition demo_alert : Alert := mkAlert "org" "HIGH" "" "m" "d" "" "hot" "" "" "" None 0.
Definition demo_call : due_call := DueCall "rule" 300 demo_alert "d:temperature".
Definition no_alerts : pg alert_db := Pg 0 (AlertDb [] [] [] []).

Lemma demo_alert_quiet : quiet (demo_alert_env (fun _ d => d)).
Proof. done. Qed.

Lemma rule_cache_lookup_witness :
  let r (id org : string) active := AlertRuleRow id org "hot" "temperature" "GREATER_THAN" (Some fone) None None "HIGH" 300 300 None None None active in
  let s : pg alert_db := Pg 0 (AlertDb [r "1" "a" true; r "2" "b" true; r "3" "a" false] [] [] []) in
  exists c s', refresh_rules (demo_alert_env (fun _ d => d)) s = (Ok c, s') /\ rl_id <$> rules_for "a" "temperature" c = ["1"].
Proof.
  cbn zeta.
  destruct (rule_cache_lookup (demo_alert_env (fun _ d => d))
    (Pg 0 (AlertDb [AlertRuleRow "1" "a" "hot" "temperature" "GREATER_THAN" (Some fone) None None "HIGH" 300 300 None None None true;
                    AlertRuleRow "2" "b" "hot" "temperature" "GREATER_THAN" (Some fone) None None "HIGH" 300 300 None None None true;
                    AlertRuleRow "3" "a" "hot" "temperature" "GREATER_THAN" (Some fone) None None "HIGH" 300 300 None None None false]
      [] [] [])) "a" "temperature" demo_alert_quiet) as (c & s' & H1 & _ & H2).
  - repeat constructor.
  - done.
  - exists c, s'. split; [exact H1|]. by rewrite H2.
Defined.

(** Created at 100 s; resolved at 150 s; suppressed; created again at
    400 s, and suppressed while open. *)
Lemma alert_cooldown_spacing_witness :
  let env := demo_alert_env (fun n d => if bool_decide (n = 2%nat) then resolve_all (seconds 150) d else d) in
  triggered "rule" "d:temperature"
    (pg_db (exec (create_all env (pg_now env) [demo_call; demo_call; demo_call; demo_call]) no_alerts)) =
    [seconds 100; seconds 400] /\
  exists s', create_all env (pg_now env) [demo_call; demo_call; demo_call; demo_call] no_alerts = (Ok tt, s') /\
    spaced (seconds 300) "rule" "d:temperature" (pg_db s') /\ open_index_ok (pg_db s').
Proof.
  cbn zeta. split; [by vm_compute|].
  apply (alert_cooldown_spacing (demo_alert_env (fun n d => if bool_decide (n = 2%nat) then resolve_all (seconds 150) d else d))
    (fun n => seconds (100 * Z.of_nat n)) 0 (seconds 300) "rule" "d:temperature" [demo_call; demo_call; demo_call; demo_call] no_alerts).
  - intros n d. unfold demo_alert_env, pg_others, resolve_all. case_bool_decide; [|done]. cbn [db_alerts set_alerts].
    split; [rewrite <- list_fmap_compose; by apply list_fmap_ext|]. intros _. unfold open_index_ok, open_keys. cbn [db_alerts set_alerts].
    clear. induction (db_alerts d) as [|r l IH]; [constructor | exact IH].
  - intros n. simpl. lia.
  - repeat (constructor; [intros _ _; by vm_compute|]). constructor.
  - constructor.
  - constructor.
Defined.

(** A resolved alert triggered 400 s ago and resolved a second ago: created again. *)
Lemma create_if_due_decision_witness :
  let env := demo_alert_env (fun _ d => d) in
  let old := AlertRow "a1" "org" "rule" None None None None "HIGH" "RESOLVED" "hot" "" "d:temperature" 0 (Some (seconds 399)) 0 None in
  let s := Pg 3 (AlertDb [] [old] [] []) in
  eval (create_if_due env (pg_now env) "rule" 300 demo_alert "d:temperature") s =
    Ok (CREATED, Some (opened demo_alert "u4" (seconds 400))) /\
  exists result created s', create_if_due env (pg_now env) "rule" 300 demo_alert "d:temperature" s = (Ok (result, created), s') /\
    (result = CREATED \/ result = SUPPRESSED_COOLDOWN \/ result = SUPPRESSED_OPEN).
Proof.
  cbn zeta. split; [by vm_compute|].
  destruct (create_if_due_decision (demo_alert_env (fun _ d => d)) (pg_now (demo_alert_env (fun _ d => d))) "rule" "rule" "d:temperature" 300 demo_alert
    (Pg 3 (AlertDb [] [AlertRow "a1" "org" "rule" None None None None "HIGH" "RESOLVED" "hot" "" "d:temperature" 0 (Some (seconds 399)) 0 None] [] [])))
    as (result & created & s' & Hrun & Hdec).
  - done.
  - done.
  - split; [by vm_compute|]. repeat (constructor; [first [by left | by right; vm_compute]|]). constructor.
  - by apply (bool_decide_unpack _); vm_compute.
  - exists result, created, s'. split; [exact Hrun|]. destruct Hdec as [[? _]|[[? _]|[? _]]]; auto.
Defined.
