(* ===== verification/AlertService.v ===== *)
(** [alert-service/notify.py], [kafka_io.py] and [main.py]: notification
    providers, the processing of an anomaly and of a device event, the
    escalation sweeper, the rule refresher and the incident gauge. *)

From stdpp Require Import prelude strings pretty gmap sorting.
From Stdlib Require Import ZArith Lia SpecFloat.
From S2P Require Import Prelude PyFloat Effects Reliability Postgres Incidents Events Kafka Alerts.

Local Open Scope Z_scope.

(** ** State *)

Record Notification := mkNotification {
  nf_alert_id : string; nf_title : string; nf_description : string; nf_severity : string;
  nf_machine_id : string; nf_device_id : string; nf_triggered_at : Z; nf_is_escalation : bool
}.

(** [ConsoleProvider] and [WebhookProvider]. *)
Inductive provider := ConsoleProvider | WebhookProvider.

Definition provider_name (p : provider) : string :=
  match p with ConsoleProvider => "console" | WebhookProvider => "webhook" end.

Record als := Als {
  as_pg : pg alert_db;
  as_kafka : kafka;
  as_rules : rule_cache;
  as_counter : count_tracker;
  as_metrics : metrics;
  as_webhook_breaker : breaker;
  as_http_calls : nat;
  (** what the log and the webhook's receiver got, in order *)
  as_notified : list (provider * Notification);
  as_reads : nat
}.

#[export] Program Instance as_pg_part : Part als (pg alert_db) := {|
  part_get := as_pg;
  part_set p s := Als p (as_kafka s) (as_rules s) (as_counter s) (as_metrics s) (as_webhook_breaker s)
                      (as_http_calls s) (as_notified s) (as_reads s) |}.
Solve All Obligations with (intros; by repeat match goal with s : als |- _ => destruct s end).
#[export] Program Instance as_kafka_part : Part als kafka := {|
  part_get := as_kafka;
  part_set k s := Als (as_pg s) k (as_rules s) (as_counter s) (as_metrics s) (as_webhook_breaker s)
                      (as_http_calls s) (as_notified s) (as_reads s) |}.
Solve All Obligations with (intros; by repeat match goal with s : als |- _ => destruct s end).
#[export] Program Instance as_counter_part : Part als count_tracker := {|
  part_get := as_counter;
  part_set c s := Als (as_pg s) (as_kafka s) (as_rules s) c (as_metrics s) (as_webhook_breaker s)
                      (as_http_calls s) (as_notified s) (as_reads s) |}.
Solve All Obligations with (intros; by repeat match goal with s : als |- _ => destruct s end).
#[export] Program Instance as_metrics_part : Part als metrics := {|
  part_get := as_metrics;
  part_set m s := Als (as_pg s) (as_kafka s) (as_rules s) (as_counter s) m (as_webhook_breaker s)
                      (as_http_calls s) (as_notified s) (as_reads s) |}.
Solve All Obligations with (intros; by repeat match goal with s : als |- _ => destruct s end).
#[export] Program Instance as_breaker_part : Part als breaker := {|
  part_get := as_webhook_breaker;
  part_set b s := Als (as_pg s) (as_kafka s) (as_rules s) (as_counter s) (as_metrics s) b
                      (as_http_calls s) (as_notified s) (as_reads s) |}.
Solve All Obligations with (intros; by repeat match goal with s : als |- _ => destruct s end).

(** The fields of [Config] the service reads. *)
Record als_config := AlsConfig {
  lc_topic_anomalies : string; lc_topic_device_events : string; lc_topic_alerts : string; lc_topic_dead_letter : string;
  lc_escalation_after_seconds : Z;
  lc_notification_console_enabled : bool; lc_notification_webhook_url : string
}.

(** The answer to an HTTP request: a status, with whether the receiver acted
    on the request, or a [RequestException]. *)
Inductive http_answer := HttpStatus (status : Z) | HttpError (acted : bool) (text : string).

Record als_world := AlsWorld {
  x_pg : pg_env alert_db;
  x_service_now : nat -> Z;
  x_broker : nat -> delivery;
  x_http : nat -> http_answer;
  x_clock : als -> float;
  x_utc_now : nat -> Z;
  x_load_anomaly : string -> res AnomalyDetected;
  x_load_event : string -> res NormalizedMachineEvent;
  x_dump_alert : AlertEvent -> res string;
  x_dump_dead_letter : DeadLetterRecord -> res string;
  x_decode : string -> string
}.

Section AlertService.
  Variable w : als_world.
  Variable cfg : als_config.

Definition als_sleep (_ : float) : M als unit := mret tt.

Definition als_read_utc : M als Z := fun s =>
  (Ok (x_utc_now w (as_reads s)),
   Als (as_pg s) (as_kafka s) (as_rules s) (as_counter s) (as_metrics s) (as_webhook_breaker s)
       (as_http_calls s) (as_notified s) (S (as_reads s))).

Definition notified (p : provider) (n : Notification) : M als unit :=
  modify (fun s => Als (as_pg s) (as_kafka s) (as_rules s) (as_counter s) (as_metrics s) (as_webhook_breaker s)
                       (as_http_calls s) (as_notified s ++ [(p, n)]) (as_reads s)).

(** ** [notify.py] *)

Definition next_http : M als http_answer := fun s =>
  (Ok (x_http w (as_http_calls s)),
   Als (as_pg s) (as_kafka s) (as_rules s) (as_counter s) (as_metrics s) (as_webhook_breaker s)
       (S (as_http_calls s)) (as_notified s) (as_reads s)).

(** [attempt]: one POST. *)
Definition post (n : Notification) : M als unit :=
  answer ← next_http;
  match (answer : http_answer) with
  | HttpError acted text => (if (acted : bool) then notified WebhookProvider n else mret tt) ;; raise (RuntimeError text)
  | HttpStatus status =>
      if 500 <=? status then raise (RuntimeError ("webhook returned " +:+ pretty status))
      else if 400 <=? status then raise (ErrPermanent ("webhook returned " +:+ pretty status))
      else notified WebhookProvider n
  end.

(** [send] of each provider; the webhook's is [protected] by its own breaker,
    with 3 attempts and a delay of 0.5 s. *)
Definition send (p : provider) (n : Notification) : M als unit :=
  match p with
  | ConsoleProvider => notified ConsoleProvider n
  | WebhookProvider =>
      protected (x_clock w) als_sleep 3 (flit 5 10) (RuntimeError "webhook circuit breaker open") (post n)
  end.

Definition notify_all (providers : list provider) (n : Notification) : M als unit :=
  for_each providers (fun p =>
    try_else (send p n)
      (fun _ => inc ("notifications_failed_total:" +:+ provider_name p))
      (fun _ => inc ("notifications_sent_total:" +:+ provider_name p))).

Definition _build_providers : list provider :=
  (if lc_notification_console_enabled cfg then [ConsoleProvider] else []) ++
  (if bool_decide (lc_notification_webhook_url cfg = "") then [] else [WebhookProvider]).

(** ** [kafka_io.py] *)

Definition publish_alert (key : string) (evt : AlertEvent) : M als unit :=
  payload ← of_res (x_dump_alert w evt);
  lift (produce_and_wait (x_broker w) (lc_topic_alerts cfg) key payload).

Definition dead_letter (raw_payload : string) (cause : exn) (stage correlation_id source_topic : string) : M als unit :=
  now ← als_read_utc;
  payload ← of_res (x_dump_dead_letter w (mkDeadLetterRecord (x_decode w raw_payload) (exn_str cause)
    ERROR_TYPE_TRANSIENT "alert-service" stage 0 (Aware now) correlation_id source_topic));
  lift (produce_and_wait (x_broker w) (lc_topic_dead_letter cfg) correlation_id payload).

(** ** [main.py] *)

Definition _dlq_or_hold (payload : string) (cause : exn) (stage correlation_id source_topic : string) : M als bool :=
  try_else (dead_letter payload cause stage correlation_id source_topic)
    (fun _ => mret false)
    (fun _ => inc "dlq_messages_total" ;; mret true).

Definition _publish_and_notify (providers : list provider) (a : Alert) (rule_id event_type : string)
    (is_escalation : bool) : M als unit :=
  now ← als_read_utc;
  match a_triggered_at a with
  | None => raise (OtherError "ValidationError" "triggered_at")
  | Some triggered_at =>
      let evt := mkAlertEvent (a_id a) event_type (a_organization_id a) rule_id (a_factory_id a) (a_machine_id a)
                   (a_device_id a) (a_sensor_id a) (a_severity a) "OPEN" (a_title a) (a_description a)
                   (a_escalation_level a) (Aware triggered_at) (Aware now) in
      try_except (publish_alert (a_device_id a) evt) (fun _ => mret tt) ;;
      notify_all providers
        (mkNotification (a_id a) (a_title a) (a_description a) (a_severity a) (a_machine_id a) (a_device_id a)
           triggered_at is_escalation)
  end.

Definition alert_ref (a : Alert) : AlertRef :=
  mkAlertRef (a_id a) (a_organization_id a) (a_severity a) (a_factory_id a) (a_machine_id a) (a_device_id a)
    (a_sensor_id a) (a_title a) (a_description a).

(** [incident_store] has no publisher: [incidents_module.Store(pool, None)]. *)
Definition _open_or_attach_incident (a : Alert) : M als unit :=
  try_else (lift (open_or_attach (x_pg w) None (alert_ref a)))
    (fun _ => mret tt)
    (fun r => if (snd r : bool) then inc "incidents_created_total" else inc "alerts_attached_to_incident_total").

(** What follows a [create_if_due] that returned. *)
Definition after_create (providers : list provider) (rule_id : string) (r : string * option Alert) : M als unit :=
  let '(result, created) := r in
  if bool_decide (result = CREATED) then
    match created with
    | None => raise (OtherError "AttributeError" "'NoneType' object has no attribute 'severity'")
    | Some created =>
        inc ("alerts_generated_total:" +:+ a_severity created) ;;
        _open_or_attach_incident created ;;
        _publish_and_notify providers created rule_id ALERT_EVENT_CREATED false
    end
  else if bool_decide (result = SUPPRESSED_OPEN) then inc "alerts_suppressed_total:open"
  else if bool_decide (result = SUPPRESSED_COOLDOWN) then inc "alerts_suppressed_total:cooldown"
  else mret tt.

(** The alert a rule raises for an anomaly. *)
Definition alert_for (rule : AlertRule) (anomaly : AnomalyDetected) : Alert :=
  mkAlert (ad_organization_id anomaly) (rl_severity rule) (ad_factory_id anomaly) (ad_machine_id anomaly)
    (ad_device_id anomaly) (ad_sensor_id anomaly) (rl_name rule) (ad_reason anomaly) "" "" None 0.

Definition anomaly_dedupe_key (anomaly : AnomalyDetected) : string :=
  ad_device_id anomaly +:+ ":" +:+ ad_metric anomaly.

(** One iteration of the loop over the rules; [Some b] is a [return b]. *)
Definition apply_rule (providers : list provider) (raw : string) (anomaly : AnomalyDetected) (rule : AlertRule)
  : M als (option bool) :=
  if negb (scope_matches rule (ad_machine_id anomaly) (ad_device_id anomaly) (ad_sensor_id anomaly)) then mret None
  else
    count ← (if bool_decide (rl_condition rule = "ANOMALY_COUNT")
             then lift (count_record (rl_id rule +:+ "|" +:+ ad_device_id anomaly) (ad_detected_at anomaly) (rl_window_seconds rule))
             else mret 0);
    if negb (condition_matches rule (ad_value anomaly) count) then mret None
    else
      try_else (lift (create_if_due (x_pg w) (x_service_now w) (rl_id rule) (rl_cooldown_seconds rule)
                        (alert_for rule anomaly) (anomaly_dedupe_key anomaly)))
        (fun exc => inc "messages_failed_total:store_alert" ;;
                    b ← _dlq_or_hold raw exc "create_alert" (ad_event_id anomaly) (lc_topic_anomalies cfg);
                    mret (Some b))
        (fun r => after_create providers (rl_id rule) r ;; mret None).

Definition _process_anomaly (providers : list provider) (msg : fetched) : M als bool :=
  inc "anomalies_consumed_total" ;;
  match x_load_anomaly w (ft_value msg) with
  | Raise exc =>
      inc "messages_failed_total:unmarshal" ;;
      _dlq_or_hold (ft_value msg) exc "unmarshal" "" (lc_topic_anomalies cfg)
  | Ok anomaly =>
      rules ← gets (fun s => rules_for (ad_organization_id anomaly) (ad_metric anomaly) (as_rules s));
      r ← for_return rules (apply_rule providers (ft_value msg) anomaly);
      mret (default true r)
  end.

Definition MACHINE_SHUTDOWN_METRIC : string := "machine_status".

Definition shutdown_alert (rule : AlertRule) (evt : MachineEvent) : Alert :=
  mkAlert (me_organization_id evt) (rl_severity rule) (me_factory_id evt) (me_machine_id evt) (me_device_id evt) ""
    "Unexpected machine shutdown" ("machine " +:+ me_machine_id evt +:+ " stopped unexpectedly") "" "" None 0.

Definition _process_device_event (providers : list provider) (msg : fetched) : M als bool :=
  match x_load_event w (ft_value msg) with
  | Raise exc =>
      inc "messages_failed_total:unmarshal" ;;
      _dlq_or_hold (ft_value msg) exc "unmarshal" "" (lc_topic_device_events cfg)
  | Ok n =>
      let evt := nm_event n in
      if negb (bool_decide (me_event_type evt = "MACHINE_STOPPED")) then mret true
      else
        rules ← gets (fun s => rules_for (me_organization_id evt) MACHINE_SHUTDOWN_METRIC (as_rules s));
        match (rules : list AlertRule) with
        | [] => mret true
        | rule :: _ =>
            try_else (lift (create_if_due (x_pg w) (x_service_now w) (rl_id rule) (rl_cooldown_seconds rule)
                              (shutdown_alert rule evt) ("shutdown:" +:+ me_machine_id evt)))
              (fun exc => inc "messages_failed_total:store_alert" ;;
                          _dlq_or_hold (ft_value msg) exc "create_alert" (nm_correlation_id n) (lc_topic_device_events cfg))
              (fun r => after_create providers (rl_id rule) r ;; mret true)
        end
  end.

Definition _consume_anomalies (providers : list provider) : list poll_event -> M (als * Z) unit :=
  consume_loop (_process_anomaly providers).
Definition _consume_device_events (providers : list provider) : list poll_event -> M (als * Z) unit :=
  consume_loop (_process_device_event providers).

(** One tick of [_run_rule_refresher]. *)
Definition rule_refresh_tick : M als unit :=
  try_else (lift (refresh_rules (x_pg w)))
    (fun _ => mret tt)
    (fun c => modify (fun s => Als (as_pg s) (as_kafka s) c (as_counter s) (as_metrics s) (as_webhook_breaker s)
                                   (as_http_calls s) (as_notified s) (as_reads s))).

(** The body of the loop over the candidates of the sweeper. *)
Definition escalate_one (providers : list provider) (a : Alert) : M als unit :=
  let new_severity := next_severity (a_severity a) in
  if bool_decide (new_severity = a_severity a) then mret tt
  else
    try_else (lift (escalate (x_pg w) (a_id a) new_severity))
      (fun _ => mret tt)
      (fun _ =>
        inc "alerts_escalated_total" ;;
        _publish_and_notify providers
          (mkAlert (a_organization_id a) new_severity (a_factory_id a) (a_machine_id a) (a_device_id a) (a_sensor_id a)
             (a_title a) (a_description a) (a_id a) (a_status a) (a_triggered_at a) (a_escalation_level a + 1))
          "" ALERT_EVENT_ESCALATED true).

(** One tick of [_run_escalation_sweeper]. *)
Definition escalation_tick (providers : list provider) : M als unit :=
  try_else (lift (due_for_escalation (x_pg w) (lc_escalation_after_seconds cfg)))
    (fun _ => mret tt)
    (fun candidates => for_each candidates (escalate_one providers)).

(** ** The incident gauge *)

(** [status NOT IN ('RESOLVED', 'CLOSED')]. *)
Definition counted (r : incident_row) : bool := negb (bool_decide (in_status r ∈ ["RESOLVED"; "CLOSED"])).

Definition count_where (p : incident_row -> bool) (d : alert_db) : Z :=
  Z.of_nat (length (filter (fun r => p r = true) (db_incidents d))).

(** [SELECT severity, count( * ) ... GROUP BY severity]. *)
Definition select_by_severity : statement alert_db (list (string * Z)) :=
  select (fun d => (fun sev => (sev, count_where (fun r => counted r && bool_decide (in_severity r = sev)) d)) <$>
                   remove_dups (in_severity <$> filter (fun r => counted r = true) (db_incidents d))).

Definition set_gauge (name : string) (n : Z) : M als unit :=
  lift (modify (fun m => Metrics (<[name := n]> (mt_counters m)))).

Definition severity_gauge (sev : string) : string := "incidents_open_by_severity:" +:+ sev.

(** One tick of [_run_incident_gauge_refresher]. *)
Definition gauge_tick : M als unit :=
  try_else
    (count ← lift (execute (x_pg w) (select (count_where counted)));
     set_gauge "incidents_open_total" count ;;
     lift (execute (x_pg w) select_by_severity))
    (fun _ => mret tt)
    (fun rows =>
      for_each (rows : list (string * Z)) (fun r => set_gauge (severity_gauge (fst r)) (snd r)) ;;
      for_each ["INFO"; "WARNING"; "HIGH"; "CRITICAL"] (fun s =>
        if bool_decide (s ∈ rows.*1) then mret tt else set_gauge (severity_gauge s) 0)).

End AlertService.

(** ** Lemmas *)

Section Lemmas.
  Context (w : als_world) (cfg : als_config).

(** *** Notifying touches no counter but its own *)

Definition same_metrics (s s' : als) : Prop := as_metrics s' = as_metrics s.
#[local] Instance same_metrics_preorder : PreOrder same_metrics.
Proof. split; [by intros s | intros s1 s2 s3; unfold same_metrics; congruence]. Qed.

Lemma send_same_metrics p n : moves same_metrics (send w p n).
Proof.
  destruct p; [by intros s|]. apply moves_protected; [apply _ | by intros b s | by intros d s|].
  apply moves_bind; [apply _ | by intros s|]. intros [status|acted text].
  - destruct (500 <=? status); [apply moves_raise, _|]. destruct (400 <=? status); [apply moves_raise, _ | by intros s].
  - apply moves_bind; [apply _ | by intros s; destruct acted | intros; apply moves_raise, _].
Qed.

Definition sent_counter (p : provider) : string := "notifications_sent_total:" +:+ provider_name p.
Definition failed_counter (p : provider) : string := "notifications_failed_total:" +:+ provider_name p.

Definition attempts (p : provider) (m : metrics) : Z := counter m (sent_counter p) + counter m (failed_counter p).

Definition bump (name : string) (m : metrics) : metrics := Metrics (<[name := counter m name + 1]> (mt_counters m)).

Lemma counter_bump (m : metrics) name name' :
  counter (bump name m) name' = counter m name' + (if bool_decide (name = name') then 1 else 0).
Proof.
  unfold counter at 1, bump. cbn [mt_counters]. case_bool_decide as Hn.
  - subst name'. by rewrite lookup_insert_eq.
  - rewrite lookup_insert_ne by done. unfold counter. lia.
Qed.

(** One provider: it never raises, and is counted once, as sent or as failed. *)
Lemma notify_one p n s : exists s',
  try_else (send w p n) (fun _ => inc ("notifications_failed_total:" +:+ provider_name p))
    (fun _ => inc ("notifications_sent_total:" +:+ provider_name p)) s = (Ok tt, s') /\
  as_metrics s' = bump (if is_ok (eval (send w p n) s) then sent_counter p else failed_counter p) (as_metrics s).
Proof.
  unfold try_else, eval. pose proof (send_same_metrics p n s) as Hm. unfold same_metrics in Hm.
  destruct (send w p n s) as [[[]|e] s1]; simpl in Hm; cbn [fst is_ok];
    (eexists; split; [reflexivity|]); simpl; by rewrite Hm.
Qed.

Lemma attempts_bump p p' (ok : bool) m :
  attempts p (bump (if ok then sent_counter p' else failed_counter p') m) =
  attempts p m + (if bool_decide (provider_name p' = provider_name p) then 1 else 0).
Proof.
  unfold attempts. rewrite !counter_bump.
  unfold sent_counter, failed_counter. destruct p, p', ok; cbn [provider_name];
    repeat (case_bool_decide; try done); lia.
Qed.

Definition times (p : provider) (providers : list provider) : Z :=
  Z.of_nat (length (filter (fun p' => provider_name p' = provider_name p) providers)).

Lemma notify_all_counts providers n s : exists s', notify_all w providers n s = (Ok tt, s') /\
  forall p, attempts p (as_metrics s') = attempts p (as_metrics s) + times p providers.
Proof.
  revert s. induction providers as [|p providers IH]; intros s.
  { exists s. split; [done|]. intros p. unfold times. simpl. lia. }
  unfold notify_all. cbn [for_each]. destruct (notify_one p n s) as (s1 & H1 & Hm1). rewrite (bind_ok _ _ _ _ _ H1).
  destruct (IH s1) as (s' & H2 & Hm2). exists s'. split; [exact H2|]. intros q. rewrite Hm2, Hm1, attempts_bump.
  unfold times. rewrite filter_cons. case_bool_decide; case_decide; try done; simpl; lia.
Qed.

(** *** Alerts stay *)

Definition has_alert (rule key : string) (d : alert_db) : Prop :=
  exists r, r ∈ db_alerts d /\ al_rule_id r = rule /\ al_dedupe_key r = key.

Definition alerts_stay (d d' : alert_db) : Prop := forall rule key, has_alert rule key d -> has_alert rule key d'.

#[local] Instance alerts_stay_preorder : PreOrder alerts_stay.
Proof. split; [by intros d rule key | intros d1 d2 d3 H12 H23 rule key H; by apply H23, H12]. Qed.

Lemma alerts_stay_identity d d' :
  identity <$> db_alerts d `prefix_of` identity <$> db_alerts d' -> alerts_stay d d'.
Proof.
  intros [more Hpre] rule key (r & Hr & <- & <-).
  assert (Hin : identity r ∈ identity <$> db_alerts d') by (rewrite Hpre; apply elem_of_app; left; by apply list_elem_of_fmap_2).
  apply list_elem_of_fmap in Hin as (r' & Hid & Hr'). exists r'. unfold identity in Hid. naive_solver.
Qed.

(** A statement that does not touch the table of alerts. *)
Definition keeps_alert_table {A} (stmt : statement alert_db A) : Prop :=
  forall now uuid d, db_alerts (snd (stmt now uuid d)) = db_alerts d.

Lemma keeps_with_uuid {A} env x (k : string -> statement alert_db A) :
  (forall u, keeps_alert_table (k u)) -> keeps_alert_table (with_uuid env x k).
Proof. intros Hk now uuid d. unfold with_uuid. destruct (pg_uuid_in env x); [apply Hk | done]. Qed.

Lemma keeps_with_uuid_opt {A} env x (k : option string -> statement alert_db A) :
  (forall u, keeps_alert_table (k u)) -> keeps_alert_table (with_uuid_opt env x k).
Proof. intros Hk. destruct x as [x|]; [apply keeps_with_uuid; intros; apply Hk | apply Hk]. Qed.

(** What the service's messages at the broker and alerts in the database do. *)
Definition stays (s s' : als) : Prop :=
  alerts_stay (pg_db (as_pg s)) (pg_db (as_pg s')) /\ log_grows (as_kafka s) (as_kafka s').

#[export] Instance stays_preorder : PreOrder stays.
Proof.
  split; [intros s; split; reflexivity|]. intros s1 s2 s3 [A1 L1] [A2 L2]. split; by etrans.
Qed.

Lemma stays_inc name : moves stays (inc (S:=als) name).
Proof. intros s. split; reflexivity. Qed.

Lemma stays_read : moves stays (als_read_utc w).
Proof. intros s. split; reflexivity. Qed.

Lemma stays_produce topic key value : moves stays (lift (produce_and_wait (x_broker w) topic key value)).
Proof.
  intros s. unfold lift. pose proof (produce_grows (x_broker w) topic key value (part_get s)) as Hg.
  destruct (produce_and_wait _ _ _ _ _) as [r k']. split; [reflexivity | exact Hg].
Qed.

Lemma stays_pg {A} (m : M (pg alert_db) A) :
  moves (fun s s' => alerts_stay (pg_db s) (pg_db s')) m -> moves stays (lift m).
Proof.
  intros Hm s. unfold lift. specialize (Hm (as_pg s)). change (part_get s) with (as_pg s).
  destruct (m (as_pg s)) as [r p']. split; [exact Hm | reflexivity].
Qed.

Lemma stays_dlq raw exc stage cid topic : moves stays (_dlq_or_hold w cfg raw exc stage cid topic).
Proof.
  unfold _dlq_or_hold. apply moves_try_else; [apply _ | | intros; apply moves_ret, _ |].
  - unfold dead_letter. apply moves_bind; [apply _ | apply stays_read|]. intros now.
    apply moves_bind; [apply _ | intros s; split; reflexivity | intros; apply stays_produce].
  - intros _. apply moves_bind; [apply _ | apply stays_inc | intros; apply moves_ret, _].
Qed.

Lemma stays_notify providers n : moves stays (notify_all w providers n).
Proof.
  apply moves_for_each; [apply _|]. intros p.
  apply moves_try_else; [apply _ | | intros; apply stays_inc | intros; apply stays_inc].
  destruct p; [intros s; split; reflexivity|].
  apply moves_protected; [apply _ | intros b s; split; reflexivity | intros d s; split; reflexivity |].
  apply moves_bind; [apply _ | intros s; split; reflexivity|]. intros [status|acted text].
  - destruct (500 <=? status); [apply moves_raise, _|].
    destruct (400 <=? status); [apply moves_raise, _ | intros s; split; reflexivity].
  - apply moves_bind; [apply _ | intros s; destruct acted; split; reflexivity | intros; apply moves_raise, _].
Qed.

Lemma stays_publish_and_notify providers a rule_id ty esc : moves stays (_publish_and_notify w cfg providers a rule_id ty esc).
Proof.
  unfold _publish_and_notify. apply moves_bind; [apply _ | apply stays_read|]. intros now.
  destruct (a_triggered_at a); [|apply moves_raise, _].
  apply moves_bind; [apply _ | | intros; apply stays_notify].
  apply moves_try; [apply _ | | intros; apply moves_ret, _].
  unfold publish_alert. apply moves_bind; [apply _ | intros s; split; reflexivity | intros; apply stays_produce].
Qed.

Lemma keeps_alerts_insert_event i ty actor o n note : keeps_alert_table (insert_event i ty actor o n note).
Proof. intros now uuid d. unfold insert_event. by destruct (find_incident i d). Qed.

Lemma keeps_insert_for_alert env a : keeps_alert_table (insert_for_alert env a).
Proof.
  unfold insert_for_alert. repeat first [apply keeps_with_uuid; intros ? | apply keeps_with_uuid_opt; intros ?].
  intros now uuid d. unfold insert_incident. by repeat case_match.
Qed.

(** Linking an alert to an incident, for any relation that the statements which
    keep the alerts table keep. *)
Lemma moves_open_or_attach (env : pg_env alert_db) (R : pg alert_db -> pg alert_db -> Prop) `{!PreOrder R} ref :
  (forall B (stmt : statement alert_db B), keeps_alert_table stmt -> moves R (execute env stmt)) ->
  moves R (open_or_attach env None ref).
Proof.
  intros Hx. unfold open_or_attach, log_event, publish.
  assert (Hlog : forall i ty o n note, moves R
      (execute env (with_uuid env i (fun i => with_uuid_opt env None (fun actor => insert_event i ty actor o n note))))).
  { intros. apply Hx, keeps_with_uuid. intros u. apply keeps_with_uuid_opt. intros. apply keeps_alerts_insert_event. }
  assert (Hsel : moves R (execute env (with_uuid env (ref_machine_id ref) select_active))).
  { apply Hx, keeps_with_uuid. by intros u now uuid d. }
  apply moves_bind; [apply _ | exact Hsel|]. intros [existing|].
  { apply moves_bind; [apply _ | apply Hlog | intros; apply moves_ret, _]. }
  apply moves_bind; [apply _ | apply Hx, keeps_insert_for_alert|]. intros [id|].
  - apply moves_bind; [apply _ | apply Hlog|]. intros _. apply moves_bind; [apply _ | apply moves_ret, _ | intros; apply moves_ret, _].
  - apply moves_bind; [apply _ | exact Hsel|]. intros [id|]; [apply moves_ret, _ | apply moves_raise, _].
Qed.

Hypothesis others : others_keep_alerts (x_pg w).

Lemma others_stay n d : alerts_stay d (pg_others (x_pg w) n d).
Proof. apply alerts_stay_identity. by rewrite (proj1 (others n d)). Qed.

Lemma stay_execute {A} (stmt : statement alert_db A) :
  keeps_alert_table stmt -> moves (fun s s' => alerts_stay (pg_db s) (pg_db s')) (execute (x_pg w) stmt).
Proof.
  intros Hs. apply moves_execute; [apply _ | apply others_stay|]. intros n d.
  apply alerts_stay_identity. by rewrite Hs.
Qed.

#[local] Instance pg_stay_preorder : PreOrder (fun s s' : pg alert_db => alerts_stay (pg_db s) (pg_db s')).
Proof. split; [intros s; reflexivity | intros s1 s2 s3 H12 H23; by etrans]. Qed.

Lemma stays_open_or_attach a : moves stays (_open_or_attach_incident w a).
Proof.
  unfold _open_or_attach_incident. apply moves_try_else; [apply _ | | intros; apply moves_ret, _ |].
  2: { intros [id []]; apply stays_inc. }
  apply stays_pg, moves_open_or_attach; [apply _|]. intros B stmt Hstmt. by apply stay_execute.
Qed.

Lemma stays_after_create providers rule_id r : moves stays (after_create w cfg providers rule_id r).
Proof.
  destruct r as [result created]. unfold after_create.
  case_bool_decide; [destruct created as [created|]; [|apply moves_raise, _]|].
  - apply moves_bind; [apply _ | apply stays_inc|]. intros _.
    apply moves_bind; [apply _ | apply stays_open_or_attach | intros; apply stays_publish_and_notify].
  - repeat case_bool_decide; first [apply stays_inc | apply moves_ret, _].
Qed.

Lemma insert_due_stays rule_id alert key now uuid d :
  alerts_stay d (snd (insert_due (x_pg w) rule_id alert key now uuid d)).
Proof.
  pose proof (insert_due_shape (x_pg w) rule_id alert key now uuid d) as H.
  destruct (insert_due _ _ _ _ _ _ _) as [r d'].
  destruct H as [[-> _]|(_ & rule & row & _ & -> & _)]; [reflexivity|].
  apply alerts_stay_identity. cbn [snd db_alerts set_alerts]. rewrite fmap_app. by apply prefix_app_r.
Qed.

Lemma stays_insert_if_free rule_id alert key :
  moves (fun s s' => alerts_stay (pg_db s) (pg_db s')) (insert_if_free (x_pg w) rule_id alert key).
Proof.
  unfold insert_if_free. apply moves_bind; [apply _ | |].
  - apply moves_execute; [apply _ | apply others_stay | intros; apply insert_due_stays].
  - intros [[id t]|]; apply moves_ret, _.
Qed.

Lemma stays_create rule_id cooldown alert key :
  moves stays (lift (create_if_due (x_pg w) (x_service_now w) rule_id cooldown alert key)).
Proof.
  apply stays_pg. unfold create_if_due. apply moves_bind; [apply _ | |].
  - apply stay_execute, keeps_with_uuid. by intros ????.
  - intros [[st t]|]; [|apply stays_insert_if_free]. destruct (negb _); [apply moves_ret, _|].
    apply moves_bind; [apply _ | intros s; reflexivity|]. intros now.
    destruct (_ <? _); [apply moves_ret, _ | apply stays_insert_if_free].
Qed.

(** A creation that returns leaves an alert of the rule and scope. *)
Lemma insert_if_free_has_alert rule_id alert key s r s' :
  insert_if_free (x_pg w) rule_id alert key s = (Ok r, s') ->
  exists rule, pg_uuid_in (x_pg w) rule_id = Some rule /\ has_alert rule key (pg_db s').
Proof.
  unfold insert_if_free, mbind, M_bind, execute. set (n := pg_count s). set (d := pg_others _ _ _).
  pose proof (insert_due_shape (x_pg w) rule_id alert key (pg_now (x_pg w) n) (pg_uuid (x_pg w) n) d) as H.
  destruct (insert_due _ _ _ _ _ _ _) as [res d']. destruct (pg_fault _ n) as [[kept e]|]; [done|].
  destruct H as [[-> Hr]|(-> & rule & row & Hrule & -> & Hid & _)].
  - destruct res as [[x|]|e]; [done | | done]. intros [= _ <-]. destruct Hr as (rule & Hrule & Hin).
    exists rule. split; [done|]. apply elem_of_open_keys in Hin as (r0 & Hr0 & _ & Hk). exists r0. simpl. naive_solver.
  - intros [= _ <-]. exists rule. split; [done|]. unfold identity in Hid. exists row. simpl.
    split; [apply elem_of_app; right; by left | naive_solver].
Qed.

Lemma create_has_alert rule_id cooldown alert key s r s' :
  create_if_due (x_pg w) (x_service_now w) rule_id cooldown alert key s = (Ok r, s') ->
  exists rule, pg_uuid_in (x_pg w) rule_id = Some rule /\ has_alert rule key (pg_db s').
Proof.
  unfold create_if_due. unfold mbind at 1, M_bind. unfold execute at 1, with_uuid at 1.
  destruct (pg_uuid_in (x_pg w) rule_id) as [rule|] eqn:Hrule.
  2: { by destruct (pg_fault _ _) as [[kept e]|]. }
  set (d := pg_others _ _ _).
  destruct (select_last_spec rule key (pg_now (x_pg w) (pg_count s)) (pg_uuid (x_pg w) (pg_count s)) d) as (row & -> & Hrow).
  destruct (pg_fault _ _) as [[kept e]|]; [done|].
  destruct row as [[st t]|]; [|intros H; apply insert_if_free_has_alert in H as (rule' & ? & ?); exists rule'; by rewrite <- Hrule].
  destruct Hrow as [(r0 & Hr0 & _) _].
  assert (Hd : has_alert rule key d) by (apply list_elem_of_filter in Hr0 as [[? ?] ?]; exists r0; by split_and!).
  destruct (negb _); [intros [= _ <-]; by exists rule|].
  unfold mbind, M_bind, gets. cbn beta iota. destruct (_ <? _); [intros [= _ <-]; by exists rule|].
  intros H. apply insert_if_free_has_alert in H as (rule' & ? & ?). exists rule'. by rewrite <- Hrule.
Qed.

(** A rule that asks for an alert, whatever was counted. *)
Definition rule_fires (anomaly : AnomalyDetected) (rule : AlertRule) : Prop :=
  scope_matches rule (ad_machine_id anomaly) (ad_device_id anomaly) (ad_sensor_id anomaly) = true /\
  rl_condition rule <> "ANOMALY_COUNT" /\ condition_matches rule (ad_value anomaly) 0 = true.

Lemma stays_apply_rule providers raw anomaly rule : moves stays (apply_rule w cfg providers raw anomaly rule).
Proof.
  unfold apply_rule. destruct (negb _); [apply moves_ret, _|]. apply moves_bind; [apply _ | |].
  - case_bool_decide; [|apply moves_ret, _]. intros s. unfold lift. destruct (count_record _ _ _ _). split; reflexivity.
  - intros count. destruct (negb _); [apply moves_ret, _|].
    apply moves_try_else; [apply _ | apply stays_create | |].
    + intros exc. apply moves_bind; [apply _ | apply stays_inc|]. intros _.
      apply moves_bind; [apply _ | apply stays_dlq | intros; apply moves_ret, _].
    + intros r. apply moves_bind; [apply _ | apply stays_after_create | intros; apply moves_ret, _].
Qed.

(** The loop went on after a rule that fires: its alert is there. *)
Lemma apply_rule_has_alert providers raw anomaly rule s s' :
  apply_rule w cfg providers raw anomaly rule s = (Ok None, s') -> rule_fires anomaly rule ->
  exists u, pg_uuid_in (x_pg w) (rl_id rule) = Some u /\ has_alert u (anomaly_dedupe_key anomaly) (pg_db (as_pg s')).
Proof.
  intros H (Hscope & Hcount & Hcond). revert H. unfold apply_rule. rewrite Hscope. cbn [negb].
  rewrite bool_decide_false by done. erewrite bind_ok by reflexivity. rewrite Hcond. cbn [negb].
  unfold try_else, lift. change (part_get s) with (as_pg s).
  destruct (create_if_due _ _ _ _ _ _ (as_pg s)) as [[r|e] p1] eqn:E.
  - apply create_has_alert in E as (u & Hu & Ha). intros H. exists u. split; [done|].
    match type of H with _ ?s1 = _ => pose proof (stays_after_create providers (rl_id rule) r s1) as [Hs _] end.
    unfold mbind, M_bind in H. destruct (after_create _ _ _ _ _ _) as [[[]|e] s2]; [|done].
    injection H as <-. by apply Hs.
  - unfold mbind, M_bind, mret, M_ret. destruct (inc _ _) as [[x|e1] s1]; [|done].
    by destruct (_dlq_or_hold _ _ _ _ _ _ _ _) as [[b|e2] s2].
Qed.

(** The message is in the dead-letter topic. *)
Definition dead_lettered (raw : string) (s : als) : Prop :=
  exists m r, m ∈ kf_log (as_kafka s) /\ mg_topic m = lc_topic_dead_letter cfg /\
    dl_original_payload r = x_decode w raw /\ x_dump_dead_letter w r = Ok (mg_value m).

Lemma dlq_committed raw exc stage cid topic s s' :
  acks_all (x_broker w) -> _dlq_or_hold w cfg raw exc stage cid topic s = (Ok true, s') -> dead_lettered raw s'.
Proof.
  intros Hacks. unfold _dlq_or_hold, try_else.
  destruct (dead_letter w cfg raw exc stage cid topic s) as [[[]|e] s2] eqn:E; [|done].
  intros [= <-]. unfold dead_letter in E. erewrite bind_ok in E by reflexivity. unfold of_res in E.
  destruct (x_dump_dead_letter w _) as [payload|] eqn:Ed; [|by erewrite bind_raise in E by reflexivity].
  erewrite bind_ok in E by reflexivity. unfold lift in E.
  destruct (produce_and_wait _ _ _ _ _) as [r k'] eqn:Ep. injection E as -> <-.
  apply (produce_ok _ _ _ _ _ _ Hacks) in Ep.
  eexists (Message (lc_topic_dead_letter cfg) cid payload), _. split_and!; [| | | exact Ed]; [|done..].
  simpl. rewrite Ep. apply elem_of_app. right. by apply list_elem_of_singleton.
Qed.

Lemma apply_rule_returns providers raw anomaly rule s s' :
  acks_all (x_broker w) -> apply_rule w cfg providers raw anomaly rule s = (Ok (Some true), s') -> dead_lettered raw s'.
Proof.
  intros Hacks. unfold apply_rule. destruct (negb _); [done|]. unfold mbind at 1, M_bind at 1.
  match goal with |- match ?m s with _ => _ end = _ -> _ => destruct (m s) as [[count|e] s1] end; [|done].
  destruct (negb _); [done|].
  unfold try_else. destruct (lift _ s1) as [[r|e] s2].
  - unfold mbind, M_bind. by destruct (after_create _ _ _ _ _ _) as [[[]|e] s3].
  - erewrite bind_ok by reflexivity. unfold mbind, M_bind.
    destruct (_dlq_or_hold _ _ _ _ _ _ _ _) as [[b|e1] s3] eqn:E; [|done]. intros [= -> <-].
    by eapply dlq_committed.
Qed.

(** The whole loop. *)
Lemma apply_rules providers raw anomaly rules s s' r :
  acks_all (x_broker w) -> for_return rules (apply_rule w cfg providers raw anomaly) s = (Ok r, s') ->
  default true r = true ->
  dead_lettered raw s' \/
  Forall (fun rule => rule_fires anomaly rule -> exists u, pg_uuid_in (x_pg w) (rl_id rule) = Some u /\
            has_alert u (anomaly_dedupe_key anomaly) (pg_db (as_pg s'))) rules.
Proof.
  intros Hacks. revert s. induction rules as [|rule rules IH]; intros s; [by right|]. cbn [for_return].
  unfold mbind at 1, M_bind at 1. destruct (apply_rule _ _ _ _ _ rule s) as [[[b|]|e] s1] eqn:E; [| |done].
  - intros [= <- <-] Hb. simpl in Hb. subst b. left. by eapply apply_rule_returns.
  - intros H Hr. destruct (IH s1 H Hr) as [?|Hall]; [by left|]. right. constructor; [|done].
    intros Hfires. destruct (apply_rule_has_alert _ _ _ _ _ _ E Hfires) as (u & Hu & Ha). exists u. split; [done|].
    assert (Hs : stays s1 s').
    { pose proof (moves_for_return stays rules (apply_rule w cfg providers raw anomaly)
        (stays_apply_rule providers raw anomaly) s1) as Hm. by rewrite H in Hm. }
    by apply (proj1 Hs).
Qed.

End Lemmas.

(** *** Escalating *)

Section Escalation.
  Context (w : als_world) (cfg : als_config).

(** The database and the counts of anomalies are not touched. *)
Definition same_pg (s s' : als) : Prop := as_pg s' = as_pg s /\ as_counter s' = as_counter s.
#[local] Instance same_pg_preorder : PreOrder same_pg.
Proof. split; [by intros s | intros s1 s2 s3 [? ?] [? ?]; split; congruence]. Qed.

Lemma send_same_pg p n : moves same_pg (send w p n).
Proof.
  destruct p; [by intros s|]. apply moves_protected; [apply _ | by intros b s | by intros d s|].
  apply moves_bind; [apply _ | by intros s|]. intros [status|acted text].
  - destruct (500 <=? status); [apply moves_raise, _|]. destruct (400 <=? status); [apply moves_raise, _ | by intros s].
  - apply moves_bind; [apply _ | by intros s; destruct acted | intros; apply moves_raise, _].
Qed.

Lemma notify_all_same_pg providers n : moves same_pg (notify_all w providers n).
Proof.
  apply moves_for_each; [apply _|]. intros p.
  apply moves_try_else; [apply _ | apply send_same_pg | by intros e s | by intros x s].
Qed.

(** Publishing an alert with a date and notifying returns, whatever fails. *)
Lemma publish_and_notify_ok providers a t rule_id ty esc s :
  a_triggered_at a = Some t ->
  exists s', _publish_and_notify w cfg providers a rule_id ty esc s = (Ok tt, s') /\ same_pg s s'.
Proof.
  intros Ht. unfold _publish_and_notify. erewrite bind_ok by reflexivity. rewrite Ht. cbn zeta.
  match goal with |- context [(try_except ?m ?h ;; ?k) ?s1] =>
    assert (Hpub : exists s2, try_except m h s1 = (Ok tt, s2) /\ same_pg s s2) end.
  { unfold try_except, publish_alert, of_res, mbind, M_bind. destruct (x_dump_alert _ _) as [payload|e].
    - unfold lift. destruct (produce_and_wait _ _ _ _ _) as [[[]|e] k]; by eexists.
    - by eexists. }
  destruct Hpub as (s2 & H2 & Hpub). erewrite bind_ok by exact H2.
  match goal with |- context [notify_all w providers ?n s2] =>
    destruct (notify_all_counts w providers n s2) as (s' & Hs' & _);
    pose proof (notify_all_same_pg providers n s2) as Hsame end.
  rewrite Hs' in Hsame. exists s'. split; [exact Hs' | by etrans].
Qed.

Definition update_alerts (id : string) (f : alert_row -> alert_row) (l : list alert_row) : list alert_row :=
  map (fun r => if bool_decide (al_id r = id) then f r else r) l.

Hypothesis calm : quiet (x_pg w).

(** One candidate. *)
Lemma escalate_one_quiet providers r s :
  pg_uuid_in (x_pg w) (al_id r) = Some (al_id r) ->
  exists s' t, escalate_one w cfg providers (alert_of_row r) s = (Ok tt, s') /\
    db_alerts (pg_db (as_pg s')) =
    (if bool_decide (next_severity (al_severity r) = al_severity r) then db_alerts (pg_db (as_pg s))
     else update_alerts (al_id r) (escalated (next_severity (al_severity r)) t) (db_alerts (pg_db (as_pg s)))).
Proof.
  intros Hid. unfold escalate_one. cbn [alert_of_row a_severity a_id].
  case_bool_decide as Hnext; [by exists s, 0|].
  unfold try_else, lift, escalate. change (part_get s) with (as_pg s).
  rewrite (execute_quiet _ _ _ calm). unfold with_uuid. rewrite Hid. unfold update_alert, update.
  erewrite bind_ok by reflexivity.
  match goal with |- context [_publish_and_notify w cfg providers ?a ?i ?ty ?e ?s1] =>
    destruct (publish_and_notify_ok providers a (al_triggered_at r) i ty e s1 eq_refl) as (s' & Hs' & [Hpg _]) end.
  exists s', (pg_now (x_pg w) (pg_count (as_pg s))). split; [exact Hs'|]. rewrite Hpg. reflexivity.
Qed.

Lemma NoDup_fmap_filter (P : alert_row -> Prop) `{!forall r, Decision (P r)} (l : list alert_row) :
  NoDup (al_id <$> l) -> NoDup (al_id <$> filter P l).
Proof.
  intros Hnd. induction l as [|r l IH]; [done|]. csimpl in Hnd. apply NoDup_cons in Hnd as [Hr Hnd].
  rewrite filter_cons. case_decide; [|by apply IH]. csimpl. constructor; [|by apply IH].
  intros (r' & Heq & Hr')%list_elem_of_fmap. apply Hr. rewrite Heq. apply list_elem_of_fmap_2.
  apply list_elem_of_filter in Hr'. tauto.
Qed.

(** A row that the sweep escalates once. *)
Definition escalates (r : alert_row) : bool := negb (bool_decide (next_severity (al_severity r) = al_severity r)).

(** What happened to a row, given whether it was a candidate. *)
Definition swept (candidate : alert_row -> bool) (r r' : alert_row) : Prop :=
  if candidate r && escalates r then exists t, r' = escalated (next_severity (al_severity r)) t r else r' = r.

Lemma swept_all_none l : Forall2 (swept (fun _ => false)) l l.
Proof. induction l as [|r l IH]; by constructor. Qed.

Definition among (cs : list alert_row) (r : alert_row) : bool := bool_decide (al_id r ∈ (al_id <$> cs)).

Lemma among_snoc cs c r : among (cs ++ [c]) r = among cs r || bool_decide (al_id r = al_id c).
Proof.
  unfold among. rewrite fmap_app. simpl. destruct (bool_decide (al_id r ∈ al_id <$> cs)) eqn:E; breflect.
  - apply bool_decide_eq_true. apply elem_of_app. by left.
  - simpl. apply bool_decide_ext. rewrite elem_of_app, list_elem_of_singleton. tauto.
Qed.

Lemma NoDup_alert_ids (l : list alert_row) r r' :
  NoDup (al_id <$> l) -> r ∈ l -> r' ∈ l -> al_id r = al_id r' -> r = r'.
Proof.
  intros Hnd Hr Hr' Heq. apply list_elem_of_lookup in Hr as [i Hi], Hr' as [j Hj].
  assert (i = j); [|congruence]. eapply (NoDup_lookup _ i j (al_id r) Hnd); rewrite list_lookup_fmap, ?Hi, ?Hj; simpl; congruence.
Qed.

(** Escalating one more candidate. *)
Lemma swept_step l0 cs c l t :
  NoDup (al_id <$> l0) -> c ∈ l0 -> among cs c = false ->
  Forall2 (swept (among cs)) l0 l ->
  Forall2 (swept (among (cs ++ [c]))) l0
    (if bool_decide (next_severity (al_severity c) = al_severity c) then l
     else update_alerts (al_id c) (escalated (next_severity (al_severity c)) t) l).
Proof.
  intros Hnd Hc Hnew Hall.
  assert (Hrow : forall r r', r ∈ l0 -> swept (among cs) r r' ->
      swept (among (cs ++ [c])) r
        (if bool_decide (next_severity (al_severity c) = al_severity c) then r'
         else if bool_decide (al_id r' = al_id c) then escalated (next_severity (al_severity c)) t r' else r')).
  { intros r r' Hr Hsw. unfold swept in *. rewrite among_snoc.
    assert (Hids : al_id r' = al_id r) by (destruct (among cs r && escalates r); [destruct Hsw as [u ->]|subst]; done).
    rewrite Hids. destruct (decide (al_id r = al_id c)) as [Heq|Hne].
    - assert (r = c) as -> by by eapply NoDup_alert_ids. rewrite Hnew in *. rewrite !bool_decide_true with (P := al_id c = al_id c) by done.
      simpl in *. subst r'. unfold escalates. case_bool_decide; simpl; [done | by eexists].
    - rewrite (bool_decide_false (al_id r = al_id c)), orb_false_r by done. by destruct (bool_decide (next_severity _ = _)). }
  clear Hnd Hc Hnew. induction Hall as [|r r' l0 l Hsw _ IH]; [by case_bool_decide|].
  assert (Hr := Hrow r r' ltac:(by left) Hsw). specialize (IH ltac:(intros; apply Hrow; [by right | done])).
  destruct (bool_decide (next_severity (al_severity c) = al_severity c)); by constructor.
Qed.

Lemma sweep_candidates providers l0 cs done_ s :
  NoDup (al_id <$> l0) -> (forall r, r ∈ l0 -> pg_uuid_in (x_pg w) (al_id r) = Some (al_id r)) ->
  NoDup (al_id <$> done_ ++ cs) -> Forall (fun c => c ∈ l0) cs ->
  Forall2 (swept (among done_)) l0 (db_alerts (pg_db (as_pg s))) ->
  exists s', for_each (alert_of_row <$> cs) (escalate_one w cfg providers) s = (Ok tt, s') /\
    Forall2 (swept (among (done_ ++ cs))) l0 (db_alerts (pg_db (as_pg s'))).
Proof.
  intros Hnd Huuid. revert done_ s. induction cs as [|c cs IH]; intros done_ s Hnd' Hcs Hsw.
  { exists s. split; [done|]. by rewrite app_nil_r. }
  apply Forall_cons in Hcs as [Hc Hcs].
  destruct (escalate_one_quiet providers c s (Huuid c Hc)) as (s1 & t & H1 & Hdb). csimpl.
  erewrite bind_ok by exact H1.
  assert (Hfresh : among done_ c = false).
  { apply bool_decide_eq_false. rewrite fmap_app in Hnd'. apply NoDup_app in Hnd' as (_ & Hdis & _).
    intros Hin. apply (Hdis _ Hin). by left. }
  destruct (IH (done_ ++ [c]) s1) as (s' & Hs' & Hsw'); [by rewrite <- app_assoc | done | rewrite Hdb; by apply swept_step |].
  exists s'. split; [exact Hs'|]. by rewrite <- app_assoc in Hsw'.
Qed.

End Escalation.

(** What a commit of the alert service means.  When [_process_anomaly] asks
    for the commit, whatever failed and whatever other clients did to the status
    of alerts: the anomaly is in the dead-letter topic, or every cached rule of
    its organization and metric whose scope and threshold it meets has an alert
    for its device and metric in the database. *)
Lemma anomaly_committed (w : als_world) (cfg : als_config) (providers : list provider) (msg : fetched)
    (s s' : als) :
  others_keep_alerts (x_pg w) -> acks_all (x_broker w) ->
  _process_anomaly w cfg providers msg s = (Ok true, s') ->
  dead_lettered w cfg (ft_value msg) s' \/
  exists anomaly, x_load_anomaly w (ft_value msg) = Ok anomaly /\
    forall rule, rule ∈ rules_for (ad_organization_id anomaly) (ad_metric anomaly) (as_rules s) ->
      rule_fires anomaly rule ->
      exists u, pg_uuid_in (x_pg w) (rl_id rule) = Some u /\
        has_alert u (anomaly_dedupe_key anomaly) (pg_db (as_pg s')).
Proof.
  intros Ho Hacks. unfold _process_anomaly. erewrite bind_ok by reflexivity.
  destruct (x_load_anomaly w (ft_value msg)) as [anomaly|exc].
  - erewrite bind_ok by reflexivity. cbn [as_rules].
    set (rules := rules_for _ _ _). unfold mbind, M_bind, mret, M_ret.
    match goal with |- context [for_return rules ?b ?s1] => destruct (for_return rules b s1) as [[r|e] s2] eqn:E end; [|done].
    intros [= Hr <-]. destruct (apply_rules w cfg Ho _ _ _ _ _ _ _ Hacks E Hr) as [?|Hall]; [by left|].
    right. exists anomaly. split; [done|]. intros rule Hin. by apply (proj1 (Forall_forall _ _) Hall).
  - erewrite bind_ok by reflexivity. intros H. left. by eapply dlq_committed.
Qed.

(** ** Theorems *)

(** Notification providers are independent.  Whatever the webhook answers and
    whatever the state of its breaker, [notify_all] returns, and every provider
    was tried once: counted as sent or as failed. *)
Theorem notify_all_independent (w : als_world) (providers : list provider) (n : Notification) (s : als) :
  exists s', notify_all w providers n s = (Ok tt, s') /\
    forall p, attempts p (as_metrics s') = attempts p (as_metrics s) + times p providers.
Proof. apply notify_all_counts. Qed.

(** One sweep escalates each overdue alert by one rung.  With nothing else at
    the database, whatever the broker and the webhook do: the sweep completes;
    every OPEN alert below level 2 that was last escalated (or triggered) longer
    ago than the limit and whose severity is on the ladder below CRITICAL gets
    the next severity, one level more and a new escalation date, and every other
    row is left as it is. *)
Theorem escalation_sweep (w : als_world) (cfg : als_config) (providers : list provider) (s : als) :
  quiet (x_pg w) ->
  let rows := db_alerts (pg_db (as_pg s)) in
  let now := pg_now (x_pg w) (pg_count (as_pg s)) in
  NoDup (al_id <$> rows) -> (forall r, r ∈ rows -> pg_uuid_in (x_pg w) (al_id r) = Some (al_id r)) ->
  exists s', escalation_tick w cfg providers s = (Ok tt, s') /\
    Forall2 (swept (is_due now (lc_escalation_after_seconds cfg))) rows (db_alerts (pg_db (as_pg s'))).
Proof.
  intros Hq rows now Hnd Huuid. unfold escalation_tick.
  set (cs := filter (fun r => is_due now (lc_escalation_after_seconds cfg) r = true) rows).
  assert (Hdue : due_for_escalation (x_pg w) (lc_escalation_after_seconds cfg) (as_pg s) =
      (Ok (alert_of_row <$> cs), Pg (S (pg_count (as_pg s))) (pg_db (as_pg s)))).
  { unfold due_for_escalation. erewrite bind_ok by (rewrite execute_quiet by done; reflexivity). reflexivity. }
  unfold try_else, lift. change (part_get s) with (as_pg s). rewrite Hdue.
  match goal with |- context [for_each _ _ ?s1] => set (s1' := s1) end.
  destruct (sweep_candidates w cfg Hq providers rows cs [] s1') as (s' & Hs' & Hsw); [done | done | | | |].
  - simpl. apply NoDup_fmap_filter, Hnd.
  - apply Forall_forall. intros c Hc%list_elem_of_filter. tauto.
  - eapply Forall2_impl; [apply swept_all_none|]. by intros r r'.
  - exists s'. split; [exact Hs'|]. simpl in Hsw. clear - Hsw Hnd.
    assert (Hc : forall r, r ∈ rows -> among cs r = is_due now (lc_escalation_after_seconds cfg) r).
    { intros r Hr. unfold among. destruct (is_due _ _ r) eqn:E.
      - apply bool_decide_eq_true, list_elem_of_fmap_2. by apply list_elem_of_filter.
      - apply bool_decide_eq_false. intros (c & Hid & Hc)%list_elem_of_fmap. apply list_elem_of_filter in Hc as [Hdue Hc].
        assert (r = c) as -> by by eapply NoDup_alert_ids. by rewrite Hdue in E. }
    clear Hnd. clearbody rows cs. induction Hsw as [|r r' l l' Hr _ IH]; constructor.
    + unfold swept in *. by rewrite <- Hc by by left.
    + apply IH. intros r0 Hr0. apply Hc. by right.
Qed.

(** *** An example surrounding *)

Definition demo_anomaly : AnomalyDetected :=
  mkAnomalyDetected "a" "e" "org" "" "line" "m" "d" "sensor" "temperature" (float_of_Z 130) "HIGH" fone ["RULE"] "hot" (Aware 0).

(** A webhook that is down, a broker that answers as [broker] says. *)
Definition demo_als_world (env : pg_env alert_db) (broker : nat -> delivery) : als_world :=
  AlsWorld env (pg_now env) broker (fun _ => HttpStatus 503) (fun _ => fzero) (fun _ => 0)
    (fun p => if bool_decide (p = "e") then Ok demo_anomaly else Raise (ValueError "bad json"))
    (fun _ => Raise (ValueError "bad json")) (fun _ => Ok "alert") (fun r => Ok ("dlq:" +:+ dl_original_payload r)) (fun p => p).

Definition demo_als_config : als_config := AlsConfig "anomalies.detected" "device.events" "alerts" "dead-letter" 600 true "http://hook".

Definition demo_rule : AlertRule :=
  mkAlertRule "rule" "org" "hot" "temperature" "GREATER_THAN" (Some (float_of_Z 120)) None None "HIGH" 300 300 (Some "m") None None.

Definition demo_als (d : alert_db) : als :=
  Als (Pg 0 d) (Kafka 0 []) {[ rule_key "org" "temperature" := [demo_rule] ]} ∅ (Metrics ∅) (new_breaker 5 fone) 0 [] 0.

Lemma demo_others_keep : others_keep_alerts (demo_alert_env (fun _ d => d)).
Proof. by intros n d. Qed.

Definition demo_broker : nat -> delivery := fun _ => Delivery None 0 (Some None) true.

(** An overdue WARNING, an acknowledged one, and a CRITICAL one. *)
Lemma escalation_sweep_witness :
  let w := demo_als_world (demo_alert_env (fun _ d => d)) (fun _ => Delivery (Some (RuntimeError "down")) 0 None false) in
  let row id sev st := AlertRow id "org" "rule" None None None None sev st "hot" "" id (seconds (-601)) None 0 None in
  let rows := [row "1" "WARNING" "OPEN"; row "2" "WARNING" "ACKNOWLEDGED"; row "3" "CRITICAL" "OPEN"] in
  let s := demo_als (AlertDb [] rows [] []) in
  (fun r => (al_severity r, al_escalation_level r)) <$>
    db_alerts (pg_db (as_pg (exec (escalation_tick w demo_als_config (_build_providers demo_als_config)) s))) =
    [("HIGH", 1); ("WARNING", 0); ("CRITICAL", 0)] /\
  exists s', escalation_tick w demo_als_config (_build_providers demo_als_config) s = (Ok tt, s') /\
    Forall2 (swept (is_due (pg_now (x_pg w) 0) (lc_escalation_after_seconds demo_als_config))) rows (db_alerts (pg_db (as_pg s'))).
Proof.
  cbn zeta. split; [by vm_compute|].
  match goal with |- exists s', escalation_tick ?w ?cfg ?ps ?s = _ /\ _ =>
    apply (escalation_sweep w cfg ps s) end; [done | by apply (bool_decide_unpack _); vm_compute |].
  intros r Hr. cbn [as_pg demo_als pg_db db_alerts] in Hr.
  repeat (apply elem_of_cons in Hr as [-> | Hr]; [done|]). by apply elem_of_nil in Hr.
Defined.
