(* ===== verification/ConsumerGroup.v ===== *)
(** Consumer groups: a partition and the members that consume it one after the
    other ([_consume_loop] of the stream processor, the anomaly detector and the
    alert service), with commits that fail, messages that are held, members that
    end anywhere, even inside a message, and restarts from the committed offset.
    [GroupService] states what a service promises of one message; the theorems
    say what that comes to for every message below the committed offset. *)

From stdpp Require Import prelude strings list gmap.
From Stdlib Require Import ZArith Lia.
From S2P Require Import Prelude PyFloat Effects Reliability Postgres Events Kafka Ingestion Window StreamProcessor Detect IsolationForest FeatureStore AnomalyDetector Alerts AlertService.

Local Open Scope Z_scope.

(** ** The group *)

(** One [_process_message]: the state before and after it, and what it returned
    or raised; [None] when the process ended inside it. *)
Record call (S : Type) := Call { cl_offset : nat; cl_raw : string; cl_before : S; cl_after : S; cl_result : option (res bool) }.
Arguments Call {S}.
Arguments cl_offset {S}.
Arguments cl_raw {S}.
Arguments cl_before {S}.
Arguments cl_after {S}.
Arguments cl_result {S}.

Record group (S : Type) := Group {
  (** the partition, and the offset the next member starts from *)
  gr_log : list string; gr_committed : Z;
  (** what the member fetches next, if there is one *)
  gr_position : option nat;
  gr_service : S;
  (** every call there ever was *)
  gr_calls : list (call S)
}.
Arguments Group {S}.
Arguments gr_log {S}.
Arguments gr_committed {S}.
Arguments gr_position {S}.
Arguments gr_service {S}.
Arguments gr_calls {S}.

(** What a service promises of one message.  [event_of] names the event of a
    message; [claimed], that the event is taken for seen; [settled], what a
    message that may be committed has got between two states; [persists], what
    outlives the process. *)
Class GroupService {S : Type} (process : fetched -> M S bool) := {
  event_of : string -> option string;
  claimed : string -> S -> Prop;
  settled : string -> S -> S -> Prop;
  persists : S -> S -> Prop;
  persists_preorder : PreOrder persists;
  process_persists m s : persists s (snd (process m s));
  process_claims m s k : claimed k (snd (process m s)) -> claimed k s \/ event_of (ft_value m) = Some k;
  process_settles m s s' : process m s = (Ok true, s') ->
    settled (ft_value m) s s' \/ exists k, event_of (ft_value m) = Some k /\ claimed k s
}.
#[export] Existing Instance persists_preorder.

Section Group.
  Context {S : Type} (process : fetched -> M S bool) `{GS : !GroupService process}.

(** The service without its consumer: background threads, claims that expire, a
    new process. *)
Definition idles (s s' : S) : Prop := persists s s' /\ forall k, claimed k s' -> claimed k s.

(** The process ended inside a message. *)
Definition interrupted (raw : string) (s s' : S) : Prop :=
  persists s s' /\ forall k, claimed k s' -> claimed k s \/ event_of raw = Some k.

Inductive group_step : group S -> group S -> Prop :=
  | group_produce raw g :
      group_step g (Group (gr_log g ++ [raw]) (gr_committed g) (gr_position g) (gr_service g) (gr_calls g))
  (** a member starts, or gets the partition in a rebalance *)
  | group_join s' g :
      idles (gr_service g) s' ->
      group_step g (Group (gr_log g) (gr_committed g) (Some (Z.to_nat (gr_committed g))) s' (gr_calls g))
  | group_idle s' g :
      idles (gr_service g) s' ->
      group_step g (Group (gr_log g) (gr_committed g) (gr_position g) s' (gr_calls g))
  | group_leave g :
      group_step g (Group (gr_log g) (gr_committed g) None (gr_service g) (gr_calls g))
  (** one round of the consumer's loop; an exception ends it *)
  | group_consume p raw err r s' c' g :
      gr_position g = Some p -> gr_log g !! p = Some raw ->
      consume_loop process [PollMessage (Fetched (Z.of_nat p) raw) err] (gr_service g, gr_committed g) = (r, (s', c')) ->
      group_step g (Group (gr_log g) c' (if is_ok r then Some (Datatypes.S p) else None) s'
        (gr_calls g ++ [Call p raw (gr_service g) s' (Some (eval (process (Fetched (Z.of_nat p) raw)) (gr_service g)))]))
  | group_interrupt p raw s' g :
      gr_position g = Some p -> gr_log g !! p = Some raw -> interrupted raw (gr_service g) s' ->
      group_step g (Group (gr_log g) (gr_committed g) None s' (gr_calls g ++ [Call p raw (gr_service g) s' None])).

Inductive group_reachable : group S -> Prop :=
  | group_start s : (forall k, ~ claimed k s) -> group_reachable (Group [] 0 None s [])
  | group_more g g' : group_reachable g -> group_step g g' -> group_reachable g'.

(** ** Lemmas *)

(** A call that did not ask for the commit, or one that settled its message. *)
Definition unfinished (c : call S) : Prop := cl_result c <> Some (Ok true).
Definition closed (c : call S) : Prop := unfinished c \/ settled (cl_raw c) (cl_before c) (cl_after c).

(** Two messages of one event. *)
Definition same_event (raw raw' : string) : Prop :=
  raw' = raw \/ exists k, event_of raw = Some k /\ event_of raw' = Some k.

Record group_ok (g : group S) : Prop := {
  go_committed : 0 <= gr_committed g;
  go_log c : c ∈ gr_calls g -> gr_log g !! cl_offset c = Some (cl_raw c);
  go_persists c : c ∈ gr_calls g -> persists (cl_after c) (gr_service g);
  go_covered o : Z.of_nat o < gr_committed g \/ (exists p, gr_position g = Some p /\ (o < p)%nat) ->
    exists c, c ∈ gr_calls g /\ cl_offset c = o;
  go_claims k : claimed k (gr_service g) -> exists c, c ∈ gr_calls g /\ event_of (cl_raw c) = Some k /\ closed c;
  go_closed c : c ∈ gr_calls g -> exists c', c' ∈ gr_calls g /\ same_event (cl_raw c) (cl_raw c') /\ closed c'
}.

(** One round: the state is the message's, and the offset moves only past a
    message that asked for it. *)
Lemma consume_one m err s c r s' c' : consume_loop process [PollMessage m err] (s, c) = (r, (s', c')) ->
  s' = snd (process m s) /\ (c' = c \/ (c' = ft_offset m + 1 /\ eval (process m) s = Ok true)).
Proof.
  cbn [consume_loop]. unfold on_service, eval, mbind, M_bind. cbn [fst snd].
  destruct (process m s) as [[b|e] s1]; [|intros [= _ <- <-]; auto]. cbn [snd fst].
  destruct b; [|intros [= _ <- <-]; auto]. unfold commit. destruct err as [e|]; [destruct (is_kafka_exception e)|];
    unfold mret, M_ret, raise, set_committed; cbn; intros [= _ <- <-]; auto.
Qed.

(** A call more. *)
Lemma add_call g p raw s' res c' pos' :
  group_ok g -> gr_position g = Some p -> gr_log g !! p = Some raw ->
  persists (gr_service g) s' ->
  (forall k, claimed k s' -> claimed k (gr_service g) \/ event_of raw = Some k) ->
  (res = Some (Ok true) -> settled raw (gr_service g) s' \/ exists k, event_of raw = Some k /\ claimed k (gr_service g)) ->
  c' = gr_committed g \/ c' = Z.of_nat p + 1 -> pos' = None \/ pos' = Some (Datatypes.S p) ->
  group_ok (Group (gr_log g) c' pos' s' (gr_calls g ++ [Call p raw (gr_service g) s' res])).
Proof.
  intros [Hc Hl Hp Hcov Hcl Hclo] Hpos Hraw Hper Hnew Hset Hc' Hpos'. set (new := Call p raw (gr_service g) s' res).
  assert (Hin : forall c, c ∈ gr_calls g -> c ∈ gr_calls g ++ [new]) by (intros; apply elem_of_app; by left).
  assert (Hnin : new ∈ gr_calls g ++ [new]) by (apply elem_of_app; right; by left).
  (* the new call is closed, or its event was claimed *)
  assert (Hcase : closed new \/ exists k, event_of raw = Some k /\ claimed k (gr_service g)).
  { destruct res as [[[]|e]|]; try (left; left; by intros ?). destruct (Hset eq_refl) as [H|H]; [left; by right | by right]. }
  assert (Hold : forall k, claimed k (gr_service g) -> exists c, c ∈ gr_calls g ++ [new] /\ event_of (cl_raw c) = Some k /\ closed c).
  { intros k Hk. destruct (Hcl k Hk) as (c & ? & ?). exists c. split; [by apply Hin | done]. }
  constructor; cbn [gr_log gr_committed gr_position gr_service gr_calls].
  - destruct Hc' as [->| ->]; lia.
  - intros c [H| ->%list_elem_of_singleton]%elem_of_app; [by apply Hl | done].
  - intros c [H| ->%list_elem_of_singleton]%elem_of_app; [etrans; [by apply Hp | done] | reflexivity].
  - intros o Ho. destruct (decide (o = p)) as [->|Hne]; [by exists new|].
    destruct (Hcov o) as (c & Hcin & Heq); [|exists c; split; [by apply Hin | done]].
    destruct Ho as [Ho|(p' & Hp' & Ho)]; [destruct Hc' as [->| ->]; [by left | right; exists p; split; [done | lia]]|].
    right. exists p. split; [done|]. destruct Hpos' as [->| ->]; simplify_eq. lia.
  - intros k Hk. destruct (Hnew k Hk) as [H|H]; [by apply Hold|]. destruct Hcase as [Hn|(k' & Hk' & Hcl')]; [by exists new|].
    assert (k' = k) as -> by congruence. by apply Hold.
  - intros c [H| ->%list_elem_of_singleton]%elem_of_app.
    + destruct (Hclo c H) as (c1 & ? & ?). exists c1. split; [by apply Hin | done].
    + destruct Hcase as [Hn|(k & Hk & Hcl')]; [exists new; split; [done | split; [by left | done]]|].
      destruct (Hold k Hcl') as (c1 & H1 & H2 & H3). exists c1. split; [done|]. split; [right; by exists k | done].
Qed.

Lemma group_step_ok g g' : group_step g g' -> group_ok g -> group_ok g'.
Proof.
  intros Hstep Hok. destruct Hstep as [raw g | s' g [Hper Hcl'] | s' g [Hper Hcl'] | g | p raw err r s' c' g Hpos Hraw Hrun
    | p raw s' g Hpos Hraw [Hper Hnew]]; [..|by apply add_call; [..|by left]; auto].
  - destruct Hok as [Hc Hl Hp Hcov Hcl Hclo]. constructor; cbn [gr_log gr_committed gr_position gr_service gr_calls]; try done.
    intros c Hin. apply lookup_app_l_Some. by apply Hl.
  - destruct Hok as [Hc Hl Hp Hcov Hcl Hclo]. constructor; cbn [gr_log gr_committed gr_position gr_service gr_calls]; auto.
    + intros c Hin. etrans; [by apply Hp | done].
    + intros o [Ho|(p & [= <-] & Ho)]; apply Hcov; left; lia.
  - destruct Hok as [Hc Hl Hp Hcov Hcl Hclo]. constructor; cbn [gr_log gr_committed gr_position gr_service gr_calls]; auto.
    intros c Hin. etrans; [by apply Hp | done].
  - destruct Hok as [Hc Hl Hp Hcov Hcl Hclo]. constructor; cbn [gr_log gr_committed gr_position gr_service gr_calls]; auto.
    intros o [Ho|(p & ? & _)]; [apply Hcov; by left | done].
  - apply consume_one in Hrun as [-> Hc']. apply add_call; try done.
    + apply process_persists.
    + intros k. apply (process_claims (Fetched (Z.of_nat p) raw)).
    + intros [= Htrue]. apply (process_settles (Fetched (Z.of_nat p) raw)). unfold eval in Htrue.
      destruct (process _ _) as [x y]. simpl in *. by subst x.
    + destruct Hc' as [->|[-> _]]; auto.
    + destruct (is_ok r); auto.
Qed.

Lemma group_reachable_ok g : group_reachable g -> group_ok g.
Proof.
  induction 1 as [s Hs|g g' _ IH Hstep]; [|by eapply group_step_ok].
  constructor; simpl; try done; try (intros ? H; by apply elem_of_nil in H); try (intros k Hk; by apply Hs in Hk); try lia.
  intros o [?|(p & ? & _)]; [lia | done].
Qed.

(** Every message below the committed offset is accounted for: a call on it, or
    on another message of its event, settled it or did not finish. *)
Lemma group_accounts g o raw : group_reachable g -> Z.of_nat o < gr_committed g -> gr_log g !! o = Some raw ->
  exists c, c ∈ gr_calls g /\ same_event raw (cl_raw c) /\ persists (cl_after c) (gr_service g) /\ closed c.
Proof.
  intros [_ Hl Hp Hcov _ Hclo]%group_reachable_ok Ho Hraw. destruct (Hcov o (or_introl Ho)) as (c & Hin & <-).
  rewrite (Hl c Hin) in Hraw. injection Hraw as <-. destruct (Hclo c Hin) as (c' & Hin' & Hsame & Hclosed). exists c'. auto.
Qed.

(** *** Runs by evaluation *)

Inductive group_act := ActProduce (raw : string) | ActJoin | ActLeave | ActConsume (err : option exn).

Definition member_act (a : group_act) (g : group S) : option (group S) :=
  match a with
  | ActProduce raw => Some (Group (gr_log g ++ [raw]) (gr_committed g) (gr_position g) (gr_service g) (gr_calls g))
  | ActJoin => Some (Group (gr_log g) (gr_committed g) (Some (Z.to_nat (gr_committed g))) (gr_service g) (gr_calls g))
  | ActLeave => Some (Group (gr_log g) (gr_committed g) None (gr_service g) (gr_calls g))
  | ActConsume err =>
      p ← gr_position g; raw ← gr_log g !! p;
      let '(r, (s', c')) := consume_loop process [PollMessage (Fetched (Z.of_nat p) raw) err] (gr_service g, gr_committed g) in
      Some (Group (gr_log g) c' (if is_ok r then Some (Datatypes.S p) else None) s'
        (gr_calls g ++ [Call p raw (gr_service g) s' (Some (eval (process (Fetched (Z.of_nat p) raw)) (gr_service g)))]))
  end.

Fixpoint member_acts (l : list group_act) (g : group S) : option (group S) :=
  match l with [] => Some g | a :: l => g' ← member_act a g; member_acts l g' end.

Lemma member_act_step a g g' : member_act a g = Some g' -> group_step g g'.
Proof.
  destruct a as [raw| | |err]; simpl.
  - intros [= <-]. apply group_produce.
  - intros [= <-]. apply group_join. split; [reflexivity | done].
  - intros [= <-]. apply group_leave.
  - destruct (gr_position g) as [p|] eqn:Hp; simpl; [|done]. destruct (gr_log g !! p) as [raw|] eqn:Hr; simpl; [|done].
    match goal with |- (let '(_, _) := ?run in _) = _ -> _ => destruct run as [r [s' c']] eqn:E end.
    intros [= <-]. by eapply group_consume.
Qed.

(** Where the acts lead. *)
Definition member_run (l : list group_act) (g : group S) : group S := default g (member_acts l g).

Lemma member_run_reachable l g : group_reachable g -> group_reachable (member_run l g).
Proof.
  intros Hg. unfold member_run. destruct (member_acts l g) as [g'|] eqn:E; [|done]. simpl. revert g Hg E.
  induction l as [|a l IH]; intros g Hg; simpl; [by intros [= <-]|].
  destruct (member_act a g) as [y|] eqn:E; simpl; [|done]. apply IH. eapply group_more; [exact Hg | by eapply member_act_step].
Qed.

End Group.

(** ** The services *)

Lemma timed_ok {S} `{Part S metrics} {A} (m : M S A) s a s' : timed m s = (Ok a, s') ->
  exists s1, m s = (Ok a, s1) /\ s' = snd (inc (S:=S) "processing_latency_seconds" s1).
Proof.
  unfold timed, mbind, M_bind, inc, inc_by, lift. destruct (m s) as [[x|e] s1]; [|done]. cbn. intros [= -> <-]. by exists s1.
Qed.

(** *** The stream processor *)

Section Stream.
  Context (w : sp_world) (cfg : sp_config).
  Hypothesis Hacks : acks_all (v_broker w).

(** The name under which an event is deduplicated. *)
Definition stream_event (raw : string) : option string :=
  match v_load w raw with Ok n => Some (dedup_key (te_event_id (nt_event n))) | Raise _ => None end.

Definition stream_persists (s s' : sp) : Prop :=
  sp_points s `prefix_of` sp_points s' /\ log_grows (sp_kafka s) (sp_kafka s').

(** The raw point is in InfluxDB and the event on the topic of processed ones. *)
Definition processed (raw : string) (s : sp) : Prop :=
  exists n payload, v_load w raw = Ok n /\ v_dump w n = Ok payload /\
    raw_point (series_key (nt_event n)) (te_timestamp (nt_event n)) (te_value (nt_event n)) ∈ sp_points s /\
    Message (sc_topic_processed cfg) (te_device_id (nt_event n)) payload ∈ kf_log (sp_kafka s).

Definition stored (raw : string) (s : sp) : Prop := StreamProcessor.dead_lettered w cfg raw s \/ processed raw s.

#[local] Instance stream_persists_preorder : PreOrder stream_persists.
Proof. split; [intros s; split; reflexivity|]. intros s1 s2 s3 [P1 L1] [P2 L2]. split; by etrans. Qed.

(** What one message moves: no key of Redis is new but the event's. *)
Definition stream_moves (key : option string) (s s' : sp) : Prop :=
  stream_persists s s' /\ forall k, is_Some (sp_redis s' !! k) -> is_Some (sp_redis s !! k) \/ key = Some k.

#[local] Instance stream_moves_preorder key : PreOrder (stream_moves key).
Proof.
  split; [intros s; split; [reflexivity | by left]|]. intros s1 s2 s3 [P1 K1] [P2 K2]. split; [by etrans|].
  intros k [H|H]%K2; [by apply K1 | by right].
Qed.

Lemma kept_moves {A} key (m : M sp A) : moves kept m -> moves (stream_moves key) m.
Proof. intros Hm s. destruct (Hm s) as (Hr & _ & _ & Hp & Hl). split; [by split|]. rewrite Hr. by left. Qed.

Lemma set_nx_keys key ttl now r k : is_Some (snd (set_nx key ttl now r) !! k) -> is_Some (r !! k) \/ Some key = Some k.
Proof.
  unfold set_nx. destruct (_ <=? 0); [by left|]. destruct (decide (k = key)) as [->|Hne]; [by right|].
  destruct (r !! key) as [expiry|]; [destruct (now <? expiry); [by left|]|]; cbn [snd]; rewrite lookup_insert_ne by done; by left.
Qed.

Lemma claim_moves id : moves (stream_moves (Some (dedup_key id))) (claim w cfg id).
Proof.
  intros s. unfold claim. pose proof (set_nx_keys (dedup_key id) (sc_dedup_ttl_seconds cfg) (v_redis_now w (sp_redis_calls s)) (sp_redis s)) as Hk.
  destruct (set_nx _ _ _ _) as [x r]. destruct (v_redis w _) as [[[] e]|]; split; first [split; reflexivity | exact Hk | by left].
Qed.

Lemma stream_process_moves m : moves (stream_moves (stream_event (ft_value m))) (StreamProcessor._process_timed w cfg m).
Proof.
  unfold StreamProcessor._process_timed, timed, StreamProcessor._process_message, stream_event.
  apply moves_bind; [apply _ | | intros b; apply moves_bind; [apply _ | apply kept_moves, kept_inc_by | intros; apply moves_ret, _]].
  apply moves_bind; [apply _ | apply kept_moves, kept_inc_by|]. intros _.
  destruct (v_load w (ft_value m)) as [n|exc]; [|apply kept_moves, kept_fail_stage].
  apply moves_try_else; [apply _ | apply claim_moves | |].
  { intros _. apply moves_bind; [apply _ | apply kept_moves, kept_inc_by | intros; apply moves_ret, _]. }
  intros []; cbn [negb]; [|apply moves_bind; [apply _ | apply kept_moves, kept_inc_by | intros; apply moves_ret, _]].
  apply moves_try_else; [apply _ | apply kept_moves, kept_protected_influx | intros; apply kept_moves, kept_fail_stage|].
  intros _. apply moves_bind; [apply _ | |].
  { intros s. unfold lift. destruct (record _ _ _ _ _) as [x r]. split; [split; reflexivity | by left]. }
  intros _. apply moves_try_else; [apply _ | apply kept_moves, kept_publish | intros; apply kept_moves, kept_fail_stage | intros; apply moves_ret, _].
Qed.

#[export] Program Instance stream_group_service : GroupService (StreamProcessor._process_timed w cfg) := {|
  event_of := stream_event;
  claimed k s := is_Some (sp_redis s !! k);
  settled raw _ s' := stored raw s';
  persists := stream_persists
|}.
Next Obligation. intros m s. apply stream_process_moves. Qed.
Next Obligation. intros m s k. apply stream_process_moves. Qed.
Next Obligation.
  intros m s s' (s1 & Hs1 & ->)%timed_ok. destruct (stream_committed w cfg m s s1 Hacks Hs1) as [Hd|(n & Hn & [[expiry Hr]|(Hp & _ & payload & Hd & Hm)])].
  - left. left. exact Hd.
  - right. exists (dedup_key (te_event_id (nt_event n))). unfold stream_event. by rewrite Hn, Hr.
  - left. right. by exists n, payload.
Qed.

Lemma stored_persists raw s s' : stored raw s -> stream_persists s s' -> stored raw s'.
Proof.
  intros H [Hp [more Hl]]. destruct H as [(m & r & Hin & H)|(n & payload & Hn & Hd & Hin & Hm)].
  - left. exists m, r. split; [|done]. rewrite Hl. apply elem_of_app. by left.
  - right. exists n, payload. destruct Hp as [ps ->]. rewrite Hl. split_and!; [done | done | apply elem_of_app; by left..].
Qed.

End Stream.

(** *** The anomaly detector *)

Section Detector.
  Context (w : ad_world) (cfg : ad_config).
  Hypothesis Hacks : acks_all (y_broker w).

Definition detector_event (raw : string) : option string :=
  match y_load w raw with Ok n => Some (te_event_id (nt_event n)) | Raise _ => None end.

Definition detector_persists (s s' : ad) : Prop := log_grows (ad_kafka s) (ad_kafka s').

(** The record of the detections is on the topic of anomalies. *)
Definition reported (evt : TelemetryEvent) (results : list Detection) (s : ad) : Prop :=
  exists anomaly_id now payload, y_dump w (anomaly_of anomaly_id now evt results) = Ok payload /\
    Message (ac_topic_anomalies cfg) (te_device_id evt) payload ∈ kf_log (ad_kafka s).

(** The three levels ran between [s] and [s'], on the catalog, baselines and
    forests of [s]; what they found is reported by [now]. *)
Definition evaluated (raw : string) (s s' now : ad) : Prop :=
  exists n s0 s1 results, y_load w raw = Ok n /\ detect_levels w cfg (nt_event n) s0 = (Ok results, s1) /\
    ad_catalog s0 = ad_catalog s /\ ad_trackers s0 = ad_trackers s /\ ad_fs s0 = ad_fs s /\ ad_forests s0 = ad_forests s /\
    ad_trackers s' = ad_trackers s1 /\ ad_fs s' = ad_fs s1 /\
    (results = [] \/ reported (nt_event n) results now).

Definition detected (raw : string) (s s' : ad) : Prop :=
  AnomalyDetector.dead_lettered w cfg raw s' \/ evaluated raw s s' s'.

#[local] Instance detector_persists_preorder : PreOrder detector_persists.
Proof. split; [intros s; unfold detector_persists; reflexivity | intros s1 s2 s3 H1 H2; unfold detector_persists in *; by etrans]. Qed.

Definition detector_moves (key : option string) (s s' : ad) : Prop :=
  detector_persists s s' /\ forall k, k ∈ ad_claimed s' -> k ∈ ad_claimed s \/ key = Some k.

#[local] Instance detector_moves_preorder key : PreOrder (detector_moves key).
Proof.
  split; [intros s; split; [reflexivity | by left]|]. intros s1 s2 s3 [P1 K1] [P2 K2]. split; [by etrans|].
  intros k [H|H]%K2; [by apply K1 | by right].
Qed.

Lemma undetected_moves {A} key (m : M ad A) : moves undetected m -> moves (detector_moves key) m.
Proof. intros Hm s. destruct (Hm s) as (_ & Hc & _ & _ & _ & _ & _ & Hl). split; [exact Hl|]. rewrite Hc. by left. Qed.

Lemma detector_process_moves m : moves (detector_moves (detector_event (ft_value m))) (AnomalyDetector._process_timed w cfg m).
Proof.
  unfold AnomalyDetector._process_timed, timed. rewrite process_message_unfold. unfold detector_event.
  apply moves_bind; [apply _ | | intros b; apply moves_bind; [apply _ | apply undetected_moves, undetected_inc | intros; apply moves_ret, _]].
  apply moves_bind; [apply _ | apply undetected_moves, undetected_inc|]. intros _.
  destruct (y_load w (ft_value m)) as [n|exc]; [|apply undetected_moves, undetected_fail_stage].
  apply moves_try_else; [apply _ | | intros; apply moves_ret, _ |].
  - intros s. unfold claim_telemetry_event_once. destruct (y_claim w _) as [[[] e]|]; (split; [unfold detector_persists, log_grows; reflexivity|]); cbn [snd ad_claimed];
      intros k; [|by left|]; (intros [->%elem_of_singleton|H]%elem_of_union; [by right | by left]).
  - intros []; cbn [negb]; [|apply moves_ret, _]. unfold detect_and_report. apply moves_bind; [apply _ | |].
    + intros s. destruct (unclaimed_detect_levels w cfg (nt_event n) s) as (_ & Hc & Hk). split; [|rewrite Hc; by left].
      unfold detector_persists. rewrite Hk. reflexivity.
    + intros [|r rs]; [apply moves_ret, _ | apply undetected_moves, undetected_report].
Qed.

#[export] Program Instance detector_group_service : GroupService (AnomalyDetector._process_timed w cfg) := {|
  event_of := detector_event;
  claimed k s := k ∈ ad_claimed s;
  settled := detected;
  persists := detector_persists
|}.
Next Obligation. intros m s. apply detector_process_moves. Qed.
Next Obligation. intros m s k. apply detector_process_moves. Qed.
Next Obligation.
  intros m s s' (s1 & Hs1 & ->)%timed_ok.
  pose proof (undetected_inc "processing_latency_seconds" s1) as (_ & _ & _ & Ht & Hf & _ & _ & Hl).
  destruct (detector_committed w cfg m s s1 Hacks Hs1) as [Hd|(n & Hn & [Hin|(s0 & s2 & results & Hdet & H1 & H2 & H3 & H4 & H5 & H6 & H7)])].
  - left. left. exact Hd.
  - right. exists (te_event_id (nt_event n)). unfold detector_event. by rewrite Hn.
  - left. right. exists n, s0, s2, results. split_and!; try done; congruence.
Qed.

Lemma reported_persists evt results s s' : reported evt results s -> detector_persists s s' -> reported evt results s'.
Proof.
  intros (id & now & payload & Hd & Hm) [more Hl]. exists id, now, payload. split; [done|]. rewrite Hl. apply elem_of_app. by left.
Qed.

Lemma detected_persists raw s s' now : detected raw s s' -> detector_persists s' now ->
  AnomalyDetector.dead_lettered w cfg raw now \/ evaluated raw s s' now.
Proof.
  intros [(m & r & Hin & H)|(n & s0 & s1 & results & H1 & H2 & H3 & H4 & H5 & H6 & H7 & H8 & H9)] Hp.
  - left. destruct Hp as [more Hl]. exists m, r. split; [|done]. rewrite Hl. apply elem_of_app. by left.
  - right. exists n, s0, s1, results. split_and!; try done. destruct H9; [by left | right; by eapply reported_persists].
Qed.

End Detector.

(** *** The alert service *)

Section Alerting.
  Context (w : als_world) (cfg : als_config) (providers : list provider).
  Hypothesis Hothers : others_keep_alerts (x_pg w).
  Hypothesis Hacks : acks_all (x_broker w).

(** Every rule that was cached at [s] and fires for the anomaly has an alert by
    [now]. *)
Definition alerted (raw : string) (s now : als) : Prop :=
  exists anomaly, x_load_anomaly w raw = Ok anomaly /\
    forall rule, rule ∈ rules_for (ad_organization_id anomaly) (ad_metric anomaly) (as_rules s) -> rule_fires anomaly rule ->
      exists u, pg_uuid_in (x_pg w) (rl_id rule) = Some u /\ has_alert u (anomaly_dedupe_key anomaly) (pg_db (as_pg now)).

(** The event needs no alert by the rules cached at [s], or has one by [now]. *)
Definition shutdown_alerted (raw : string) (s now : als) : Prop :=
  exists n, x_load_event w raw = Ok n /\
    (me_event_type (nm_event n) = "MACHINE_STOPPED" ->
     forall rule, head (rules_for (me_organization_id (nm_event n)) MACHINE_SHUTDOWN_METRIC (as_rules s)) = Some rule ->
       exists u, pg_uuid_in (x_pg w) (rl_id rule) = Some u /\ has_alert u ("shutdown:" +:+ me_machine_id (nm_event n)) (pg_db (as_pg now))).

Lemma anomaly_moves m : moves stays (_process_anomaly w cfg providers m).
Proof.
  unfold _process_anomaly. apply moves_bind; [apply _ | apply stays_inc|]. intros _.
  destruct (x_load_anomaly w (ft_value m)) as [anomaly|exc].
  - apply moves_bind; [apply _ | apply moves_gets, _|]. intros rules.
    apply moves_bind; [apply _ | apply moves_for_return; [apply _ | intros; by apply stays_apply_rule] | intros; apply moves_ret, _].
  - apply moves_bind; [apply _ | apply stays_inc | intros; apply stays_dlq].
Qed.

Lemma device_event_moves m : moves stays (_process_device_event w cfg providers m).
Proof.
  unfold _process_device_event. destruct (x_load_event w (ft_value m)) as [n|exc].
  - cbn zeta. destruct (negb _); [apply moves_ret, _|]. apply moves_bind; [apply _ | apply moves_gets, _|].
    intros [|rule rules]; [apply moves_ret, _|]. apply moves_try_else; [apply _ | by apply stays_create | |].
    + intros exc. apply moves_bind; [apply _ | apply stays_inc | intros; apply stays_dlq].
    + intros r. apply moves_bind; [apply _ | by apply stays_after_create | intros; apply moves_ret, _].
  - apply moves_bind; [apply _ | apply stays_inc | intros; apply stays_dlq].
Qed.

(** A device event that may be committed. *)
Lemma device_event_committed m s s' : _process_device_event w cfg providers m s = (Ok true, s') ->
  AlertService.dead_lettered w cfg (ft_value m) s' \/ shutdown_alerted (ft_value m) s s'.
Proof.
  unfold _process_device_event, shutdown_alerted. destruct (x_load_event w (ft_value m)) as [n|exc].
  2: { erewrite bind_ok by reflexivity. intros H. left. by eapply dlq_committed. }
  cbn zeta. case_bool_decide as Hty; cbn [negb]; [|intros _; right; exists n; by split].
  erewrite bind_ok by reflexivity. intros H.
  destruct (rules_for _ _ (as_rules s)) as [|rule rules] eqn:Er;
    [right; exists n; split; [done|]; intros _ rule; by rewrite Er|].
  revert H. unfold try_else, lift. change (part_get s) with (as_pg s).
  destruct (create_if_due _ _ _ _ _ _ (as_pg s)) as [[r|e] p1] eqn:E.
  - apply create_has_alert in E as (u & Hu & Ha). intros H. right. exists n. split; [done|]. intros _ rule' Hrule'. rewrite Er in Hrule'. injection Hrule' as <-.
    exists u. split; [done|]. match type of H with _ ?s1 = _ =>
      pose proof (stays_after_create w cfg Hothers providers (rl_id rule) r s1) as [Hs _] end.
    unfold mbind, M_bind in H. destruct (after_create _ _ _ _ _ _) as [[[]|e] s2]; [|done]. injection H as <-. by apply Hs.
  - erewrite bind_ok by reflexivity. intros H. left. by eapply dlq_committed.
Qed.

#[export] Program Instance anomaly_group_service : GroupService (_process_anomaly w cfg providers) := {|
  event_of _ := None;
  claimed _ _ := False;
  settled raw s s' := AlertService.dead_lettered w cfg raw s' \/ alerted raw s s';
  persists := stays
|}.
Next Obligation. intros m s. apply anomaly_moves. Qed.
Next Obligation. by left. Qed.
Next Obligation. intros m s s' H. left. destruct (anomaly_committed w cfg providers m s s' Hothers Hacks H) as [|(a & ? & ?)]; [by left | right; by exists a]. Qed.

#[export] Program Instance device_event_group_service : GroupService (_process_device_event w cfg providers) := {|
  event_of _ := None;
  claimed _ _ := False;
  settled raw s s' := AlertService.dead_lettered w cfg raw s' \/ shutdown_alerted raw s s';
  persists := stays
|}.
Next Obligation. intros m s. apply device_event_moves. Qed.
Next Obligation. by left. Qed.
Next Obligation. intros m s s' H. left. by apply device_event_committed. Qed.

Lemma als_dead_lettered_stays raw s s' : AlertService.dead_lettered w cfg raw s -> stays s s' -> AlertService.dead_lettered w cfg raw s'.
Proof. intros (m & r & Hin & H) [_ [more Hl]]. exists m, r. split; [|done]. rewrite Hl. apply elem_of_app. by left. Qed.

Lemma alerted_stays raw s0 s s' : alerted raw s0 s -> stays s s' -> alerted raw s0 s'.
Proof.
  intros (a & Ha & H) [Hs _]. exists a. split; [done|]. intros rule Hin Hf. destruct (H rule Hin Hf) as (u & ? & ?).
  exists u. split; [done|]. by apply Hs.
Qed.

Lemma shutdown_alerted_stays raw s0 s s' : shutdown_alerted raw s0 s -> stays s s' -> shutdown_alerted raw s0 s'.
Proof.
  intros (n & Hn & H) [Hs _]. exists n. split; [done|]. intros Hty rule Hr. destruct (H Hty rule Hr) as (u & ? & ?).
  exists u. split; [done|]. by apply Hs.
Qed.

End Alerting.

(** ** Theorems *)

(** [C11] No reading is passed over.  For every message below the committed offset
    of the stream processor's group, whatever commits failed, members ended
    (inside a message too), restarted or were replaced, claims expired: some call
    on a message of its event either did not ask for the commit, or has its
    message stored for good: in the dead-letter topic, or as the raw point in
    InfluxDB and the processed event in Kafka. *)
Theorem stream_group_stores_readings (w : sp_world) (cfg : sp_config) (Hacks : acks_all (v_broker w)) (g : group sp) :
  group_reachable (StreamProcessor._process_timed w cfg) (GS:=stream_group_service w cfg Hacks) g ->
  forall o raw, Z.of_nat o < gr_committed g -> gr_log g !! o = Some raw ->
  exists c, c ∈ gr_calls g /\ same_event _ (GS:=stream_group_service w cfg Hacks) raw (cl_raw c) /\
    (unfinished c \/ stored w cfg (cl_raw c) (gr_service g)).
Proof.
  intros Hg o raw Ho Hraw. destruct (group_accounts _ g o raw Hg Ho Hraw) as (c & Hin & Hsame & Hp & Hc).
  exists c. split; [done|]. split; [done|]. destruct Hc as [Hc|Hc]; [by left | right; exact (stored_persists w cfg _ _ _ Hc Hp)].
Qed.

Definition commit_failed : exn := OtherError "KafkaException" "commit failed".

Lemma demo_stream_acks : acks_all (v_broker (demo_sp_world (fun _ => demo_delivery) (fun _ => None))).
Proof. by intros n _ _. Qed.

(** The commit of a reading fails and the member is replaced; the next one takes
    the reading for a duplicate, dead-letters a message that does not parse, and
    meets the reading once more. *)
Lemma stream_group_stores_readings_witness :
  let w := demo_sp_world (fun _ => demo_delivery) (fun _ => None) in
  let g := member_run (StreamProcessor._process_timed w demo_sp_config)
      [ActProduce "e"; ActProduce "x"; ActProduce "e"; ActJoin; ActConsume (Some commit_failed); ActLeave; ActJoin;
       ActConsume None; ActConsume None; ActConsume None] (Group [] 0 None demo_sp []) in
  (gr_committed g, cl_offset <$> gr_calls g, length (sp_points (gr_service g)), mg_topic <$> kf_log (sp_kafka (gr_service g))) =
    (3, [0; 0; 1; 2]%nat, 1%nat, ["telemetry.processed"; "dead-letter"]) /\
  exists c, c ∈ gr_calls g /\ same_event _ (GS:=stream_group_service w demo_sp_config demo_stream_acks) "e" (cl_raw c) /\
    (unfinished c \/ stored w demo_sp_config (cl_raw c) (gr_service g)).
Proof.
  intros w g. split; [by vm_compute|]. apply (stream_group_stores_readings w demo_sp_config demo_stream_acks g) with (o := 2%nat).
  - apply member_run_reachable, group_start. intros k. cbn. rewrite lookup_empty. by intros [? ?].
  - by vm_compute.
  - by vm_compute.
Defined.


(** [C12] No reading is left unevaluated.  The same for the anomaly detector: some
    call on a message of the event did not ask for the commit, or its message is
    in the dead-letter topic, or the three levels ran on it in that call and the
    record of what they found is in Kafka for good. *)
Theorem detector_group_evaluates_readings (w : ad_world) (cfg : ad_config) (Hacks : acks_all (y_broker w)) (g : group ad) :
  group_reachable (AnomalyDetector._process_timed w cfg) (GS:=detector_group_service w cfg Hacks) g ->
  forall o raw, Z.of_nat o < gr_committed g -> gr_log g !! o = Some raw ->
  exists c, c ∈ gr_calls g /\ same_event _ (GS:=detector_group_service w cfg Hacks) raw (cl_raw c) /\
    (unfinished c \/ AnomalyDetector.dead_lettered w cfg (cl_raw c) (gr_service g) \/
     evaluated w cfg (cl_raw c) (cl_before c) (cl_after c) (gr_service g)).
Proof.
  intros Hg o raw Ho Hraw. destruct (group_accounts _ g o raw Hg Ho Hraw) as (c & Hin & Hsame & Hp & Hc).
  exists c. split; [done|]. split; [done|]. destruct Hc as [Hc|Hc]; [by left | right; exact (detected_persists w cfg _ _ _ _ Hc Hp)].
Qed.

Lemma demo_detector_acks : acks_all (y_broker demo_ad_world).
Proof. by intros n _ _. Qed.

(** Three readings, of which one comes twice, with a restart in between. *)
Lemma detector_group_evaluates_readings_witness :
  let s := ad_step demo_ad_world demo_ad_config (OpRefresh (Ok [demo_catalog_row "temperature"])) demo_ad in
  let g := member_run (AnomalyDetector._process_timed demo_ad_world demo_ad_config)
      [ActProduce "t1"; ActProduce "t12"; ActProduce "t12"; ActJoin; ActConsume None; ActConsume (Some commit_failed); ActLeave; ActJoin;
       ActConsume None; ActConsume None] (Group [] 0 None s []) in
  (gr_committed g, cl_offset <$> gr_calls g, mg_topic <$> kf_log (ad_kafka (gr_service g))) =
    (3, [0; 1; 1; 2]%nat, ["anomalies.detected"]) /\
  exists c, c ∈ gr_calls g /\ same_event _ (GS:=detector_group_service demo_ad_world demo_ad_config demo_detector_acks) "t12" (cl_raw c) /\
    (unfinished c \/ AnomalyDetector.dead_lettered demo_ad_world demo_ad_config (cl_raw c) (gr_service g) \/
     evaluated demo_ad_world demo_ad_config (cl_raw c) (cl_before c) (cl_after c) (gr_service g)).
Proof.
  intros s g. split; [by vm_compute|].
  apply (detector_group_evaluates_readings demo_ad_world demo_ad_config demo_detector_acks g) with (o := 2%nat).
  - apply member_run_reachable, group_start. intros k Hk. by apply (elem_of_empty (C:=gset string) k).
  - by vm_compute.
  - by vm_compute.
Defined.


Lemma demo_alert_acks : acks_all (x_broker (demo_als_world (demo_alert_env (fun _ d => d)) demo_broker)).
Proof. by intros n _ _. Qed.

