(* ===== verification/ApiCore.v ===== *)
(** [api/pagination.py], [response.py] and [middleware.py]: query parameters,
    the error envelope, the bearer-token and permission dependencies, the
    resolution of the client's address, and the rate limiter. *)

From stdpp Require Import prelude strings pretty gmap.
From Stdlib Require Import ZArith Lia Ascii SpecFloat.
From S2P Require Import Prelude PyFloat Effects PyStr Postgres Auth.

Local Open Scope Z_scope.

(** ** Requests and responses *)

(** [headers.get], [query_params.get], [client.host]; the names of headers are
    matched without case by the framework. *)
Record request := Request {
  rq_header : string -> option string;
  rq_query : string -> option string;
  rq_client : option string;
  rq_request_id : string
}.

(** A JSON value; a date is kept as such instead of its ISO text. *)
#[warnings="-register-all"]
Inductive json :=
  | JS (s : string) | JZ (n : Z) | JF (x : float) | JB (b : bool) | JT (us : Z) | JNone
  | JArr (l : list json)
  | JObj (l : list (string * json)).

Record response := Response { rs_status : Z; rs_body : json; rs_headers : list (string * string) }.

(** [x or y] of a string that may be missing. *)
Definition get_or (o : option string) (default : string) : string :=
  match o with Some s => s | None => default end.

(** ** [pagination.py] *)

Definition DEFAULT_LIMIT : Z := 20.
Definition MAX_LIMIT : Z := 100.

Definition parse_limit_offset (req : request) : Z * Z :=
  let limit := match rq_query req "limit" ≫= parse_int 10 with
               | Some n => if 0 <? n then n else DEFAULT_LIMIT
               | None => DEFAULT_LIMIT
               end in
  let limit := if MAX_LIMIT <? limit then MAX_LIMIT else limit in
  let offset := match rq_query req "offset" ≫= parse_int 10 with
                | Some n => if 0 <=? n then n else 0
                | None => 0
                end in
  (limit, offset).

(** ** [response.py] and the exception handlers of [main.py] *)

Definition api_error (status : Z) (code msg : string) : exn := APIError status code msg [].

(** [internal_error]: the real error goes to the log only. *)
Definition internal_error (_ : exn) : exn := api_error 500 "INTERNAL_ERROR" "an unexpected error occurred".

Definition paginated_response (items : list json) (limit offset : Z) : json :=
  JObj [("items", JArr items); ("limit", JZ limit); ("offset", JZ offset); ("returned_count", JZ (Z.of_nat (length items)))].

Definition error_body (code msg request_id : string) : json :=
  JObj [("error", JObj [("code", JS code); ("message", JS msg); ("request_id", JS request_id)])].

(** [_api_error_handler] and [_unhandled_exception_handler]. *)
Definition error_response (request_id : string) (e : exn) : response :=
  match e with
  | APIError status code msg headers => Response status (error_body code msg request_id) headers
  | _ => Response 500 (error_body "INTERNAL_ERROR" "an unexpected error occurred" request_id) []
  end.

(** [_http_exception_handler], for a route or method that does not exist. *)
Definition http_exception_response (request_id : string) (status : Z) (detail : option string) : response :=
  let code := if status =? 404 then "NOT_FOUND" else "HTTP_ERROR" in
  let msg := if status =? 404 then "no such route" else get_or detail "request failed" in
  Response status (error_body code msg request_id) [].

(** [_validation_exception_handler]. *)
Definition validation_exception_response (request_id : string) : response :=
  Response 400 (error_body "INVALID_BODY" "request body must be valid JSON" request_id) [].

(** [RequestIDMiddleware]: the incoming id if it is not empty, or a fresh one. *)
Definition resolve_request_id (incoming : option string) (uuid4 : string) : string :=
  match incoming with Some s => if bool_decide (s = "") then uuid4 else s | None => uuid4 end.

(** ** Authentication *)

Definition bearer_prefix : string := "Bearer ".

(** [s[len(prefix):]]. *)
Definition drop_string (n : nat) (s : string) : string := of_chars (drop n (chars s)).

Definition _bearer_token (req : request) : string :=
  let h := get_or (rq_header req "Authorization") "" in
  if (str_len bearer_prefix <? str_len h) && startswith h bearer_prefix
  then drop_string (String.length bearer_prefix) h else "".

Section Authentication.
  Variable jwt_decode : string -> string -> Z -> res payload.
  Variable access_secret : string.

(** [make_require_auth]. *)
Definition require_auth (now : Z) (req : request) : res Claims :=
  let token_string := _bearer_token req in
  if bool_decide (token_string = "") then
    Raise (api_error 401 "UNAUTHENTICATED" "missing or malformed Authorization header")
  else match parse_and_validate jwt_decode now token_string access_secret TOKEN_TYPE_ACCESS with
       | Ok claims => Ok claims
       | Raise _ => Raise (api_error 401 "UNAUTHENTICATED" "invalid or expired access token")
       end.

(** [make_require_permission]. *)
Definition require_permission (permission : string) (now : Z) (req : request) : res Claims :=
  res_bind (require_auth now req) (fun claims =>
  if negb (bool_decide (permission = "")) && negb (has_permission (c_permissions claims) permission)
  then Raise (api_error 403 "FORBIDDEN" ("requires permission '" +:+ permission +:+ "'"))
  else Ok claims).

End Authentication.

(** ** The client's address *)

Section ClientIP.
  (** [ipaddress]: addresses with their version, networks, and membership. *)
  Context {ip net : Type}.
  Variable ip_address : string -> option ip.
  Variable ip_version : ip -> Z.
  Variable ip_network : string -> option net.
  Variable ip_in : ip -> net -> bool.

Record ClientIPResolver := mkClientIPResolver { cr_trust_proxy_headers : bool; cr_trusted_proxies : list net }.

(** The loop of [__init__] over the entries. *)
Fixpoint trusted_networks (trusted_cidrs : list string) : res (list net) :=
  match trusted_cidrs with
  | [] => Ok []
  | entry :: rest =>
      let invalid := ValueError ("invalid entry '" +:+ entry +:+ "' in API_TRUSTED_PROXY_CIDRS") in
      res_bind (if has_char "/"%char entry then Ok entry
                else match ip_address entry with
                     | Some i => Ok (if ip_version i =? 4 then entry +:+ "/32" else entry +:+ "/128")
                     | None => Raise invalid
                     end) (fun cidr =>
      match ip_network cidr with
      | None => Raise invalid
      | Some n => res_bind (trusted_networks rest) (fun ns => Ok (n :: ns))
      end)
  end.

Definition new_resolver (trust_proxy_headers : bool) (trusted_cidrs : list string) : res ClientIPResolver :=
  res_bind (trusted_networks trusted_cidrs) (fun ns => Ok (mkClientIPResolver trust_proxy_headers ns)).

Definition _is_trusted_proxy (r : ClientIPResolver) (peer : string) : bool :=
  match ip_address peer with
  | None => false
  | Some i => existsb (ip_in i) (cr_trusted_proxies r)
  end.

Definition resolve_ip (r : ClientIPResolver) (req : request) : string :=
  let peer := get_or (rq_client req) "" in
  if negb (cr_trust_proxy_headers r) || negb (_is_trusted_proxy r peer) then peer
  else
    let fwd := get_or (rq_header req "X-Forwarded-For") "" in
    if bool_decide (fwd = "") then peer
    else
      let first := strip_chars is_space (default "" (head (split_on ","%char fwd))) in
      if bool_decide (first = "") then peer else first.

End ClientIP.

(** ** Rate limiting *)

(** Redis as the limiter uses it: a counter and its expiry for each key. *)
Record limiter := Limiter { lm_calls : nat; lm_keys : gmap string (Z * Z) }.

Record limiter_world := LimiterWorld {
  (** the error of the n-th script, and whether it ran nevertheless *)
  lw_fault : nat -> option (bool * exn);
  (** the clock of Redis, in microseconds, and [time.time()] in whole seconds *)
  lw_redis_now : nat -> Z;
  lw_time : nat -> Z
}.

(** [_RATE_LIMIT_SCRIPT]: [INCR], and [EXPIRE] on the first increment; an expired
    key is not there. *)
Definition rate_limit_script (key : string) (ttl_seconds now : Z) (keys : gmap string (Z * Z)) : Z * gmap string (Z * Z) :=
  match keys !! key with
  | Some (count, expiry) =>
      if now <? expiry then (count + 1, <[key := (count + 1, expiry)]> keys)
      else (1, <[key := (1, now + ttl_seconds * 1000000)]> keys)
  | None => (1, <[key := (1, now + ttl_seconds * 1000000)]> keys)
  end.

Definition window_key (bucket ip : string) (time : Z) : string :=
  "ratelimit:" +:+ bucket +:+ ":" +:+ ip +:+ ":" +:+ pretty (time / 60).

Section RateLimiter.
  Variable lw : limiter_world.

(** [dependency(bucket, limit)]: the headers it sets on the response. *)
Definition rate_limit (bucket : string) (limit : Z) (ip : string) : M limiter (list (string * string)) := fun s =>
  let n := lm_calls s in
  let key := window_key bucket ip (lw_time lw n) in
  let '(count, keys) := rate_limit_script key 60 (lw_redis_now lw n) (lm_keys s) in
  match lw_fault lw n with
  | Some (kept, _) => (Ok [], Limiter (S n) (if (kept : bool) then keys else lm_keys s))
  | None =>
      let s' := Limiter (S n) keys in
      if limit <? count then
        (Raise (APIError 429 "RATE_LIMITED" "too many requests, try again later"
           [("Retry-After", "60"); ("X-RateLimit-Limit", pretty limit); ("X-RateLimit-Remaining", "0")]), s')
      else (Ok [("X-RateLimit-Limit", pretty limit); ("X-RateLimit-Remaining", pretty (Z.max 0 (limit - count)))], s')
  end.

End RateLimiter.

(** ** Lemmas *)

(** *** The limiter *)

(** Requests by bucket, limit and address. *)
Record limited := Limited { li_bucket : string; li_limit : Z; li_ip : string }.

(** [rate_limit] for each request, with what it raises left to the framework. *)
Definition rate_limit_all (lw : limiter_world) (calls : list limited) : M limiter unit :=
  for_each calls (fun c =>
    try_except (rate_limit lw (li_bucket c) (li_limit c) (li_ip c) ;; mret tt) (fun _ => mret tt)).

(** The window a request counts in, when it is the [n]-th. *)
Definition window_of (lw : limiter_world) (n : nat) (c : limited) : string * string * Z :=
  (li_bucket c, li_ip c, lw_time lw n / 60).

Definition windows_of (lw : limiter_world) (calls : list limited) : list (string * string * Z) :=
  imap (window_of lw) calls.

Definition occurrences (x : string * string * Z) (l : list (string * string * Z)) : nat :=
  length (filter (fun y => y = x) l).

Definition key_of (x : string * string * Z) : string :=
  "ratelimit:" +:+ x.1.1 +:+ ":" +:+ x.1.2 +:+ ":" +:+ pretty x.2.

Lemma key_of_inj x y : has_char ":" x.1.1 = false -> has_char ":" y.1.1 = false -> key_of x = key_of y -> x = y.
Proof.
  destruct x as [[b ip] m], y as [[b' ip'] m']. unfold key_of. simpl. intros Hb Hb' Heq.
  injection Heq as Heq. apply (sep_inj ":") in Heq as [-> Heq]; [|done..].
  apply sep_inj_r in Heq as [-> Heq].
  - apply (inj pretty) in Heq. by subst.
  - apply pretty_Z_no_char; [|done]. intros n. unfold pretty_N_char. by repeat case_match.
  - apply pretty_Z_no_char; [|done]. intros n. unfold pretty_N_char. by repeat case_match.
Qed.

Section Limiter.
  Context (lw : limiter_world).
  Hypothesis lw_works : forall n, lw_fault lw n = None.
  (** The requests all fall into less than the sixty seconds a key lives. *)
  Hypothesis lw_span : forall i j, lw_redis_now lw i < lw_redis_now lw j + 60 * 1000000.

(** The counters are the numbers of requests in each window. *)
Definition counts (calls : list limited) (s : limiter) : Prop :=
  lm_calls s = length calls /\
  forall x, has_char ":" x.1.1 = false ->
    match lm_keys s !! key_of x with
    | None => occurrences x (windows_of lw calls) = 0%nat
    | Some (count, expiry) => count = Z.of_nat (occurrences x (windows_of lw calls)) /\
                              exists j, expiry = lw_redis_now lw j + 60 * 1000000
    end.

Lemma occurrences_snoc x calls c :
  occurrences x (windows_of lw (calls ++ [c])) =
  (occurrences x (windows_of lw calls) + (if bool_decide (window_of lw (length calls) c = x) then 1 else 0))%nat.
Proof.
  unfold occurrences, windows_of. rewrite imap_app, filter_app, length_app. simpl. rewrite Nat.add_0_r.
  rewrite filter_cons. case_decide as Hx; case_bool_decide; done.
Qed.

Lemma script_count calls s c :
  counts calls s -> has_char ":" (li_bucket c) = false ->
  let x := window_of lw (length calls) c in
  let '(count, keys) := rate_limit_script (key_of x) 60 (lw_redis_now lw (length calls)) (lm_keys s) in
  count = Z.of_nat (S (occurrences x (windows_of lw calls))) /\
  counts (calls ++ [c]) (Limiter (S (length calls)) keys).
Proof.
  intros [Hn Hkeys] Hc x. pose proof (Hkeys x Hc) as Hx.
  assert (Hcounts : forall count expiry, count = Z.of_nat (S (occurrences x (windows_of lw calls))) ->
      (exists j, expiry = lw_redis_now lw j + 60 * 1000000) ->
      counts (calls ++ [c]) (Limiter (S (length calls)) (<[key_of x := (count, expiry)]> (lm_keys s)))).
  { intros count expiry -> Hj. split; [cbn [lm_calls]; by rewrite length_app, Nat.add_1_r|]. intros y Hy.
    rewrite occurrences_snoc. fold x. cbn [lm_keys].
    destruct (decide (x = y)) as [<-|Hne].
    - rewrite lookup_insert_eq, bool_decide_true by done. split; [lia|done].
    - assert (key_of x <> key_of y) by (intros Heq; apply Hne; by apply key_of_inj).
      rewrite lookup_insert_ne, bool_decide_false, Nat.add_0_r by done. by apply Hkeys. }
  unfold rate_limit_script. destruct (lm_keys s !! key_of x) as [[count expiry]|].
  - destruct Hx as [-> [j Hj]]. rewrite (proj2 (Z.ltb_lt _ _)) by (rewrite Hj; apply lw_span).
    split; [lia|]. apply Hcounts; [lia | by exists j].
  - split; [by rewrite Hx|]. apply Hcounts; [by rewrite Hx | by eexists].
Qed.

Lemma rate_limit_all_counts calls :
  Forall (fun c => has_char ":" (li_bucket c) = false) calls ->
  exists s, rate_limit_all lw calls (Limiter 0 ∅) = (Ok tt, s) /\ counts calls s.
Proof.
  induction calls as [|c calls IH] using rev_ind; intros Hall.
  { exists (Limiter 0 ∅). split; [done|]. split; [done|]. intros x _. cbn [lm_keys]. by rewrite lookup_empty. }
  apply Forall_app in Hall as [Hall Hc]. apply Forall_inv in Hc. destruct (IH Hall) as (s & Hs & Hcounts).
  pose proof (script_count calls s c Hcounts Hc) as Hscript. unfold rate_limit_all in *.
  rewrite for_each_app, Hs. cbn [for_each].
  destruct (rate_limit_script _ _ _ _) as [count keys] eqn:E. destruct Hscript as [_ Hcounts'].
  exists (Limiter (S (length calls)) keys). split; [|exact Hcounts'].
  unfold mbind, M_bind, try_except, rate_limit. rewrite (proj1 Hcounts), lw_works.
  change (window_key (li_bucket c) (li_ip c) (lw_time lw (length calls))) with (key_of (window_of lw (length calls) c)).
  rewrite E. by destruct (_ <? count).
Qed.

End Limiter.

(** *** The permission dependency *)

Lemma require_permission_spec jwt_decode secret p now req :
  match require_permission jwt_decode secret p now req with
  | Ok claims => parse_and_validate jwt_decode now (_bearer_token req) secret TOKEN_TYPE_ACCESS = Ok claims /\
                 (p = "" \/ p ∈ c_permissions claims)
  | Raise e => exists status code msg, e = api_error status code msg /\ (status = 401 \/ status = 403)
  end.
Proof.
  unfold require_permission, require_auth. case_bool_decide as Htok; [do 3 eexists; split; [reflexivity|]; by left|].
  destruct (parse_and_validate _ now _ _ _) as [claims|exc]; [|do 3 eexists; split; [reflexivity|]; by left].
  cbn [res_bind]. destruct (negb _ && negb _) eqn:Hperm.
  - do 3 eexists. split; [reflexivity|]. by right.
  - split; [done|]. apply andb_false_iff in Hperm as [Hn|Hn]; breflect; [by left | right].
    unfold has_permission in Hn. by breflect.
Qed.

(** ** Theorems *)

(** Pages are bounded.  Whatever the query parameters, [parse_limit_offset]
    returns: the limit is between 1 and [MAX_LIMIT] and the offset is not
    negative; a well-formed limit in the range and a well-formed offset are
    taken as they are. *)
Theorem limit_offset_bounds (req : request) :
  let '(limit, offset) := parse_limit_offset req in
  1 <= limit <= MAX_LIMIT /\ 0 <= offset /\
  (forall n, rq_query req "limit" ≫= parse_int 10 = Some n -> 1 <= n <= MAX_LIMIT -> limit = n) /\
  (forall n, rq_query req "offset" ≫= parse_int 10 = Some n -> 0 <= n -> offset = n).
Proof.
  unfold parse_limit_offset, MAX_LIMIT, DEFAULT_LIMIT.
  destruct (rq_query req "limit" ≫= parse_int 10) as [n|], (rq_query req "offset" ≫= parse_int 10) as [m|];
    repeat match goal with |- context [0 <? ?b] => destruct (Z.ltb_spec 0 b)
                         | |- context [0 <=? ?b] => destruct (Z.leb_spec 0 b) end;
    match goal with |- context [100 <? ?b] => destruct (Z.ltb_spec 100 b) end;
    (split_and!; [lia | lia | lia | |]); intros k [= <-]; lia.
Qed.


Lemma split_on_head (sep : ascii) (x rest : string) :
  has_char sep x = false -> head (split_on sep (x +:+ String sep rest)) = Some x.
Proof.
  induction x as [|c x IH]; simpl; intros Hx; [by rewrite Ascii.eqb_refl|].
  apply orb_false_iff in Hx as [Hc Hx]. rewrite Ascii.eqb_sym, Hc. specialize (IH Hx).
  destruct (split_on sep _) as [|w ws]; simpl in *; [done|]. by injection IH as ->.
Qed.

(** Whose address counts.  Without trust in proxy headers, or when the peer is
    no trusted proxy, the client's address is the peer's whatever the request's
    headers say.  Behind a trusted proxy it is the left-most entry of
    X-Forwarded-For, also when the proxy appended the client's address to a
    header the client sent itself: then the client chooses its own address. *)
Theorem client_ip_resolution {ip net : Type} (ip_address : string -> option ip) (ip_in : ip -> net -> bool)
    (r : ClientIPResolver) (req : request) :
  (cr_trust_proxy_headers r = false \/ _is_trusted_proxy ip_address ip_in r (get_or (rq_client req) "") = false ->
     resolve_ip ip_address ip_in r req = get_or (rq_client req) "") /\
  (forall sent client, cr_trust_proxy_headers r = true ->
     _is_trusted_proxy ip_address ip_in r (get_or (rq_client req) "") = true ->
     rq_header req "X-Forwarded-For" = Some (sent +:+ ", " +:+ client) ->
     has_char "," sent = false -> strip_chars is_space sent = sent -> sent <> "" ->
     resolve_ip ip_address ip_in r req = sent).
Proof.
  split.
  - intros H. unfold resolve_ip.
    destruct H as [-> | ->]; [done|]. by rewrite orb_true_r.
  - intros sent client Ht Hp Hh Hcomma Hstrip Hne. unfold resolve_ip. rewrite Ht, Hp, Hh. cbn [negb orb get_or].
    rewrite bool_decide_false by (destruct sent; [done | discriminate]).
    change (sent +:+ ", " +:+ client) with (sent +:+ String "," (" " +:+ client)).
    rewrite split_on_head by done. change (default "" (Some sent)) with sent. cbv zeta. rewrite Hstrip. by rewrite bool_decide_false.
Qed.

(** The proxy 10.0.0.1 appends the address 6.6.6.6 of a client that sent
    "1.1.1.1". *)
Lemma client_ip_resolution_witness :
  let r := mkClientIPResolver (net:=string) true ["10.0.0.1"] in
  let req := Request (fun h => if bool_decide (h = "X-Forwarded-For") then Some "1.1.1.1, 6.6.6.6" else None)
               (fun _ => None) (Some "10.0.0.1") "r" in
  resolve_ip Some (fun a b => bool_decide (a = b)) r req = "1.1.1.1".
Proof.
  cbn zeta.
  apply (proj2 (client_ip_resolution Some (fun a b => bool_decide (a = b)) (mkClientIPResolver (net:=string) true ["10.0.0.1"])
    (Request (fun h => if bool_decide (h = "X-Forwarded-For") then Some "1.1.1.1, 6.6.6.6" else None)
               (fun _ => None) (Some "10.0.0.1") "r")) "1.1.1.1" "6.6.6.6"); try by vm_compute.
Defined.

(** The redis clock of the example stays within the minute. *)
Definition slow_limiter_world : limiter_world := LimiterWorld (fun _ => None) (fun _ => 0) (fun _ => 59).

