(* ===== verification/ApiTenant.v ===== *)
(** [api/handlers_factories.py] and [handlers_devices.py]: the tables of
    [000001_core_hierarchy] and [000003_device_credentials], and the handlers
    that read and write them on behalf of one organization. *)

From stdpp Require Import prelude strings sorting.
From Stdlib Require Import ZArith Lia Ascii SpecFloat.
From S2P Require Import Prelude PyFloat Effects PyStr Postgres Auth ApiCore.

Local Open Scope Z_scope.

(** ** Tables *)

Record factory_row := FactoryRow {
  fa_id : string; fa_organization_id : string; fa_name : string; fa_city : option string; fa_country : string
}.
Record line_row := LineRow { ln_id : string; ln_factory_id : string; ln_name : string }.
Record machine_row := MachineRow {
  mc_id : string; mc_production_line_id : string; mc_name : string; mc_machine_type : string; mc_status : string
}.
Record device_row := DeviceRow {
  dv_id : string; dv_machine_id : string; dv_organization_id : string; dv_serial_number : string;
  dv_status : string; dv_firmware_version : option string; dv_decommissioned_at : option Z
}.
Record sensor_row := SensorRow {
  sn_id : string; sn_device_id : string; sn_metric : string; sn_unit : string;
  sn_min_operating_value : option float; sn_max_operating_value : option float
}.
Record credential_row := CredentialRow {
  cd_id : string; cd_device_id : string; cd_credential_type : string; cd_credential_hash : string;
  cd_is_active : bool; cd_rotated_at : option Z
}.

Record tenant_db := TenantDb {
  td_factories : list factory_row; td_lines : list line_row; td_machines : list machine_row;
  td_devices : list device_row; td_sensors : list sensor_row; td_credentials : list credential_row
}.

Definition set_devices (l : list device_row) (d : tenant_db) : tenant_db :=
  TenantDb (td_factories d) (td_lines d) (td_machines d) l (td_sensors d) (td_credentials d).
Definition set_credentials (l : list credential_row) (d : tenant_db) : tenant_db :=
  TenantDb (td_factories d) (td_lines d) (td_machines d) (td_devices d) (td_sensors d) l.

(** ** The joins of the queries *)

Definition factory_in (o : string) (d : tenant_db) (factory_id : string) : bool :=
  existsb (fun f => bool_decide (fa_id f = factory_id) && bool_decide (fa_organization_id f = o)) (td_factories d).

Definition line_in (o : string) (d : tenant_db) (line_id : string) : bool :=
  existsb (fun l => bool_decide (ln_id l = line_id) && factory_in o d (ln_factory_id l)) (td_lines d).

Definition machine_in (o : string) (d : tenant_db) (machine_id : string) : bool :=
  existsb (fun m => bool_decide (mc_id m = machine_id) && line_in o d (mc_production_line_id m)) (td_machines d).

Definition device_in (o : string) (d : tenant_db) (device_id : string) : bool :=
  existsb (fun v => bool_decide (dv_id v = device_id) && bool_decide (dv_organization_id v = o)) (td_devices d).

(** ** JSON of the rows *)

Definition factory_json (r : factory_row) : json :=
  JObj [("id", JS (fa_id r)); ("name", JS (fa_name r));
        ("city", match fa_city r with Some c => JS c | None => JNone end); ("country", JS (fa_country r))].
Definition line_json (r : line_row) : json := JObj [("id", JS (ln_id r)); ("name", JS (ln_name r))].
Definition machine_json (r : machine_row) : json :=
  JObj [("id", JS (mc_id r)); ("name", JS (mc_name r)); ("machine_type", JS (mc_machine_type r)); ("status", JS (mc_status r))].
Definition _device_dto (r : device_row) : json :=
  JObj [("id", JS (dv_id r)); ("serial_number", JS (dv_serial_number r)); ("status", JS (dv_status r));
        ("firmware_version", match dv_firmware_version r with Some v => JS v | None => JNone end)].
Definition sensor_json (r : sensor_row) : json :=
  JObj [("id", JS (sn_id r)); ("metric", JS (sn_metric r)); ("unit", JS (sn_unit r));
        ("min_operating_value", JF (default fzero (sn_min_operating_value r)));
        ("max_operating_value", JF (default fzero (sn_max_operating_value r)))].

(** A plain [list] of children: not paged. *)
Definition children (out : list json) : json := paginated_response out (Z.of_nat (length out)) 0.

(** ** Statements *)

(** [INSERT INTO devices] and [INSERT INTO device_credentials], one transaction;
    the index [idx_device_credentials_one_active] and the foreign keys are the
    server's. *)
Definition insert_device (machine_id o serial firmware hash : string) (credential_uuid : string)
  : statement tenant_db device_row := fun now uuid d =>
  if bool_decide (serial ∈ (dv_serial_number <$> td_devices d)) then (Raise (UniqueViolation "devices_serial_number_key"), d)
  else if bool_decide (uuid ∈ (dv_id <$> td_devices d)) then (Raise (UniqueViolation "devices_pkey"), d)
  else if negb (bool_decide (machine_id ∈ (mc_id <$> td_machines d))) then (Raise (OtherError "ForeignKeyViolation" machine_id), d)
  else
    let v := DeviceRow uuid machine_id o serial "PROVISIONED" (Some firmware) None in
    let c := CredentialRow credential_uuid uuid "shared_secret" hash true None in
    if existsb (fun c => bool_decide (cd_device_id c = uuid) && cd_is_active c) (td_credentials d)
    then (Raise (UniqueViolation "idx_device_credentials_one_active"), d)
    else (Ok v, set_credentials (td_credentials d ++ [c]) (set_devices (td_devices d ++ [v]) d)).

Definition deactivate (device_id : string) (c : credential_row) : credential_row :=
  if bool_decide (cd_device_id c = device_id) && cd_is_active c
  then CredentialRow (cd_id c) (cd_device_id c) (cd_credential_type c) (cd_credential_hash c) false (cd_rotated_at c)
  else c.

(** The transaction of [rotate_credentials]. *)
Definition rotate (device_id hash : string) : statement tenant_db unit := fun now uuid d =>
  if negb (bool_decide (device_id ∈ (dv_id <$> td_devices d))) then (Raise (OtherError "ForeignKeyViolation" device_id), d)
  else (Ok tt, set_credentials (map (deactivate device_id) (td_credentials d) ++
           [CredentialRow uuid device_id "shared_secret" hash true (Some now)]) d).

Definition decommissioned (now : Z) (v : device_row) : device_row :=
  DeviceRow (dv_id v) (dv_machine_id v) (dv_organization_id v) (dv_serial_number v) "DECOMMISSIONED"
    (dv_firmware_version v) (Some now).

(** [UPDATE devices ... WHERE id = %s AND organization_id = %s]: the row count. *)
Definition decommission (device_id o : string) : statement tenant_db Z := fun now _ d =>
  let hit v := bool_decide (dv_id v = device_id /\ dv_organization_id v = o) in
  (Ok (Z.of_nat (length (filter (fun v => hit v = true) (td_devices d)))),
   set_devices (map (fun v => if hit v then decommissioned now v else v) (td_devices d)) d).

(** [LIMIT %s OFFSET %s]; both are [bigint]s. *)
Definition page {A} (limit offset : Z) (l : list A) : res (list A) :=
  if (9223372036854775807 <? offset) then Raise (OtherError "NumericValueOutOfRange" "bigint out of range")
  else Ok (take (Z.to_nat limit) (drop (Z.to_nat offset) l)).

Definition select_res {DB A} (f : DB -> res A) : statement DB A := fun _ _ d => (f d, d).

Section Handlers.
  Variable env : pg_env tenant_db.
  (** The collation of [ORDER BY] on text. *)
  Variable collate : string -> string -> bool.
  (** [secrets.token_hex(24)], and bcrypt. *)
  Variable token_hex : nat -> string.
  Variable hashpw : list Z -> string.

Definition by_text {A} (key : A -> string) (a b : A) : Prop := collate (key a) (key b) = true.
#[local] Instance by_text_dec {A} (key : A -> string) a b : Decision (by_text key a b) :=
  decide (collate (key a) (key b) = true).
Definition ordered {A} (key : A -> string) (l : list A) : list A := merge_sort (by_text key) l.

(** [try: ... except Exception as exc: raise internal_error(exc)]. *)
Definition or_internal {S A} (m : M S A) : M S A := try_except m (fun exc => raise (internal_error exc)).

Definition not_found (what : string) : exn := api_error 404 "NOT_FOUND" (what +:+ " does not exist").

(** [if row is None: raise APIError(404, ...)]. *)
Definition found {A} (what : string) (row : option A) : M (pg tenant_db) A :=
  match row with Some r => mret r | None => raise (not_found what) end.

(** [SELECT EXISTS(... id = %s AND organization_id = %s)], [p] being the join. *)
Definition exists_in (p : string -> tenant_db -> string -> bool) (id o : string) : M (pg tenant_db) bool :=
  execute env (with_uuid env id (fun i => with_uuid env o (fun o => select (fun d => p o d i)))).

(** *** [handlers_factories.py] *)

Definition list_factories (o : string) (req : request) : M (pg tenant_db) json :=
  let '(limit, offset) := parse_limit_offset req in
  rows ← or_internal (execute env (with_uuid env o (fun o => select_res (fun d =>
    page limit offset (ordered fa_name (filter (fun f => fa_organization_id f = o) (td_factories d)))))));
  mret (paginated_response (factory_json <$> (rows : list factory_row)) limit offset).

Definition get_factory (o id : string) : M (pg tenant_db) json :=
  row ← execute env (with_uuid env id (fun i => with_uuid env o (fun o => select (fun d =>
    head (filter (fun f => fa_id f = i /\ fa_organization_id f = o) (td_factories d))))));
  r ← found "factory" row;
  mret (factory_json r).

Definition list_production_lines (o id : string) : M (pg tenant_db) json :=
  ok ← exists_in factory_in id o;
  if negb (ok : bool) then raise (not_found "factory")
  else
    rows ← execute env (with_uuid env id (fun i => select (fun d =>
      ordered ln_name (filter (fun l => ln_factory_id l = i) (td_lines d)))));
    mret (children (line_json <$> (rows : list line_row))).

Definition get_machine (o id : string) : M (pg tenant_db) json :=
  row ← execute env (with_uuid env id (fun i => with_uuid env o (fun o => select (fun d =>
    head (filter (fun m => mc_id m = i /\ line_in o d (mc_production_line_id m) = true) (td_machines d))))));
  r ← found "machine" row;
  mret (machine_json r).

Definition list_line_machines (o id : string) : M (pg tenant_db) json :=
  ok ← exists_in line_in id o;
  if negb (ok : bool) then raise (not_found "production line")
  else
    rows ← execute env (with_uuid env id (fun i => select (fun d =>
      ordered mc_name (filter (fun m => mc_production_line_id m = i) (td_machines d)))));
    mret (children (machine_json <$> (rows : list machine_row))).

Definition list_machine_devices (o id : string) : M (pg tenant_db) json :=
  rows ← execute env (with_uuid env id (fun i => with_uuid env o (fun o => select (fun d =>
    ordered dv_serial_number (filter (fun v => dv_machine_id v = i /\ machine_in o d (dv_machine_id v) = true) (td_devices d))))));
  mret (children (_device_dto <$> (rows : list device_row))).

(** *** [handlers_devices.py] *)

Definition list_devices (o : string) (req : request) : M (pg tenant_db) json :=
  let '(limit, offset) := parse_limit_offset req in
  let status_filter := get_or (rq_query req "status") "" in
  rows ← or_internal (execute env (with_uuid env o (fun o => select_res (fun d =>
    page limit offset (ordered dv_serial_number
      (filter (fun v => dv_organization_id v = o /\ (status_filter = "" \/ dv_status v = status_filter)) (td_devices d)))))));
  mret (paginated_response (_device_dto <$> (rows : list device_row)) limit offset).

Definition get_device (o id : string) : M (pg tenant_db) json :=
  row ← execute env (with_uuid env id (fun i => with_uuid env o (fun o => select (fun d =>
    head (filter (fun v => dv_id v = i /\ dv_organization_id v = o) (td_devices d))))));
  r ← found "device" row;
  mret (_device_dto r).

Definition list_device_sensors (o id : string) : M (pg tenant_db) json :=
  ok ← exists_in device_in id o;
  if negb (ok : bool) then raise (not_found "device")
  else
    rows ← execute env (with_uuid env id (fun i => select (fun d =>
      ordered sn_metric (filter (fun s => sn_device_id s = i) (td_sensors d)))));
    mret (children (sensor_json <$> (rows : list sensor_row))).

(** [ProvisionDeviceRequest]. *)
Record ProvisionDeviceRequest := mkProvisionDeviceRequest {
  pr_machine_id : string; pr_serial_number : string; pr_firmware_version : string
}.

(** The code points of an ASCII text. *)
Definition code_points (s : string) : list Z := code <$> chars s.

(** [secrets.token_hex(24)] and [auth.hash_password(secret)]. *)
Definition new_secret : M (pg tenant_db) (string * string) := fun s =>
  let secret := token_hex (pg_count s) in
  (match hash_password hashpw (code_points secret) with Ok h => Ok (secret, h) | Raise e => Raise e end, s).

Definition provision_device (o : string) (req : ProvisionDeviceRequest) : M (pg tenant_db) json :=
  if bool_decide (pr_machine_id req = "") || bool_decide (pr_serial_number req = "")
  then raise (api_error 400 "VALIDATION_ERROR" "machine_id and serial_number are required")
  else
    ok ← exists_in machine_in (pr_machine_id req) o;
    if negb (ok : bool) then raise (api_error 400 "VALIDATION_ERROR" "machine_id does not belong to your organization")
    else
      '(secret, password_hash) ← new_secret;
      let firmware := if bool_decide (pr_firmware_version req = "") then "unknown" else pr_firmware_version req in
      row ← try_except
        (s ← get;
         execute env (with_uuid env (pr_machine_id req) (fun m => with_uuid env o (fun o =>
           insert_device m o (pr_serial_number req) firmware password_hash (pg_uuid env (S (pg_count s)))))))
        (fun exc => match exc with
                    | UniqueViolation _ => raise (api_error 409 "CONFLICT" "a device with this serial_number already exists")
                    | _ => raise (internal_error exc)
                    end);
      mret (JObj [("device", _device_dto row); ("secret", JS secret)]).

Definition rotate_credentials (o id : string) : M (pg tenant_db) json :=
  ok ← exists_in device_in id o;
  if negb (ok : bool) then raise (not_found "device")
  else
    '(secret, password_hash) ← new_secret;
    or_internal (execute env (with_uuid env id (fun i => rotate i password_hash))) ;;
    mret (JObj [("secret", JS secret)]).

Definition decommission_device (o id : string) : M (pg tenant_db) json :=
  n ← execute env (with_uuid env id (fun i => with_uuid env o (fun o => decommission i o)));
  if bool_decide ((n : Z) = 0) then raise (not_found "device") else mret JNone.

(** [_run_device_gauge_refresher]: the counts by status, over all
    organizations; a status of the list that no device has is set to zero. *)
Definition device_statuses : list string := ["PROVISIONED"; "ACTIVE"; "OFFLINE"; "MAINTENANCE"; "DECOMMISSIONED"].

Definition device_gauges : M (pg tenant_db) (list (string * Z)) :=
  rows ← execute env (select (fun d =>
    (fun st => (st, Z.of_nat (length (filter (fun v => dv_status v = st) (td_devices d))))) <$>
    remove_dups (dv_status <$> td_devices d)));
  mret ((rows : list (string * Z)) ++
        ((fun st => (st, 0)) <$> filter (fun st => st ∉ (rows : list (string * Z)).*1) device_statuses)).

(** A tick whose query fails leaves the gauges as they are. *)
Definition device_gauge_tick : M (pg tenant_db) (option (list (string * Z))) :=
  try_except (gauges ← device_gauges; mret (Some gauges)) (fun _ => mret None).

End Handlers.

(** ** What an organization owns *)

Definition restrict (o : string) (d : tenant_db) : tenant_db :=
  TenantDb (filter (fun f => fa_organization_id f = o) (td_factories d))
    (filter (fun l => factory_in o d (ln_factory_id l) = true) (td_lines d))
    (filter (fun m => line_in o d (mc_production_line_id m) = true) (td_machines d))
    (filter (fun v => dv_organization_id v = o \/ machine_in o d (dv_machine_id v) = true) (td_devices d))
    (filter (fun s => device_in o d (sn_device_id s) = true) (td_sensors d))
    [].

(** The reading endpoints. *)
Inductive tenant_read :=
  | ReadFactories (req : request) | ReadFactory (id : string) | ReadLines (id : string)
  | ReadMachine (id : string) | ReadLineMachines (id : string) | ReadMachineDevices (id : string)
  | ReadDevices (req : request) | ReadDevice (id : string) | ReadSensors (id : string).

Definition run_read (env : pg_env tenant_db) (collate : string -> string -> bool) (o : string) (r : tenant_read)
  : M (pg tenant_db) json :=
  match r with
  | ReadFactories req => list_factories env collate o req
  | ReadFactory id => get_factory env o id
  | ReadLines id => list_production_lines env collate o id
  | ReadMachine id => get_machine env o id
  | ReadLineMachines id => list_line_machines env collate o id
  | ReadMachineDevices id => list_machine_devices env collate o id
  | ReadDevices req => list_devices env collate o req
  | ReadDevice id => get_device env o id
  | ReadSensors id => list_device_sensors env collate o id
  end.

(** ** Lemmas *)

Lemma existsb_filter {A} (p : A -> bool) (Q : A -> Prop) `{!forall x, Decision (Q x)} (l : list A) :
  (forall x, p x = true -> Q x) -> existsb p (filter Q l) = existsb p l.
Proof.
  intros Hpq. induction l as [|x l IH]; [done|]. rewrite filter_cons. simpl. case_decide as HQ; simpl; rewrite IH; [done|].
  destruct (p x) eqn:E; [by destruct (HQ (Hpq x E)) | done].
Qed.

Lemma existsb_ext' {A} (p q : A -> bool) (l : list A) : (forall x, p x = q x) -> existsb p l = existsb q l.
Proof. intros H. induction l as [|x l IH]; simpl; [done | by rewrite H, IH]. Qed.

Lemma factory_in_restrict o d x : factory_in o (restrict o d) x = factory_in o d x.
Proof. unfold factory_in, restrict. simpl. apply existsb_filter. intros f [_ H]%andb_true_iff. by breflect. Qed.

Lemma line_in_restrict o d x : line_in o (restrict o d) x = line_in o d x.
Proof.
  unfold line_in. rewrite (existsb_ext' _ (fun l => bool_decide (ln_id l = x) && factory_in o d (ln_factory_id l)))
    by (intros; by rewrite factory_in_restrict).
  unfold restrict. cbn [td_lines]. apply existsb_filter. by intros l [_ H]%andb_true_iff.
Qed.

Lemma machine_in_restrict o d x : machine_in o (restrict o d) x = machine_in o d x.
Proof.
  unfold machine_in. rewrite (existsb_ext' _ (fun m => bool_decide (mc_id m = x) && line_in o d (mc_production_line_id m)))
    by (intros; by rewrite line_in_restrict).
  unfold restrict. cbn [td_machines]. apply existsb_filter. by intros l [_ H]%andb_true_iff.
Qed.

Lemma device_in_restrict o d x : device_in o (restrict o d) x = device_in o d x.
Proof.
  unfold device_in, restrict. cbn [td_devices]. apply existsb_filter. intros v [_ H]%andb_true_iff. left. by breflect.
Qed.

(** A filter that already implies ownership. *)
Lemma filter_owned {A} (P Q : A -> Prop) `{!forall x, Decision (P x)} `{!forall x, Decision (Q x)} (l : list A) :
  (forall x, P x -> Q x) -> filter P (filter Q l) = filter P l.
Proof. intros Hpq. rewrite filter_filter_and. apply list_filter_iff. naive_solver. Qed.

Section Isolation.
  Context (env : pg_env tenant_db) (collate : string -> string -> bool) (o u : string).
  Hypothesis calm : quiet env.
  Hypothesis org : pg_uuid_in env o = Some u.

(** A statement with the organization as parameter, on the whole database and
    on the organization's part of it. *)
Lemma execute_restrict {A} (stmt : statement tenant_db A) n d :
  (forall now uuid, fst (stmt now uuid d) = fst (stmt now uuid (restrict u d)) /\
     snd (stmt now uuid d) = d /\ snd (stmt now uuid (restrict u d)) = restrict u d) ->
  exists r, execute env stmt (Pg n d) = (r, Pg (S n) d) /\
            execute env stmt (Pg n (restrict u d)) = (r, Pg (S n) (restrict u d)).
Proof.
  intros Hstmt. rewrite !(execute_quiet env) by done. cbn [pg_count pg_db].
  destruct (Hstmt (pg_now env n) (pg_uuid env n)) as (H1 & H2 & H3).
  destruct (stmt _ _ d) as [r1 d1]. destruct (stmt _ _ (restrict u d)) as [r2 d2]. simpl in *. subst. by eexists.
Qed.

(** The result of a read does not depend on the rest of the database. *)
Definition isolated {A} (m : M (pg tenant_db) A) : Prop := forall n d, exists r k,
  m (Pg n d) = (r, Pg k d) /\ m (Pg n (restrict u d)) = (r, Pg k (restrict u d)).

Lemma isolated_select_res {A} id (f : string -> tenant_db -> res A) :
  (forall i d, f i d = f i (restrict u d)) ->
  isolated (execute env (with_uuid env id (fun i => select_res (f i)))).
Proof.
  intros Hf n d. destruct (execute_restrict (with_uuid env id (fun i => select_res (f i))) n d) as (r & H1 & H2); [|by exists r, (S n)].
  intros now uuid. unfold with_uuid, select_res. destruct (pg_uuid_in env id); [|done]. by rewrite <- Hf.
Qed.

Lemma isolated_select {A} id (f : string -> tenant_db -> A) :
  (forall i d, f i d = f i (restrict u d)) ->
  isolated (execute env (with_uuid env id (fun i => select (f i)))).
Proof.
  intros Hf. apply (isolated_select_res id (fun i d => Ok (f i d))). intros i d. by rewrite <- Hf.
Qed.

Lemma isolated_select_org {A} id (f : string -> string -> tenant_db -> A) :
  (forall i d, f i u d = f i u (restrict u d)) ->
  isolated (execute env (with_uuid env id (fun i => with_uuid env o (fun o => select (f i o))))).
Proof.
  intros Hf n d.
  destruct (execute_restrict (with_uuid env id (fun i => with_uuid env o (fun o => select (f i o)))) n d) as (r & H1 & H2);
    [|by exists r, (S n)].
  intros now uuid. unfold with_uuid, select. rewrite org. destruct (pg_uuid_in env id); [|done]. by rewrite <- Hf.
Qed.

Lemma isolated_bind {A B} (m : M (pg tenant_db) A) (k : A -> M (pg tenant_db) B) :
  isolated m -> (forall a, isolated (k a)) -> isolated (m ≫= k).
Proof.
  intros Hm Hk n d. destruct (Hm n d) as (r & c & H1 & H2). unfold mbind, M_bind. rewrite H1, H2.
  destruct r as [a|e]; [apply Hk | by exists (Raise e), c].
Qed.

Lemma isolated_ret {A} (a : A) : isolated (mret a).
Proof. intros n d. by exists (Ok a), n. Qed.
Lemma isolated_raise {A} e : isolated (raise (A:=A) e).
Proof. intros n d. by exists (Raise e), n. Qed.

Lemma isolated_or_internal {A} (m : M (pg tenant_db) A) : isolated m -> isolated (or_internal m).
Proof.
  intros Hm n d. destruct (Hm n d) as (r & c & H1 & H2). unfold or_internal, try_except, raise. rewrite H1, H2.
  destruct r as [a|e]; by do 2 eexists.
Qed.

(** Children of a row that was just found to belong to the organization. *)
Lemma isolated_children {A B} (p : string -> tenant_db -> string -> bool) id e
    (f : string -> tenant_db -> list A) (k : list A -> B) :
  (forall d x, p u (restrict u d) x = p u d x) ->
  (forall i d, p u d i = true -> f i d = f i (restrict u d)) ->
  isolated (ok ← exists_in env p id o;
            if negb (ok : bool) then raise e
            else rows ← execute env (with_uuid env id (fun i => select (f i))); mret (k rows)).
Proof.
  intros Hp Hf n d. unfold exists_in.
  assert (Hex : forall d, execute env (with_uuid env id (fun i => with_uuid env o (fun o => select (fun d => p o d i)))) (Pg n d) =
      (match pg_uuid_in env id with Some i => Ok (p u d i) | None => Raise (OtherError "InvalidTextRepresentation" id) end, Pg (S n) d)).
  { intros d0. rewrite (execute_quiet env) by done. unfold with_uuid. rewrite org. by destruct (pg_uuid_in env id). }
  unfold mbind at 1, M_bind at 1. unfold mbind at 2, M_bind at 2. rewrite !Hex.
  destruct (pg_uuid_in env id) as [i|] eqn:Hi; [|by do 2 eexists]. rewrite Hp.
  destruct (p u d i) eqn:E; cbn [negb]; [|by do 2 eexists].
  assert (Hrows : forall d, execute env (with_uuid env id (fun i => select (f i))) (Pg (S n) d) = (Ok (f i d), Pg (S (S n)) d)).
  { intros d0. rewrite (execute_quiet env) by done. unfold with_uuid. by rewrite Hi. }
  erewrite !bind_ok by apply Hrows. rewrite <- (Hf i d E). by do 2 eexists.
Qed.

Lemma isolated_found {A B} what (row : option A) (k : A -> M (pg tenant_db) B) :
  (forall a, isolated (k a)) -> isolated (r ← found what row; k r).
Proof. intros Hk. destruct row as [a|]; [apply Hk | apply isolated_raise]. Qed.

(** The pages of the two paged lists. *)
Lemma isolated_page {A} collate' (key : A -> string) limit offset (f : string -> tenant_db -> list A) :
  (forall d, f u d = f u (restrict u d)) ->
  isolated (execute env (with_uuid env o (fun o => select_res (fun d => page limit offset (ordered collate' key (f o d)))))).
Proof.
  intros Hf n d.
  destruct (execute_restrict (with_uuid env o (fun o => select_res (fun d => page limit offset (ordered collate' key (f o d))))) n d)
    as (r & H1 & H2); [|by exists r, (S n)].
  intros now uuid. unfold with_uuid, select_res. rewrite org. simpl. by rewrite <- Hf.
Qed.

Lemma run_read_isolated r : isolated (run_read env collate o r).
Proof.
  destruct r; cbn [run_read].
  - unfold list_factories. destruct (parse_limit_offset req) as [limit offset].
    apply isolated_bind; [|intros; apply isolated_ret]. apply isolated_or_internal.
    apply (isolated_page _ _ _ _ (fun o d => filter (fun f => fa_organization_id f = o) (td_factories d))).
    intros d. simpl. by rewrite filter_owned.
  - apply isolated_bind; [|intros; apply isolated_found; intros; apply isolated_ret].
    apply (isolated_select_org id (fun i o d => head (filter (fun f => fa_id f = i /\ fa_organization_id f = o) (td_factories d)))).
    intros i d. simpl. rewrite filter_owned; [done | naive_solver].
  - unfold list_production_lines.
    apply (isolated_children factory_in id _ (fun i d => ordered collate ln_name (filter (fun l => ln_factory_id l = i) (td_lines d)))
      (fun rows => children (line_json <$> rows))); [apply factory_in_restrict|].
    intros i d Hi. simpl. rewrite filter_owned; [done|]. by intros l ->.
  - apply isolated_bind; [|intros; apply isolated_found; intros; apply isolated_ret].
    apply (isolated_select_org id (fun i o d => head (filter (fun m => mc_id m = i /\ line_in o d (mc_production_line_id m) = true) (td_machines d)))).
    intros i d. simpl. f_equal. rewrite filter_filter_and. apply list_filter_iff. intros m. rewrite line_in_restrict. tauto.
  - unfold list_line_machines.
    apply (isolated_children line_in id _ (fun i d => ordered collate mc_name (filter (fun m => mc_production_line_id m = i) (td_machines d)))
      (fun rows => children (machine_json <$> rows))); [apply line_in_restrict|].
    intros i d Hi. simpl. rewrite filter_owned; [done|]. by intros l ->.
  - apply isolated_bind; [|intros; apply isolated_ret].
    apply (isolated_select_org id (fun i o d => ordered collate dv_serial_number
      (filter (fun v => dv_machine_id v = i /\ machine_in o d (dv_machine_id v) = true) (td_devices d)))).
    intros i d. simpl. f_equal. rewrite filter_filter_and. apply list_filter_iff. intros v. rewrite machine_in_restrict. tauto.
  - unfold list_devices. destruct (parse_limit_offset req) as [limit offset].
    apply isolated_bind; [|intros; apply isolated_ret]. apply isolated_or_internal.
    apply (isolated_page _ _ _ _ (fun o d => filter (fun v => dv_organization_id v = o /\
      (get_or (rq_query req "status") "" = "" \/ dv_status v = get_or (rq_query req "status") "")) (td_devices d))).
    intros d. simpl. rewrite filter_owned; [done | naive_solver].
  - apply isolated_bind; [|intros; apply isolated_found; intros; apply isolated_ret].
    apply (isolated_select_org id (fun i o d => head (filter (fun v => dv_id v = i /\ dv_organization_id v = o) (td_devices d)))).
    intros i d. simpl. rewrite filter_owned; [done | naive_solver].
  - unfold list_device_sensors.
    apply (isolated_children device_in id _ (fun i d => ordered collate sn_metric (filter (fun v => sn_device_id v = i) (td_sensors d)))
      (fun rows => children (sensor_json <$> rows))); [apply device_in_restrict|].
    intros i d Hi. simpl. rewrite filter_owned; [done|]. by intros l ->.
Qed.

End Isolation.

(** *** Credentials *)

Definition credentials_of (id : string) (d : tenant_db) : list credential_row :=
  filter (fun c => cd_device_id c = id) (td_credentials d).

Definition active_credentials (id : string) (d : tenant_db) : list credential_row :=
  filter (fun c => cd_is_active c = true) (credentials_of id d).

Lemma deactivate_other i c : cd_device_id c <> i -> deactivate i c = c.
Proof. intros Hne. unfold deactivate. by rewrite bool_decide_false. Qed.

Lemma deactivate_device i c : cd_device_id (deactivate i c) = cd_device_id c.
Proof. unfold deactivate. by destruct (bool_decide _ && cd_is_active c). Qed.

Lemma deactivate_inactive i c : cd_device_id c = i -> cd_is_active (deactivate i c) = false.
Proof. intros Hi. unfold deactivate. rewrite bool_decide_true by done. by destruct (cd_is_active c) eqn:E. Qed.

Lemma filter_deactivate i id (l : list credential_row) :
  filter (fun c => cd_device_id c = id) (map (deactivate i) l) =
  map (deactivate i) (filter (fun c => cd_device_id c = id) l).
Proof.
  induction l as [|c l IH]; [done|]. simpl. rewrite !filter_cons, deactivate_device, IH. by case_decide.
Qed.

Lemma rotate_credentials_of i id hash now uuid d d' :
  rotate i hash now uuid d = (Ok tt, d') ->
  credentials_of id d' =
  if bool_decide (id = i) then map (deactivate i) (credentials_of i d) ++ [CredentialRow uuid i "shared_secret" hash true (Some now)]
  else credentials_of id d.
Proof.
  unfold rotate. destruct (negb _); [done|]. intros [= <-]. unfold credentials_of. cbn [td_credentials set_credentials].
  rewrite filter_app, filter_deactivate, filter_cons. cbn [cd_device_id]. case_bool_decide as Hid.
  - subst id. by rewrite decide_True.
  - rewrite decide_False by congruence. rewrite filter_nil, app_nil_r.
    induction (td_credentials d) as [|c l IH]; [done|]. rewrite !filter_cons. case_decide as Hc; [|done].
    simpl. rewrite IH. f_equal. apply deactivate_other. congruence.
Qed.

Lemma rotate_active i hash now uuid d d' :
  rotate i hash now uuid d = (Ok tt, d') ->
  active_credentials i d' = [CredentialRow uuid i "shared_secret" hash true (Some now)].
Proof.
  intros Hr. unfold active_credentials. rewrite (rotate_credentials_of _ i _ _ _ _ _ Hr), bool_decide_true by done.
  rewrite filter_app, filter_none.
  - by rewrite filter_cons_True.
  - apply Forall_forall. intros c Hc. apply list_elem_of_In, in_map_iff in Hc as (c0 & <- & Hc0%list_elem_of_In).
    unfold credentials_of in Hc0. apply list_elem_of_filter in Hc0 as [Hdev _]. by rewrite (deactivate_inactive i c0 Hdev).
Qed.

(** [secrets.token_hex(24)]: 48 ASCII characters. *)
Definition token_ok (token_hex : nat -> string) : Prop :=
  forall n, Forall (fun c => c < 128) (code_points (token_hex n)) /\ length (code_points (token_hex n)) = 48%nat.

Lemma utf8_ascii l : Forall (fun c => c < 128) l -> utf8_encode l = Ok l.
Proof.
  intros Hl. unfold utf8_encode.
  assert (Hm : mapM utf8_char l = Some ((fun c => [c]) <$> l)).
  { apply mapM_Some. induction Hl as [|c l Hc _ IH]; [constructor|]. constructor; [|exact IH].
    unfold utf8_char. by rewrite (proj2 (Z.ltb_lt _ _) Hc). }
  rewrite Hm. f_equal. clear. induction l as [|c l IH]; [done|]. csimpl. by rewrite IH.
Qed.

Lemma new_secret_ok token_hex hashpw s : token_ok token_hex ->
  new_secret token_hex hashpw s =
  (Ok (token_hex (pg_count s), hashpw (code_points (token_hex (pg_count s)))), s).
Proof.
  intros Ht. destruct (Ht (pg_count s)) as [Ha Hlen]. unfold new_secret, hash_password, check_password_length.
  rewrite utf8_ascii by done. rewrite Hlen. done.
Qed.

(** ** Theorems *)

(** [C5] Reads see one organization.  For every listing and lookup of factories,
    lines, machines, devices and sensors, whatever ids the client passes: the
    answer is the one given on a database from which everything that does not
    belong to the caller's organization was removed. *)
Theorem tenant_reads_isolated (env : pg_env tenant_db) (collate : string -> string -> bool) (o u : string)
    (r : tenant_read) (n : nat) (d : tenant_db) :
  quiet env -> pg_uuid_in env o = Some u ->
  eval (run_read env collate o r) (Pg n d) = eval (run_read env collate o r) (Pg n (restrict u d)) /\
  pg_db (exec (run_read env collate o r) (Pg n d)) = d.
Proof.
  intros Hq Hu. destruct (run_read_isolated env collate o u Hq Hu r n d) as (x & k & H1 & H2).
  unfold eval, exec. by rewrite H1, H2.
Qed.

(** Rotating a credential.  For a device of the caller's organization: the
    new secret is returned, its hash is the device's one active credential, the
    old ones stay but are inactive, and the credentials of every other device are
    untouched.  For any other id: 404, and nothing changes. *)
Theorem rotation_replaces_credential (env : pg_env tenant_db) (token_hex : nat -> string) (hashpw : list Z -> string)
    (o u id i : string) (n : nat) (d : tenant_db) :
  quiet env -> token_ok token_hex -> pg_uuid_in env o = Some u -> pg_uuid_in env id = Some i ->
  let secret := token_hex (S n) in
  let '(r, s') := rotate_credentials env token_hex hashpw o id (Pg n d) in
  if device_in u d i then
    r = Ok (JObj [("secret", JS secret)]) /\
    (exists c, active_credentials i (pg_db s') = [c] /\ cd_credential_hash c = hashpw (code_points secret)) /\
    (forall id', id' <> i -> credentials_of id' (pg_db s') = credentials_of id' d) /\
    cd_credential_hash <$> credentials_of i d `prefix_of` cd_credential_hash <$> credentials_of i (pg_db s')
  else r = Raise (not_found "device") /\ pg_db s' = d.
Proof.
  intros Hq Ht Hu Hi secret. unfold rotate_credentials, exists_in.
  erewrite bind_ok by (rewrite (execute_quiet env) by done; unfold with_uuid; rewrite Hi, Hu; reflexivity).
  cbn [pg_db]. destruct (device_in u d i) eqn:Hd; cbn [negb]; [|by split].
  erewrite bind_ok by (by apply new_secret_ok). cbn [pg_count]. fold secret. cbn beta iota.
  assert (Hex : i ∈ (dv_id <$> td_devices d)).
  { unfold device_in in Hd. apply existsb_exists in Hd as (v & Hv & [Hvi _]%andb_true_iff).
    apply list_elem_of_fmap. exists v. split; [by apply bool_decide_eq_true in Hvi | by apply list_elem_of_In]. }
  assert (Hrot : exists d', rotate i (hashpw (code_points secret)) (pg_now env (S n)) (pg_uuid env (S n)) d = (Ok tt, d')).
  { unfold rotate. rewrite bool_decide_true by done. by eexists. }
  destruct Hrot as [d' Hrot].
  assert (Hrun : or_internal (execute env (with_uuid env id (fun i => rotate i (hashpw (code_points secret))))) (Pg (S n) d) =
      (Ok tt, Pg (S (S n)) d')).
  { unfold or_internal, try_except. rewrite (execute_quiet env) by done. unfold with_uuid. rewrite Hi. cbn [pg_count pg_db].
    by rewrite Hrot. }
  erewrite bind_ok by exact Hrun. split; [done|]. cbn [pg_db]. split_and!.
  - rewrite (rotate_active _ _ _ _ _ _ Hrot). by eexists.
  - intros id' Hne. rewrite (rotate_credentials_of _ id' _ _ _ _ _ Hrot). by rewrite bool_decide_false.
  - rewrite (rotate_credentials_of _ i _ _ _ _ _ Hrot), bool_decide_true by done. rewrite fmap_app.
    replace (cd_credential_hash <$> map (deactivate i) (credentials_of i d)) with (cd_credential_hash <$> credentials_of i d);
      [by apply prefix_app_r|].
    clear. induction (credentials_of i d) as [|c l IH]; [done|]. csimpl. rewrite IH. f_equal.
    unfold deactivate. by destruct (_ && _).
Qed.

(** *** An example surrounding *)

Definition demo_tenant_env : pg_env tenant_db :=
  PgEnv (fun _ => None) (fun _ d => d) (fun n => Z.of_nat n) (fun n => "u" +:+ pretty.pretty n)
    (fun s => if bool_decide (s = "") then None else Some s).

(** Two organizations, each with a factory, a line, a machine and a device. *)
Definition demo_tenants : tenant_db :=
  TenantDb [FactoryRow "f1" "a" "Berlin" None "DE"; FactoryRow "f2" "b" "Lyon" None "FR"]
    [LineRow "l1" "f1" "L"; LineRow "l2" "f2" "L"]
    [MachineRow "m1" "l1" "M" "pump" "IDLE"; MachineRow "m2" "l2" "M" "pump" "IDLE"]
    [DeviceRow "d1" "m1" "a" "s1" "ACTIVE" None None; DeviceRow "d2" "m2" "b" "s2" "ACTIVE" None None]
    [] [CredentialRow "c1" "d1" "shared_secret" "old" true None; CredentialRow "c2" "d2" "shared_secret" "other" true None].

Lemma tenant_reads_isolated_witness :
  eval (run_read demo_tenant_env String.leb "a" (ReadDevice "d2")) (Pg 0 demo_tenants) = Raise (not_found "device") /\
  eval (run_read demo_tenant_env String.leb "a" (ReadMachineDevices "m1")) (Pg 0 demo_tenants) =
  eval (run_read demo_tenant_env String.leb "a" (ReadMachineDevices "m1")) (Pg 0 (restrict "a" demo_tenants)) /\
  pg_db (exec (run_read demo_tenant_env String.leb "a" (ReadMachineDevices "m1")) (Pg 0 demo_tenants)) = demo_tenants.
Proof.
  split; [by vm_compute|]. by apply (tenant_reads_isolated demo_tenant_env String.leb "a" "a" (ReadMachineDevices "m1") 0 demo_tenants).
Defined.

Definition demo_token (_ : nat) : string := "0123456789abcdef0123456789abcdef0123456789abcdef".

Lemma rotation_replaces_credential_witness :
  let '(r, s') := rotate_credentials demo_tenant_env demo_token (fun _ => "new") "a" "d1" (Pg 0 demo_tenants) in
  r = Ok (JObj [("secret", JS (demo_token 1))]) /\
  (exists c, active_credentials "d1" (pg_db s') = [c] /\ cd_credential_hash c = "new") /\
  (forall id', id' <> "d1" -> credentials_of id' (pg_db s') = credentials_of id' demo_tenants) /\
  cd_credential_hash <$> credentials_of "d1" demo_tenants `prefix_of` cd_credential_hash <$> credentials_of "d1" (pg_db s').
Proof.
  refine (rotation_replaces_credential demo_tenant_env demo_token (fun _ => "new") "a" "a" "d1" "d1" 0 demo_tenants _ _ _ _).
  - done.
  - intros n. split; [|by vm_compute]. unfold demo_token, code_points. apply (bool_decide_unpack _). by vm_compute.
  - reflexivity.
  - reflexivity.
Defined.
