(* ===== verification/ApiService.v ===== *)
(** [api/handlers_alerts.py], [handlers_incidents.py], [handlers_telemetry.py],
    [handlers_auth.py], [handlers_health.py] and the routes of [main.py]: the
    handlers over the alert, incident, authentication and tenant stores, and
    the serving of one request through rate limit, permission and error
    envelope. *)

From stdpp Require Import prelude strings pretty gmap sorting.
From Stdlib Require Import ZArith Lia Ascii SpecFloat.
From S2P Require Import Prelude PyFloat Effects PyStr Postgres Incidents Auth Events Alerts ApiCore ApiTenant.

Local Open Scope Z_scope.

(** ** [handlers_alerts.py] *)

(** [_alert_dto]: an empty machine or device and a null date are left out. *)
Definition _alert_dto (r : alert_row) : json :=
  JObj ([("id", JS (al_id r)); ("severity", JS (al_severity r)); ("status", JS (al_status r)); ("title", JS (al_title r));
         ("description", JS (al_description r)); ("triggered_at", JT (al_triggered_at r))] ++
        (if bool_decide (coalesce (al_machine_id r) = "") then [] else [("machine_id", JS (coalesce (al_machine_id r)))]) ++
        (if bool_decide (coalesce (al_device_id r) = "") then [] else [("device_id", JS (coalesce (al_device_id r)))]) ++
        match al_resolved_at r with Some t => [("resolved_at", JT t)] | None => [] end).

Definition acknowledged (r : alert_row) : alert_row :=
  AlertRow (al_id r) (al_organization_id r) (al_rule_id r) (al_factory_id r) (al_machine_id r) (al_device_id r)
    (al_sensor_id r) (al_severity r) "ACKNOWLEDGED" (al_title r) (al_description r) (al_dedupe_key r)
    (al_triggered_at r) (al_resolved_at r) (al_escalation_level r) (al_last_escalated_at r).

(** [UPDATE alerts SET status = 'ACKNOWLEDGED' ... AND status = 'OPEN']: the row count. *)
Definition acknowledge (id o : string) : statement alert_db Z := fun _ _ d =>
  let hit r := bool_decide (al_id r = id /\ al_organization_id r = o /\ al_status r = "OPEN") in
  (Ok (Z.of_nat (length (filter (fun r => hit r = true) (db_alerts d)))),
   set_alerts (map (fun r => if hit r then acknowledged r else r) (db_alerts d)) d).

Section AlertHandlers.
  Variable env : pg_env alert_db.

(** The rows of the query of [list_alerts], before [LIMIT] and [OFFSET]. *)
Definition listed_alerts (o status_filter severity_filter : string) (d : alert_db) : list alert_row :=
  merge_sort latest_first (filter (fun r => al_organization_id r = o /\
    (status_filter = "" \/ al_status r = status_filter) /\ (severity_filter = "" \/ al_severity r = severity_filter)) (db_alerts d)).

Definition list_alerts (o : string) (req : request) : M (pg alert_db) json :=
  let '(limit, offset) := parse_limit_offset req in
  let status_filter := get_or (rq_query req "status") "" in
  let severity_filter := get_or (rq_query req "severity") "" in
  rows ← or_internal (execute env (with_uuid env o (fun o => select_res (fun d =>
    page limit offset (listed_alerts o status_filter severity_filter d)))));
  mret (paginated_response (_alert_dto <$> (rows : list alert_row)) limit offset).

Definition get_alert (o id : string) : M (pg alert_db) json :=
  row ← execute env (with_uuid env id (fun i => with_uuid env o (fun o => select (fun d =>
    head (filter (fun r => al_id r = i /\ al_organization_id r = o) (db_alerts d))))));
  match (row : option alert_row) with Some r => mret (_alert_dto r) | None => raise (not_found "alert") end.

Definition acknowledge_alert (o id : string) : M (pg alert_db) json :=
  n ← execute env (with_uuid env id (fun i => with_uuid env o (fun o => acknowledge i o)));
  if bool_decide ((n : Z) = 0)
  then raise (api_error 409 "CONFLICT" "alert does not exist, belongs to another organization, or is not OPEN")
  else mret JNone.

(** ** [handlers_incidents.py] *)

Definition optional_text (key text : string) : list (string * json) :=
  if bool_decide (text = "") then [] else [(key, JS text)].

Definition _incident_dto (i : Incident) : json :=
  JObj ([("id", JS (i_id i)); ("severity", JS (i_severity i)); ("status", JS (i_status i)); ("title", JS (i_title i));
         ("description", JS (i_description i)); ("opened_at", JT (i_opened_at i))] ++
        optional_text "alert_id" (i_alert_id i) ++ optional_text "factory_id" (i_factory_id i) ++
        optional_text "machine_id" (i_machine_id i) ++ optional_text "device_id" (i_device_id i) ++
        optional_text "sensor_id" (i_sensor_id i) ++ optional_text "assigned_to" (i_assigned_to i) ++
        optional_text "resolution_notes" (i_resolution_notes i) ++
        match i_resolved_at i with Some t => [("resolved_at", JT t)] | None => [] end ++
        match i_closed_at i with Some t => [("closed_at", JT t)] | None => [] end).

Definition _incident_event_dto (e : Event) : json :=
  JObj ([("event_type", JS (e_event_type e)); ("created_at", JT (e_created_at e))] ++
        optional_text "old_value" (e_old_value e) ++ optional_text "new_value" (e_new_value e) ++ optional_text "note" (e_note e)).

Definition list_incidents_handler (o : string) (req : request) : M (pg alert_db) json :=
  let '(limit, offset) := parse_limit_offset req in
  listing ← or_internal (list_incidents env o (get_or (rq_query req "status") "") limit offset);
  mret (paginated_response (_incident_dto <$> (listing : list Incident)) limit offset).

Definition get_incident_handler (o id : string) : M (pg alert_db) json :=
  inc ← or_internal (get_incident env o id);
  match (inc : option Incident) with
  | None => raise (not_found "incident")
  | Some inc =>
      events ← or_internal (list_events env id);
      mret (JObj [("incident", _incident_dto inc); ("history", JArr (_incident_event_dto <$> (events : list Event)))])
  end.

(** [if store.get(claims.organization_id, id) is None: raise APIError(404, ...)]. *)
Definition require_incident (o id : string) : M (pg alert_db) unit :=
  inc ← get_incident env o id;
  match (inc : option Incident) with None => raise (not_found "incident") | Some _ => mret tt end.

(** [except (ValueError, RuntimeError) as exc: raise APIError(409, ...)]. *)
Definition or_conflict {S A} (m : M S A) : M S A :=
  try_except m (fun exc => match exc with
    | ValueError _ | RuntimeError _ => raise (api_error 409 "INVALID_TRANSITION" (exn_str exc))
    | _ => raise exc
    end).

(** [user_id] is the caller's; the incident store of the API has no publisher. *)
Definition transition_incident (o user_id id status note : string) : M (pg alert_db) json :=
  if bool_decide (status = "") then raise (api_error 400 "INVALID_BODY" "status is required")
  else require_incident o id ;; or_conflict (transition env None id status (Some user_id) note) ;; mret JNone.

Definition assign_incident (o caller id user_id : string) : M (pg alert_db) json :=
  if bool_decide (user_id = "") then raise (api_error 400 "INVALID_BODY" "user_id is required")
  else require_incident o id ;; or_internal (assign env None id user_id (Some caller)) ;; mret JNone.

Definition resolve_incident (o user_id id resolution_notes : string) : M (pg alert_db) json :=
  require_incident o id ;; or_conflict (resolve env None id resolution_notes (Some user_id)) ;; mret JNone.

End AlertHandlers.

(** ** [handlers_telemetry.py] *)

(** InfluxDB as the API uses it: how many queries were sent, and their texts. *)
Record influx := Influx { ix_queries : list string }.

Section TelemetryHandlers.
  Variable tenv : pg_env tenant_db.
  (** [datetime.fromisoformat] accepts the text. *)
  Variable fromisoformat : string -> bool.
  (** The tables of records (time, value) of the n-th query, or its error. *)
  Variable query_api : nat -> string -> res (list (list (Z * float))).
  Variable bucket : string.

(** [value.replace("Z", "+00:00")]. *)
Fixpoint replace_z (s : string) : string :=
  match s with
  | EmptyString => EmptyString
  | String c s => if Ascii.eqb c "Z"%char then "+00:00" +:+ replace_z s else String c (replace_z s)
  end.

Definition _is_rfc3339 (value : string) : bool := fromisoformat (replace_z value).

Definition _build_range_clause (req : request) : res string :=
  let start := get_or (rq_query req "start") "" in
  if negb (bool_decide (start = "")) then
    let end_ := get_or (rq_query req "end") "" in
    if negb (_is_rfc3339 start) then Raise (ValueError "start must be RFC3339")
    else if bool_decide (end_ = "") then Ok ("start: " +:+ start)
    else if negb (_is_rfc3339 end_) then Raise (ValueError "end must be RFC3339")
    else Ok ("start: " +:+ start +:+ ", stop: " +:+ end_)
  else
    let range_param := get_or (rq_query req "range") "" in
    if bool_decide (range_param = "5m" \/ range_param = "") then Ok "start: -5m"
    else if bool_decide (range_param = "1h") then Ok "start: -1h"
    else if bool_decide (range_param = "24h") then Ok "start: -24h"
    else Raise (ValueError "range must be one of 5m, 1h, 24h, or provide start (and optionally end) as RFC3339 timestamps").

Definition _require_device_and_metric (o : string) (req : request) : M (pg tenant_db) (string * string) :=
  let device_id := get_or (rq_query req "device_id") "" in
  let metric := get_or (rq_query req "metric") "" in
  if bool_decide (device_id = "") || bool_decide (metric = "") then
    raise (api_error 400 "VALIDATION_ERROR" "device_id and metric query parameters are required")
  else
    match uuid_of_string device_id with
    | None => raise (api_error 400 "VALIDATION_ERROR" "device_id must be a valid UUID")
    | Some _ =>
        if bool_decide (metric ∉ VALID_METRICS) then
          raise (api_error 400 "VALIDATION_ERROR" "metric is not a recognized sensor metric")
        else
          exists_ ← exists_in tenv device_in device_id o;
          if negb (exists_ : bool) then raise (not_found "device") else mret (device_id, metric)
    end.

(** A line of the query text, and a quoted text. *)
Fixpoint spaces (n : nat) : string := match n with O => EmptyString | Datatypes.S n => String " " (spaces n) end.
Definition line (indent : nat) (text : string) : string := String "010" (spaces indent +:+ text).
Definition quoted (text : string) : string := String "034" (text +:+ String "034" EmptyString).

(** The lines both queries share. *)
Definition flux_query (range_clause device_id metric last_line : string) : string :=
  line 12 ("from(bucket: " +:+ quoted bucket +:+ ")") +:+
  line 14 ("|> range(" +:+ range_clause +:+ ")") +:+
  line 14 ("|> filter(fn: (r) => r._measurement == " +:+ quoted "sensor_telemetry" +:+ " and r.device_id == " +:+ quoted device_id
           +:+ " and r.metric == " +:+ quoted metric +:+ " and r._field == " +:+ quoted "value" +:+ ")") +:+
  line 14 last_line +:+ line 8 EmptyString.

Definition flux_latest (device_id metric : string) : string :=
  flux_query "start: -24h" device_id metric "|> last()".
Definition flux_range (range_clause device_id metric : string) : string :=
  flux_query range_clause device_id metric ("|> sort(columns: [" +:+ quoted "_time" +:+ "])").

Definition query (flux : string) : M influx (list (list (Z * float))) := fun s =>
  (query_api (length (ix_queries s)) flux, Influx (ix_queries s ++ [flux])).

Definition record_json (r : Z * float) : json := JObj [("time", JT (fst r)); ("value", JF (snd r))].

Context {S : Type} `{Part S (pg tenant_db)} `{Part S influx}.

Definition telemetry_latest (o : string) (req : request) : M S json :=
  '(device_id, metric) ← lift (_require_device_and_metric o req);
  tables ← or_internal (lift (query (flux_latest device_id metric)));
  match concat (tables : list (list (Z * float))) with
  | record :: _ => mret (record_json record)
  | [] => raise (api_error 404 "NOT_FOUND" "no telemetry found for this device/metric in the last 24h")
  end.

Definition telemetry_range (o : string) (req : request) : M S json :=
  '(device_id, metric) ← lift (_require_device_and_metric o req);
  match _build_range_clause req with
  | Raise exc => raise (match exc with ValueError m => api_error 400 "VALIDATION_ERROR" m | _ => exc end)
  | Ok range_clause =>
      tables ← or_internal (lift (query (flux_range range_clause device_id metric)));
      mret (children (record_json <$> concat (tables : list (list (Z * float)))))
  end.

End TelemetryHandlers.

(** ** [handlers_health.py] *)

(** [DepStatus]; each probe is [None] or the text of its failure. *)
Record DepStatus := mkDepStatus {
  ds_postgres : string; ds_redis : string; ds_kafka : string; ds_mqtt : string; ds_influxdb : string
}.

Definition unreachable (probe : option string) : string :=
  match probe with None => "ok" | Some exc => "unreachable: " +:+ exc end.

(** The probes of Postgres, Redis and Kafka; MQTT and InfluxDB answer, refuse
    ([false]) or raise. *)
Definition _check_dependencies (postgres redis kafka : option string) (mqtt : res bool) (influxdb : res bool) : DepStatus :=
  mkDepStatus (unreachable postgres) (unreachable redis) (unreachable kafka)
    (match mqtt with Ok true => "ok" | _ => "unreachable" end)
    (match influxdb with Ok true => "ok" | Ok false => "unreachable" | Raise exc => "unreachable: " +:+ exn_str exc end).

Definition dep_json (s : DepStatus) : json :=
  JObj [("postgres", JS (ds_postgres s)); ("redis", JS (ds_redis s)); ("kafka", JS (ds_kafka s));
        ("mqtt", JS (ds_mqtt s)); ("influxdb", JS (ds_influxdb s))].

(** MQTT does not count for readiness. *)
Definition ready (s : DepStatus) : response :=
  let ready_ := bool_decide (ds_postgres s = "ok") && bool_decide (ds_redis s = "ok") &&
                bool_decide (ds_kafka s = "ok") && bool_decide (ds_influxdb s = "ok") in
  Response (if ready_ then 200 else 503) (JObj [("ready", JB ready_); ("dependencies", dep_json s)]) [].

(** ** The service *)

Record api := Api {
  ai_auth : pg auth_db; ai_alert : pg alert_db; ai_tenant : pg tenant_db; ai_limiter : limiter; ai_influx : influx
}.

#[export] Program Instance ai_auth_part : Part api (pg auth_db) := {|
  part_get := ai_auth; part_set x s := Api x (ai_alert s) (ai_tenant s) (ai_limiter s) (ai_influx s) |}.
Solve All Obligations with (intros; by repeat match goal with s : api |- _ => destruct s end).
#[export] Program Instance ai_alert_part : Part api (pg alert_db) := {|
  part_get := ai_alert; part_set x s := Api (ai_auth s) x (ai_tenant s) (ai_limiter s) (ai_influx s) |}.
Solve All Obligations with (intros; by repeat match goal with s : api |- _ => destruct s end).
#[export] Program Instance ai_tenant_part : Part api (pg tenant_db) := {|
  part_get := ai_tenant; part_set x s := Api (ai_auth s) (ai_alert s) x (ai_limiter s) (ai_influx s) |}.
Solve All Obligations with (intros; by repeat match goal with s : api |- _ => destruct s end).
#[export] Program Instance ai_limiter_part : Part api limiter := {|
  part_get := ai_limiter; part_set x s := Api (ai_auth s) (ai_alert s) (ai_tenant s) x (ai_influx s) |}.
Solve All Obligations with (intros; by repeat match goal with s : api |- _ => destruct s end).
#[export] Program Instance ai_influx_part : Part api influx := {|
  part_get := ai_influx; part_set x s := Api (ai_auth s) (ai_alert s) (ai_tenant s) (ai_limiter s) x |}.
Solve All Obligations with (intros; by repeat match goal with s : api |- _ => destruct s end).

(** The routes with their path and body parameters, parsed. *)
Inductive route :=
  | RLogin (email : string) (password : list Z) | RRefresh (refresh_token : string) | RLogout (refresh_token : string) | RMe
  | RListFactories | RGetFactory (id : string) | RListLines (id : string) | RGetMachine (id : string)
  | RListLineMachines (id : string) | RListMachineDevices (id : string)
  | RListDevices | RGetDevice (id : string) | RListSensors (id : string)
  | RProvision (body : ProvisionDeviceRequest) | RRotate (id : string) | RDecommission (id : string)
  | RTelemetryLatest | RTelemetryRange
  | RListAlerts | RGetAlert (id : string) | RAcknowledgeAlert (id : string)
  | RListIncidents | RGetIncident (id : string) | RTransition (id status note : string)
  | RAssign (id user_id : string) | RResolve (id resolution_notes : string).

(** What the decorator of a route declares: the permission of its
    [permission_dep] ([None]: no authentication, [Some ""]: a valid token only),
    the bucket of its rate limit, its status code. *)
Record endpoint := Endpoint { ep_permission : option string; ep_bucket : option string; ep_status : Z }.

(** The decorators of each router, on the routes it registers. *)
Definition register_auth_routes (r : route) : option endpoint :=
  match r with
  | RLogin _ _ => Some (Endpoint None (Some "auth") 200)
  | RRefresh _ => Some (Endpoint None (Some "auth") 200)
  | RLogout _ => Some (Endpoint None (Some "auth") 204)
  | RMe => Some (Endpoint (Some "") None 200)
  | _ => None
  end.

Definition register_factory_routes (r : route) : option endpoint :=
  match r with
  | RListFactories => Some (Endpoint (Some PERM_FACTORIES_READ) (Some "default") 200)
  | RGetFactory _ => Some (Endpoint (Some PERM_FACTORIES_READ) None 200)
  | RListLines _ => Some (Endpoint (Some PERM_FACTORIES_READ) None 200)
  | RGetMachine _ => Some (Endpoint (Some PERM_FACTORIES_READ) None 200)
  | RListLineMachines _ => Some (Endpoint (Some PERM_FACTORIES_READ) None 200)
  | RListMachineDevices _ => Some (Endpoint (Some PERM_DEVICES_READ) None 200)
  | _ => None
  end.

Definition register_device_routes (r : route) : option endpoint :=
  match r with
  | RListDevices => Some (Endpoint (Some PERM_DEVICES_READ) (Some "default") 200)
  | RGetDevice _ => Some (Endpoint (Some PERM_DEVICES_READ) None 200)
  | RListSensors _ => Some (Endpoint (Some PERM_DEVICES_READ) None 200)
  | RProvision _ => Some (Endpoint (Some PERM_DEVICES_WRITE) (Some "default") 201)
  | RRotate _ => Some (Endpoint (Some PERM_DEVICES_WRITE) (Some "default") 200)
  | RDecommission _ => Some (Endpoint (Some PERM_DEVICES_WRITE) (Some "default") 204)
  | _ => None
  end.

Definition register_telemetry_routes (r : route) : option endpoint :=
  match r with
  | RTelemetryLatest => Some (Endpoint (Some PERM_TELEMETRY_READ) (Some "default") 200)
  | RTelemetryRange => Some (Endpoint (Some PERM_TELEMETRY_READ) (Some "default") 200)
  | _ => None
  end.

Definition register_alert_routes (r : route) : option endpoint :=
  match r with
  | RListAlerts => Some (Endpoint (Some PERM_ALERTS_READ) (Some "default") 200)
  | RGetAlert _ => Some (Endpoint (Some PERM_ALERTS_READ) None 200)
  | RAcknowledgeAlert _ => Some (Endpoint (Some PERM_ALERTS_MANAGE) (Some "default") 204)
  | _ => None
  end.

Definition register_incident_routes (r : route) : option endpoint :=
  match r with
  | RListIncidents => Some (Endpoint (Some PERM_INCIDENTS_READ) None 200)
  | RGetIncident _ => Some (Endpoint (Some PERM_INCIDENTS_READ) None 200)
  | RTransition _ _ _ => Some (Endpoint (Some PERM_INCIDENTS_MANAGE) None 204)
  | RAssign _ _ => Some (Endpoint (Some PERM_INCIDENTS_MANAGE) None 204)
  | RResolve _ _ => Some (Endpoint (Some PERM_INCIDENTS_MANAGE) None 204)
  | _ => None
  end.

(** [app.include_router], in order: the first router that knows the route. *)
Definition endpoint_of (r : route) : endpoint :=
  default (Endpoint None None 200)
    (head (omap (fun router => router r)
      [register_auth_routes; register_factory_routes; register_device_routes; register_telemetry_routes;
       register_alert_routes; register_incident_routes])).

Record api_world := ApiWorld {
  aw_auth : pg_env auth_db; aw_alert : pg_env alert_db; aw_tenant : pg_env tenant_db;
  aw_limiter : limiter_world;
  aw_jwt_encode : payload -> string -> string;
  aw_jwt_decode : string -> string -> Z -> res payload;
  aw_checkpw : list Z -> string -> res bool;
  aw_hashpw : list Z -> string;
  aw_collate : string -> string -> bool;
  aw_token_hex : nat -> string;
  aw_fromisoformat : string -> bool;
  aw_query : nat -> string -> res (list (list (Z * float)));
  (** [ClientIPResolver.resolve], modelled in [ApiCore] *)
  aw_resolve_ip : request -> string
}.

Record api_config := ApiConfig {
  gc_access_secret : string; gc_refresh_secret : string; gc_access_ttl : Z; gc_refresh_ttl : Z;
  gc_influx_bucket : string; gc_rate_limit_auth : Z; gc_rate_limit_default : Z
}.

Section Serve.
  Variable w : api_world.
  Variable cfg : api_config.

Definition token_json (p : TokenPair) : json :=
  JObj [("access_token", JS (access_token p)); ("refresh_token", JS (refresh_token p));
        ("expires_at", JT (expires_at p)); ("token_type", JS "Bearer")].

(** *** [handlers_auth.py] *)

Definition login_handler (req : request) (email : string) (password : list Z) : M api json :=
  if bool_decide (email = "") || bool_decide (password = [])
  then raise (api_error 400 "VALIDATION_ERROR" "email and password are required")
  else
    pair ← try_except
      (lift (login (aw_auth w) (aw_checkpw w) (aw_jwt_encode w) (gc_access_secret cfg) (gc_refresh_secret cfg)
               (gc_access_ttl cfg) (gc_refresh_ttl cfg) email password (aw_resolve_ip w req)))
      (fun exc => match exc with
                  | InvalidCredentialsError _ | UserInactiveError _ =>
                      raise (api_error 401 "INVALID_CREDENTIALS" "invalid email or password")
                  | _ => raise (internal_error exc)
                  end);
    mret (token_json pair).

Definition refresh_handler (req : request) (refresh_token : string) : M api json :=
  if bool_decide (refresh_token = "") then raise (api_error 400 "INVALID_BODY" "refresh_token is required")
  else
    pair ← try_except
      (lift (refresh_access_token (aw_auth w) (aw_jwt_encode w) (aw_jwt_decode w) (gc_access_secret cfg) (gc_refresh_secret cfg)
               (gc_access_ttl cfg) (gc_refresh_ttl cfg) refresh_token (aw_resolve_ip w req)))
      (fun exc => match exc with
                  | TokenRevokedError _ =>
                      raise (api_error 401 "TOKEN_REVOKED" "refresh token is invalid, expired, or already used")
                  | _ => raise (internal_error exc)
                  end);
    mret (token_json pair).

Definition logout_handler (req : request) (refresh_token : string) : M api json :=
  if bool_decide (refresh_token = "") then raise (api_error 400 "INVALID_BODY" "refresh_token is required")
  else
    try_except
      (lift (logout (aw_auth w) (aw_jwt_decode w) (gc_refresh_secret cfg) refresh_token (aw_resolve_ip w req)))
      (fun exc => match exc with TokenRevokedError _ => mret tt | _ => raise (internal_error exc) end) ;;
    mret JNone.

Definition me (claims : Claims) : json :=
  JObj [("user_id", JS (c_user_id claims)); ("organization_id", JS (c_organization_id claims)); ("email", JS (c_email claims));
        ("roles", JArr (JS <$> c_roles claims)); ("permissions", JArr (JS <$> c_permissions claims))].

(** *** The routes *)

Definition public_body (req : request) (r : route) : M api json :=
  match r with
  | RLogin email password => login_handler req email password
  | RRefresh t => refresh_handler req t
  | RLogout t => logout_handler req t
  | _ => raise AssertionError
  end.

Definition tenant_body (claims : Claims) (r : tenant_read) : M api json :=
  lift (run_read (aw_tenant w) (aw_collate w) (c_organization_id claims) r).

Definition body (req : request) (claims : Claims) (r : route) : M api json :=
  let o := c_organization_id claims in
  match r with
  | RMe => mret (me claims)
  | RListFactories => tenant_body claims (ReadFactories req)
  | RGetFactory id => tenant_body claims (ReadFactory id)
  | RListLines id => tenant_body claims (ReadLines id)
  | RGetMachine id => tenant_body claims (ReadMachine id)
  | RListLineMachines id => tenant_body claims (ReadLineMachines id)
  | RListMachineDevices id => tenant_body claims (ReadMachineDevices id)
  | RListDevices => tenant_body claims (ReadDevices req)
  | RGetDevice id => tenant_body claims (ReadDevice id)
  | RListSensors id => tenant_body claims (ReadSensors id)
  | RProvision b => lift (provision_device (aw_tenant w) (aw_token_hex w) (aw_hashpw w) o b)
  | RRotate id => lift (rotate_credentials (aw_tenant w) (aw_token_hex w) (aw_hashpw w) o id)
  | RDecommission id => lift (decommission_device (aw_tenant w) o id)
  | RTelemetryLatest => telemetry_latest (aw_tenant w) (aw_query w) (gc_influx_bucket cfg) o req
  | RTelemetryRange => telemetry_range (aw_tenant w) (aw_fromisoformat w) (aw_query w) (gc_influx_bucket cfg) o req
  | RListAlerts => lift (list_alerts (aw_alert w) o req)
  | RGetAlert id => lift (get_alert (aw_alert w) o id)
  | RAcknowledgeAlert id => lift (acknowledge_alert (aw_alert w) o id)
  | RListIncidents => lift (list_incidents_handler (aw_alert w) o req)
  | RGetIncident id => lift (get_incident_handler (aw_alert w) o id)
  | RTransition id st note => lift (transition_incident (aw_alert w) o (c_user_id claims) id st note)
  | RAssign id u => lift (assign_incident (aw_alert w) o (c_user_id claims) id u)
  | RResolve id notes => lift (resolve_incident (aw_alert w) o (c_user_id claims) id notes)
  | RLogin _ _ | RRefresh _ | RLogout _ => raise AssertionError
  end.

(** The dependencies of a route: the rate limit first, then the token and its
    permission. *)
Definition limit_dep (req : request) (r : route) : M api (list (string * string)) :=
  match ep_bucket (endpoint_of r) with
  | None => mret []
  | Some bucket =>
      lift (rate_limit (aw_limiter w) bucket
              (if bool_decide (bucket = "auth") then gc_rate_limit_auth cfg else gc_rate_limit_default cfg)
              (aw_resolve_ip w req))
  end.

Definition permission_dep (req : request) (permission : string) : M api Claims :=
  now ← lift (read_clock (aw_auth w));
  of_res (require_permission (aw_jwt_decode w) (gc_access_secret cfg) permission now req).

Definition handle (req : request) (r : route) : M api response :=
  headers ← limit_dep req r;
  out ← match ep_permission (endpoint_of r) with
        | None => public_body req r
        | Some p => claims ← permission_dep req p; body req claims r
        end;
  mret (Response (ep_status (endpoint_of r)) out headers).

(** A request is always answered. *)
Definition serve (req : request) (r : route) (s : api) : response * api :=
  match handle req r s with
  | (Ok resp, s') => (resp, s')
  | (Raise e, s') => (error_response (rq_request_id req) e, s')
  end.

End Serve.

(** ** Lemmas *)

(** The stores of the API, without the limiter and the number of clock reads. *)
Definition same_data (s s' : api) : Prop :=
  pg_db (ai_auth s') = pg_db (ai_auth s) /\ ai_alert s' = ai_alert s /\ ai_tenant s' = ai_tenant s /\ ai_influx s' = ai_influx s.

Lemma limit_dep_data w cfg req r s : same_data s (snd (limit_dep w cfg req r s)) /\ ai_auth (snd (limit_dep w cfg req r s)) = ai_auth s /\
  forall e, fst (limit_dep w cfg req r s) = Raise e -> exists msg headers, e = APIError 429 "RATE_LIMITED" msg headers.
Proof.
  unfold limit_dep. destruct (ep_bucket (endpoint_of r)) as [bucket|]; [|by split_and!].
  unfold lift. set (m := rate_limit _ _ _ _).
  assert (Hm : forall l e, fst (m l) = Raise e -> exists msg headers, e = APIError 429 "RATE_LIMITED" msg headers).
  { intros l e. subst m. unfold rate_limit. destruct (rate_limit_script _ _ _ _) as [count keys].
    destruct (lw_fault _ _) as [[kept x]|]; [done|]. destruct (_ <? count); [|done]. cbn [fst]. intros Heq. injection Heq as <-. eexists _, _. reflexivity. }
  specialize (Hm (part_get s)). destruct (m (part_get s)) as [x l]. split_and!; try done.
Qed.

(** The dependencies alone, as they run before a body that fails validation. *)
Definition dependencies (w : api_world) (cfg : api_config) (req : request) (r : route) : M api unit :=
  limit_dep w cfg req r ;;
  match ep_permission (endpoint_of r) with
  | None => mret tt
  | Some p => permission_dep w cfg req p ;; mret tt
  end.

Lemma dependencies_spec w cfg req r p s : ep_permission (endpoint_of r) = Some p ->
  (same_data s (exec (dependencies w cfg req r) s) /\ exists st code msg hs,
     eval (dependencies w cfg req r) s = Raise (APIError st code msg hs) /\ (st = 401 \/ st = 403 \/ st = 429)) \/
  exists claims,
    parse_and_validate (aw_jwt_decode w) (pg_now (aw_auth w) (pg_count (ai_auth s))) (_bearer_token req)
      (gc_access_secret cfg) TOKEN_TYPE_ACCESS = Ok claims /\
    (p = "" \/ p ∈ c_permissions claims).
Proof.
  intros Hp. unfold eval, exec, dependencies. rewrite Hp.
  pose proof (limit_dep_data w cfg req r s) as (Hd & Ha & He).
  unfold mbind at 1 3, M_bind at 1 3. destruct (limit_dep w cfg req r s) as [[headers|e] s1]; simpl in Hd, Ha, He.
  2: { left. destruct (He e eq_refl) as (msg & hs & ->). split; [exact Hd|]. eauto 10. }
  set (now := pg_now (aw_auth w) (pg_count (ai_auth s))).
  set (s2 := Api (Pg (S (pg_count (ai_auth s1))) (pg_db (ai_auth s1))) (ai_alert s1) (ai_tenant s1) (ai_limiter s1) (ai_influx s1)).
  assert (Hclock : lift (read_clock (aw_auth w)) s1 = (Ok now, s2)) by (unfold now; by rewrite <- Ha).
  assert (Hdep : permission_dep w cfg req p s1 = (require_permission (aw_jwt_decode w) (gc_access_secret cfg) p now req, s2))
    by (unfold permission_dep; erewrite bind_ok by exact Hclock; reflexivity).
  pose proof (require_permission_spec (aw_jwt_decode w) (gc_access_secret cfg) p now req) as Hspec.
  destruct (require_permission _ _ p now req) as [claims|e].
  - right. by exists claims.
  - rewrite (bind_raise _ _ _ _ _ Hdep). left. split; [exact Hd|].
    destruct Hspec as (st & code & msg & -> & Hst). simpl. eauto 10 with lia.
Qed.

(** A route that names a permission: a valid token with it, or an [APIError]
    that leaves the stores alone. *)
Lemma guarded w cfg req r p s : ep_permission (endpoint_of r) = Some p ->
  (same_data s (exec (handle w cfg req r) s) /\ exists st code msg hs,
     eval (handle w cfg req r) s = Raise (APIError st code msg hs) /\ (st = 401 \/ st = 403 \/ st = 429)) \/
  exists claims,
    parse_and_validate (aw_jwt_decode w) (pg_now (aw_auth w) (pg_count (ai_auth s))) (_bearer_token req)
      (gc_access_secret cfg) TOKEN_TYPE_ACCESS = Ok claims /\
    (p = "" \/ p ∈ c_permissions claims).
Proof.
  intros Hp. unfold eval, exec, handle. rewrite Hp. pose proof (dependencies_spec w cfg req r p s Hp) as H.
  unfold dependencies, eval, exec in H. rewrite Hp in H. unfold mbind, M_bind in *.
  destruct (limit_dep w cfg req r s) as [[headers|e] s1]; cbn [fst snd] in *.
  - destruct (permission_dep w cfg req p s1) as [[claims|e] s2]; cbn [fst snd] in *.
    2: { destruct H as [(Hd & st & code & msg & hs & [= ->] & Hst)|H]; [left; split; [exact Hd | by eauto 10] | by right]. }
    destruct H as [(_ & st & code & msg & hs & ? & _)|H]; [done | by right].
  - destruct H as [(Hd & st & code & msg & hs & [= ->] & Hst)|H]; [left; split; [exact Hd | by eauto 10] | by right].
Qed.

(** Interpolating a text without quotes, backslashes or dollar signs cannot
    leave a quoted Flux string. *)
Definition flux_special (c : ascii) : bool := bool_decide (c ∈ chars (String "034" (String "092" "$"))).
Definition flux_safe (s : string) : Prop := Forall (fun c => flux_special c = false) (chars s).

Lemma uuid_flux_safe s n : uuid_of_string s = Some n -> flux_safe s.
Proof.
  intros Hs. apply Forall_forall. intros c Hc. pose proof (uuid_chars s n c Hs Hc) as Hu. unfold flux_special.
  apply bool_decide_eq_false. intros Hin. simpl in Hin. rewrite !elem_of_cons, elem_of_nil in Hin.
  destruct Hin as [Heq | [Heq | [Heq | []]]]; subst c; vm_compute in Hu; discriminate.
Qed.

(** What [_require_device_and_metric] guarantees when it returns, on a calm
    database. *)
Lemma require_device_spec env o u req n d device_id metric s' :
  quiet env -> pg_uuid_in env o = Some u ->
  _require_device_and_metric env o req (Pg n d) = (Ok (device_id, metric), s') ->
  flux_safe device_id /\ metric ∈ VALID_METRICS /\
  exists i, pg_uuid_in env device_id = Some i /\ device_in u d i = true.
Proof.
  intros Hq Hu. unfold _require_device_and_metric.
  set (dev := get_or (rq_query req "device_id") ""). set (met := get_or (rq_query req "metric") "").
  destruct (_ || _); [done|]. destruct (uuid_of_string dev) as [k|] eqn:Hk; [|done].
  case_bool_decide as Hm; [done|]. unfold exists_in. unfold mbind, M_bind. rewrite (execute_quiet env) by done.
  unfold with_uuid. rewrite Hu. destruct (pg_uuid_in env dev) as [i|] eqn:Hi; [|done]. unfold select. cbn [pg_db].
  destruct (device_in u d i) eqn:Hd; cbn [negb]; [|done]. intros [= <- <- _].
  split_and!; [by eapply uuid_flux_safe | exact Hm | exists i; split; [exact Hi | exact Hd]].
Qed.

(** ** Theorems *)

(** [C4] No handler runs without its permission.  Whatever the route (but login,
    refresh and logout) and the request: the answer is a 401, 403 or 429 and no
    table, refresh token or InfluxDB query was touched, unless the bearer token
    is a valid access token now whose permissions include the one the route
    names. *)
Theorem routes_require_permission (w : api_world) (cfg : api_config) (req : request) (r : route) (p : string)
    (s : api) :
  ep_permission (endpoint_of r) = Some p ->
  let '(resp, s') := serve w cfg req r s in
  (same_data s s' /\ (rs_status resp = 401 \/ rs_status resp = 403 \/ rs_status resp = 429)) \/
  exists claims,
    parse_and_validate (aw_jwt_decode w) (pg_now (aw_auth w) (pg_count (ai_auth s))) (_bearer_token req)
      (gc_access_secret cfg) TOKEN_TYPE_ACCESS = Ok claims /\
    (p = "" \/ p ∈ c_permissions claims).
Proof.
  intros Hp. unfold serve. pose proof (guarded w cfg req r p s Hp) as H. unfold eval, exec in H.
  destruct (handle w cfg req r s) as [[resp|e] s'] eqn:E; simpl in H.
  - destruct H as [(_ & st & code & msg & hs & ? & _)|H]; [done | by right].
  - destruct H as [(Hd & st & code & msg & hs & [= ->] & Hst)|H]; [left | by right]. split; [exact Hd|]. exact Hst.
Qed.

(** A preset, or bounds that [fromisoformat] accepts. *)
Definition range_clause_ok (fromisoformat : string -> bool) (rc : string) : Prop :=
  rc ∈ ["start: -5m"; "start: -1h"; "start: -24h"] \/
  exists start, fromisoformat (replace_z start) = true /\
    (rc = "start: " +:+ start \/
     exists stop, fromisoformat (replace_z stop) = true /\ rc = "start: " +:+ start +:+ ", stop: " +:+ stop).

Lemma build_range_clause_ok fromisoformat req rc :
  _build_range_clause fromisoformat req = Ok rc -> range_clause_ok fromisoformat rc.
Proof.
  unfold _build_range_clause, _is_rfc3339, range_clause_ok. cbv zeta.
  set (start := get_or (rq_query req "start") ""). set (stop := get_or (rq_query req "end") "").
  case_bool_decide as Hs; cbn [negb].
  - repeat case_bool_decide; try done; intros [= <-]; left; apply (bool_decide_unpack _); by vm_compute.
  - destruct (fromisoformat (replace_z start)) eqn:Es; cbn [negb]; [|done].
    case_bool_decide; [intros [= <-]; right; by eauto 10|].
    destruct (fromisoformat (replace_z stop)) eqn:Ee; cbn [negb]; [|done]. intros [= <-]. right. eauto 10.
Qed.

(** What a telemetry query may look like, for a caller of organization [u]. *)
Definition query_ok (w : api_world) (cfg : api_config) (u : string) (d : tenant_db) (flux : string) : Prop :=
  exists device_id metric i, flux_safe device_id /\ metric ∈ VALID_METRICS /\
    pg_uuid_in (aw_tenant w) device_id = Some i /\ device_in u d i = true /\
    (flux = flux_latest (gc_influx_bucket cfg) device_id metric \/
     exists rc, range_clause_ok (aw_fromisoformat w) rc /\ flux = flux_range (gc_influx_bucket cfg) rc device_id metric).

Lemma telemetry_step w cfg req o u s (k : string * string -> M api json) :
  quiet (aw_tenant w) -> pg_uuid_in (aw_tenant w) o = Some u ->
  (forall device_id metric i s1, flux_safe device_id -> metric ∈ VALID_METRICS ->
     pg_uuid_in (aw_tenant w) device_id = Some i -> device_in u (pg_db (ai_tenant s)) i = true ->
     ai_influx s1 = ai_influx s ->
     let s' := exec (k (device_id, metric)) s1 in
     ix_queries (ai_influx s') = ix_queries (ai_influx s) \/
     exists flux, ix_queries (ai_influx s') = ix_queries (ai_influx s) ++ [flux] /\ query_ok w cfg u (pg_db (ai_tenant s)) flux) ->
  let s' := exec (lift (_require_device_and_metric (aw_tenant w) o req) ≫= k) s in
  ix_queries (ai_influx s') = ix_queries (ai_influx s) \/
  exists flux, ix_queries (ai_influx s') = ix_queries (ai_influx s) ++ [flux] /\ query_ok w cfg u (pg_db (ai_tenant s)) flux.
Proof.
  intros Hq Hu Hk. unfold exec at 1, mbind, M_bind, lift. change (part_get s) with (ai_tenant s).
  pose proof (require_device_spec (aw_tenant w) o u req (pg_count (ai_tenant s)) (pg_db (ai_tenant s))) as Hspec.
  replace (Pg (pg_count (ai_tenant s)) (pg_db (ai_tenant s))) with (ai_tenant s) in Hspec by (by destruct (ai_tenant s)).
  destruct (_require_device_and_metric _ _ _ _) as [[[device_id metric]|e] t]; [|by left].
  destruct (Hspec device_id metric t Hq Hu eq_refl) as (H1 & H2 & i & H3 & H4). by eapply Hk.
Qed.


(** The routes that change an incident or an alert. *)
Inductive alert_write :=
  | WriteTransition (id status note : string) | WriteAssign (id user_id : string) | WriteResolve (id notes : string)
  | WriteAcknowledge (id : string).

Definition alert_write_id (x : alert_write) : string :=
  match x with WriteTransition id _ _ | WriteAssign id _ | WriteResolve id _ | WriteAcknowledge id => id end.

Definition run_alert_write (env : pg_env alert_db) (o caller : string) (x : alert_write) : M (pg alert_db) json :=
  match x with
  | WriteTransition id st note => transition_incident env o caller id st note
  | WriteAssign id user_id => assign_incident env o caller id user_id
  | WriteResolve id notes => resolve_incident env o caller id notes
  | WriteAcknowledge id => acknowledge_alert env o id
  end.

(** The row the route names belongs to organization [u]. *)
Definition names_own (u i : string) (x : alert_write) (d : alert_db) : Prop :=
  match x with
  | WriteAcknowledge _ => exists r, r ∈ db_alerts d /\ al_id r = i /\ al_organization_id r = u
  | _ => exists r, r ∈ db_incidents d /\ in_id r = i /\ in_organization_id r = u
  end.

Lemma require_incident_foreign env o u id i n d :
  quiet env -> pg_uuid_in env o = Some u -> pg_uuid_in env id = Some i ->
  ~ (exists r, r ∈ db_incidents d /\ in_id r = i /\ in_organization_id r = u) ->
  require_incident env o id (Pg n d) = (Raise (not_found "incident"), Pg (S n) d).
Proof.
  intros Hq Hu Hi Hno. unfold require_incident, get_incident.
  assert (Hnone : filter (fun r => in_id r = i /\ in_organization_id r = u) (db_incidents d) = []).
  { apply filter_none, Forall_forall. intros r Hr [H1 H2]. apply Hno. by exists r. }
  erewrite bind_ok with (a := None); [reflexivity|].
  erewrite bind_ok by (rewrite execute_quiet by done; unfold with_uuid; rewrite Hi, Hu; unfold select; cbn [pg_db];
    rewrite Hnone; reflexivity). reflexivity.
Qed.

(** [C22] Writes stay in the organization.  With nothing else at the database, a
    transition, assignment, resolution or acknowledgement that names an incident
    or alert of another organization (or none) is refused with a 400, 404 or 409,
    and no row changes. *)
Theorem foreign_alert_writes_refused (env : pg_env alert_db) (o u caller i : string) (x : alert_write) (s : pg alert_db) :
  quiet env -> pg_uuid_in env o = Some u -> pg_uuid_in env (alert_write_id x) = Some i ->
  ~ names_own u i x (pg_db s) ->
  exists status code msg s', run_alert_write env o caller x s = (Raise (api_error status code msg), s') /\
    (status = 400 \/ status = 404 \/ status = 409) /\ pg_db s' = pg_db s.
Proof.
  intros Hq Hu Hi Hno. destruct s as [n d]. destruct x as [id st note|id user|id notes|id]; cbn [run_alert_write alert_write_id names_own] in *.
  - unfold transition_incident. case_bool_decide; [by do 4 eexists; split; [reflexivity | auto]|].
    do 4 eexists. split; [apply bind_raise; by apply (require_incident_foreign env o u id i) | auto].
  - unfold assign_incident. case_bool_decide; [by do 4 eexists; split; [reflexivity | auto]|].
    do 4 eexists. split; [apply bind_raise; by apply (require_incident_foreign env o u id i) | auto].
  - unfold resolve_incident.
    do 4 eexists. split; [apply bind_raise; by apply (require_incident_foreign env o u id i) | auto].
  - unfold acknowledge_alert. 
    assert (Hhit : forall r, r ∈ db_alerts d -> bool_decide (al_id r = i /\ al_organization_id r = u /\ al_status r = "OPEN") = false).
    { intros r Hr. apply bool_decide_eq_false. intros (H1 & H2 & _). apply Hno. by exists r. }
    erewrite bind_ok with (a := 0) (s' := Pg (S n) d); [do 4 eexists; split; [reflexivity | auto]|].
    rewrite execute_quiet by done. unfold with_uuid. rewrite Hi, Hu. unfold acknowledge. cbn [pg_count pg_db]. f_equal.
    + rewrite filter_none; [done|]. apply Forall_forall. intros r Hr. by rewrite (Hhit r Hr).
    + f_equal. destruct d as [ru l inc ev]. unfold set_alerts. cbn [db_alerts db_alert_rules db_incidents db_incident_events] in *. f_equal.
      clear - Hhit. induction l as [|r l IH]; [done|]. simpl. rewrite (Hhit r) by by left. f_equal.
      apply IH. intros r' Hr'. apply Hhit. by right.
Qed.

(** [uuid.UUID] accepts texts that Postgres does not cast to [uuid]: the check
    of the device id passes, and the server's error is answered with a 500. *)
Theorem urn_device_id_is_internal_error (tenv : pg_env tenant_db) (o : string) (n : nat) (d : tenant_db) :
  let device_id := "urn:uuid:12345678-1234-5678-1234-567812345678" in
  let req := Request (fun _ => None) (fun k => if bool_decide (k = "device_id") then Some device_id
                        else if bool_decide (k = "metric") then Some "temperature" else None) None "r" in
  quiet tenv -> pg_uuid_in tenv device_id = None ->
  exists e s', _require_device_and_metric tenv o req (Pg n d) = (Raise e, s') /\
    rs_status (error_response "r" e) = 500.
Proof.
  cbn zeta. set (dev := "urn:uuid:12345678-1234-5678-1234-567812345678"). intros Hq Hno.
  match goal with |- context [_require_device_and_metric tenv o ?r] => set (req := r) end.
  unfold _require_device_and_metric.
  replace (get_or (rq_query req "device_id") "") with dev by (by vm_compute).
  replace (get_or (rq_query req "metric") "") with "temperature" by (by vm_compute).
  replace (bool_decide (dev = "") || bool_decide ("temperature" = "")) with false by (by vm_compute).
  replace (uuid_of_string dev) with (Some 24197857161011715162171839636988778104) by (by vm_compute).
  replace (bool_decide ("temperature" ∉ VALID_METRICS)) with false by (by vm_compute).
  do 2 eexists. split; [|shelve]. apply bind_raise. unfold exists_in. rewrite (execute_quiet tenv) by done.
  unfold with_uuid. rewrite Hno. reflexivity.
  Unshelve. reflexivity.
Qed.

(** *** An example surrounding *)

Definition demo_api_world : api_world :=
  ApiWorld (PgEnv (fun _ => None) (fun _ d => d) (fun _ => 0) (fun n => "u" +:+ pretty n) Some)
    (demo_alert_env (fun _ d => d)) demo_tenant_env slow_limiter_world
    (fun _ _ => "token")
    (fun t _ _ => if bool_decide (t = "good") then Ok (Payload None None None None (Some "user") (Some "a") None None
                                                       (Some [PERM_DEVICES_READ]) (Some TOKEN_TYPE_ACCESS))
                  else Raise (OtherError "DecodeError" "bad token"))
    (fun _ _ => Ok true) (fun _ => "hash") String.leb demo_token (fun _ => true) (fun _ _ => Ok []) (fun r => get_or (rq_client r) "").

Definition demo_api_config : api_config := ApiConfig "access" "refresh" 900 3600 "telemetry" 10 120.

Definition demo_api : api := Api (Pg 0 (AuthDb [] [] [] ∅)) (Pg 0 (AlertDb [] [] [] [])) (Pg 0 demo_tenants) (Limiter 0 ∅) (Influx []).

Definition demo_request (auth : string) (query : list (string * string)) : request :=
  Request (fun h => if bool_decide (h = "Authorization") then Some auth else None) (dict_get query) (Some "1.1.1.1") "r1".

(** A valid token that lacks the permission of the route. *)
Lemma routes_require_permission_witness :
  let req := demo_request "Bearer good" [] in
  rs_status (fst (serve demo_api_world demo_api_config req (RRotate "d1") demo_api)) = 403 /\
  let '(resp, s') := serve demo_api_world demo_api_config req (RRotate "d1") demo_api in
  (same_data demo_api s' /\ (rs_status resp = 401 \/ rs_status resp = 403 \/ rs_status resp = 429)) \/
  exists claims,
    parse_and_validate (aw_jwt_decode demo_api_world) 0 (_bearer_token req) "access" TOKEN_TYPE_ACCESS = Ok claims /\
    (PERM_DEVICES_WRITE = "" \/ PERM_DEVICES_WRITE ∈ c_permissions claims).
Proof.
  cbn zeta. split; [by vm_compute|].
  apply (routes_require_permission demo_api_world demo_api_config (demo_request "Bearer good" []) (RRotate "d1") PERM_DEVICES_WRITE demo_api).
  reflexivity.
Defined.


(** An incident of another organization. *)
Lemma foreign_alert_writes_refused_witness :
  let s := Pg 0 (AlertDb [] [] [IncidentRow "i" "b" None None None None None "HIGH" "OPEN" "hot" "" None None 0 None None] []) in
  ~ names_own "a" "i" (WriteResolve "i" "fixed") (pg_db s) /\
  exists status code msg s', run_alert_write (demo_alert_env (fun _ d => d)) "a" "user" (WriteResolve "i" "fixed") s =
      (Raise (api_error status code msg), s') /\
    (status = 400 \/ status = 404 \/ status = 409) /\ pg_db s' = pg_db s.
Proof.
  assert (Hno : ~ names_own "a" "i" (WriteResolve "i" "fixed")
    (AlertDb [] [] [IncidentRow "i" "b" None None None None None "HIGH" "OPEN" "hot" "" None None 0 None None] [])).
  { intros (r & Hr & _ & Ho). cbn [db_incidents] in Hr. apply list_elem_of_singleton in Hr as ->. discriminate Ho. }
  split; [exact Hno|].
  by apply (foreign_alert_writes_refused (demo_alert_env (fun _ d => d)) "a" "a" "user" "i" (WriteResolve "i" "fixed")
    (Pg 0 (AlertDb [] [] [IncidentRow "i" "b" None None None None None "HIGH" "OPEN" "hot" "" None None 0 None None] []))).
Defined.
