(* ===== verification/WsHub.v ===== *)
(** [api/ws_alerts.py]: the hub of WebSocket clients and the fan-out of alert
    events.  Every [await] of the hub is a point where other tasks run, so a
    broadcast is two kinds of steps: choosing the targets under the lock, and
    sending to one target after the other. *)

From stdpp Require Import prelude strings.
From Stdlib Require Import ZArith Lia.
From S2P Require Import Prelude PyFloat Effects Auth Events Reliability Kafka.

Local Open Scope Z_scope.

(** A connection, as the identity of its [WebSocket] object. *)
Abbreviation websocket := nat.

(** One broadcast under way: the organization, the text, the targets left. *)
Record broadcast := Broadcast { bc_org : string; bc_text : string; bc_targets : list websocket }.

Record hub := Hub {
  (** [_clients], in insertion order *)
  hb_clients : list (websocket * string);
  hb_broadcasts : list broadcast;
  (** what the sockets sent, in order: connection, organization of the event, text *)
  hb_sent : list (websocket * string * string);
  (** the gauge [websocket_connections] *)
  hb_gauge : Z;
  (** connections that were closed by the server *)
  hb_closed : list websocket;
  (** [_loop] is bound *)
  hb_bound : bool
}.

Definition new_hub : hub := Hub [] [] [] 0 [] false.

Definition set_clients (cs : list (websocket * string)) (h : hub) : hub :=
  Hub cs (hb_broadcasts h) (hb_sent h) (Z.of_nat (length cs)) (hb_closed h) (hb_bound h).
Definition set_broadcasts (bs : list broadcast) (h : hub) : hub :=
  Hub (hb_clients h) bs (hb_sent h) (hb_gauge h) (hb_closed h) (hb_bound h).

(** [bind_loop]. *)
Definition bind_loop (h : hub) : hub :=
  Hub (hb_clients h) (hb_broadcasts h) (hb_sent h) (hb_gauge h) (hb_closed h) true.

(** [self._clients[ws] = org_id]: in place, or at the end. *)
Fixpoint put_client (ws : websocket) (org : string) (cs : list (websocket * string)) : list (websocket * string) :=
  match cs with
  | [] => [(ws, org)]
  | (ws', org') :: cs => if bool_decide (ws' = ws) then (ws, org) :: cs else (ws', org') :: put_client ws org cs
  end.

Definition register (ws : websocket) (org_id : string) (h : hub) : hub := set_clients (put_client ws org_id (hb_clients h)) h.

(** [unregister]: the [pop], the gauge, and the [close] whose errors are ignored. *)
Definition unregister (ws : websocket) (h : hub) : hub :=
  let h := set_clients (filter (fun c => c.1 <> ws) (hb_clients h)) h in
  Hub (hb_clients h) (hb_broadcasts h) (hb_sent h) (hb_gauge h) (hb_closed h ++ [ws]) (hb_bound h).

(** The part of [_broadcast_async] under the lock. *)
Definition start_broadcast (org_id text : string) (h : hub) : hub :=
  let targets := fst <$> filter (fun c => c.2 = org_id) (hb_clients h) in
  set_broadcasts (hb_broadcasts h ++ [Broadcast org_id text targets]) h.

(** [broadcast_threadsafe]; [payload.decode("utf-8")] is part of the task. *)
Definition broadcast_threadsafe (org_id : string) (text : res string) (h : hub) : hub :=
  if negb (hb_bound h) then h
  else match text with Ok text => start_broadcast org_id text h | Raise _ => h end.

(** One [await ws.send_text(text)] of the [i]-th broadcast under way; a failure
    drops the client. *)
Definition send_step (i : nat) (sent : bool) (h : hub) : hub :=
  match hb_broadcasts h !! i with
  | Some (Broadcast org text (ws :: targets)) =>
      let h := set_broadcasts (<[i := Broadcast org text targets]> (hb_broadcasts h)) h in
      if (sent : bool)
      then Hub (hb_clients h) (hb_broadcasts h) (hb_sent h ++ [(ws, org, text)]) (hb_gauge h) (hb_closed h) (hb_bound h)
      else unregister ws h
  | _ => h
  end.

(** [_connect]: the handshake of [ws_alerts], with the claims of the token. *)
Definition connect (ws : websocket) (claims : res Claims) (h : hub) : hub :=
  match claims with
  | Raise _ => Hub (hb_clients h) (hb_broadcasts h) (hb_sent h) (hb_gauge h) (hb_closed h ++ [ws]) (hb_bound h)
  | Ok claims => register ws (c_organization_id claims) h
  end.

(** One message of the alerts topic in [run_alerts_fan_out]. *)
Definition fan_out (load : string -> res AlertEvent) (decode : string -> res string) (raw : string) (h : hub) : hub :=
  match load raw with
  | Raise _ => h
  | Ok evt => broadcast_threadsafe (ae_organization_id evt) (decode raw) h
  end.

(** The loop of [run_alerts_fan_out]: the commit comes first, and a
    [KafkaException] of it is ignored. *)
Fixpoint run_alerts_fan_out (load : string -> res AlertEvent) (decode : string -> res string) (events : list poll_event)
  : M hub unit :=
  match events with
  | [] => mret tt
  | (PollError | PollNone) :: events => run_alerts_fan_out load decode events
  | PollMessage m commit_error :: events =>
      try_except (of_res (match commit_error with Some e => Raise e | None => Ok tt end))
        (fun e => if is_kafka_exception e then mret tt else raise e) ;;
      modify (fan_out load decode (ft_value m)) ;;
      run_alerts_fan_out load decode events
  end.

(** What the event loop and the consumer thread do, in any order. *)
Inductive hub_op :=
  | HBind
  | HConnect (ws : websocket) (token : string) (now : Z)
  | HDisconnect (ws : websocket)
  | HMessage (raw : string)
  | HSend (i : nat) (sent : bool).

Section Hub.
  Variable jwt_decode : string -> string -> Z -> res payload.
  Variable access_secret : string.
  Variable load : string -> res AlertEvent.
  Variable decode : string -> res string.

Definition claims_of (token : string) (now : Z) : res Claims :=
  parse_and_validate jwt_decode now token access_secret TOKEN_TYPE_ACCESS.

Definition hub_step (o : hub_op) (h : hub) : hub :=
  match o with
  | HBind => bind_loop h
  | HConnect ws token now => connect ws (claims_of token now) h
  | HDisconnect ws => unregister ws h
  | HMessage raw => fan_out load decode raw h
  | HSend i sent => send_step i sent h
  end.

Definition hub_run (ops : list hub_op) (h : hub) : hub := foldl (fun h o => hub_step o h) h ops.

(** Connection [ws] was accepted with a token of organization [org]. *)
Definition accepted (ops : list hub_op) (ws : websocket) (org : string) : Prop :=
  exists token now claims, HConnect ws token now ∈ ops /\ claims_of token now = Ok claims /\
    c_organization_id claims = org.

(** An event of organization [org] with this text came from the topic. *)
Definition announced (ops : list hub_op) (org text : string) : Prop :=
  exists raw evt, HMessage raw ∈ ops /\ load raw = Ok evt /\ decode raw = Ok text /\ ae_organization_id evt = org.

(** ** Lemmas *)

Definition hub_ok (ops : list hub_op) (h : hub) : Prop :=
  (forall ws org, (ws, org) ∈ hb_clients h -> accepted ops ws org) /\
  (forall b, b ∈ hb_broadcasts h -> announced ops (bc_org b) (bc_text b) /\
     forall ws, ws ∈ bc_targets b -> accepted ops ws (bc_org b)) /\
  (forall ws org text, (ws, org, text) ∈ hb_sent h -> announced ops org text /\ accepted ops ws org) /\
  hb_gauge h = Z.of_nat (length (hb_clients h)).

Lemma accepted_weaken ops ops' ws org : accepted ops ws org -> accepted (ops ++ ops') ws org.
Proof. intros (t & n & c & Hin & H). exists t, n, c. split; [apply elem_of_app; by left | done]. Qed.

Lemma announced_weaken ops ops' org text : announced ops org text -> announced (ops ++ ops') org text.
Proof. intros (r & e & Hin & H). exists r, e. split; [apply elem_of_app; by left | done]. Qed.

Lemma hub_ok_weaken ops ops' h : hub_ok ops h -> hub_ok (ops ++ ops') h.
Proof.
  intros (H1 & H2 & H3 & H4). split_and!.
  - intros ws org Hin. by apply accepted_weaken, H1.
  - intros b Hb. destruct (H2 b Hb) as [Ha Ht]. split; [by apply announced_weaken|]. intros. by apply accepted_weaken, Ht.
  - intros ws org text Hin. destruct (H3 _ _ _ Hin). split; [by apply announced_weaken | by apply accepted_weaken].
  - done.
Qed.

Lemma put_client_in ws org cs c : c ∈ put_client ws org cs -> c = (ws, org) \/ c ∈ cs.
Proof.
  induction cs as [|[ws' org'] cs IH]; simpl; [intros [-> | Hin%elem_of_nil]%elem_of_cons; [by left | done]|].
  case_bool_decide; intros [-> | Hin]%elem_of_cons.
  - by left.
  - right. by right.
  - right. by left.
  - destruct (IH Hin) as [-> | Hc]; [by left | right; by right].
Qed.

Lemma unregister_ok ops ws h : hub_ok ops h -> hub_ok ops (unregister ws h).
Proof.
  intros (H1 & H2 & H3 & H4). unfold unregister. split_and!; cbn; [|done..].
  intros ws' org [_ Hin]%list_elem_of_filter. by apply H1.
Qed.

Lemma send_step_ok ops i sent h : hub_ok ops h -> hub_ok ops (send_step i sent h).
Proof.
  intros (H1 & H2 & H3 & H4). unfold send_step. destruct (hb_broadcasts h !! i) as [[org text [|ws targets]]|] eqn:E; try done.
  assert (Hb := list_elem_of_lookup_2 _ _ _ E). destruct (H2 _ Hb) as [Hann Hacc]. cbn in Hann, Hacc.
  assert (H2' : forall b, b ∈ <[i := Broadcast org text targets]> (hb_broadcasts h) -> announced ops (bc_org b) (bc_text b) /\
     forall ws, ws ∈ bc_targets b -> accepted ops ws (bc_org b)).
  { intros b Hin. apply list_elem_of_lookup in Hin as [j Hj]. destruct (decide (i = j)) as [<-|Hne].
    - rewrite list_lookup_insert_eq in Hj by (by eapply lookup_lt_Some). injection Hj as <-. cbn.
      split; [done|]. intros ws' Hws. apply Hacc. by right.
    - rewrite list_lookup_insert_ne in Hj by done. apply H2. by eapply list_elem_of_lookup_2. }
  destruct sent.
  - split_and!; cbn; [done | done | | done]. intros ws' org' text' [Hin | Hin]%elem_of_app; [by apply H3|].
    apply list_elem_of_singleton in Hin. injection Hin as -> -> ->. split; [done|]. apply Hacc. by left.
  - apply unregister_ok. by split_and!.
Qed.

Lemma hub_step_ok ops o h : hub_ok ops h -> hub_ok (ops ++ [o]) (hub_step o h).
Proof.
  intros Hok. assert (Hw := hub_ok_weaken ops [o] h Hok).
  assert (Ho : o ∈ ops ++ [o]) by (apply elem_of_app; right; by left).
  destruct o as [|ws token now|ws|raw|i sent]; cbn [hub_step].
  - by destruct Hw as (? & ? & ? & ?); split_and!.
  - unfold connect. destruct (claims_of token now) as [claims|e] eqn:E; [|by destruct Hw as (? & ? & ? & ?); split_and!].
    destruct Hw as (H1 & H2 & H3 & H4). split_and!; cbn; [|done..].
    intros ws' org' Hin. apply put_client_in in Hin as [[= -> ->] | Hin]; [|by apply H1]. by exists token, now, claims.
  - by apply unregister_ok.
  - unfold fan_out, broadcast_threadsafe. destruct (load raw) as [evt|] eqn:El; [|done].
    destruct (negb (hb_bound h)); [done|]. destruct (decode raw) as [text|] eqn:Ed; [|done].
    destruct Hw as (H1 & H2 & H3 & H4). split_and!; cbn; [done | | done | done].
    intros b [Hb | Hb]%elem_of_app; [by apply H2|]. apply list_elem_of_singleton in Hb as ->. cbn.
    split; [by exists raw, evt|]. intros ws (c & -> & Hc)%list_elem_of_fmap. apply list_elem_of_filter in Hc as [<- Hc].
    apply H1. by destruct c.
  - by apply send_step_ok.
Qed.

Lemma hub_run_ok ops : hub_ok ops (hub_run ops new_hub).
Proof.
  induction ops as [|o ops IH] using rev_ind.
  - split_and!; cbn; intros; try done; by (match goal with H : _ ∈ [] |- _ => apply elem_of_nil in H end).
  - unfold hub_run. rewrite foldl_app. by apply hub_step_ok.
Qed.

(** *** What a broadcast owes its targets *)

(** Since [sent0]: connection [ws] was closed, or sent the text, or is still
    ahead of the [i]-th broadcast. *)
Definition served (i : nat) (sent0 : list (websocket * string * string)) (ws : websocket) (org text : string) (h : hub) : Prop :=
  exists l, hb_sent h = sent0 ++ l /\
    (ws ∈ hb_closed h \/ (ws, org, text) ∈ l \/
     exists targets, hb_broadcasts h !! i = Some (Broadcast org text targets) /\ ws ∈ targets).

Lemma served_sends i sent0 ws org text h j sent : served i sent0 ws org text h -> served i sent0 ws org text (send_step j sent h).
Proof.
  intros (l & Hl & Hs). unfold send_step. destruct (hb_broadcasts h !! j) as [[org' text' [|ws' targets]]|] eqn:E; [by exists l| |by exists l].
  assert (Hj := lookup_lt_Some _ _ _ E).
  assert (Hb : forall targets0, hb_broadcasts h !! i = Some (Broadcast org text targets0) -> ws ∈ targets0 ->
    (j = i /\ ws = ws' /\ org = org' /\ text = text') \/
    exists targets1, <[j := Broadcast org' text' targets]> (hb_broadcasts h) !! i = Some (Broadcast org text targets1) /\ ws ∈ targets1).
  { intros targets0 Hi Hin. destruct (decide (j = i)) as [<-|Hne].
    - rewrite E in Hi. injection Hi as -> -> <-. apply elem_of_cons in Hin as [->|Hin]; [by left|]. right. exists targets.
      by rewrite list_lookup_insert_eq.
    - right. exists targets0. by rewrite list_lookup_insert_ne. }
  destruct sent; [exists (l ++ [(ws', org', text')]) | exists l]; cbn; (split; [by rewrite ?Hl, ?app_assoc|]).
  - destruct Hs as [Hc|[Hin|(targets0 & Hi & Hin)]]; [by left | right; left; apply elem_of_app; by left|]. right.
    destruct (Hb _ Hi Hin) as [(_ & -> & -> & ->)|Ht]; [left; apply elem_of_app; right; by left | by right].
  - destruct Hs as [Hc|[Hin|(targets0 & Hi & Hin)]]; [left; apply elem_of_app; by left | right; by left|].
    destruct (Hb _ Hi Hin) as [(_ & -> & _)|Ht]; [left; apply elem_of_app; right; by left | right; by right].
Qed.

Lemma served_keeps i sent0 ws org text h h' : served i sent0 ws org text h ->
  hb_sent h' = hb_sent h -> hb_closed h ⊆ hb_closed h' -> (exists bs, hb_broadcasts h' = hb_broadcasts h ++ bs) ->
  served i sent0 ws org text h'.
Proof.
  intros (l & Hl & Hs) Hsent Hcl [bs Hb]. exists l. split; [congruence|]. destruct Hs as [Hc|[Hin|(t & Hi & Hin)]].
  - left. by apply Hcl.
  - right. by left.
  - right. right. exists t. split; [|done]. rewrite Hb. by apply lookup_app_l_Some.
Qed.

Lemma served_step i sent0 ws org text o h : served i sent0 ws org text h -> served i sent0 ws org text (hub_step o h).
Proof.
  intros Hs. assert (Hn : forall l : list broadcast, exists bs, l = l ++ bs) by (intros l; exists []; by rewrite app_nil_r).
  destruct o as [|ws' token now|ws'|raw|j sent]; cbn [hub_step]; [..|by apply served_sends];
    (eapply served_keeps; [exact Hs|..]); unfold connect, fan_out, broadcast_threadsafe; repeat case_match; cbn;
    first [done | apply Hn | set_solver | eexists; reflexivity].
Qed.

Lemma served_run i sent0 ws org text ops h : served i sent0 ws org text h -> served i sent0 ws org text (hub_run ops h).
Proof. revert h. induction ops as [|o ops IH]; intros h Hs; [done|]. cbn. by apply IH, served_step. Qed.

(** A message that can be broadcast owes its text to the clients of its
    organization. *)
Lemma fan_out_served raw evt text ws h : load raw = Ok evt -> decode raw = Ok text -> hb_bound h = true ->
  (ws, ae_organization_id evt) ∈ hb_clients h ->
  served (length (hb_broadcasts h)) (hb_sent h) ws (ae_organization_id evt) text (fan_out load decode raw h).
Proof.
  intros Hl Hd Hb Hc. unfold fan_out, broadcast_threadsafe. rewrite Hl, Hd, Hb. cbn. exists []. rewrite app_nil_r. split; [done|].
  right. right. eexists. split; [by apply list_lookup_middle|]. apply list_elem_of_fmap. exists (ws, ae_organization_id evt).
  split; [done|]. by apply list_elem_of_filter.
Qed.

(** ** Theorems *)

(** [C26] The live feed keeps organizations apart and skips nobody.  Whatever
    connections, messages, failures and interleavings of the hub's steps:
    everything a socket was sent is the text of an event from the alerts topic,
    and the socket was accepted with a valid access token of that event's
    organization; the gauge is the number of clients; and a client that is
    registered for the organization of a message when its broadcast begins has
    been sent its text since, or was closed, or is still ahead of that broadcast. *)
Theorem feed_isolates_organizations (ops : list hub_op) :
  let h := hub_run ops new_hub in
  (forall ws org text, (ws, org, text) ∈ hb_sent h -> announced ops org text /\ accepted ops ws org) /\
  hb_gauge h = Z.of_nat (length (hb_clients h)) /\
  (forall before raw after evt text ws, ops = before ++ HMessage raw :: after -> load raw = Ok evt -> decode raw = Ok text ->
     let h0 := hub_run before new_hub in
     hb_bound h0 = true -> (ws, ae_organization_id evt) ∈ hb_clients h0 ->
     served (length (hb_broadcasts h0)) (hb_sent h0) ws (ae_organization_id evt) text h).
Proof.
  destruct (hub_run_ok ops) as (_ & _ & H3 & H4). split_and!; [done | done|].
  intros before raw after evt text ws -> Hl Hd h0 Hb Hc. unfold hub_run. rewrite foldl_app. cbn. by apply served_run, fan_out_served.
Qed.

End Hub.
