(* ===== verification/Sessions.v ===== *)
(** The abstract contract of the login service ([shared/auth.py]): a map of live
    sessions that only a login with the right password adds to and that a refresh
    moves, never copies.  The service of [Auth] refines it, whatever Redis or
    Postgres fail and in whatever order the requests come. *)

From stdpp Require Import prelude strings gmap.
From Stdlib Require Import ZArith Lia.
From S2P Require Import Prelude Effects Postgres Auth.

Local Open Scope Z_scope.

(** ** The specification *)

(** Live sessions: the user of each refresh token's key. *)
Abbreviation sessions := (gmap string string).

(** The sessions of the service's store. *)
Definition session_of (d : auth_db) : sessions := fst <$> db_redis d.

Section Spec.
  Variable checkpw : list Z -> string -> res bool.
  Variable jwt_decode : string -> string -> Z -> res payload.
  Variable refresh_secret : string.

(** The claims of a refresh token that was valid at some time. *)
Definition token_claims (token : string) (c : Claims) : Prop :=
  exists now, parse_and_validate jwt_decode now token refresh_secret TOKEN_TYPE_REFRESH = Ok c.

Definition session_key (c : Claims) : string := _refresh_redis_key (c_jti c).

(** The request that may end a session of these claims. *)
Definition names (o : auth_op) (c : Claims) : Prop :=
  match o with ReqLogin _ _ _ => False | ReqRefresh token _ | ReqLogout token _ => token_claims token c end.

(** What one request may do to the sessions; [users] are the rows of [users]. *)
Inductive session_step (users : list user_row) : auth_op -> sessions -> sessions -> Prop :=
  | step_stutter o S : session_step users o S S
  | step_login email password ip u key S :
      head (filter (fun u => us_email u = email) users) = Some u ->
      verify_password checkpw (us_password_hash u) password = Ok true -> us_is_active u = true ->
      session_step users (ReqLogin email password ip) S (<[key := us_id u]> S)
  | step_move token ip c key S :
      token_claims token c -> is_Some (S !! session_key c) ->
      session_step users (ReqRefresh token ip) S (<[key := c_user_id c]> (delete (session_key c) S))
  | step_end o c S : names o c -> session_step users o S (delete (session_key c) S).

(** A history of requests. *)
Inductive session_run (users : list user_row) : list auth_op -> sessions -> sessions -> Prop :=
  | run_nil S : session_run users [] S S
  | run_cons o ops S S' S'' : session_step users o S S' -> session_run users ops S' S'' -> session_run users (o :: ops) S S''.

Definition is_login (o : auth_op) : bool := match o with ReqLogin _ _ _ => true | _ => false end.

(** ** What the specification guarantees *)

Lemma size_insert_le (S : sessions) k u : (size (<[k := u]> S) <= size S + 1)%nat.
Proof. rewrite map_size_insert. destruct (S !! k); simpl; lia. Qed.

Lemma size_delete_le (S : sessions) k : (size (delete k S) <= size S)%nat.
Proof. rewrite map_size_delete. destruct (S !! k); simpl; lia. Qed.

Lemma step_size users o S S' : session_step users o S S' -> (size S' <= size S + if is_login o then 1 else 0)%nat.
Proof.
  destruct 1 as [o S | | token ip c key S _ [u Hu] | o c S _]; simpl.
  - lia.
  - apply size_insert_le.
  - pose proof (size_insert_le (delete (session_key c) S) key (c_user_id c)) as Hi.
    rewrite map_size_delete, Hu in Hi. simpl in Hi.
    assert (size S <> 0)%nat by (intros H0%map_size_empty_inv; subst S; by rewrite lookup_empty in Hu). lia.
  - pose proof (size_delete_le S (session_key c)). lia.
Qed.

Lemma run_size users ops S S' : session_run users ops S S' -> (size S' <= size S + length (filter is_login ops))%nat.
Proof.
  induction 1 as [S | o ops S S' S'' Hs _ IH]; [lia|]. apply step_size in Hs. rewrite filter_cons.
  destruct (is_login o); simpl; lia.
Qed.

End Spec.

(** ** The implementation *)

Section Refines.
  Variable env : pg_env auth_db.
  Variable checkpw : list Z -> string -> res bool.
  Variable jwt_encode : payload -> string -> string.
  Variable jwt_decode : string -> string -> Z -> res payload.
  Variables access_secret refresh_secret : string.
  Variables access_ttl refresh_ttl : Z.
  (** The other clients leave the sessions and the users alone. *)
  Hypothesis others_keep : forall n d,
    db_redis (pg_others env n d) = db_redis d /\ db_users (pg_others env n d) = db_users d.

(** Same sessions, same users. *)
Definition same_sessions (d d' : auth_db) : Prop := db_redis d' = db_redis d /\ db_users d' = db_users d.

Definition kept (s s' : pg auth_db) : Prop := same_sessions (pg_db s) (pg_db s').

#[local] Instance kept_preorder : PreOrder kept.
Proof. split; [by intros s | intros a b c [H1 H2] [H3 H4]; split; congruence]. Qed.

Lemma kept_execute {A} (stmt : statement auth_db A) :
  (forall now uuid d, same_sessions d (snd (stmt now uuid d))) -> moves kept (execute env stmt).
Proof.
  intros Hs. apply moves_execute; [intros a b c [H1 H2] [H3 H4]; split; congruence | intros n d; apply others_keep | auto].
Qed.

Lemma kept_log org user action result ip meta : moves kept (_log_auth env org user action result ip meta).
Proof.
  apply moves_try; [apply _ | | intros; by apply moves_ret, _]. apply kept_execute. intros now uuid d.
  unfold with_uuid_opt, with_uuid. repeat case_match; done.
Qed.

Lemma kept_roles user : moves kept (_roles_for_user env user).
Proof. apply kept_execute. intros now uuid d. unfold with_uuid. by case_match. Qed.

Lemma kept_session s s' : kept s s' -> session_of (pg_db s') = session_of (pg_db s).
Proof. intros [H _]. unfold session_of. by rewrite H. Qed.

(** A pair adds one session or none. *)
Lemma issue_session user org email roles s :
  let s' := snd (_issue_pair env jwt_encode access_secret refresh_secret access_ttl refresh_ttl user org email roles s) in
  db_users (pg_db s') = db_users (pg_db s) /\
  (session_of (pg_db s') = session_of (pg_db s) \/ exists key, session_of (pg_db s') = <[key := user]> (session_of (pg_db s))).
Proof.
  unfold _issue_pair. do 4 (erewrite bind_ok by reflexivity). unfold mbind, M_bind, execute, redis_set_ex. simpl.
  match goal with |- context [pg_others env ?n ?d] => destruct (others_keep n d) as [Hr Hu]; set (d1 := pg_others env n d) in * end.
  assert (Hd1 : session_of d1 = session_of (pg_db s)) by (unfold session_of; by rewrite Hr).
  destruct (_ <=? 0); simpl.
  - destruct (pg_fault _ _) as [[[] e]|]; simpl; (split; [done | by left]).
  - destruct (pg_fault _ _) as [[[] e]|]; simpl; (split; [done|]); first [by left | right];
      eexists; unfold session_of; simpl; rewrite fmap_insert; simpl; by rewrite Hr.
Qed.

(** Redeeming or revoking a key deletes it or does nothing; when it counts as
    one, the key was there. *)
Lemma delete_session key s :
  let '(r, s') := execute env (redis_delete key) s in
  db_users (pg_db s') = db_users (pg_db s) /\
  (session_of (pg_db s') = session_of (pg_db s) \/ session_of (pg_db s') = delete key (session_of (pg_db s))) /\
  (forall n, r = Ok n -> n <> 0 -> is_Some (session_of (pg_db s) !! key) /\ session_of (pg_db s') = delete key (session_of (pg_db s))).
Proof.
  unfold execute, redis_delete. destruct (others_keep (pg_count s) (pg_db s)) as [Hr Hu]. rewrite Hr.
  assert (Hs : session_of (pg_others env (pg_count s) (pg_db s)) = session_of (pg_db s)) by (unfold session_of; by rewrite Hr).
  destruct (db_redis (pg_db s) !! key) as [[v ex]|] eqn:E; destruct (pg_fault env (pg_count s)) as [[[] e]|]; simpl;
    (split; [done|]); (split; [first [by left | right; unfold session_of; simpl; by rewrite fmap_delete]|]); intros n; try done.
  - intros _ _. unfold session_of. simpl. rewrite lookup_fmap, E, fmap_delete. split; [by eexists | done].
  - by intros [= <-].
Qed.

(** What serving a request does, seen from the specification. *)
Definition steps (o : auth_op) (s s' : pg auth_db) : Prop :=
  db_users (pg_db s') = db_users (pg_db s) /\
  session_step checkpw jwt_decode refresh_secret (db_users (pg_db s)) o (session_of (pg_db s)) (session_of (pg_db s')).

Lemma kept_steps o s s' : kept s s' -> steps o s s'.
Proof. intros Hk. split; [apply Hk|]. rewrite (kept_session s s' Hk). apply step_stutter. Qed.

Lemma kept_before o s s1 s2 : kept s s1 -> steps o s1 s2 -> steps o s s2.
Proof.
  intros Hk [Hu Hs]. destruct (Hk) as [_ Hu1]. split; [congruence|]. by rewrite <- (kept_session s s1 Hk), <- Hu1.
Qed.

Lemma kept_after o s s1 s2 : steps o s s1 -> kept s1 s2 -> steps o s s2.
Proof.
  intros [Hu Hs] Hk. destruct (Hk) as [_ Hu1]. split; [congruence|]. by rewrite (kept_session s1 s2 Hk).
Qed.

Lemma kept_reject {A} org user action result ip meta e :
  moves kept (_log_auth env org user action result ip meta ;; raise (A:=A) e).
Proof. apply moves_bind; [apply _ | apply kept_log | intros _; by apply moves_raise, _]. Qed.

Lemma login_steps email password ip s :
  steps (ReqLogin email password ip) s
    (snd (login env checkpw jwt_encode access_secret refresh_secret access_ttl refresh_ttl email password ip s)).
Proof.
  unfold login. unfold mbind at 1, M_bind at 1.
  pose proof (kept_execute (select (find_user email)) ltac:(by intros) s) as Hk.
  destruct (execute env (select (find_user email)) s) as [[row|e] s1] eqn:E; [|by apply kept_steps].
  apply (kept_before _ s s1 _ Hk).
  assert (Hrow : row = head (filter (fun u => us_email u = email) (db_users (pg_db s1)))).
  { unfold execute, select in E. simpl in E. destruct (pg_fault _ _) as [[[]]|]; [done..|]. by injection E as <- <-. }
  destruct row as [u|]; [|apply kept_steps, kept_reject].
  unfold mbind at 1, M_bind at 1, of_res. destruct (verify_password checkpw (us_password_hash u) password) as [ok|] eqn:Ev;
    [|by apply kept_steps].
  destruct ok; cbn [negb]; [|apply kept_steps, kept_reject].
  destruct (us_is_active u) eqn:Ea; cbn [negb]; [|apply kept_steps, kept_reject].
  unfold mbind at 1, M_bind at 1. pose proof (kept_roles (us_id u) s1) as Hk2.
  destruct (_roles_for_user env (us_id u) s1) as [[roles|] s2]; [|by apply kept_steps].
  pose proof (issue_session (us_id u) (us_organization_id u) email roles s2) as Hi. cbv zeta in Hi.
  unfold mbind at 1, M_bind at 1. destruct (_issue_pair _ _ _ _ _ _ _ _ _ _ s2) as [r s3]. simpl in Hi.
  assert (H3 : steps (ReqLogin email password ip) s1 s3).
  { destruct Hi as [Hu Hi]. split; [rewrite Hu; apply Hk2|]. rewrite (kept_session s1 s2 Hk2) in Hi.
    destruct Hi as [-> | [key ->]]; [apply step_stutter | by apply step_login]. }
  destruct r as [pair|e]; [|done]. eapply kept_after; [exact H3|].
  apply moves_bind; [apply _ | apply kept_log | intros _; by apply moves_ret, _].
Qed.

(** Past [parse_refresh], the token's claims are at hand. *)
Lemma parse_refresh_steps token s :
  let '(r, s') := parse_refresh env jwt_decode refresh_secret token s in
  kept s s' /\ forall c, r = Ok c -> token_claims jwt_decode refresh_secret token c.
Proof.
  unfold parse_refresh. erewrite bind_ok by reflexivity.
  destruct (parse_and_validate _ _ _ _ _) as [c|] eqn:E; simpl; (split; [done|]); [|done].
  intros c' [= <-]. by eexists.
Qed.

Lemma refresh_steps token ip s :
  steps (ReqRefresh token ip) s
    (snd (refresh_access_token env jwt_encode jwt_decode access_secret refresh_secret access_ttl refresh_ttl token ip s)).
Proof.
  unfold refresh_access_token. unfold mbind at 1, M_bind at 1. pose proof (parse_refresh_steps token s) as Hp.
  destruct (parse_refresh env jwt_decode refresh_secret token s) as [[c|] s1]; destruct Hp as [Hk Hc]; [|by apply kept_steps].
  specialize (Hc c eq_refl). apply (kept_before _ s s1 _ Hk).
  unfold mbind at 1, M_bind at 1. pose proof (delete_session (_refresh_redis_key (c_jti c)) s1) as Hd.
  destruct (execute env (redis_delete _) s1) as [r s2]. destruct Hd as (Hu & Hd & Hok).
  assert (H2 : steps (ReqRefresh token ip) s1 s2)
    by (split; [done|]; destruct Hd as [-> | ->]; [apply step_stutter | by apply step_end]).
  destruct r as [n|]; [|done]. case_bool_decide as Hn; [eapply kept_after; [exact H2 | apply kept_reject]|].
  destruct (Hok n eq_refl Hn) as [Hlive Hdel].
  unfold mbind at 1, M_bind at 1. pose proof (kept_roles (c_user_id c) s2) as Hk2.
  destruct (_roles_for_user env (c_user_id c) s2) as [[roles|] s3]; simpl in Hk2; [|by eapply kept_after].
  pose proof (issue_session (c_user_id c) (c_organization_id c) (c_email c) roles s3) as [Hu3 Hi]. cbv zeta in *.
  rewrite (kept_session s2 s3 Hk2), Hdel in Hi. split; [rewrite Hu3, (proj2 Hk2); exact Hu|].
  destruct Hi as [-> | [key ->]]; [by apply step_end | by apply step_move].
Qed.

Lemma logout_steps token ip s : steps (ReqLogout token ip) s (snd (logout env jwt_decode refresh_secret token ip s)).
Proof.
  unfold logout. unfold mbind at 1, M_bind at 1. pose proof (parse_refresh_steps token s) as Hp.
  destruct (parse_refresh env jwt_decode refresh_secret token s) as [[c|] s1]; destruct Hp as [Hk Hc]; [|by apply kept_steps].
  specialize (Hc c eq_refl). apply (kept_before _ s s1 _ Hk).
  unfold mbind at 1, M_bind at 1. pose proof (delete_session (_refresh_redis_key (c_jti c)) s1) as Hd.
  destruct (execute env (redis_delete _) s1) as [r s2]. destruct Hd as (Hu & Hd & _).
  assert (H2 : steps (ReqLogout token ip) s1 s2)
    by (split; [done|]; destruct Hd as [-> | ->]; [apply step_stutter | by apply step_end]).
  destruct r as [n|]; [|done]. eapply kept_after; [exact H2 | apply kept_log].
Qed.

(** The service of [Auth], and a history of requests to it. *)
Definition serve_request (o : auth_op) : M (pg auth_db) unit :=
  serve env checkpw jwt_encode jwt_decode access_secret refresh_secret access_ttl refresh_ttl o.
Definition serve_all (ops : list auth_op) : M (pg auth_db) unit := for_each ops serve_request.

Lemma serve_steps o s : eval (serve_request o) s = Ok tt /\ steps o s (exec (serve_request o) s).
Proof.
  unfold serve_request, serve, exec, eval, try_except. destruct o as [email password ip | token ip | token ip].
  - pose proof (login_steps email password ip s) as Hs. unfold mbind, M_bind.
    by destruct (login _ _ _ _ _ _ _ _ _ _ s) as [[]].
  - pose proof (refresh_steps token ip s) as Hs. unfold mbind, M_bind.
    by destruct (refresh_access_token _ _ _ _ _ _ _ _ _ s) as [[]].
  - pose proof (logout_steps token ip s) as Hs. by destruct (logout _ _ _ _ _ s) as [[[]|]].
Qed.

Lemma serve_all_run ops s :
  session_run checkpw jwt_decode refresh_secret (db_users (pg_db s)) ops (session_of (pg_db s))
    (session_of (pg_db (exec (serve_all ops) s))).
Proof.
  revert s. induction ops as [|o ops IH]; intros s; [apply run_nil|].
  unfold exec, serve_all. simpl. unfold mbind, M_bind. destruct (serve_steps o s) as [He [Hu Hs]].
  unfold eval, exec in *. destruct (serve_request o s) as [r s1]. simpl in *. subst r.
  eapply run_cons; [exact Hs|]. rewrite <- Hu. apply IH.
Qed.

End Refines.

(** ** Theorems *)

(** [C9] The login service refines the session specification.  Whatever fails,
    before or after it took effect, each request of a history changes the live
    sessions as one step of the specification: only a login with the password of
    an active user opens a session, a refresh moves the session its token names
    to a new key and needs it alive, a logout ends it.  So there are never more
    sessions than there were, plus one for each login. *)
Theorem auth_refines_sessions (env : pg_env auth_db) (checkpw : list Z -> string -> res bool)
    (jwt_encode : payload -> string -> string) (jwt_decode : string -> string -> Z -> res payload)
    (access_secret refresh_secret : string) (access_ttl refresh_ttl : Z) (ops : list auth_op) (s : pg auth_db) :
  (forall n d, db_redis (pg_others env n d) = db_redis d /\ db_users (pg_others env n d) = db_users d) ->
  let s' := exec (serve_all env checkpw jwt_encode jwt_decode access_secret refresh_secret access_ttl refresh_ttl ops) s in
  session_run checkpw jwt_decode refresh_secret (db_users (pg_db s)) ops (session_of (pg_db s)) (session_of (pg_db s')) /\
  (size (db_redis (pg_db s')) <= size (db_redis (pg_db s)) + length (filter is_login ops))%nat.
Proof.
  intros Ho s'. assert (Hrun : session_run checkpw jwt_decode refresh_secret (db_users (pg_db s)) ops (session_of (pg_db s))
    (session_of (pg_db s'))) by (by apply serve_all_run). split; [done|].
  apply run_size in Hrun. unfold session_of in Hrun. by rewrite !map_size_fmap in Hrun.
Qed.

Lemma auth_refines_sessions_witness :
  let ops := [ReqLogin "a@b" [97] "ip"; ReqRefresh "tok" "ip"; ReqRefresh "tok" "ip"] in
  let s' := exec (serve_all demo_auth_env (fun _ _ => Ok true) (fun _ _ => "new") demo_refresh_decode "a" "r" 1000000 2000000 ops)
    (Pg 0 demo_auth_db) in
  size (db_redis (pg_db s')) = 2%nat /\
  session_run (fun _ _ => Ok true) demo_refresh_decode "r" (db_users demo_auth_db) ops (session_of demo_auth_db) (session_of (pg_db s')).
Proof.
  intros ops s'. split; [by vm_compute|].
  apply (auth_refines_sessions demo_auth_env (fun _ _ => Ok true) (fun _ _ => "new") demo_refresh_decode "a" "r" 1000000 2000000
    ops (Pg 0 demo_auth_db)). by intros.
Defined.
