(* ===== verification/Pipeline.v ===== *)
(** The telemetry path end to end: MQTT message, [ingestion], [telemetry.raw],
    [stream-processor], [telemetry.processed], [anomaly-detector],
    [anomalies.detected], [alert-service], the alerts table.  Each service is the
    model of its own file; what connects two of them is a message of one's log
    handed to the other's [_process_message], and the codec of its payload.  A
    stage lemma per service says that with its dependencies up it hands the
    reading over; the theorem composes them. *)

From stdpp Require Import prelude strings pretty gmap sorting.
From Stdlib Require Import ZArith Lia SpecFloat Ascii.
From S2P Require Import Prelude PyFloat Effects PyStr Reliability Postgres Incidents Events Kafka Window Ingestion.
From S2P Require Import StreamProcessor Detect IsolationForest FeatureStore AnomalyDetector Alerts AlertService.

Local Open Scope Z_scope.

(** [model_dump_json] of one service and [model_validate_json] of the next, on
    the records whose numbers are finite ([pydantic] writes the others as
    [null]). *)
Definition carries {A} (finite : A -> Prop) (dump : A -> res string) (load : string -> res A) : Prop :=
  forall a, finite a -> exists payload, dump a = Ok payload /\ load payload = Ok a.

Definition finite_reading (n : NormalizedTelemetryEvent) : Prop := is_finite (te_value (nt_event n)) = true.
Definition finite_anomaly (a : AnomalyDetected) : Prop := is_finite (ad_value a) = true /\ is_finite (ad_score a) = true.

(** ** Ingestion *)

Record ing_up (w : ing_world) (cfg : sink_config) (s : ing) : Prop := {
  ing_up_broker : delivers (w_broker w);
  ing_up_breaker : br_state (ig_breaker s) = CLOSED;
  ing_up_retries : 0 < kafka_max_retries cfg
}.

Lemma ingest_publishes (w : ing_world) (cfg : sink_config) (job : InboundMessage) (raw : TelemetryEvent) (s : ing) :
  ing_up w cfg s -> (forall evt, finite_reading evt -> exists p, w_dump_telemetry w evt = Ok p) ->
  endswith (im_topic job) "/telemetry" = true -> w_load_telemetry w (im_payload job) = Ok raw ->
  validate_telemetry (w_repr w) (w_uuid_error w) raw = Ok tt ->
  exists n p s', Ingestion._process_message w cfg job s = (Ok tt, s') /\ nt_event n = raw /\
    w_dump_telemetry w n = Ok p /\
    Message (topic_telemetry_raw cfg) (te_device_id raw) p ∈ kf_log (ig_kafka s') /\ job ∈ ig_acked s'.
Proof.
  intros [Hd Hc Hr] Hdump Htopic Hload Hvalid. unfold Ingestion._process_message, try_finally. rewrite Htopic.
  erewrite bind_ok by reflexivity. unfold _handle_telemetry. rewrite Hload, Hvalid. erewrite bind_ok by reflexivity.
  cbv zeta. unfold try_else, publish_telemetry.
  match goal with |- context [w_dump_telemetry w ?evt] => set (n := evt) end.
  destruct (Hdump n) as [p Hp]; [by apply validate_telemetry_ok in Hvalid as (_ & _ & _ & _ & Hfin & _)|].
  rewrite Hp. unfold try_except, _write_with_protection.
  match goal with |- context [mbind _ _ ?st] => set (s0 := st) end.
  destruct (protected_write_delivers (H:=ing_breaker_part) (H0:=ing_kafka_part) (w_broker w) (w_clock w) sleep
    (kafka_max_retries cfg) (kafka_retry_base_delay_seconds cfg) (topic_telemetry_raw cfg) (te_device_id raw) p s0)
    as (s1 & H1 & Hlog & _); [done | done | done | exact Hc | done |].
  rewrite (bind_ok _ _ _ _ _ H1). exists n, p. eexists. split; [reflexivity|]. split_and!; [done | done | |].
  - change (Message (topic_telemetry_raw cfg) (te_device_id raw) p ∈ kf_log (ig_kafka s1)).
    change (kf_log (ig_kafka s1) = kf_log (ig_kafka s0) ++ [Message (topic_telemetry_raw cfg) (te_device_id raw) p]) in Hlog.
    rewrite Hlog. apply elem_of_app. right. by apply list_elem_of_singleton.
  - apply elem_of_app. right. by apply list_elem_of_singleton.
Qed.

(** ** Stream processor *)

Record sp_up (w : sp_world) (cfg : sp_config) (s : sp) : Prop := {
  sp_up_broker : delivers (v_broker w);
  sp_up_redis : forall n, v_redis w n = None;
  sp_up_influx : forall n, v_influx w n = None;
  sp_up_kafka_breaker : br_state (sp_kafka_breaker s) = CLOSED;
  sp_up_influx_breaker : br_state (sp_influx_breaker s) = CLOSED;
  sp_up_ttl : 0 < sc_dedup_ttl_seconds cfg;
  sp_up_influx_retries : 0 < sc_influx_max_retries cfg;
  sp_up_kafka_retries : 0 < sc_kafka_max_retries cfg
}.

(** The series of a reading holds aware samples in order, and no window of
    theirs leaves the calendar. *)
Definition series_ok (cfg : sp_config) (evt : TelemetryEvent) (s : sp) : Prop :=
  exists t l, te_timestamp evt = Some (Aware t) /\ buf_of (series_id (series_key evt)) (sp_registry s) = aware <$> l /\
    StronglySorted earlier l /\ forall y, y ∈ (t, te_value evt) :: l -> in_range (fst y - max_window cfg) = true.

Lemma stream_publishes (w : sp_world) (cfg : sp_config) (msg : fetched) (n : NormalizedTelemetryEvent) (p : string) (s : sp) :
  sp_up w cfg s -> v_load w (ft_value msg) = Ok n -> v_dump w n = Ok p ->
  series_ok cfg (nt_event n) s -> sp_redis s !! dedup_key (te_event_id (nt_event n)) = None ->
  exists s', StreamProcessor._process_message w cfg msg s = (Ok true, s') /\
    raw_point (series_key (nt_event n)) (te_timestamp (nt_event n)) (te_value (nt_event n)) ∈ sp_points s' /\
    Message (sc_topic_processed cfg) (te_device_id (nt_event n)) p ∈ kf_log (sp_kafka s').
Proof.
  intros [Hd Hredis Hinflux Hkb Hib Httl Hir Hkr] Hload Hdump (t & l & Ht & Hbuf & Hs & Hr) Hnew.
  set (evt := nt_event n) in *. unfold StreamProcessor._process_message. erewrite bind_ok by reflexivity. rewrite Hload.
  cbv zeta. fold evt. unfold try_else at 1, claim. cbn [sp_redis sp_redis_calls part_set inc].
  match goal with |- context [set_nx ?k ?ttl ?now ?r] =>
    replace (set_nx k ttl now r) with (Ok true, <[k := now + seconds ttl]> r)
      by (unfold set_nx; rewrite (proj2 (Z.leb_gt _ _) Httl); simpl; by rewrite Hnew) end.
  rewrite Hredis. cbn [negb]. unfold try_else at 1, write_raw_point, influx_write_with_protection.
  set (pt := raw_point _ _ _).
  match goal with |- context [protected _ _ _ _ _ _ ?st] => set (s0 := st) end.
  rewrite (protected_succeeds (H:=influx_breaker_part) (v_clock w) no_sleep (sc_influx_max_retries cfg) (sc_influx_retry_delay cfg)
    _ _ s0 (snd (influx_write w [pt] s0))); [| exact Hib | done | unfold influx_write; by rewrite Hinflux].
  unfold influx_write. rewrite Hinflux. cbn [snd].
  assert (Hrec : exists r', record (max_window cfg) (series_key evt) (te_timestamp evt) (te_value evt) (sp_registry s) = (Ok tt, r')).
  { rewrite Ht. by apply (record_aware (max_window cfg) (series_key evt) (t, te_value evt) _ l). }
  destruct Hrec as [r' Hrec].
  match goal with |- context [mbind _ _ ?st] => set (s1 := st) end.
  assert (Hl : exists s2, lift (record (max_window cfg) (series_key evt) (te_timestamp evt) (te_value evt)) s1 = (Ok tt, s2) /\
      br_state (sp_kafka_breaker s2) = CLOSED /\ pt ∈ sp_points s2).
  { eexists. split; [unfold lift; change (part_get s1) with (sp_registry s); by rewrite Hrec|].
    split; [exact Hkb|]. apply elem_of_app. right. by apply list_elem_of_singleton. }
  destruct Hl as (s2 & Hl & Hb2 & Hp2). rewrite (bind_ok _ _ _ _ _ Hl). unfold try_else, publish_processed. rewrite Hdump.
  pose proof (kept_publish w cfg (te_device_id evt) n s2) as (_ & _ & _ & Hkept & _).
  unfold publish_processed in Hkept. rewrite Hdump in Hkept.
  destruct (protected_write_delivers (H:=kafka_breaker_part) (H0:=sp_kafka_part) (v_broker w) (v_clock w) no_sleep
    (sc_kafka_max_retries cfg) (sc_kafka_retry_delay cfg) (sc_topic_processed cfg) (te_device_id evt) p s2)
    as (s3 & H3 & Hlog & _); [done | done | done | exact Hb2 | done |].
  rewrite H3 in *. eexists. split; [reflexivity|]. split.
  - destruct Hkept as [more Hmore]. cbn [snd] in Hmore. rewrite Hmore. apply elem_of_app. by left.
  - change (kf_log (sp_kafka s3) = kf_log (sp_kafka s2) ++ [Message (sc_topic_processed cfg) (te_device_id evt) p]) in Hlog.
    rewrite Hlog. apply elem_of_app. right. by apply list_elem_of_singleton.
Qed.

(** ** Anomaly detector *)

Record ad_up (w : ad_world) (cfg : ad_config) (s : ad) : Prop := {
  ad_up_broker : delivers (y_broker w);
  ad_up_claims : forall n, y_claim w n = None;
  ad_up_breaker : br_state (ad_breaker s) = CLOSED;
  ad_up_retries : 0 < ac_kafka_max_retries cfg;
  ad_up_trackers : trackers_ok (ad_trackers s);
  ad_up_threshold : is_zero (fmul (zscore_threshold (ac_detect cfg)) ftwo) = false
}.

(** The catalog has an operating range for the reading, which is not empty, and
    the reading is outside it; the forest of the machine type, if one is
    trained, scores vectors. *)
Definition out_of_range (w : ad_world) (evt : TelemetryEvent) (s : ad) : Prop :=
  exists info r, lookup_device (te_device_id evt) (ad_catalog s) = Some info /\
    di_ranges info !! te_metric evt = Some r /\
    fgtb (fsub (mr_max r) (mr_min r)) fzero = true /\
    (fgtb (te_value evt) (mr_max r) = true \/ fltb (te_value evt) (mr_min r) = true) /\
    forall f x, get_forest (di_machine_type info) (ad_forests s) = Some f ->
      exists sc, score (y_flog w) (y_pow2 w) f x = Ok sc /\ is_finite sc = true.

Lemma stat_check_ok z n min threshold :
  is_zero (fmul threshold ftwo) = false -> exists v, stat_check z n min threshold = Ok v.
Proof.
  intros Hz. unfold stat_check. destruct (n <? min); [by eexists|]. cbv zeta. destruct (fltb _ _); [by eexists|].
  unfold fdiv. rewrite Hz. by eexists.
Qed.

Lemma forest_level_ok w evt info s :
  (forall f x, get_forest (di_machine_type info) (ad_forests s) = Some f ->
      exists sc, score (y_flog w) (y_pow2 w) f x = Ok sc /\ is_finite sc = true) ->
  exists sc has s', forest_level w (te_device_id evt) (te_metric evt) (te_value evt) (Some info) s = (Ok (sc, has), s') /\
    ad_breaker s' = ad_breaker s /\ is_finite sc = true.
Proof.
  intros Hscore. unfold forest_level. erewrite bind_ok by reflexivity. unfold mbind at 1, M_bind at 1, lift.
  destruct (observe _ _ _ _ _ _) as [v fs]. erewrite bind_ok by reflexivity. cbn [ad_forests].
  destruct v as [x|]; [|by do 3 eexists]. change (ad_forests (part_set fs s)) with (ad_forests s).
  destruct (get_forest (di_machine_type info) (ad_forests s)) as [f|] eqn:Ef; [|by do 3 eexists].
  destruct (Hscore f x eq_refl) as (sc & -> & Hsc). by do 3 eexists.
Qed.

(** The range rule fires, so there is a detection. *)
Lemma detect_levels_fires w cfg evt s :
  trackers_ok (ad_trackers s) -> is_zero (fmul (zscore_threshold (ac_detect cfg)) ftwo) = false -> out_of_range w evt s ->
  exists r rs s', detect_levels w cfg evt s = (Ok (r :: rs), s') /\ ad_breaker s' = ad_breaker s /\
    is_finite (cb_score (combine_detections (r :: rs))) = true.
Proof.
  intros Htr Hz (info & r & Hinfo & Hrange & Hspan & Hout & Hscore). unfold detect_levels. erewrite bind_ok by reflexivity.
  rewrite Hinfo. destruct (trackers_update_ok (te_device_id evt) (te_metric evt) (te_value evt) _ Htr) as (z & n & t' & Hu & _).
  unfold mbind at 1, M_bind at 1, lift at 1. change (part_get s) with (ad_trackers s). rewrite Hu.
  match goal with |- context [mbind _ _ ?st] => set (s1 := st) end.
  destruct (forest_level_ok w evt info s1 Hscore) as (sc & has & s2 & Hf & Hb & Hsc). rewrite (bind_ok _ _ _ _ _ Hf).
  assert (Hrg : range_of (te_metric evt) (Some info) = Some r) by exact Hrange. rewrite Hrg.
  rewrite bool_decide_true by by eexists. change (default default_range (Some r)) with r. unfold of_res.
  pose proof (run_detectors_scores (te_value evt) r true z n (ac_detect cfg) sc has) as Hscores.
  unfold run_detectors in *. destruct (rule_check_outside (te_value evt) r Hspan Hout) as (sev & x & Hrule).
  rewrite Hrule in *. cbn [res_bind] in *. destruct (stat_check_ok z n (min_samples_for_zscore (ac_detect cfg)) _ Hz) as [v Hv].
  rewrite Hv in *. cbn [res_bind detection app] in *. do 3 eexists. split; [reflexivity|]. split; [exact Hb|].
  apply combine_score_finite, Hscores; [by left | reflexivity].
Qed.

Lemma detector_publishes (w : ad_world) (cfg : ad_config) (msg : fetched) (n : NormalizedTelemetryEvent) (s : ad) :
  ad_up w cfg s -> y_load w (ft_value msg) = Ok n -> (forall a, finite_anomaly a -> exists p, y_dump w a = Ok p) ->
  is_finite (te_value (nt_event n)) = true ->
  te_event_id (nt_event n) ∉ ad_claimed s -> out_of_range w (nt_event n) s ->
  exists results id k p s', AnomalyDetector._process_message w cfg msg s = (Ok true, s') /\
    let a := anomaly_of id (y_utc_now w k) (nt_event n) results in
    finite_anomaly a /\ y_dump w a = Ok p /\ Message (ac_topic_anomalies cfg) (te_device_id (nt_event n)) p ∈ kf_log (ad_kafka s').
Proof.
  intros [Hd Hclaim Hc Hr Htr Hz] Hload Hdump Hfin Hnew Hout. rewrite process_message_unfold. erewrite bind_ok by reflexivity.
  rewrite Hload. unfold try_else at 1, claim_telemetry_event_once. simpl. rewrite Hclaim, bool_decide_false by done.
  cbn [negb]. match goal with |- context [detect_and_report _ _ _ _ ?st] => set (s0 := st) end.
  destruct (detect_levels_fires w cfg (nt_event n) s0 Htr Hz Hout) as (r & rs & s1 & H1 & Hb1 & Hsc).
  unfold detect_and_report. rewrite (bind_ok _ _ _ _ _ H1).
  assert (Hcount : forall l st, exists st', for_each l (fun r => inc ("anomalies_detected_total:" +:+ dt_method r)) st = (Ok tt, st') /\
      ad_breaker st' = ad_breaker st).
  { clear. induction l as [|x l IH]; intros st; [by eexists|]. cbn [for_each]. erewrite bind_ok by reflexivity.
    destruct (IH (part_set (Metrics (<["anomalies_detected_total:" +:+ dt_method x := counter (part_get st) ("anomalies_detected_total:" +:+ dt_method x) + 1]>
      (mt_counters (part_get st)))) st)) as (st' & H & Hb). by exists st'. }
  unfold report. destruct (Hcount (r :: rs) s1) as (s2 & H2 & Hb2). rewrite (bind_ok _ _ _ _ _ H2).
  erewrite bind_ok by reflexivity. erewrite bind_ok by reflexivity. unfold try_else, publish_anomaly.
  match goal with |- context [y_dump w ?an] => destruct (Hdump an) as [p Hp]; [split; [exact Hfin | exact Hsc]|] end. rewrite Hp.
  match goal with |- context [protected_write _ _ _ _ _ _ _ _ ?st] => set (s3 := st) end.
  destruct (protected_write_delivers (H:=ad_breaker_part) (H0:=ad_kafka_part) (y_broker w) (y_clock w) ad_sleep
    (ac_kafka_max_retries cfg) (ac_kafka_retry_delay cfg) (ac_topic_anomalies cfg) (te_device_id (nt_event n)) p s3)
    as (s4 & H4 & Hlog & _); [done | done | done | | done |].
  { change (br_state (ad_breaker s2) = CLOSED). by rewrite Hb2, Hb1. }
  rewrite H4. do 5 eexists. split; [reflexivity|]. cbn zeta. split; [split; [exact Hfin | exact Hsc]|]. split; [exact Hp|].
  change (kf_log (ad_kafka s4) = kf_log (ad_kafka s3) ++ [Message (ac_topic_anomalies cfg) (te_device_id (nt_event n)) p]) in Hlog.
  rewrite Hlog. apply elem_of_app. right. by apply list_elem_of_singleton.
Qed.

(** ** Alert service *)

(** No alert has an id the database is yet to generate. *)
Definition past (env : pg_env alert_db) (s : pg alert_db) : Prop :=
  forall n, (pg_count s <= n)%nat -> pg_uuid env n ∉ (al_id <$> db_alerts (pg_db s)).

(** The anomalies counted so far have a time zone. *)
Definition counter_aware (c : count_tracker) : Prop := forall key, exists l, default [] (c !! key) = Aware <$> l.

Record als_up (w : als_world) (s : als) : Prop := {
  als_up_quiet : quiet (x_pg w);
  als_up_uuids : forall n m, pg_uuid (x_pg w) n = pg_uuid (x_pg w) m -> n = m;
  als_up_past : past (x_pg w) (as_pg s);
  als_up_counter : counter_aware (as_counter s)
}.

(** Alerts and counts as before, statements only counted. *)
Definition calm (s s' : als) : Prop :=
  db_alerts (pg_db (as_pg s')) = db_alerts (pg_db (as_pg s)) /\ (pg_count (as_pg s) <= pg_count (as_pg s'))%nat /\
  as_counter s' = as_counter s.

#[local] Instance calm_preorder : PreOrder calm.
Proof.
  split; [intros s; split_and!; reflexivity|]. intros s1 s2 s3 (? & ? & ?) (? & ? & ?). split_and!; [congruence | lia | congruence].
Qed.

Lemma past_calm env s s' : calm s s' -> past env (as_pg s) -> past env (as_pg s').
Proof. intros (Ha & Hn & _) Hp n Hle. rewrite Ha. apply Hp. lia. Qed.

(** The same on the database alone. *)
Definition calm_pg (s s' : pg alert_db) : Prop :=
  db_alerts (pg_db s') = db_alerts (pg_db s) /\ (pg_count s <= pg_count s')%nat.

#[local] Instance calm_pg_preorder : PreOrder calm_pg.
Proof. split; [intros s; split; reflexivity|]. intros s1 s2 s3 [? ?] [? ?]. split; [congruence | lia]. Qed.

Lemma calm_execute {A} env (stmt : statement alert_db A) :
  quiet env -> keeps_alert_table stmt -> moves calm_pg (execute env stmt).
Proof.
  intros Hq Hk s. rewrite execute_quiet by done. specialize (Hk (pg_now env (pg_count s)) (pg_uuid env (pg_count s)) (pg_db s)).
  destruct (stmt _ _ _) as [r d]. split; [exact Hk | simpl; lia].
Qed.

Lemma calm_after_create w cfg providers rule_id result created s :
  quiet (x_pg w) -> (result = CREATED -> exists c t, created = Some c /\ a_triggered_at c = Some t) ->
  exists s', after_create w cfg providers rule_id (result, created) s = (Ok tt, s') /\ calm s s'.
Proof.
  intros Hq Hc. unfold after_create. case_bool_decide as Hr.
  2: { repeat case_bool_decide; eexists; (split; [reflexivity|]); split_and!; reflexivity. }
  destruct (Hc Hr) as (c & t & -> & Ht). erewrite bind_ok by reflexivity.
  match goal with |- context [mbind _ _ ?st] => set (s1 := st) end.
  assert (Ho : exists s2, _open_or_attach_incident w c s1 = (Ok tt, s2) /\ calm s s2).
  { pose proof (moves_open_or_attach (x_pg w) calm_pg (alert_ref c)
      (fun B stmt Hs => calm_execute (x_pg w) stmt Hq Hs) (as_pg s1)) as [Ha Hn].
    unfold _open_or_attach_incident, try_else, lift. change (part_get s1) with (as_pg s1).
    destruct (open_or_attach _ _ _ _) as [[[id []]|e] p]; eexists; (split; [reflexivity|]); by split_and!. }
  destruct Ho as (s2 & H2 & Hcalm). rewrite (bind_ok _ _ _ _ _ H2).
  destruct (publish_and_notify_ok w cfg providers c t rule_id ALERT_EVENT_CREATED false s2 Ht) as (s3 & H3 & Hpg & Hcnt).
  exists s3. split; [exact H3|]. etrans; [exact Hcalm|]. split_and!; [by rewrite Hpg | by rewrite Hpg | exact Hcnt].
Qed.

(** Creating an alert never fails, and keeps [past]. *)
Lemma create_if_due_ok env now rule_id cooldown alert key s :
  quiet env -> (forall n m, pg_uuid env n = pg_uuid env m -> n = m) -> past env s ->
  pg_uuid_in env rule_id <> None -> alert_ids_ok env alert ->
  exists result created s', create_if_due env now rule_id cooldown alert key s = (Ok (result, created), s') /\
    past env s' /\ (result = CREATED -> exists c t, created = Some c /\ a_triggered_at c = Some t).
Proof.
  intros Hq Hinj Hp Hrule Hids. destruct (pg_uuid_in env rule_id) as [rule|] eqn:Er; [|done]. unfold create_if_due.
  erewrite bind_ok by (rewrite execute_quiet by done; unfold with_uuid; rewrite Er; reflexivity).
  set (s1 := Pg (S (pg_count s)) (pg_db s)).
  assert (Hp1 : past env s1) by (intros n Hn; apply Hp; simpl in Hn; lia).
  assert (Hins : exists result created s', insert_if_free env rule_id alert key s1 = (Ok (result, created), s') /\
    past env s' /\ (result = CREATED -> exists c t, created = Some c /\ a_triggered_at c = Some t)).
  { unfold insert_if_free. pose proof (execute_quiet env (insert_due env rule_id alert key) s1 Hq) as Hx.
    rewrite (insert_due_accepted env rule_id rule) in Hx by (done || by apply Hp1). cbn zeta in Hx.
    case_bool_decide; rewrite (bind_ok _ _ _ _ _ Hx); do 3 eexists; (split; [reflexivity|]).
    - split; [intros n Hn; apply Hp; simpl in Hn; lia | done].
    - split; [|by do 2 eexists]. intros n Hn. simpl. rewrite fmap_app, not_elem_of_app. split; [apply Hp1; simpl in *; lia|].
      csimpl. rewrite list_elem_of_singleton. intros ->%Hinj. simpl in Hn. lia. }
  match goal with |- context [match ?r with Some _ => _ | None => _ end s1] => destruct r as [[st t]|] end; [|exact Hins].
  case_bool_decide; cbn [negb]; [|by do 3 eexists].
  erewrite bind_ok by reflexivity. case_match; [by do 3 eexists | exact Hins].
Qed.

(** A rule the service can evaluate on an anomaly: its id is one the database
    accepts, and the window of a counting rule stays in the calendar. *)
Definition rule_ready (env : pg_env alert_db) (anomaly : AnomalyDetected) (rule : AlertRule) : Prop :=
  pg_uuid_in env (rl_id rule) <> None /\
  (rl_condition rule = "ANOMALY_COUNT" ->
   exists t, ad_detected_at anomaly = Aware t /\ in_range (t - seconds (rl_window_seconds rule)) = true).

Definition ids_accepted (env : pg_env alert_db) (org : string) (others : list string) : Prop :=
  pg_uuid_in env org <> None /\ Forall (fun x => x = "" \/ pg_uuid_in env x <> None) others.

Lemma count_record_ok key t window c :
  counter_aware c -> in_range (t - seconds window) = true ->
  exists n c', count_record key (Aware t) window c = (Ok n, c') /\ counter_aware c'.
Proof.
  intros Hc Hr. destruct (Hc key) as [l Hl]. rewrite (count_record_step window key t c l Hr Hl). do 2 eexists.
  split; [reflexivity|]. intros key'. destruct (decide (key' = key)) as [->|Hne].
  - rewrite lookup_insert_eq. by eexists.
  - rewrite lookup_insert_ne by done. apply Hc.
Qed.

Lemma apply_rule_ok w cfg providers raw anomaly rule s :
  als_up w s -> rule_ready (x_pg w) anomaly rule ->
  ids_accepted (x_pg w) (ad_organization_id anomaly)
    [ad_factory_id anomaly; ad_machine_id anomaly; ad_device_id anomaly; ad_sensor_id anomaly] ->
  exists s', apply_rule w cfg providers raw anomaly rule s = (Ok None, s') /\ als_up w s'.
Proof.
  intros Hup [Hid Hwin] Hids. unfold apply_rule. destruct (negb (scope_matches _ _ _ _)); [by eexists|].
  assert (Hcount : exists n s1, (if bool_decide (rl_condition rule = "ANOMALY_COUNT")
      then lift (count_record (rl_id rule +:+ "|" +:+ ad_device_id anomaly) (ad_detected_at anomaly) (rl_window_seconds rule))
      else mret 0) s = (Ok n, s1) /\ als_up w s1).
  { case_bool_decide as Hcond; [|by do 2 eexists]. destruct (Hwin Hcond) as (t & -> & Ht).
    destruct Hup as [Hq Hinj Hpast Hcnt].
    destruct (count_record_ok (rl_id rule +:+ "|" +:+ ad_device_id anomaly) t (rl_window_seconds rule) _ Hcnt Ht) as (n & c & Hr & Hc).
    unfold lift. change (part_get s) with (as_counter s). rewrite Hr. do 2 eexists. split; [reflexivity|]. by split. }
  destruct Hcount as (n & s1 & H1 & [Hq Hinj Hpast Hcnt]). rewrite (bind_ok _ _ _ _ _ H1).
  destruct (negb (condition_matches _ _ _)); [eexists; split; [reflexivity | by split]|]. unfold try_else, lift.
  change (part_get s1) with (as_pg s1).
  destruct (create_if_due_ok (x_pg w) (x_service_now w) (rl_id rule) (rl_cooldown_seconds rule) (alert_for rule anomaly)
    (anomaly_dedupe_key anomaly) (as_pg s1) Hq Hinj Hpast Hid Hids) as (result & created & p & Hrun & Hp & Hcreated).
  rewrite Hrun. match goal with |- context [mbind _ _ ?st] => set (s2 := st) end.
  destruct (calm_after_create w cfg providers (rl_id rule) result created s2 Hq Hcreated) as (s3 & H3 & Hcalm).
  rewrite (bind_ok _ _ _ _ _ H3). exists s3. split; [reflexivity|]. split; [done | done | by eapply past_calm |].
  destruct Hcalm as (_ & _ & ->). exact Hcnt.
Qed.

Lemma quiet_others env : quiet env -> others_keep_alerts env.
Proof. intros [_ Ho] n d. by rewrite Ho. Qed.

Lemma rules_applied w cfg providers raw anomaly rules s :
  als_up w s -> Forall (rule_ready (x_pg w) anomaly) rules ->
  ids_accepted (x_pg w) (ad_organization_id anomaly)
    [ad_factory_id anomaly; ad_machine_id anomaly; ad_device_id anomaly; ad_sensor_id anomaly] ->
  exists s', for_return rules (apply_rule w cfg providers raw anomaly) s = (Ok None, s') /\
    Forall (fun rule => rule_fires anomaly rule -> exists u, pg_uuid_in (x_pg w) (rl_id rule) = Some u /\
              has_alert u (anomaly_dedupe_key anomaly) (pg_db (as_pg s'))) rules.
Proof.
  intros Hup Hready Hids. revert s Hup. induction Hready as [|rule rules Hr Hrs IH]; intros s Hup; [by eexists|].
  pose proof (quiet_others _ (als_up_quiet _ _ Hup)) as Hothers.
  destruct (apply_rule_ok w cfg providers raw anomaly rule s Hup Hr Hids) as (s1 & H1 & Hup1).
  destruct (IH s1 Hup1) as (s' & H2 & Hall). exists s'. split; [cbn [for_return]; by rewrite (bind_ok _ _ _ _ _ H1)|].
  constructor; [|exact Hall]. intros Hfires.
  destruct (apply_rule_has_alert w cfg Hothers _ _ _ _ _ _ H1 Hfires) as (u & Hu & Ha). exists u. split; [done|].
  pose proof (moves_for_return stays rules (apply_rule w cfg providers raw anomaly)
    (stays_apply_rule w cfg Hothers providers raw anomaly) s1) as Hstay.
  rewrite H2 in Hstay. by apply (proj1 Hstay).
Qed.

(** A rule that asks for an alert on a reading by its value. *)
Definition watches (rule : AlertRule) (evt : TelemetryEvent) : Prop :=
  scope_matches rule (te_machine_id evt) (te_device_id evt) (te_sensor_id evt) = true /\
  rl_condition rule <> "ANOMALY_COUNT" /\ condition_matches rule (te_value evt) 0 = true.

(** The rules of the reading's organization and metric can be evaluated at any
    time the detector's clock shows. *)
Definition rules_ready (wa : ad_world) (wx : als_world) (evt : TelemetryEvent) (s : als) : Prop :=
  Forall (fun rule => pg_uuid_in (x_pg wx) (rl_id rule) <> None /\
            forall k, in_range (y_utc_now wa k - seconds (rl_window_seconds rule)) = true)
    (rules_for (te_organization_id evt) (te_metric evt) (as_rules s)) /\
  ids_accepted (x_pg wx) (te_organization_id evt)
    [te_factory_id evt; te_machine_id evt; te_device_id evt; te_sensor_id evt].

Lemma alert_service_alerts (w : als_world) (cfg : als_config) (providers : list provider) (msg : fetched)
    (anomaly : AnomalyDetected) (s : als) :
  als_up w s -> x_load_anomaly w (ft_value msg) = Ok anomaly ->
  Forall (rule_ready (x_pg w) anomaly) (rules_for (ad_organization_id anomaly) (ad_metric anomaly) (as_rules s)) ->
  ids_accepted (x_pg w) (ad_organization_id anomaly)
    [ad_factory_id anomaly; ad_machine_id anomaly; ad_device_id anomaly; ad_sensor_id anomaly] ->
  exists s', _process_anomaly w cfg providers msg s = (Ok true, s') /\
    forall rule, rule ∈ rules_for (ad_organization_id anomaly) (ad_metric anomaly) (as_rules s) ->
      rule_fires anomaly rule ->
      exists u, pg_uuid_in (x_pg w) (rl_id rule) = Some u /\ has_alert u (anomaly_dedupe_key anomaly) (pg_db (as_pg s')).
Proof.
  intros [Hq Hinj Hpast Hcnt] Hload Hready Hids. unfold _process_anomaly. erewrite bind_ok by reflexivity. rewrite Hload.
  erewrite bind_ok by reflexivity. match goal with |- context [mbind _ _ ?st] => set (s0 := st) end.
  destruct (rules_applied w cfg providers (ft_value msg) anomaly _ s0 ltac:(by split) Hready Hids) as (s' & H1 & Hall).
  change (as_rules s0) with (as_rules s). rewrite (bind_ok _ _ _ _ _ H1). exists s'. split; [reflexivity|].
  intros rule Hrule. rewrite Forall_forall in Hall. by apply Hall.
Qed.

(** ** Theorems *)


(** *** An example surrounding: a codec of every record, as a text of bits *)

Fixpoint bits_of_pos (p : positive) : string :=
  match p with xH => EmptyString | xO p => String "0"%char (bits_of_pos p) | xI p => String "1"%char (bits_of_pos p) end.
Fixpoint pos_of_bits (s : string) : positive :=
  match s with EmptyString => xH | String "0"%char s => xO (pos_of_bits s) | String _ s => xI (pos_of_bits s) end.

Lemma pos_of_bits_of_pos p : pos_of_bits (bits_of_pos p) = p.
Proof. induction p as [p IH|p IH|]; simpl; by rewrite ?IH. Qed.

#[export] Instance float_eq_dec : EqDecision float.
Proof. unfold EqDecision, Decision. decide equality; solve [apply Pos.eq_dec | apply Z.eq_dec | apply Bool.bool_dec]. Defined.

#[export] Program Instance float_countable : Countable float :=
  inj_countable' (A:=bool + (bool + (unit + bool * positive * Z)))
    (fun x => match x with
              | S754_zero s => inl s | S754_infinity s => inr (inl s) | S754_nan => inr (inr (inl tt))
              | S754_finite s m e => inr (inr (inr (s, m, e)))
              end)
    (fun y => match y with
              | inl s => S754_zero s | inr (inl s) => S754_infinity s | inr (inr (inl _)) => S754_nan
              | inr (inr (inr (s, m, e))) => S754_finite s m e
              end) _.
Next Obligation. by intros []. Qed.

#[export] Program Instance datetime_countable : Countable datetime :=
  inj_countable' (A:=Z + Z) (fun t => match t with Aware x => inl x | Naive x => inr x end)
    (fun y => match y with inl x => Aware x | inr x => Naive x end) _.
Next Obligation. by intros []. Qed.

(** A record is its fields in order. *)
Definition codec_dump {A B} `{Countable B} (fields : A -> B) (a : A) : res string := Ok (bits_of_pos (encode (fields a))).
Definition codec_load {A B} `{Countable B} (make : B -> A) (s : string) : res A :=
  match decode (pos_of_bits s) with Some b => Ok (make b) | None => Raise (ValueError "not a record") end.

Lemma codec_carries {A B} `{Countable B} (P : A -> Prop) (fields : A -> B) (make : B -> A) :
  (forall a, make (fields a) = a) -> carries P (codec_dump fields) (codec_load make).
Proof.
  intros Hm a _. eexists. split; [reflexivity|]. unfold codec_load. by rewrite pos_of_bits_of_pos, decode_encode, Hm.
Qed.

Definition reading_fields (n : NormalizedTelemetryEvent) :=
  let e := nt_event n in
  ((te_event_id e, te_organization_id e, te_factory_id e, te_production_line_id e, te_machine_id e, te_device_id e,
    te_sensor_id e), (te_timestamp e, te_sequence_number e, te_metric e, te_value e, te_unit e),
   (nt_correlation_id n, nt_ingested_at n, nt_schema_version n)).
Definition reading_make x : NormalizedTelemetryEvent :=
  let '((a, b, c, d, e, f, g), (h, i, j, k, l), (m, n, o)) := x in
  mkNormalizedTelemetryEvent (mkTelemetryEvent a b c d e f g h i j k l) m n o.

Definition anomaly_fields (a : AnomalyDetected) :=
  ((ad_anomaly_id a, ad_event_id a, ad_organization_id a, ad_factory_id a, ad_production_line_id a, ad_machine_id a,
    ad_device_id a, ad_sensor_id a), (ad_metric a, ad_value a, ad_severity a, ad_score a, ad_methods a, ad_reason a,
    ad_detected_at a)).
Definition anomaly_make x : AnomalyDetected :=
  let '((a, b, c, d, e, f, g, h), (i, j, k, l, m, n, o)) := x in mkAnomalyDetected a b c d e f g h i j k l m n o.

(** A reading of 1.0 of a device whose range is [[10, 20]], and a rule below 5. *)
Definition demo_row : catalog_row := CatalogRow demo_uuid "pump" "temperature" (float_of_Z 10) (float_of_Z 20).
Definition cold_rule : AlertRule :=
  mkAlertRule "rule" demo_uuid "cold" "temperature" "LESS_THAN" (Some (float_of_Z 5)) None None "HIGH" 300 300 None None None.

Definition pipe_ing : ing_world :=
  IngWorld (fun _ => demo_delivery) (fun _ => fzero) (fun _ => 0) (fun _ => demo_uuid) (fun _ => Ok (demo_event 1))
    (fun _ => Raise (ValueError "bad json")) (codec_dump reading_fields) (fun _ => Ok "machine") (fun _ => Ok "dlq")
    (fun p => p) (fun s => s) (fun s => s).
Definition pipe_sp : sp_world :=
  SpWorld (fun _ => demo_delivery) (fun _ => None) (fun _ => None) (fun _ => 0) (fun _ => fzero) (fun _ => 0)
    (codec_load reading_make) (codec_dump reading_fields) (fun _ => Ok "dlq") (fun p => p).
Definition pipe_ad : ad_world :=
  AdWorld (fun _ => demo_delivery) (fun _ => None) (fun _ => fzero) (fun _ => 0) (fun _ => demo_uuid)
    (codec_load reading_make) (codec_dump anomaly_fields) (fun _ => Ok "dlq") (fun p => p) (fun x => x) (fun x => Ok x) demo_rng.
Definition pipe_als : als_world :=
  AlsWorld (demo_alert_env (fun _ d => d)) (fun _ => 0) (fun _ => demo_delivery) (fun _ => HttpStatus 503) (fun _ => fzero)
    (fun _ => 0) (codec_load anomaly_make) (fun _ => Raise (ValueError "bad json")) (fun _ => Ok "alert") (fun _ => Ok "dlq")
    (fun p => p).
Definition pipe_ad_state : ad := exec (refresh_tick (Ok [demo_row])) demo_ad.
Definition pipe_als_state : als :=
  Als (Pg 0 (AlertDb [] [] [] [])) (Kafka 0 []) {[ rule_key demo_uuid "temperature" := [cold_rule] ]} ∅ (Metrics ∅)
    (new_breaker 5 fone) 0 [] 0.
Definition pipe_job : InboundMessage := mkInboundMessage "factory/f/machine/m/sensor/s/telemetry" "e".

Lemma reading_codec a : reading_make (reading_fields a) = a.
Proof. by destruct a as [[] ? ? ?]. Qed.
Lemma anomaly_codec a : anomaly_make (anomaly_fields a) = a.
Proof. by destruct a. Qed.

Lemma demo_alert_uuids n m : pg_uuid (demo_alert_env (fun _ d => d)) n = pg_uuid (demo_alert_env (fun _ d => d)) m -> n = m.
Proof. change ("u" +:+ pretty n = "u" +:+ pretty m -> n = m). intros H%(inj (String.append "u")). by apply (inj pretty) in H. Qed.

