(* ===== verification/Simulator.v ===== *)
(** [src/simulator]: the sensor catalog ([loader.py]), the reading generator
    ([sensorgen.py]), fault injection ([faults.py]), the machine controllers
    ([machine.py]), the MQTT publisher ([publisher.py]) and the tasks and workers
    of [main.py].  The asyncio tasks run one at a time between their awaits: an
    iteration of a sensor, of a machine controller or of a delayed send is one
    step, and a history is any sequence of such steps and of the publisher
    threads' steps.  The random draws are an oracle. *)

From stdpp Require Import prelude strings pretty gmap sorting.
From Stdlib Require Import ZArith Lia SpecFloat Ascii.
From S2P Require Import Prelude PyFloat Effects PyStr Events Kafka Ingestion.

Local Open Scope Z_scope.

(** ** [model.py], [loader.py] *)

Record SensorCatalogEntry := mkSensorCatalogEntry {
  en_organization_id : string; en_factory_id : string; en_production_line_id : string; en_machine_id : string;
  en_device_id : string; en_sensor_id : string; en_metric : string; en_unit : string;
  en_min_value : float; en_max_value : float
}.

(** A row of the join, before [COALESCE]. *)
Record sensor_join_row := SensorJoinRow {
  sj_organization_id : string; sj_factory_id : string; sj_line_id : string; sj_machine_id : string;
  sj_device_id : string; sj_sensor_id : string; sj_metric : string; sj_unit : string;
  sj_min : option float; sj_max : option float
}.

Definition by_sensor (a b : sensor_join_row) : Prop := String.leb (sj_sensor_id a) (sj_sensor_id b) = true.

#[export] Instance by_sensor_dec : RelDecision by_sensor.
Proof. intros a b. unfold by_sensor. apply _. Defined.

Definition entry_of_row (r : sensor_join_row) : SensorCatalogEntry :=
  mkSensorCatalogEntry (sj_organization_id r) (sj_factory_id r) (sj_line_id r) (sj_machine_id r) (sj_device_id r)
    (sj_sensor_id r) (sj_metric r) (sj_unit r) (default fzero (sj_min r)) (default (float_of_Z 100) (sj_max r)).

(** [load_sensor_catalog], on the rows of the join: [ORDER BY s.id LIMIT limit]
    (uuids are ordered as their lower-case texts). *)
Definition load_sensor_catalog (limit : Z) (rows : list sensor_join_row) : res (list SensorCatalogEntry) :=
  if limit <? 0 then Raise (OtherError "InvalidRowCountInLimitClause" "LIMIT must not be negative")
  else Ok (entry_of_row <$> take (Z.to_nat limit) (merge_sort by_sensor rows)).

(** ** State *)

Record PublishJob := mkPublishJob { jb_topic : string; jb_payload : string }.

(** [SensorGenerator]. *)
Record SensorGenerator := mkSensorGenerator {
  sg_min : float; sg_max : float; sg_mid : float; sg_baseline : float; sg_drift_step : float; sg_anomaly_rate : float
}.

Definition new_generator (lo hi anomaly_rate : float) : SensorGenerator :=
  let mid := SFdiv prec emax (fadd lo hi) ftwo in mkSensorGenerator lo hi mid mid fzero anomaly_rate.

(** The locals of [_run_sensor]. *)
Record sensor := Sensor { sn_entry : SensorCatalogEntry; sn_gen : SensorGenerator; sn_seq : Z; sn_failed : bool }.

(** A [delayed_send] that sleeps. *)
Record delayed_send := DelayedSend { ds_delay : float; ds_topic : string; ds_event : TelemetryEvent; ds_duplicate : bool }.

Record sim := Sim {
  sm_sensors : list sensor;
  (** [MachineController._running] by device *)
  sm_running : gmap string bool;
  sm_jobs : list PublishJob;
  sm_delayed : list delayed_send;
  (** [Stats], by field name *)
  sm_stats : metrics;
  (** what the MQTT broker got *)
  sm_sent : list PublishJob;
  (** draws of the generators, reads of [uuid4] and the clock *)
  sm_draws : nat; sm_reads : nat
}.

#[export] Program Instance sm_stats_part : Part sim metrics := {|
  part_get := sm_stats;
  part_set m s := Sim (sm_sensors s) (sm_running s) (sm_jobs s) (sm_delayed s) m (sm_sent s) (sm_draws s) (sm_reads s) |}.
Solve All Obligations with (intros; by repeat match goal with s : sim |- _ => destruct s end).

(** The fields of [Config] the simulation reads. *)
Record sim_config := SimConfig {
  zc_anomaly_rate : float; zc_duplicate_rate : float; zc_out_of_order_rate : float; zc_network_delay_rate : float;
  zc_sensor_failure_rate : float; zc_messages_per_sec : Z; zc_queue_capacity : Z
}.

(** What one [publish] of [paho] meets: [wait_for_publish] raises, or returns
    with [is_published]; and whether the broker has the message. *)
Record mqtt_outcome := MqttOutcome { mo_wait : res unit; mo_published : bool; mo_stored : bool }.

Record sim_world := SimWorld {
  z_random : nat -> float;
  z_gauss : nat -> float;
  z_uuid4 : nat -> string;
  z_utc_now : nat -> Z;
  z_dump_telemetry : TelemetryEvent -> res string;
  z_dump_status : MachineStatusEvent -> res string;
  (** [json.dumps] *)
  z_json_dumps : list (string * jvalue) -> res string
}.

Section Simulator.
  Variable w : sim_world.
  Variable cfg : sim_config.

Definition draw (f : nat -> float) : M sim float := fun s =>
  (Ok (f (sm_draws s)),
   Sim (sm_sensors s) (sm_running s) (sm_jobs s) (sm_delayed s) (sm_stats s) (sm_sent s) (S (sm_draws s)) (sm_reads s)).
Definition random : M sim float := draw (z_random w).

Definition sim_read {A} (f : nat -> A) : M sim A := fun s =>
  (Ok (f (sm_reads s)),
   Sim (sm_sensors s) (sm_running s) (sm_jobs s) (sm_delayed s) (sm_stats s) (sm_sent s) (sm_draws s) (S (sm_reads s))).

Definition set_jobs (jobs : list PublishJob) : M sim unit := modify (fun s =>
  Sim (sm_sensors s) (sm_running s) jobs (sm_delayed s) (sm_stats s) (sm_sent s) (sm_draws s) (sm_reads s)).
Definition set_delayed (l : list delayed_send) : M sim unit := modify (fun s =>
  Sim (sm_sensors s) (sm_running s) (sm_jobs s) l (sm_stats s) (sm_sent s) (sm_draws s) (sm_reads s)).
Definition set_sensor (i : nat) (x : sensor) : M sim unit := modify (fun s =>
  Sim (<[i := x]> (sm_sensors s)) (sm_running s) (sm_jobs s) (sm_delayed s) (sm_stats s) (sm_sent s) (sm_draws s) (sm_reads s)).

(** ** [faults.py], [machine.py] *)

Record FaultDecision := mkFaultDecision { fd_duplicate : bool; fd_out_of_order : bool; fd_delayed : bool; fd_delay_for : float }.

Definition decide_faults : M sim FaultDecision :=
  r1 ← random;
  let duplicate := fltb r1 (zc_duplicate_rate cfg) in
  r2 ← random;
  '(delayed, delay_for) ← (if fltb r2 (zc_network_delay_rate cfg)
                           then r ← random; mret (true, fadd (flit 1 10) (fmul r (flit 49 10)))
                           else mret (false, fzero));
  r3 ← random;
  mret (if fltb r3 (zc_out_of_order_rate cfg)
        then mkFaultDecision duplicate true true (if (delayed : bool) then delay_for else flit 5 10)
        else mkFaultDecision duplicate false delayed delay_for).

Definition sensor_should_fail (currently_failed : bool) (failure_rate : float) : M sim bool :=
  r ← random;
  mret (if currently_failed then fgeb r (flit 1 10) else fltb r failure_rate).

Definition should_toggle (running : bool) : M sim bool :=
  r ← random;
  mret (if running then fltb r (flit 5 10000) else fltb r (flit 5 100)).

(** [MachineController.is_running] of a device, and [set_running]. *)
Definition is_running (device_id : string) (s : sim) : bool := default true (sm_running s !! device_id).
Definition set_running (device_id : string) (running : bool) : M sim unit := modify (fun s =>
  Sim (sm_sensors s) (<[device_id := running]> (sm_running s)) (sm_jobs s) (sm_delayed s) (sm_stats s) (sm_sent s)
      (sm_draws s) (sm_reads s)).

(** ** [sensorgen.py] *)

Definition DRIFT_MAX_STEP : float := flit 1 100.
Definition REVERSION_PULL : float := flit 5 100.
Definition NOISE_FRACTION : float := flit 1 100.
Definition SPIKE_MIN_FRAC : float := flit 3 10.
Definition SPIKE_MAX_FRAC : float := flit 9 10.

Definition clamp (v lo hi : float) : float := if fltb v lo then lo else if fgtb v hi then hi else v.

(** [round(value * 100) / 100]. *)
Definition round_cents (value : float) : res float :=
  match round_to_int (fmul value (float_of_Z 100)) with
  | inl e => Raise (ArithError e)
  | inr n => match int_truediv n 100 with inl e => Raise (ArithError e) | inr x => Ok x end
  end.

(** The baseline after the drift of one step. *)
Definition drifted (g : SensorGenerator) (r : float) : SensorGenerator :=
  let range_span := fsub (sg_max g) (sg_min g) in
  let drift_step := fadd (sg_drift_step g) (fmul (fmul (fsub (fmul r ftwo) fone) DRIFT_MAX_STEP) range_span) in
  let pull := fmul (fsub (sg_mid g) (sg_baseline g)) REVERSION_PULL in
  let baseline := fadd (sg_baseline g) (fadd (fmul drift_step (flit 1 10)) pull) in
  mkSensorGenerator (sg_min g) (sg_max g) (sg_mid g) (clamp baseline (sg_min g) (sg_max g)) drift_step (sg_anomaly_rate g).

Definition gen_next (g : SensorGenerator) : M sim (SensorGenerator * (float * bool)) :=
  r ← random;
  let g := drifted g r in
  let range_span := fsub (sg_max g) (sg_min g) in
  n ← draw (z_gauss w);
  let value := fadd (sg_baseline g) (fmul (fmul n NOISE_FRACTION) range_span) in
  r ← random;
  '(value, is_anomaly) ←
    (if fltb r (sg_anomaly_rate g) then
       m ← random;
       let magnitude := fmul (fadd SPIKE_MIN_FRAC (fmul m (fsub SPIKE_MAX_FRAC SPIKE_MIN_FRAC))) range_span in
       r ← random;
       let sign := if fgeb r (flit 5 10) then fone else fopp fone in
       mret (fadd value (fmul sign magnitude), true)
     else mret (value, false));
  x ← of_res (round_cents value);
  mret (g, (x, is_anomaly)).

(** ** [publisher.py] *)

Fixpoint skip_chars (n : nat) (s : string) : string :=
  match n, s with S n, String _ s => skip_chars n s | _, _ => s end.

(** What follows the first ["://"]. *)
Fixpoint after_scheme (s : string) : option string :=
  if String.prefix "://" s then Some (skip_chars 3 s)
  else match s with EmptyString => None | String _ s => after_scheme s end.

(** [_parse_broker_url]: host and port. *)
Definition _parse_broker_url (url : string) : res (string * Z) :=
  let without_scheme := default url (after_scheme url) in
  let '(host, port) := partition_on ":" without_scheme in
  if bool_decide (port = "") then Ok (host, 1883)
  else match parse_int 10 port with
       | Some n => Ok (host, n)
       | None => Raise (ValueError ("invalid literal for int() with base 10: " +:+ port))
       end.

(** [MQTTPublisher.publish], once [self._client.publish] has queued the message. *)
Definition mqtt_publish (job : PublishJob) (o : mqtt_outcome) : M sim unit :=
  (if mo_stored o then modify (fun s =>
     Sim (sm_sensors s) (sm_running s) (sm_jobs s) (sm_delayed s) (sm_stats s) (sm_sent s ++ [job]) (sm_draws s) (sm_reads s))
   else mret tt) ;;
  match mo_wait o with
  | Raise (ValueError msg) | Raise (RuntimeError msg) =>
      raise (OtherError "MQTTPublishError" ("publish to " +:+ jb_topic job +:+ " failed: " +:+ msg))
  | Raise e => raise e
  | Ok _ =>
      if mo_published o then mret tt
      else raise (OtherError "MQTTPublishError" ("publish to " +:+ jb_topic job +:+ " timed out after 5.0s"))
  end.

(** ** [main.py] *)

(** [enqueue], on the outcome of [model_dump_json]. *)
Definition enqueue (topic : string) (payload : res string) : M sim unit :=
  p ← of_res payload;
  jobs ← gets sm_jobs;
  let '(fits, jobs) := put_nowait (zc_queue_capacity cfg) (mkPublishJob topic p) jobs in
  if (fits : bool) then set_jobs jobs else inc "dropped".

(** [_publish_event]. *)
Definition send_event (topic : string) (evt : TelemetryEvent) (duplicate : bool) : M sim unit :=
  enqueue topic (z_dump_telemetry w evt) ;;
  if duplicate then inc "duplicates" ;; enqueue topic (z_dump_telemetry w evt) else mret tt.

Definition _publish_event (evt : TelemetryEvent) (topic : string) (fd : FaultDecision) : M sim unit :=
  if fd_delayed fd then
    inc "delayed" ;;
    (if fd_out_of_order fd then inc "out_of_order" else mret tt) ;;
    l ← gets sm_delayed;
    set_delayed (l ++ [DelayedSend (fd_delay_for fd) topic evt (fd_duplicate fd)])
  else send_event topic evt (fd_duplicate fd).

Definition machine_topic (e : SensorCatalogEntry) : string :=
  "factory/" +:+ en_factory_id e +:+ "/machine/" +:+ en_machine_id e.
Definition telemetry_topic (e : SensorCatalogEntry) : string :=
  (machine_topic e +:+ "/sensor/" +:+ en_sensor_id e) +:+ "/telemetry".
Definition events_topic (e : SensorCatalogEntry) : string := machine_topic e +:+ "/events".
Definition status_topic (e : SensorCatalogEntry) : string := machine_topic e +:+ "/status".

(** [MachineEvent.model_dump_json]. *)
Definition dump_machine_event (e : MachineEvent) : res string := z_json_dumps w (omit_empty (machine_event_fields e)).

Definition sensor_event (e : SensorCatalogEntry) (event_type : string) (now : Z) : MachineEvent :=
  mkMachineEvent (en_organization_id e) (en_factory_id e) (en_machine_id e) (en_device_id e) (en_sensor_id e) ""
    event_type (Some (Aware now)).

Definition sensor_reading (e : SensorCatalogEntry) (event_id : string) (now seq : Z) (value : float) : TelemetryEvent :=
  mkTelemetryEvent event_id (en_organization_id e) (en_factory_id e) (en_production_line_id e) (en_machine_id e)
    (en_device_id e) (en_sensor_id e) (Some (Aware now)) seq (en_metric e) value (en_unit e).

(** [jitter]: how long a sensor waits. *)
Definition jitter (base_interval : float) : M sim float :=
  r ← random; mret (fmul base_interval (fadd (flit 8 10) (fmul r (flit 4 10)))).

(** The second half of an iteration of [_run_sensor], for a healthy sensor. *)
Definition send_reading (i : nat) (x : sensor) : M sim unit :=
  let e := sn_entry x in
  '(g, (value, is_anomaly)) ← gen_next (sn_gen x);
  let seq := sn_seq x + 1 in
  set_sensor i (Sensor e g seq false) ;;
  (if (is_anomaly : bool) then inc "anomalies" else mret tt) ;;
  event_id ← sim_read (z_uuid4 w);
  now ← sim_read (z_utc_now w);
  fd ← decide_faults;
  _publish_event (sensor_reading e event_id now seq value) (telemetry_topic e) fd.

(** The event of a sensor that fails or recovers. *)
Definition announce_health (e : SensorCatalogEntry) (failed : bool) : M sim unit :=
  (if failed then inc "sensor_failed" else mret tt) ;;
  now ← sim_read (z_utc_now w);
  enqueue (events_topic e)
    (dump_machine_event (sensor_event e (if failed then "SENSOR_FAILURE" else "SENSOR_RECOVERED") now)).

(** One iteration of [_run_sensor], the wait included. *)
Definition sensor_tick (base_interval : float) (i : nat) : M sim unit :=
  sensors ← gets sm_sensors;
  match sensors !! i with
  | None => mret tt
  | Some x =>
      let e := sn_entry x in
      jitter base_interval ;;
      running ← gets (is_running (en_device_id e));
      if negb running then mret tt
      else
        failed ← sensor_should_fail (sn_failed x) (zc_sensor_failure_rate cfg);
        set_sensor i (Sensor e (sn_gen x) (sn_seq x) failed) ;;
        (if negb (Bool.eqb failed (sn_failed x)) then announce_health e failed else mret tt) ;;
        if (failed : bool) then mret tt else send_reading i (Sensor e (sn_gen x) (sn_seq x) failed)
  end.

(** [delayed_send] wakes up. *)
Definition delayed_tick (i : nat) : M sim unit :=
  l ← gets sm_delayed;
  match l !! i with
  | None => mret tt
  | Some d => set_delayed (delete i l) ;; send_event (ds_topic d) (ds_event d) (ds_duplicate d)
  end.

(** One iteration of [_run_machine_controller] of the device of [e]. *)
Definition machine_tick (e : SensorCatalogEntry) : M sim unit :=
  running ← gets (is_running (en_device_id e));
  toggle ← should_toggle running;
  if (toggle : bool) then
    set_running (en_device_id e) (negb running) ;;
    let new_status := if (running : bool) then "STOPPED" else "RUNNING" in
    now ← sim_read (z_utc_now w);
    enqueue (status_topic e) (z_dump_status w (mkMachineStatusEvent (en_organization_id e) (en_factory_id e) (en_machine_id e)
      new_status (Some (Aware now)))) ;;
    now ← sim_read (z_utc_now w);
    enqueue (events_topic e) (dump_machine_event (mkMachineEvent (en_organization_id e) (en_factory_id e) (en_machine_id e)
      (en_device_id e) "" "" ("MACHINE_" +:+ new_status) (Some (Aware now))))
  else mret tt.

(** One job of a publisher thread. *)
Definition publish_job (job : PublishJob) (o : mqtt_outcome) : M sim unit :=
  try_else (mqtt_publish job o) (fun _ => inc "publish_errs") (fun _ => inc "published").

(** [_publisher_worker]: each round takes a job or finds the queue empty; [true]
    when it returned.  [shutdown] is [shutdown_event]. *)
Fixpoint _publisher_worker (rounds : nat) (shutdown : bool) (outcome : nat -> mqtt_outcome) : M sim bool :=
  match rounds with
  | O => mret false
  | S rounds =>
      jobs ← gets sm_jobs;
      match (jobs : list PublishJob) with
      | [] => if shutdown then mret true else _publisher_worker rounds shutdown outcome
      | job :: jobs => set_jobs jobs ;; publish_job job (outcome rounds) ;; _publisher_worker rounds shutdown outcome
      end
  end.

(** The interval between two readings of a sensor; [len(catalog) / max(rate, 1)]. *)
Definition base_interval (catalog : list SensorCatalogEntry) : res float :=
  match int_truediv (Z.of_nat (length catalog)) (Z.max (zc_messages_per_sec cfg) 1) with
  | inl e => Raise (ArithError e)
  | inr x => Ok (if fleb x fzero then flit 1 100 else x)
  end.

(** The state in which the tasks start. *)
Definition simulation (catalog : list SensorCatalogEntry) : sim :=
  Sim ((fun e => Sensor e (new_generator (en_min_value e) (en_max_value e) (zc_anomaly_rate cfg)) 0 false) <$> catalog)
    ∅ [] [] (Metrics ∅) [] 0 0.

(** What the tasks and the publisher threads do, one step at a time. *)
Inductive sim_op :=
  | OpSensor (i : nat) | OpDelayed (i : nat) | OpMachine (e : SensorCatalogEntry) | OpPublish (o : mqtt_outcome).

Definition sim_step (interval : float) (o : sim_op) : M sim unit :=
  match o with
  | OpSensor i => sensor_tick interval i
  | OpDelayed i => try_except (delayed_tick i) (fun _ => mret tt)
  | OpMachine e => machine_tick e
  | OpPublish o => jobs ← gets sm_jobs;
                   match (jobs : list PublishJob) with [] => mret tt | job :: jobs => set_jobs jobs ;; publish_job job o end
  end.

(** [asyncio.gather] until shutdown: an exception of a gathered task ends the
    run; one of a delayed send, which nothing awaits, does not. *)
Definition run_simulation (catalog : list SensorCatalogEntry) (ops : list sim_op) : M sim unit :=
  interval ← of_res (base_interval catalog);
  for_each ops (sim_step interval).

End Simulator.

(** ** What the simulation sends *)

(** A catalog entry as the schema has it: uuids, a metric of the [CHECK] on
    [sensors.metric], a unit, and an operating range. *)
Definition entry_ok (e : SensorCatalogEntry) : Prop :=
  Forall (fun id => is_Some (uuid_of_string id))
    [en_organization_id e; en_factory_id e; en_production_line_id e; en_machine_id e; en_device_id e; en_sensor_id e] /\
  en_metric e ∈ VALID_METRICS /\ en_unit e <> "" /\ fleb (en_min_value e) (en_max_value e) = true.

(** A [MachineStatusEvent] as [ingestion] reads it. *)
Definition as_machine_event (m : MachineStatusEvent) : MachineEvent :=
  mkMachineEvent (ms_organization_id m) (ms_factory_id m) (ms_machine_id m) "" "" (ms_status m) "" (ms_timestamp m).

(** The payload of a job is one [ingestion] accepts from that topic. *)
Inductive job_ok (w : sim_world) : PublishJob -> Prop :=
  | job_telemetry topic evt p :
      endswith topic "/telemetry" = true -> telemetry_valid evt -> z_dump_telemetry w evt = Ok p ->
      job_ok w (mkPublishJob topic p)
  | job_status topic m p :
      endswith topic "/status" = true -> (forall r u, validate_machine_event r u (as_machine_event m) = Ok tt) ->
      z_dump_status w m = Ok p -> job_ok w (mkPublishJob topic p)
  | job_event topic e p :
      endswith topic "/events" = true -> (forall r u, validate_machine_event r u e = Ok tt) ->
      dump_machine_event w e = Ok p -> job_ok w (mkPublishJob topic p).

(** The baseline has stayed in the operating range since the first reading. *)
Definition in_operating_range (g : SensorGenerator) : Prop :=
  fltb (sg_baseline g) (sg_min g) = false /\ fgtb (sg_baseline g) (sg_max g) = false.

Record sensor_ok (x : sensor) : Prop := {
  so_entry : entry_ok (sn_entry x);
  so_seq : 0 <= sn_seq x;
  so_range : sg_min (sn_gen x) = en_min_value (sn_entry x) /\ sg_max (sn_gen x) = en_max_value (sn_entry x);
  so_baseline : 0 < sn_seq x -> in_operating_range (sn_gen x)
}.

Definition delayed_ok (d : delayed_send) : Prop :=
  telemetry_valid (ds_event d) /\ endswith (ds_topic d) "/telemetry" = true.

Record sim_ok (w : sim_world) (cfg : sim_config) (s : sim) : Prop := {
  zo_sensors : Forall sensor_ok (sm_sensors s);
  zo_delayed : Forall delayed_ok (sm_delayed s);
  zo_jobs : Forall (job_ok w) (sm_jobs s);
  zo_sent : Forall (job_ok w) (sm_sent s);
  zo_bound : 0 < zc_queue_capacity cfg -> Z.of_nat (length (sm_jobs s)) <= zc_queue_capacity cfg
}.

Create HintDb sim.

Section SimInvariant.
  Variables (w : sim_world) (cfg : sim_config).
  Local Abbreviation keeps := (preserves (sim_ok w cfg)).

Lemma keeps_bind {A B} (m : M sim A) (k : A -> M sim B) : keeps m -> (forall a, keeps (k a)) -> keeps (m ≫= k).
Proof. apply preserves_bind. Qed.

Lemma keeps_ret {A} (a : A) : keeps (mret a).
Proof. by intros s. Qed.

Lemma keeps_gets {A} (f : sim -> A) : keeps (gets f).
Proof. by intros s. Qed.

Lemma keeps_of_res {A} (r : res A) : keeps (of_res r).
Proof. by intros s. Qed.

Lemma keeps_draw f : keeps (draw f).
Proof. by intros s []. Qed.

Lemma keeps_read {A} (f : nat -> A) : keeps (sim_read f).
Proof. by intros s []. Qed.

Lemma keeps_inc name : keeps (inc name).
Proof. by intros s []. Qed.

Lemma keeps_running id b : keeps (set_running id b).
Proof. by intros s []. Qed.

Lemma keeps_set_sensor i x : sensor_ok x -> keeps (set_sensor i x).
Proof.
  intros Hx s [Hs ? ? ? ?]. split; simpl; [|done..].
  clear -Hs Hx. revert i. induction Hs; intros [|i]; simpl; auto using Forall_nil_2, Forall_cons_2.
Qed.

Lemma keeps_set_delayed l : Forall delayed_ok l -> keeps (set_delayed l).
Proof. by intros Hl s []. Qed.

Lemma keeps_enqueue topic payload :
  (forall p, payload = Ok p -> job_ok w (mkPublishJob topic p)) -> keeps (enqueue cfg topic payload).
Proof.
  intros Hj s Hs. unfold enqueue, mbind, M_bind, of_res. destruct payload as [p|e]; [|done].
  specialize (Hj p eq_refl). simpl. unfold put_nowait.
  destruct (Z.ltb_spec 0 (zc_queue_capacity cfg)); simpl;
    [destruct (Z.leb_spec (zc_queue_capacity cfg) (Z.of_nat (length (sm_jobs s)))); simpl; [by apply keeps_inc|]|];
    destruct Hs; (split; simpl; [done | done | | done | rewrite ?length_app; simpl; lia]);
    by apply Forall_app; split; [|apply Forall_singleton].
Qed.

End SimInvariant.

#[export] Hint Resolve keeps_ret keeps_gets keeps_of_res keeps_draw keeps_read keeps_inc keeps_running
  keeps_set_sensor keeps_set_delayed keeps_enqueue : sim.

(** Follows the control flow of an operation down to its effects. *)
Ltac keep_step :=
  repeat first
    [ progress auto with sim
    | apply keeps_bind; [|intros ?]
    | match goal with
      | |- preserves _ (match ?x with _ => _ end) => destruct x
      end ].

Lemma clamp_bounds v lo hi :
  fleb lo hi = true -> fltb (clamp v lo hi) lo = false /\ fgtb (clamp v lo hi) hi = false.
Proof.
  intros Hle. unfold clamp. destruct (fltb v lo) eqn:E1; [forder|]. destruct (fgtb v hi) eqn:E2; forder.
Qed.

Lemma drifted_bounds g r :
  fleb (sg_min g) (sg_max g) = true -> in_operating_range (drifted g r) /\
  sg_min (drifted g r) = sg_min g /\ sg_max (drifted g r) = sg_max g.
Proof. intros Hle. split; [|done]. unfold in_operating_range. simpl. by apply clamp_bounds. Qed.

Lemma round_cents_finite x y : round_cents x = Ok y -> is_finite y = true.
Proof.
  unfold round_cents. destruct (round_to_int _) as [|n]; [done|].
  destruct (int_truediv n 100) eqn:E; [done|]. intros [= <-]. by eapply int_truediv_finite.
Qed.

(** What a generator returns: a finite value, and a baseline in range. *)
Lemma gen_next_result w g s g' v a s' :
  fleb (sg_min g) (sg_max g) = true -> gen_next w g s = (Ok (g', (v, a)), s') ->
  is_finite v = true /\ in_operating_range g' /\ sg_min g' = sg_min g /\ sg_max g' = sg_max g.
Proof.
  intros Hle. unfold gen_next, random, draw, mbind, M_bind, of_res, mret, M_ret.
  set (g1 := drifted g _). pose proof (drifted_bounds g (z_random w (sm_draws s)) Hle) as Hg. fold g1 in Hg. clearbody g1.
  simpl. destruct (fltb _ _); simpl; destruct (round_cents _) as [y|] eqn:Ey; try done;
    intros [= <- <- _ _]; (split; [by eapply round_cents_finite | done]).
Qed.

Section Preservation.
  Variables (w : sim_world) (cfg : sim_config).
  Local Abbreviation keeps := (preserves (sim_ok w cfg)).
  Hypothesis uuid4_is_uuid : forall n, is_Some (uuid_of_string (z_uuid4 w n)).

Lemma keeps_gen_next g : keeps (gen_next w g).
Proof. unfold gen_next, random. cbv zeta. keep_step. Qed.

Lemma keeps_decide : keeps (decide_faults w cfg).
Proof. unfold decide_faults, random. cbv zeta. keep_step. Qed.

Lemma keeps_send_event topic evt duplicate :
  telemetry_valid evt -> endswith topic "/telemetry" = true -> keeps (send_event w cfg topic evt duplicate).
Proof.
  intros Hv Ht. assert (Hj : forall p, z_dump_telemetry w evt = Ok p -> job_ok w (mkPublishJob topic p))
    by (intros p; by apply job_telemetry).
  unfold send_event. keep_step.
Qed.

Lemma keeps_publish_event evt topic fd :
  telemetry_valid evt -> endswith topic "/telemetry" = true -> keeps (_publish_event w cfg evt topic fd).
Proof.
  intros Hv Ht. unfold _publish_event. destruct (fd_delayed fd); [|by apply keeps_send_event].
  apply keeps_bind; [auto with sim | intros _]. apply keeps_bind; [keep_step | intros _].
  intros s Hs. unfold mbind, M_bind. simpl. apply keeps_set_delayed; [|done].
  apply Forall_app. split; [by destruct Hs | by apply Forall_singleton].
Qed.

Lemma entry_ids e : entry_ok e ->
  is_Some (uuid_of_string (en_organization_id e)) /\ is_Some (uuid_of_string (en_factory_id e)) /\
  is_Some (uuid_of_string (en_machine_id e)).
Proof. intros [Hids _]. rewrite !Forall_cons in Hids. tauto. Qed.

(** Machine events built on an entry's ids pass validation. *)
Lemma machine_event_valid e m :
  entry_ok e -> me_organization_id m = en_organization_id e -> me_factory_id m = en_factory_id e ->
  me_machine_id m = en_machine_id e -> me_timestamp m <> None -> me_status m <> "" \/ me_event_type m <> "" ->
  forall r u, validate_machine_event r u m = Ok tt.
Proof.
  intros (Ho & Hf & Hm)%entry_ids E1 E2 E3 Ht Hs r u. unfold validate_machine_event.
  rewrite !andthen_ok, !require_uuid_ok, !check_ok, E1, E2, E3, bool_decide_eq_false, andb_false_iff, !bool_decide_eq_false.
  tauto.
Qed.

Lemma reading_valid e id now seq v :
  entry_ok e -> is_Some (uuid_of_string id) -> 0 < seq -> is_finite v = true ->
  telemetry_valid (sensor_reading e id now seq v).
Proof.
  intros (Hids & Hm & Hu & _) Hid Hseq Hv. unfold telemetry_valid, sensor_reading. simpl.
  rewrite !Forall_cons in *. split_and!; try tauto; try done; lia.
Qed.

Lemma keeps_send_reading i x : sensor_ok x -> keeps (send_reading w cfg i x).
Proof.
  intros [He Hseq [Hmin Hmax] _]. unfold send_reading. cbv zeta.
  assert (Hle : fleb (sg_min (sn_gen x)) (sg_max (sn_gen x)) = true) by (rewrite Hmin, Hmax; apply He).
  eapply (preserves_bind_with _ (fun '(g', (v, _)) => is_finite v = true /\ in_operating_range g' /\
    sg_min g' = sg_min (sn_gen x) /\ sg_max g' = sg_max (sn_gen x))); [apply keeps_gen_next | intros s [g [v a]] s' _ Hg; exact (gen_next_result _ _ _ _ _ _ _ Hle Hg)|].
  intros [g [v a]] (Hv & Hb & Hgmin & Hgmax).
  apply keeps_bind; [|intros _].
  { apply keeps_set_sensor. split; simpl; [done | lia | by rewrite Hgmin, Hgmax | done]. }
  apply keeps_bind; [keep_step | intros _].
  eapply (preserves_bind_with _ (fun id => is_Some (uuid_of_string id))); [apply keeps_read | |].
  { intros s id s' _ [= <- _]. apply uuid4_is_uuid. }
  intros id Hid. apply keeps_bind; [auto with sim | intros now]. apply keeps_bind; [apply keeps_decide | intros fd].
  apply keeps_publish_event; [apply reading_valid; [done..|lia|done] | apply endswith_app].
Qed.

Lemma keeps_announce e failed : entry_ok e -> keeps (announce_health w cfg e failed).
Proof.
  intros He. unfold announce_health. apply keeps_bind; [keep_step | intros _].
  apply keeps_bind; [auto with sim | intros now]. apply keeps_enqueue. intros p Hp.
  eapply job_event; [apply endswith_app | | exact Hp].
  apply (machine_event_valid e); [done..|]. right. by destruct failed.
Qed.

Lemma keeps_sensor_tick interval i : keeps (sensor_tick w cfg interval i).
Proof.
  intros s Hs. unfold sensor_tick. unfold mbind at 1, M_bind at 1. simpl.
  destruct (sm_sensors s !! i) as [x|] eqn:Ex; [|done]. revert s Hs Ex. intros s Hs Ex.
  assert (Hx : sensor_ok x) by (destruct Hs as [Hall _ _ _ _]; by eapply Forall_lookup in Hall).
  assert (Hx' : forall b, sensor_ok (Sensor (sn_entry x) (sn_gen x) (sn_seq x) b)) by (intros b; by destruct Hx).
  match goal with |- sim_ok _ _ (snd (?m s)) => assert (Hm : keeps m); [|by apply Hm] end.
  clear s Hs Ex. apply keeps_bind; [unfold jitter, random; keep_step | intros _].
  apply keeps_bind; [auto with sim | intros running]. destruct (negb running); [auto with sim|].
  apply keeps_bind; [unfold sensor_should_fail, random; keep_step | intros failed].
  apply keeps_bind; [auto with sim | intros _].
  apply keeps_bind; [destruct (negb _); [apply keeps_announce, Hx | auto with sim] | intros _].
  destruct failed; [auto with sim | by apply keeps_send_reading].
Qed.

Lemma keeps_delayed_tick i : keeps (delayed_tick w cfg i).
Proof.
  intros s Hs. unfold delayed_tick. unfold mbind at 1, M_bind at 1. simpl.
  destruct (sm_delayed s !! i) as [d|] eqn:Ed; [|done]. pose proof (zo_delayed _ _ _ Hs) as Hall.
  destruct (Forall_lookup_1 _ _ _ _ Hall Ed) as [Hv Ht].
  match goal with |- sim_ok _ _ (snd (?m s)) => assert (Hm : keeps m); [|by apply Hm] end.
  apply keeps_bind; [apply keeps_set_delayed, Forall_delete, Hall | intros _]. by apply keeps_send_event.
Qed.

Lemma keeps_machine_tick e : entry_ok e -> keeps (machine_tick w cfg e).
Proof.
  intros He. unfold machine_tick. apply keeps_bind; [auto with sim | intros running].
  apply keeps_bind; [unfold should_toggle, random; keep_step | intros [|]]; [|auto with sim]. cbv zeta.
  apply keeps_bind; [auto with sim | intros _]. apply keeps_bind; [auto with sim | intros t1].
  apply keeps_bind; [|intros _].
  - apply keeps_enqueue. intros p Hp. eapply job_status; [apply endswith_app | | exact Hp].
    apply (machine_event_valid e); [done..|]. left. by destruct running.
  - apply keeps_bind; [auto with sim | intros t2]. apply keeps_enqueue. intros p Hp.
    eapply job_event; [apply endswith_app | | exact Hp].
    apply (machine_event_valid e); [done..|]. right. by destruct running.
Qed.

Lemma keeps_publish_next o :
  keeps (jobs ← gets sm_jobs; match jobs with [] => mret tt | job :: jobs => set_jobs jobs ;; publish_job job o end).
Proof.
  intros [sensors running jobs delayed stats sent nd nr] [Hs Hd Hj Hsent Hb]. simpl in *.
  destruct jobs as [|job jobs]; [by split|]. apply Forall_cons in Hj as [Hjob Hj].
  unfold mbind at 1, M_bind at 1. simpl.
  unfold publish_job, try_else, mqtt_publish, mbind, M_bind.
  assert (Hcap : 0 < zc_queue_capacity cfg -> Z.of_nat (length jobs) <= zc_queue_capacity cfg)
    by (intros Hc; specialize (Hb Hc); simpl in Hb; lia).
  assert (Hsent' : Forall (job_ok w) (sent ++ [job])) by (by apply Forall_app; split; [|apply Forall_singleton]).
  destruct (mo_stored o), (mo_wait o) as [|[]]; simpl; try (destruct (mo_published o)); by split.
Qed.

End Preservation.

(** ** The publisher *)

(** Jobs a worker is done with. *)
Definition handled (s : sim) : Z := counter (sm_stats s) "published" + counter (sm_stats s) "publish_errs".

(** A job is published or counted as an error: no exception leaves the worker. *)
Lemma publish_job_done job o s :
  exists s', publish_job job o s = (Ok tt, s') /\ sm_jobs s' = sm_jobs s /\ handled s' = handled s + 1 /\
    sm_sent s' = sm_sent s ++ (if mo_stored o then [job] else []).
Proof.
  destruct s as [sensors running jobs delayed [m] sent nd nr].
  unfold publish_job, try_else, mqtt_publish, mbind, M_bind, handled, counter.
  assert (Hp : default 0 (<["published" := default 0 (m !! "published") + 1]> m !! "published") +
    default 0 (<["published" := default 0 (m !! "published") + 1]> m !! "publish_errs") =
    default 0 (m !! "published") + default 0 (m !! "publish_errs") + 1)
    by (rewrite lookup_insert_eq, lookup_insert_ne by done; simpl; lia).
  assert (He : default 0 (<["publish_errs" := default 0 (m !! "publish_errs") + 1]> m !! "published") +
    default 0 (<["publish_errs" := default 0 (m !! "publish_errs") + 1]> m !! "publish_errs") =
    default 0 (m !! "published") + default 0 (m !! "publish_errs") + 1)
    by (rewrite lookup_insert_eq, lookup_insert_ne by done; simpl; lia).
  destruct (mo_stored o), (mo_wait o) as [|[]]; simpl; try (destruct (mo_published o));
    (eexists; split_and!; [reflexivity | done | simpl; first [apply Hp | apply He] | by rewrite ?app_nil_r]).
Qed.

Lemma worker_drains outcome rounds s :
  (length (sm_jobs s) < rounds)%nat ->
  exists s', _publisher_worker rounds true outcome s = (Ok true, s') /\ sm_jobs s' = [] /\
    handled s' = handled s + Z.of_nat (length (sm_jobs s)).
Proof.
  revert s. induction rounds as [|rounds IH]; intros s Hr; [lia|]. simpl.
  unfold mbind at 1, M_bind at 1. simpl. destruct (sm_jobs s) as [|job jobs] eqn:Ej.
  { exists s. rewrite Ej. split_and!; [done..|]. simpl. lia. }
  erewrite bind_ok by reflexivity.
  match goal with |- context [mbind _ _ ?st] => set (s0 := st) end.
  destruct (publish_job_done job (outcome rounds) s0) as (s1 & H1 & Hj1 & Hh1 & _).
  rewrite (bind_ok _ _ _ _ _ H1). simpl in Hj1, Hr.
  destruct (IH s1) as (s2 & H2 & Hj2 & Hh2); [rewrite Hj1; lia|]. exists s2. split_and!; [done..|].
  rewrite Hh2, Hh1, Hj1. change (handled s0) with (handled s). simpl length. lia.
Qed.

Lemma worker_waits outcome rounds s : fst (_publisher_worker rounds false outcome s) <> Ok true.
Proof.
  revert s. induction rounds as [|rounds IH]; intros s; [done|]. simpl.
  unfold mbind at 1, M_bind at 1. simpl. destruct (sm_jobs s) as [|job jobs]; [apply IH|].
  erewrite bind_ok by reflexivity.
  match goal with |- context [mbind _ _ ?st] => set (s0 := st) end.
  destruct (publish_job_done job (outcome rounds) s0) as (s1 & H1 & _). rewrite (bind_ok _ _ _ _ _ H1). apply IH.
Qed.

(** ** Concrete inputs *)

Definition demo_entry : SensorCatalogEntry :=
  let id := "00000000-0000-4000-8000-000000000001" in
  mkSensorCatalogEntry id id id id id id "temperature" "celsius" (float_of_Z 20) (float_of_Z 90).

Definition demo_sim_world : sim_world :=
  SimWorld (fun n => flit (Z.of_nat (n mod 10)) 10) (fun n => fzero) (fun _ => "00000000-0000-4000-8000-000000000002") Z.of_nat
    (fun e => Ok (te_metric e)) (fun m => Ok (ms_status m)) (fun _ => Ok "{}").

Definition demo_sim_config : sim_config := SimConfig (flit 2 100) (flit 5 10) (flit 2 10) fzero fzero 1000 2.

Definition demo_ops : list sim_op :=
  [OpSensor 0; OpSensor 0; OpMachine demo_entry; OpDelayed 0; OpPublish (MqttOutcome (Ok tt) true true); OpSensor 0].

Lemma demo_entry_ok : entry_ok demo_entry.
Proof.
  unfold entry_ok. split_and!; [|apply (bool_decide_unpack _); by vm_compute | done | by vm_compute].
  apply (bool_decide_unpack _). by vm_compute.
Qed.

(** ** Theorems *)

(** [C15] Whatever the sensors, the machine controllers, the delayed sends and the
    publishers do and however the random draws fall: every message the broker
    got or the queue holds is a telemetry event, a machine status or a machine
    event that [ingestion] accepts, on a topic of its kind; the queue never
    holds more than its capacity; and a sensor that has sent a reading keeps its
    baseline in the operating range of its catalog entry. *)
Theorem simulated_messages_valid (w : sim_world) (cfg : sim_config) (catalog : list SensorCatalogEntry) (ops : list sim_op) :
  (forall n, is_Some (uuid_of_string (z_uuid4 w n))) -> Forall entry_ok catalog ->
  (forall e, OpMachine e ∈ ops -> e ∈ catalog) ->
  let s := exec (run_simulation w cfg catalog ops) (simulation cfg catalog) in
  Forall (job_ok w) (sm_sent s ++ sm_jobs s) /\
  (0 < zc_queue_capacity cfg -> Z.of_nat (length (sm_jobs s)) <= zc_queue_capacity cfg) /\
  Forall (fun x => 0 < sn_seq x -> fltb (sg_baseline (sn_gen x)) (en_min_value (sn_entry x)) = false /\
                                   fgtb (sg_baseline (sn_gen x)) (en_max_value (sn_entry x)) = false) (sm_sensors s).
Proof.
  intros Huuid Hcat Hops s. assert (Hok : sim_ok w cfg s).
  { assert (H0 : sim_ok w cfg (simulation cfg catalog)).
    { split; simpl; try done; [|lia]. apply Forall_fmap. eapply Forall_impl; [done|]. intros e He. by split. }
    revert H0. subst s. generalize (simulation cfg catalog). unfold exec, run_simulation.
    match goal with |- forall s, _ -> sim_ok _ _ (snd (?m s)) => change (preserves (sim_ok w cfg) m) end.
    apply keeps_bind; [auto with sim | intros interval].
    induction ops as [|o ops IH]; simpl; [auto with sim|].
    apply keeps_bind; [|intros _; apply IH; intros e He; apply Hops; by apply elem_of_cons; right].
    destruct o; simpl; [by apply keeps_sensor_tick | | | by apply keeps_publish_next].
    - apply preserves_try; [by apply keeps_delayed_tick | auto with sim].
    - apply keeps_machine_tick. eapply Forall_forall; [done|]. apply Hops. by apply elem_of_cons; left. }
  destruct Hok as [Hs _ Hj Hsent Hb]. split_and!; [by apply Forall_app | done |].
  eapply Forall_impl; [exact Hs|]. intros x [_ _ [<- <-] Hr]. exact Hr.
Qed.

(** Draining terminates: once the shutdown event is set, a publisher thread
    returns after one round per queued job and one more, with the queue empty
    and every job counted as published or failed, whatever the broker does;
    before the event is set it never returns. *)
Theorem publisher_drains (outcome : nat -> mqtt_outcome) (s : sim) (rounds : nat) :
  (length (sm_jobs s) < rounds)%nat ->
  (exists s', _publisher_worker rounds true outcome s = (Ok true, s') /\ sm_jobs s' = [] /\
     counter (sm_stats s') "published" + counter (sm_stats s') "publish_errs" =
     counter (sm_stats s) "published" + counter (sm_stats s) "publish_errs" + Z.of_nat (length (sm_jobs s))) /\
  fst (_publisher_worker rounds false outcome s) <> Ok true.
Proof. intros Hr. split; [by apply worker_drains | apply worker_waits]. Qed.

Lemma simulated_messages_valid_witness :
  let s := exec (run_simulation demo_sim_world demo_sim_config [demo_entry] demo_ops) (simulation demo_sim_config [demo_entry]) in
  length (sm_sent s) = 1%nat /\ length (sm_jobs s) = 2%nat /\ Forall (job_ok demo_sim_world) (sm_sent s ++ sm_jobs s).
Proof.
  split; [by vm_compute | split; [by vm_compute|]].
  apply (simulated_messages_valid demo_sim_world demo_sim_config [demo_entry] demo_ops).
  - intros n. apply (bool_decide_unpack _). by vm_compute.
  - apply Forall_singleton, demo_entry_ok.
  - intros e He. unfold demo_ops in He. rewrite !elem_of_cons, elem_of_nil in He.
    destruct He as [He | [He | [He | [He | [He | [He | []]]]]]]; try discriminate.
    injection He as ->. by apply list_elem_of_singleton.
Defined.

Lemma publisher_drains_witness :
  let s := Sim [] ∅ [mkPublishJob "a" "b"; mkPublishJob "c" "d"] [] (Metrics ∅) [] 0 0 in
  exists s', _publisher_worker 3 true (fun n => MqttOutcome (Ok tt) (bool_decide (n = 1%nat)) true) s = (Ok true, s') /\ sm_jobs s' = [].
Proof.
  intros s. destruct (publisher_drains (fun n => MqttOutcome (Ok tt) (bool_decide (n = 1%nat)) true) s 3) as [(s' & H1 & H2 & _) _];
    [simpl; lia | by exists s'].
Defined.
