(* ===== verification/Seed.v ===== *)
(** [scripts/seed/main.py]: the reference data the platform starts from, as the
    statements the script issues.  The hierarchy is one transaction; every other
    step is autocommit statements behind a check that makes it skip what is
    there.  Also the join of [simulator/loader.py], which reads the hierarchy. *)

From stdpp Require Import prelude strings pretty list.
From Stdlib Require Import ZArith Lia Ascii SpecFloat.
From S2P Require Import Prelude PyFloat Effects PyStr Postgres Auth ApiTenant Events Simulator.

Local Open Scope Z_scope.

(** ** Tables *)

Record organization_row := OrganizationRow { og_id : string; og_name : string; og_slug : string }.
Record role_row := RoleRow { rl_id : string; rl_name : string; rl_description : string }.
Record permission_row := PermissionRow { pm_id : string; pm_code : string; pm_description : string }.
Record role_permission_row := RolePermissionRow { rp_role_id : string; rp_permission_id : string }.
Record user_role_row := UserRoleRow { ur_user_id : string; ur_role_id : string }.
(** A row of [users], with the column the services do not read. *)
Record named_user := NamedUser { nu_user : user_row; nu_full_name : string }.
(** A row of [devices], with the column the services do not read. *)
Record dated_device := DatedDevice { dd_device : device_row; dd_activated_at : option Z }.

Record seed_db := SeedDb {
  sd_organizations : list organization_row; sd_factories : list factory_row; sd_lines : list line_row;
  sd_machines : list machine_row; sd_devices : list dated_device; sd_credentials : list credential_row;
  sd_sensors : list sensor_row; sd_alert_rules : list alert_rule_row;
  sd_roles : list role_row; sd_permissions : list permission_row; sd_role_permissions : list role_permission_row;
  sd_users : list named_user; sd_user_roles : list user_role_row
}.

Definition empty_db : seed_db := SeedDb [] [] [] [] [] [] [] [] [] [] [] [] [].

(** A table: its rows, how one is added, and the unique index ([clash]: two
    rows that may not both be there). *)
Record table (R : Type) := Table {
  tb_name : string; tb_rows : seed_db -> list R; tb_add : R -> seed_db -> seed_db; tb_clash : R -> R -> bool
}.
Arguments Table {R}.
Arguments tb_name {R}.
Arguments tb_rows {R}.
Arguments tb_add {R}.
Arguments tb_clash {R}.

Definition same (a b : string) : bool := bool_decide (a = b).

Definition organizations : table organization_row := Table "organizations" sd_organizations
  (fun r '(SeedDb o f l m d c s a r1 p rp u ur) => SeedDb (o ++ [r]) f l m d c s a r1 p rp u ur)
  (fun a b => same (og_slug a) (og_slug b)).
Definition factories : table factory_row := Table "factories" sd_factories
  (fun r '(SeedDb o f l m d c s a r1 p rp u ur) => SeedDb o (f ++ [r]) l m d c s a r1 p rp u ur)
  (fun a b => same (fa_organization_id a) (fa_organization_id b) && same (fa_name a) (fa_name b)).
Definition production_lines : table line_row := Table "production_lines" sd_lines
  (fun r '(SeedDb o f l m d c s a r1 p rp u ur) => SeedDb o f (l ++ [r]) m d c s a r1 p rp u ur)
  (fun a b => same (ln_factory_id a) (ln_factory_id b) && same (ln_name a) (ln_name b)).
Definition machines : table machine_row := Table "machines" sd_machines
  (fun r '(SeedDb o f l m d c s a r1 p rp u ur) => SeedDb o f l (m ++ [r]) d c s a r1 p rp u ur)
  (fun a b => same (mc_production_line_id a) (mc_production_line_id b) && same (mc_name a) (mc_name b)).
Definition devices : table dated_device := Table "devices" sd_devices
  (fun r '(SeedDb o f l m d c s a r1 p rp u ur) => SeedDb o f l m (d ++ [r]) c s a r1 p rp u ur)
  (fun a b => same (dv_serial_number (dd_device a)) (dv_serial_number (dd_device b))).
Definition device_credentials : table credential_row := Table "device_credentials" sd_credentials
  (fun r '(SeedDb o f l m d c s a r1 p rp u ur) => SeedDb o f l m d (c ++ [r]) s a r1 p rp u ur)
  (fun a b => same (cd_device_id a) (cd_device_id b) && cd_is_active a && cd_is_active b).
Definition sensors : table sensor_row := Table "sensors" sd_sensors
  (fun r '(SeedDb o f l m d c s a r1 p rp u ur) => SeedDb o f l m d c (s ++ [r]) a r1 p rp u ur)
  (fun a b => same (sn_device_id a) (sn_device_id b) && same (sn_metric a) (sn_metric b)).
Definition alert_rules : table alert_rule_row := Table "alert_rules" sd_alert_rules
  (fun r '(SeedDb o f l m d c s a r1 p rp u ur) => SeedDb o f l m d c s (a ++ [r]) r1 p rp u ur)
  (fun _ _ => false).
Definition roles : table role_row := Table "roles" sd_roles
  (fun r '(SeedDb o f l m d c s a r1 p rp u ur) => SeedDb o f l m d c s a (r1 ++ [r]) p rp u ur)
  (fun a b => same (rl_name a) (rl_name b)).
Definition permissions : table permission_row := Table "permissions" sd_permissions
  (fun r '(SeedDb o f l m d c s a r1 p rp u ur) => SeedDb o f l m d c s a r1 (p ++ [r]) rp u ur)
  (fun a b => same (pm_code a) (pm_code b)).
Definition role_permissions_table : table role_permission_row := Table "role_permissions" sd_role_permissions
  (fun r '(SeedDb o f l m d c s a r1 p rp u ur) => SeedDb o f l m d c s a r1 p (rp ++ [r]) u ur)
  (fun a b => same (rp_role_id a) (rp_role_id b) && same (rp_permission_id a) (rp_permission_id b)).
Definition users : table named_user := Table "users" sd_users
  (fun r '(SeedDb o f l m d c s a r1 p rp u ur) => SeedDb o f l m d c s a r1 p rp (u ++ [r]) ur)
  (fun a b => same (us_email (nu_user a)) (us_email (nu_user b))).
Definition user_roles : table user_role_row := Table "user_roles" sd_user_roles
  (fun r '(SeedDb o f l m d c s a r1 p rp u ur) => SeedDb o f l m d c s a r1 p rp u (ur ++ [r]))
  (fun a b => same (ur_user_id a) (ur_user_id b) && same (ur_role_id a) (ur_role_id b)).

(** [INSERT INTO t ... RETURNING id]; [mk] is the row with its fresh id. *)
Definition insert_into {R} (t : table R) (mk : string -> R) : statement seed_db string := fun _ uuid d =>
  if existsb (tb_clash t (mk uuid)) (tb_rows t d) then (Raise (UniqueViolation (tb_name t)), d)
  else (Ok uuid, tb_add t (mk uuid) d).

(** ** The data *)

Record MetricSpec := mkMetricSpec { sp_unit : string; sp_min_value : Z; sp_max_value : Z }.

Definition METRIC_SPECS : list (string * MetricSpec) :=
  [("temperature", mkMetricSpec "celsius" 20 90); ("vibration", mkMetricSpec "mm_s" 0 10);
   ("pressure", mkMetricSpec "bar" 0 250); ("rpm", mkMetricSpec "rpm" 0 3000);
   ("current", mkMetricSpec "ampere" 0 100); ("voltage", mkMetricSpec "volt" 200 400);
   ("power", mkMetricSpec "kilowatt" 0 50); ("humidity", mkMetricSpec "percent" 10 80);
   ("acoustic_level", mkMetricSpec "decibel" 40 110)].

Record MachineProfile := mkMachineProfile { mp_machine_type : string; mp_metrics : list string }.

Definition MACHINE_PROFILES : list MachineProfile :=
  [mkMachineProfile "CNC_MILLING_MACHINE" ["temperature"; "vibration"; "rpm"; "current"; "power"];
   mkMachineProfile "HYDRAULIC_PRESS" ["temperature"; "pressure"; "vibration"; "current"; "power"];
   mkMachineProfile "CONVEYOR_BELT" ["temperature"; "current"; "vibration"; "power"; "rpm"];
   mkMachineProfile "WELDING_ROBOT" ["temperature"; "current"; "voltage"; "power"; "vibration"];
   mkMachineProfile "AIR_COMPRESSOR" ["temperature"; "pressure"; "vibration"; "current"; "power"]].

Definition GERMAN_FACTORIES : list (string * string) :=
  [("Berlin Plant", "Berlin"); ("Dresden Plant", "Dresden"); ("Munich Plant", "Munich"); ("Hamburg Plant", "Hamburg")].

Definition DEMO_PASSWORD : string := "ChangeMe123!".

Record AlertRuleSeed := mkAlertRuleSeed {
  rs_name : string; rs_metric : string; rs_condition : string; rs_threshold_value : option Z; rs_severity : string;
  rs_cooldown_secs : Z; rs_window_secs : Z
}.

(** The list of [_seed_alert_rules_if_missing]. *)
Definition seed_rules : list AlertRuleSeed :=
  [mkAlertRuleSeed "High temperature" "temperature" "GREATER_THAN" (Some 90) "CRITICAL" 300 300;
   mkAlertRuleSeed "Excessive vibration" "vibration" "GREATER_THAN" (Some 8) "HIGH" 180 300;
   mkAlertRuleSeed "Power spike" "power" "GREATER_THAN" (Some 45) "WARNING" 180 300;
   mkAlertRuleSeed "Repeated temperature anomalies" "temperature" "ANOMALY_COUNT" (Some 3) "HIGH" 300 300;
   mkAlertRuleSeed "Unexpected machine shutdown" "machine_status" "ANOMALY_COUNT" (Some 1) "WARNING" 300 300].

Definition PERMISSION_DESCRIPTIONS : list (string * string) :=
  [(PERM_DEVICES_READ, "View device inventory and status");
   (PERM_DEVICES_WRITE, "Provision, update, and decommission devices");
   (PERM_TELEMETRY_READ, "View sensor telemetry and historical readings");
   (PERM_ALERTS_READ, "View alerts");
   (PERM_ALERTS_MANAGE, "Acknowledge, suppress, and configure alert rules");
   (PERM_INCIDENTS_READ, "View incidents");
   (PERM_INCIDENTS_MANAGE, "Assign, transition, and resolve incidents");
   (PERM_FACTORIES_READ, "View factories, production lines, and machines");
   (PERM_FACTORIES_MANAGE, "Create and modify factories, production lines, and machines");
   (PERM_USERS_MANAGE, "Create users and modify role assignments");
   (PERM_SYSTEM_ADMIN, "Full administrative access, including platform configuration")].

(** [d[k]]. *)
Definition dict_item {V} (d : list (string * V)) (k : string) : res V :=
  match dict_get d k with Some v => Ok v | None => Raise (OtherError "KeyError" k) end.

(** [random_status], once [secrets.randbelow(total)] has rolled. *)
Fixpoint pick_status (roll : Z) (weights : list (string * Z)) : option string :=
  match weights with
  | [] => None
  | (status, w) :: weights => if roll <? w then Some status else pick_status (roll - w) weights
  end.

Definition total_weight (weights : list (string * Z)) : Z := foldr (fun '(_, w) n => w + n) 0 weights.

Definition random_status (randbelow : Z -> Z) (weights : list (string * Z)) : string :=
  default (fst (default ("", 0) (head weights))) (pick_status (randbelow (total_weight weights)) weights).

Definition MACHINE_WEIGHTS : list (string * Z) :=
  [("RUNNING", 70); ("IDLE", 15); ("MAINTENANCE", 8); ("FAULT", 5); ("STOPPED", 2)].
Definition DEVICE_WEIGHTS : list (string * Z) := [("ACTIVE", 85); ("OFFLINE", 8); ("MAINTENANCE", 5); ("PROVISIONED", 2)].

(** [f"{n:0wd}"] of a natural number. *)
Definition pad_number (w : nat) (n : Z) : string := pad_left w (pretty n).

(** ** The script *)

Record seed_world := SeedWorld {
  q_env : pg_env seed_db;
  q_hashpw : list Z -> string;
  q_unicode_alpha : Z -> bool; q_unicode_digit : Z -> bool;
  (** [secrets], [datetime.now] *)
  q_randbelow : nat -> Z -> Z; q_token_hex : nat -> string; q_now : nat -> Z;
  q_environ : environ
}.

(** The other clients wait: what a transaction sees of the tables between its
    statements is its own. *)
Definition alone (e : pg_env seed_db) : pg_env seed_db :=
  PgEnv (pg_fault e) (fun _ d => d) (pg_now e) (pg_uuid e) (pg_uuid_in e).

(** [with conn.transaction(): body]: the tables as they were when [body] raises;
    the [COMMIT] is a statement too, and may fail before or after it took effect. *)
Definition transaction {A} (e : pg_env seed_db) (body : M (pg seed_db) A) : M (pg seed_db) A := fun s =>
  match body s with
  | (Raise exc, s') => (Raise exc, Pg (pg_count s') (pg_db s))
  | (Ok a, s') =>
      let n := pg_count s' in
      match pg_fault e n with
      | None => (Ok a, Pg (S n) (pg_db s'))
      | Some (kept, exc) => (Raise exc, Pg (S n) (if (kept : bool) then pg_db s' else pg_db s))
      end
  end.

Section Seed.
  Variable q : seed_world.
  Local Abbreviation op := (M (pg seed_db)).

(** Reads of the surroundings that are not statements. *)
Definition look {A} (f : nat -> A) : op A := fun s => (Ok (f (pg_count s)), s).

Section Transaction.
  (** The environment of the statements of the hierarchy. *)
  Variable e : pg_env seed_db.

Definition insert_sensor (device_id metric : string) : op unit :=
  spec ← of_res (dict_item METRIC_SPECS metric);
  execute e (insert_into sensors (fun id => SensorRow id device_id metric (sp_unit spec)
    (Some (float_of_Z (sp_min_value spec))) (Some (float_of_Z (sp_max_value spec))))) ;;
  mret tt.

(** The body of the loop over the machines of a line. *)
Definition seed_machine (org_id city line_id line_name : string) (line_idx machine_idx : Z) : op unit :=
  let profile := nth (Z.to_nat ((machine_idx - 1) mod Z.of_nat (length MACHINE_PROFILES))) MACHINE_PROFILES (mkMachineProfile "" []) in
  let machine_name := city +:+ "-" +:+ line_name +:+ "-M" +:+ pad_number 3 machine_idx in
  machine_status ← look (fun n => random_status (q_randbelow q n) MACHINE_WEIGHTS);
  machine_id ← execute e (insert_into machines (fun id =>
    MachineRow id line_id machine_name (mp_machine_type profile) machine_status));
  let serial := "SN-" +:+ city +:+ "-" +:+ mp_machine_type profile +:+ "-" +:+ pad_number 2 line_idx +:+ "-" +:+ pad_number 3 machine_idx in
  device_status ← look (fun n => random_status (q_randbelow q n) DEVICE_WEIGHTS);
  activated_at ← (if bool_decide (device_status ∈ ["ACTIVE"; "OFFLINE"; "MAINTENANCE"])
                  then look (fun n => Some (q_now q n - machine_idx * 3600 * 1000000)) else mret None);
  device_id ← execute e (insert_into devices (fun id =>
    DatedDevice (DeviceRow id machine_id org_id serial device_status (Some "fw-1.4.2") None) activated_at));
  secret ← look (q_token_hex q);
  credential_hash ← of_res (hash_password (q_hashpw q) (code_points secret));
  execute e (insert_into device_credentials (fun id => CredentialRow id device_id "shared_secret" credential_hash true None)) ;;
  for_each (mp_metrics profile) (insert_sensor device_id).

Definition seed_line (org_id city factory_id : string) (machines_per_line line_idx : Z) : op unit :=
  let line_name := "Line " +:+ pad_number 2 line_idx in
  line_id ← execute e (insert_into production_lines (fun id => LineRow id factory_id line_name));
  for_each (seqZ 1 machines_per_line) (seed_machine org_id city line_id line_name line_idx).

Definition seed_factory (org_id : string) (lines_per_factory machines_per_line : Z) (fc : string * string) : op unit :=
  let '(factory_name, city) := fc in
  factory_id ← execute e (insert_into factories (fun id => FactoryRow id org_id factory_name (Some city) "DE"));
  for_each (seqZ 1 lines_per_factory) (seed_line org_id city factory_id machines_per_line).

End Transaction.

Definition _seed_factory_hierarchy (org_slug : string) (lines_per_factory machines_per_line : Z) : op string :=
  transaction (q_env q)
    (let e := alone (q_env q) in
     org_id ← execute e (insert_into organizations (fun id => OrganizationRow id "Musterfabrik GmbH" org_slug));
     for_each GERMAN_FACTORIES (seed_factory e org_id lines_per_factory machines_per_line) ;;
     mret org_id).

Definition insert_rule (org_id : string) (r : AlertRuleSeed) : op unit :=
  execute (q_env q) (insert_into alert_rules (fun id =>
    AlertRuleRow id org_id (rs_name r) (rs_metric r) (rs_condition r) (float_of_Z <$> rs_threshold_value r) None None
      (rs_severity r) (rs_cooldown_secs r) (rs_window_secs r) None None None true)) ;;
  mret tt.

Definition _seed_alert_rules_if_missing (org_id : string) : op unit :=
  existing ← execute (q_env q) (select (fun d => length (filter (fun r => ar_organization_id r = org_id) (sd_alert_rules d))));
  if (0 <? Z.of_nat existing) then mret tt else for_each seed_rules (insert_rule org_id).

(** [for x in l: ids[x] = ...], a dictionary in insertion order. *)
Fixpoint collect_ids {A} (l : list (string * A)) (insert : string -> A -> op string) : op (list (string * string)) :=
  match l with
  | [] => mret []
  | (k, a) :: l => id ← insert k a; ids ← collect_ids l insert; mret ((k, id) :: ids)
  end.

Definition insert_role (role : string) (_ : unit) : op string :=
  execute (q_env q) (insert_into roles (fun id => RoleRow id role ("Seeded role: " +:+ role))).
Definition insert_permission (code desc : string) : op string :=
  execute (q_env q) (insert_into permissions (fun id => PermissionRow id code desc)).
Definition insert_link (role_ids perm_ids : list (string * string)) (role perm : string) : op unit :=
  rid ← of_res (dict_item role_ids role);
  pid ← of_res (dict_item perm_ids perm);
  execute (q_env q) (insert_into role_permissions_table (fun _ => RolePermissionRow rid pid)) ;;
  mret tt.

Definition _seed_rbac_if_missing : op unit :=
  existing ← execute (q_env q) (select (fun d => length (sd_roles d)));
  if (0 <? Z.of_nat existing) then mret tt
  else
    role_ids ← collect_ids ((fun r => (r, tt)) <$> ALL_ROLES) insert_role;
    perm_ids ← collect_ids PERMISSION_DESCRIPTIONS insert_permission;
    for_each ROLE_PERMISSIONS (fun '(role, perms) => for_each perms (insert_link role_ids perm_ids role)).

(** [conn.execute("SELECT id FROM roles WHERE name = %s", (role,)).fetchone()[0]]. *)
Definition role_id_of (role : string) : op string :=
  row ← execute (q_env q) (select (fun d => find (fun r => same (rl_name r) role) (sd_roles d)));
  match row with
  | Some r => mret (rl_id r)
  | None => raise (TypeError "'NoneType' object is not subscriptable")
  end.

Definition insert_user (org_id email password_hash full_name : string) : op string :=
  execute (q_env q) (insert_into users (fun id => NamedUser (UserRow id org_id email password_hash true) full_name)).
Definition link_user (user_id role_id : string) : op unit :=
  execute (q_env q) (insert_into user_roles (fun _ => UserRoleRow user_id role_id)) ;; mret tt.

(** [role.replace("_", " ")]. *)
Definition spaced (role : string) : string :=
  of_chars ((fun c => if Ascii.eqb c "_" then " " else c)%char <$> chars role).

Definition seed_user (org_id password_hash role : string) : op unit :=
  let email := lower role +:+ "@musterfabrik-gmbh.de" in
  let full_name := "Demo " +:+ title (spaced role) in
  user_id ← insert_user org_id email password_hash full_name;
  role_id ← role_id_of role;
  link_user user_id role_id.

Definition _seed_users_if_missing (org_id : string) : op unit :=
  existing ← execute (q_env q) (select (fun d => length (filter (fun u => us_organization_id (nu_user u) = org_id) (sd_users d))));
  if (0 <? Z.of_nat existing) then mret tt
  else
    of_res (validate_password_strength (q_unicode_alpha q) (q_unicode_digit q) (code_points DEMO_PASSWORD)) ;;
    password_hash ← of_res (hash_password (q_hashpw q) (code_points DEMO_PASSWORD));
    for_each ALL_ROLES (seed_user org_id password_hash).

Definition find_organization (slug : string) (d : seed_db) : option organization_row :=
  find (fun o => same (og_slug o) slug) (sd_organizations d).

Definition SECOND_SLUG : string := "zweite-firma-gmbh".

Definition _seed_second_organization_if_missing : op unit :=
  row ← execute (q_env q) (select (find_organization SECOND_SLUG));
  match row with
  | Some _ => mret tt
  | None =>
      org_id ← execute (q_env q) (insert_into organizations (fun id => OrganizationRow id "Zweite Firma GmbH" SECOND_SLUG));
      factory_id ← execute (q_env q) (insert_into factories (fun id =>
        FactoryRow id org_id "Stuttgart Plant" (Some "Stuttgart") "DE"));
      line_id ← execute (q_env q) (insert_into production_lines (fun id => LineRow id factory_id "Line 01"));
      execute (q_env q) (insert_into machines (fun id =>
        MachineRow id line_id "Stuttgart-Line01-M001" "CNC_MILLING_MACHINE" "IDLE")) ;;
      password_hash ← of_res (hash_password (q_hashpw q) (code_points DEMO_PASSWORD));
      admin_user_id ← insert_user org_id "admin@zweite-firma-gmbh.de" password_hash "Demo Admin";
      admin_role_id ← role_id_of ROLE_ADMIN;
      link_user admin_user_id admin_role_id
  end.

Definition _seed_supporting_data (org_id : string) : op unit :=
  _seed_alert_rules_if_missing org_id ;;
  _seed_rbac_if_missing ;;
  _seed_users_if_missing org_id ;;
  _seed_second_organization_if_missing.

Definition ORG_SLUG : string := "musterfabrik-gmbh".

Definition main : op unit :=
  let lines_per_factory := env_int (q_environ q) "SEED_LINES_PER_FACTORY" 5 in
  let machines_per_line := env_int (q_environ q) "SEED_MACHINES_PER_LINE" 10 in
  execute (q_env q) (select (fun _ => tt)) ;;
  row ← execute (q_env q) (select (find_organization ORG_SLUG));
  match row with
  | Some o => _seed_supporting_data (og_id o)
  | None =>
      org_id ← _seed_factory_hierarchy ORG_SLUG lines_per_factory machines_per_line;
      _seed_supporting_data org_id
  end.

End Seed.

(** ** [loader.py]: the join the simulator starts from *)

(** The rows of [l] with the id [id]. *)
Definition with_id {R} (key : R -> string) (id : string) (l : list R) : list R := filter (fun r => key r = id) l.

Definition sensor_join (d : seed_db) : list sensor_join_row :=
  s ← sd_sensors d;
  v ← with_id dv_id (sn_device_id s) (dd_device <$> sd_devices d);
  m ← with_id mc_id (dv_machine_id v) (sd_machines d);
  pl ← with_id ln_id (mc_production_line_id m) (sd_lines d);
  f ← with_id fa_id (ln_factory_id pl) (sd_factories d);
  o ← with_id og_id (fa_organization_id f) (sd_organizations d);
  [SensorJoinRow (og_id o) (fa_id f) (ln_id pl) (mc_id m) (dv_id v) (sn_id s) (sn_metric s) (sn_unit s)
     (sn_min_operating_value s) (sn_max_operating_value s)].

(** ** Concrete inputs *)

(** Fresh uuids: the number of the statement in the last group. *)
Definition seed_uuid (n : nat) : string :=
  "00000000-0000-4000-8000-" +:+ pad_left 12 (pretty (Z.of_nat n)).

Definition seed_env (fault : nat -> option (bool * exn)) : pg_env seed_db :=
  PgEnv fault (fun _ d => d) (fun _ => 0) seed_uuid (fun s => Some s).

Definition demo_seed_world (fault : nat -> option (bool * exn)) (vars : list (string * string)) : seed_world :=
  SeedWorld (seed_env fault) (fun _ => "hash") (fun _ => false) (fun _ => false) (fun _ _ => 0)
    (fun _ => "0123456789abcdef") (fun _ => 0) (dict_get vars).

Definition small_seed : seed_world :=
  demo_seed_world (fun _ => None) [("SEED_LINES_PER_FACTORY", "1"); ("SEED_MACHINES_PER_LINE", "2")].

Example small_seed_runs :
  let '(r, s) := main small_seed (Pg 0 empty_db) in
  is_ok r = true /\ length (sensor_join (pg_db s)) = 40%nat /\ length (sd_role_permissions (pg_db s)) = 39%nat /\
  ((fun u => us_email (nu_user u)) <$> take 2 (sd_users (pg_db s))) =
    ["admin@musterfabrik-gmbh.de"; "factory_manager@musterfabrik-gmbh.de"].
Proof. vm_compute. repeat split. Qed.

(** ** Tables only grow *)

Record grows (d d' : seed_db) : Prop := {
  gr_organizations : sd_organizations d `prefix_of` sd_organizations d';
  gr_factories : sd_factories d `prefix_of` sd_factories d';
  gr_lines : sd_lines d `prefix_of` sd_lines d';
  gr_machines : sd_machines d `prefix_of` sd_machines d';
  gr_devices : sd_devices d `prefix_of` sd_devices d';
  gr_credentials : sd_credentials d `prefix_of` sd_credentials d';
  gr_sensors : sd_sensors d `prefix_of` sd_sensors d';
  gr_alert_rules : sd_alert_rules d `prefix_of` sd_alert_rules d';
  gr_roles : sd_roles d `prefix_of` sd_roles d';
  gr_permissions : sd_permissions d `prefix_of` sd_permissions d';
  gr_role_permissions : sd_role_permissions d `prefix_of` sd_role_permissions d';
  gr_users : sd_users d `prefix_of` sd_users d';
  gr_user_roles : sd_user_roles d `prefix_of` sd_user_roles d'
}.

#[export] Instance grows_preorder : PreOrder grows.
Proof. split; [intros d; by split | intros a b c [] []; split; by etrans]. Qed.

(** [tb_add] appends to the rows of its table, and to no other. *)
Record table_ok {R} (t : table R) : Prop := {
  to_rows : forall r d, tb_rows t (tb_add t r d) = tb_rows t d ++ [r];
  to_grows : forall r d, grows d (tb_add t r d)
}.

Create HintDb seed.

Ltac table_tac := split; intros ? []; [done|]; split; simpl; first [reflexivity | by eexists].
Lemma organizations_ok : table_ok organizations. Proof. table_tac. Qed.
Lemma factories_ok : table_ok factories. Proof. table_tac. Qed.
Lemma production_lines_ok : table_ok production_lines. Proof. table_tac. Qed.
Lemma machines_ok : table_ok machines. Proof. table_tac. Qed.
Lemma devices_ok : table_ok devices. Proof. table_tac. Qed.
Lemma device_credentials_ok : table_ok device_credentials. Proof. table_tac. Qed.
Lemma sensors_ok : table_ok sensors. Proof. table_tac. Qed.
Lemma alert_rules_ok : table_ok alert_rules. Proof. table_tac. Qed.
Lemma roles_ok : table_ok roles. Proof. table_tac. Qed.
Lemma permissions_ok : table_ok permissions. Proof. table_tac. Qed.
Lemma role_permissions_ok : table_ok role_permissions_table. Proof. table_tac. Qed.
Lemma users_ok : table_ok users. Proof. table_tac. Qed.
Lemma user_roles_ok : table_ok user_roles. Proof. table_tac. Qed.

#[export] Hint Resolve organizations_ok factories_ok production_lines_ok machines_ok devices_ok device_credentials_ok
  sensors_ok alert_rules_ok roles_ok permissions_ok role_permissions_ok users_ok user_roles_ok : seed.

(** The relation between the tables before and after an operation. *)
Definition on_db (R : seed_db -> seed_db -> Prop) (s s' : pg seed_db) : Prop := R (pg_db s) (pg_db s').

#[export] Instance on_db_preorder R : PreOrder R -> PreOrder (on_db R).
Proof. intros [Hr Ht]. split; unfold on_db; [intros s; apply Hr | intros a b c; apply Ht]. Qed.

(** What the script does to the tables, read off its text: [R] relates the
    tables before and after [main] when it relates them around each insert the
    script makes, and around the others' statements. *)
Section Moves.
  Variable q : seed_world.
  Variable R : seed_db -> seed_db -> Prop.
  Context `{!PreOrder R}.
  (** The tables whose inserts keep [R]. *)
  Variable inserts : forall {T}, table T -> Prop.
  Hypothesis others_R : forall n d, R d (pg_others (q_env q) n d).
  Hypothesis insert_R : forall T (t : table T), inserts t -> forall r d, R d (tb_add t r d).
  Local Abbreviation follows := (moves (on_db R)).

Lemma follows_execute {A} e (stmt : statement seed_db A) :
  e = q_env q \/ e = alone (q_env q) -> (forall now uuid d, R d (snd (stmt now uuid d))) -> follows (execute e stmt).
Proof.
  intros He Hs. apply moves_execute; [apply _ | | auto].
  destruct He as [-> | ->]; [done | intros n d; simpl; reflexivity].
Qed.

Lemma follows_insert {T} e (t : table T) mk :
  e = q_env q \/ e = alone (q_env q) -> inserts t -> follows (execute e (insert_into t mk)).
Proof.
  intros He Ht. apply follows_execute; [done|]. intros now uuid d. unfold insert_into.
  destruct (existsb _ _); simpl; [reflexivity | by apply insert_R].
Qed.

Lemma follows_select {A} (f : seed_db -> A) : follows (execute (q_env q) (select f)).
Proof. apply follows_execute; [by left|]. intros. simpl. reflexivity. Qed.

Lemma follows_bind {A B} (m : M (pg seed_db) A) (k : A -> M (pg seed_db) B) :
  follows m -> (forall a, follows (k a)) -> follows (m ≫= k).
Proof. apply moves_bind; apply _. Qed.

Lemma follows_pure {A} (m : M (pg seed_db) A) : (forall s, snd (m s) = s) -> follows m.
Proof. intros Hm s. rewrite Hm. reflexivity. Qed.

Lemma follows_for {A} (l : list A) body : (forall a, follows (body a)) -> follows (for_each l body).
Proof. apply moves_for_each; apply _. Qed.

Lemma follows_transaction {A} (body : M (pg seed_db) A) : follows body -> follows (transaction (q_env q) body).
Proof.
  intros Hb s. specialize (Hb s). unfold transaction, on_db in *. destruct (body s) as [[a | exc] s']; simpl in *; [|reflexivity].
  destruct (pg_fault _ _) as [[[] exc]|]; simpl; [done | reflexivity | done].
Qed.

Lemma follows_collect {A} (l : list (string * A)) insert :
  (forall k a, follows (insert k a)) -> follows (collect_ids l insert).
Proof.
  intros Hi. induction l as [|[k a] l IH]; simpl; [by apply follows_pure|].
  apply follows_bind; [apply Hi | intros id]. apply follows_bind; [done | intros ids]. by apply follows_pure.
Qed.

End Moves.

(** Splits an operation of the script into its statements. *)
Ltac follow lem :=
  repeat first
    [ apply follows_pure; [apply _ | intros ?; reflexivity]
    | lem
    | apply follows_bind; [apply _ | | intros ?]
    | apply follows_select; [apply _ | assumption]
    | apply follows_for; [apply _ | intros ?]
    | apply follows_collect; [apply _ | intros ??]
    | match goal with
      | |- moves _ (if ?b then _ else _) => destruct b
      | |- moves _ (match ?x with _ => _ end) => destruct x
      end ].

Section Grows.
  Variable q : seed_world.
  Hypothesis others_grow : forall n d, grows d (pg_others (q_env q) n d).
  Local Abbreviation growing := (moves (on_db grows)).

Lemma growing_insert {T} e (t : table T) mk :
  e = q_env q \/ e = alone (q_env q) -> table_ok t -> growing (execute e (insert_into t mk)).
Proof.
  intros He Ht. eapply (follows_insert q grows (fun _ => table_ok)); [done | | done | done]. intros ? ? []; auto.
Qed.

Ltac grow := follow ltac:(apply growing_insert; [auto | auto with seed]).

Lemma growing_role_id role : growing (role_id_of q role).
Proof. unfold role_id_of. grow. Qed.

Lemma growing_rules o : growing (_seed_alert_rules_if_missing q o).
Proof. unfold _seed_alert_rules_if_missing, insert_rule. grow. Qed.

Lemma growing_rbac : growing (_seed_rbac_if_missing q).
Proof. unfold _seed_rbac_if_missing, insert_role, insert_permission, insert_link. grow. Qed.

Lemma growing_users o : growing (_seed_users_if_missing q o).
Proof. unfold _seed_users_if_missing, seed_user, insert_user, link_user, role_id_of. cbv zeta. grow. Qed.

Lemma growing_second : growing (_seed_second_organization_if_missing q).
Proof. unfold _seed_second_organization_if_missing, insert_user, link_user, role_id_of. grow. Qed.

Lemma growing_hierarchy slug l m : growing (_seed_factory_hierarchy q slug l m).
Proof.
  unfold _seed_factory_hierarchy. apply follows_transaction; [apply _|]. cbv zeta.
  unfold seed_factory, seed_line, seed_machine, insert_sensor. cbv zeta. grow.
Qed.

End Grows.

(** ** A second run *)

(** [m] that returns leaves tables of which [Q] holds. *)
Definition establishes {A} (m : M (pg seed_db) A) (Q : A -> seed_db -> Prop) : Prop :=
  forall s a s', m s = (Ok a, s') -> Q a (pg_db s').

Definition stable (Q : seed_db -> Prop) : Prop := forall d d', grows d d' -> Q d -> Q d'.

Lemma establishes_then {A B} (m : M (pg seed_db) A) (k : A -> M (pg seed_db) B) Q :
  (forall a, establishes (k a) Q) -> establishes (m ≫= k) Q.
Proof. intros Hk s b s'. unfold mbind, M_bind. destruct (m s) as [[a|] s1]; [apply Hk | done]. Qed.

Lemma establishes_first {A B} (m : M (pg seed_db) A) (k : A -> M (pg seed_db) B) (Q : seed_db -> Prop) :
  establishes m (fun _ => Q) -> stable Q -> (forall a, moves (on_db grows) (k a)) -> establishes (m ≫= k) (fun _ => Q).
Proof.
  intros Hm HQ Hk s b s'. unfold mbind, M_bind. destruct (m s) as [[a|] s1] eqn:E; [|done].
  intros Hr. specialize (Hk a s1). rewrite Hr in Hk. eapply HQ; [exact Hk | by eapply Hm].
Qed.

Lemma establishes_and {A} (m : M (pg seed_db) A) (Q Q' : A -> seed_db -> Prop) :
  establishes m Q -> establishes m Q' -> establishes m (fun a d => Q a d /\ Q' a d).
Proof. intros H1 H2 s a s' Hr. split; [by eapply H1 | by eapply H2]. Qed.

(** The rows of a table that an insert has left there. *)
Lemma insert_there {R} e (t : table R) mk (P : R -> Prop) :
  table_ok t -> (forall id, P (mk id)) ->
  establishes (execute e (insert_into t mk)) (fun _ d => exists r, r ∈ tb_rows t d /\ P r).
Proof.
  intros [Hrows _] HP s id s'. unfold execute, insert_into.
  destruct (existsb _ _); destruct (pg_fault e _) as [[]|]; try done. intros [= <- <-]. simpl.
  rewrite Hrows. exists (mk (pg_uuid e (pg_count s))). split; [apply elem_of_app; right; by apply list_elem_of_singleton | apply HP].
Qed.

Lemma stable_rows {R} (rows : seed_db -> list R) (P : R -> Prop) :
  (forall d d', grows d d' -> rows d `prefix_of` rows d') -> stable (fun d => exists r, r ∈ rows d /\ P r).
Proof. intros Hp d d' [l Hl]%Hp (r & Hr & HP). exists r. rewrite Hl. split; [apply elem_of_app; by left | done]. Qed.

(** [SELECT] of a check: the branch taken tells what the tables were. *)
Lemma establishes_select {A B} e (f : seed_db -> A) (k : A -> M (pg seed_db) B) (Q : B -> seed_db -> Prop) :
  (forall n d a s', k (f d) (Pg n d) = (Ok a, s') -> Q a (pg_db s')) -> establishes (execute e (select f) ≫= k) Q.
Proof.
  intros Hk s b s'. unfold mbind, M_bind, execute, select.
  destruct (pg_fault e _) as [[]|]; [done|]. by apply Hk.
Qed.

Definition rules_of (o : string) (d : seed_db) : Prop := exists r, r ∈ sd_alert_rules d /\ ar_organization_id r = o.
Definition some_role (d : seed_db) : Prop := exists r, r ∈ sd_roles d /\ True.
Definition users_of (o : string) (d : seed_db) : Prop := exists u, u ∈ sd_users d /\ us_organization_id (nu_user u) = o.
Definition organization (slug id : string) (d : seed_db) : Prop := og_id <$> find_organization slug d = Some id.
Definition second_organization (d : seed_db) : Prop := exists id, organization SECOND_SLUG id d.

(** What makes every step skip its work. *)
Definition settled (d : seed_db) : Prop := exists o,
  organization ORG_SLUG o d /\ rules_of o d /\ some_role d /\ users_of o d /\ second_organization d.

Lemma stable_rules o : stable (rules_of o).
Proof. apply (stable_rows sd_alert_rules). by intros ?? []. Qed.
Lemma stable_role : stable some_role.
Proof. apply (stable_rows sd_roles (fun _ => True)). by intros ?? []. Qed.
Lemma stable_users o : stable (users_of o).
Proof. apply (stable_rows sd_users). by intros ?? []. Qed.

Lemma find_app {A} (f : A -> bool) l l' a : find f l = Some a -> find f (l ++ l') = Some a.
Proof. induction l as [|x l IH]; simpl; [done|]. by destruct (f x). Qed.

Lemma stable_organization slug id : stable (organization slug id).
Proof.
  unfold organization, find_organization. intros d d' [l Hl]%gr_organizations Ho. rewrite Hl.
  destruct (find _ (sd_organizations d)) as [o|] eqn:E; [|done]. by rewrite (find_app _ _ l o E).
Qed.

Lemma stable_second : stable second_organization.
Proof. intros d d' Hg [id Hid]. exists id. by eapply stable_organization. Qed.

(** Of an organization that is not there yet, the inserted row is the first. *)
Lemma inserted_organization e name slug s id s' :
  execute e (insert_into organizations (fun id => OrganizationRow id name slug)) s = (Ok id, s') -> organization slug id (pg_db s').
Proof.
  unfold execute, insert_into. generalize (pg_others e (pg_count s) (pg_db s)). intros d.
  destruct (existsb _ _) eqn:Ec; destruct (pg_fault e _) as [[]|]; try done.
  intros [= <- <-]. unfold organization, find_organization. destruct d as [os ? ? ? ? ? ? ? ? ? ? ? ?]. simpl in *.
  induction os as [|o l IH]; simpl in *.
  - unfold same. by rewrite bool_decide_eq_true_2.
  - apply orb_false_iff in Ec as [Hne Hc]. unfold same in *. rewrite bool_decide_eq_false in Hne.
    rewrite bool_decide_eq_false_2 by congruence. by apply IH.
Qed.

Lemma in_filtered {A} (P : A -> Prop) `{!forall x, Decision (P x)} l :
  (0 <? Z.of_nat (length (filter P l))) = true -> exists x, x ∈ l /\ P x.
Proof.
  intros Hl%Z.ltb_lt. destruct (filter P l) as [|x l'] eqn:E; [simpl in Hl; lia|].
  exists x. assert (Hx : x ∈ filter P l) by (rewrite E; by left). by apply list_elem_of_filter in Hx as [].
Qed.

(** From a run that returned to what its operation establishes. *)
Ltac settle Q := let Hr := fresh in intros Hr; match type of Hr with
  | ?m _ = _ => let He := fresh in cut (establishes m (fun _ => Q)); [intros He; exact (He _ _ _ Hr) | clear Hr] end.

Section Settles.
  Variable q : seed_world.
  Hypothesis others_grow : forall n d, grows d (pg_others (q_env q) n d).

Lemma rules_settle o : establishes (_seed_alert_rules_if_missing q o) (fun _ => rules_of o).
Proof.
  apply establishes_select. intros n d a s'. destruct (0 <? _) eqn:E.
  - intros [= _ <-]. destruct (in_filtered _ _ E) as (r & Hr & Ho). by exists r.
  - settle (rules_of o). apply (establishes_first (insert_rule q o _)).
    + unfold insert_rule. apply establishes_first; [by apply (insert_there _ alert_rules _ (fun r => ar_organization_id r = o)); [auto with seed | done] | apply stable_rules |].
      intros _. follow ltac:(fail).
    + apply stable_rules.
    + intros _. unfold insert_rule. follow ltac:(apply (growing_insert q); [assumption | by left | auto with seed]).
Qed.

Lemma rbac_settles : establishes (_seed_rbac_if_missing q) (fun _ => some_role).
Proof.
  apply establishes_select. intros n d a s'. destruct (0 <? _) eqn:E.
  - intros [= _ <-]. unfold some_role. destruct (sd_roles d) as [|r l] eqn:Er; [by simpl in E|]. exists r. simpl. rewrite Er. split; [by left | done].
  - settle some_role. apply establishes_first; [|apply stable_role|].
    + simpl. apply establishes_first; [by apply (insert_there _ roles _ (fun _ => True)); [auto with seed | done] | apply stable_role |].
      intros id. unfold insert_role.
      follow ltac:(apply (growing_insert q); [assumption | by left | auto with seed]).
    + intros ids. unfold insert_permission, insert_link.
      follow ltac:(apply (growing_insert q); [assumption | by left | auto with seed]).
Qed.

Lemma users_settle o : establishes (_seed_users_if_missing q o) (fun _ => users_of o).
Proof.
  apply establishes_select. intros n d a s'. destruct (0 <? _) eqn:E.
  - intros [= _ <-]. destruct (in_filtered _ _ E) as (u & Hu & Ho). by exists u.
  - settle (users_of o). apply establishes_then. intros _. apply establishes_then. intros h.
    apply establishes_first; [|apply stable_users|].
    + unfold seed_user. cbv zeta. apply establishes_first; [by apply (insert_there _ users _ (fun u => us_organization_id (nu_user u) = o)); [auto with seed | done] | apply stable_users |].
      intros id. unfold role_id_of, link_user. follow ltac:(apply (growing_insert q); [assumption | by left | auto with seed]).
    + intros _. unfold seed_user, insert_user, role_id_of, link_user. cbv zeta.
      follow ltac:(apply (growing_insert q); [assumption | by left | auto with seed]).
Qed.

Lemma second_settles : establishes (_seed_second_organization_if_missing q) (fun _ => second_organization).
Proof.
  apply establishes_select. intros n d a s'. destruct (find_organization SECOND_SLUG d) as [o|] eqn:E.
  - intros [= _ <-]. exists (og_id o). unfold organization. cbn [pg_db]. by rewrite E.
  - settle second_organization. apply establishes_first; [|apply stable_second|].
    + intros t id t' Hi. exists id. by eapply inserted_organization.
    + intros id. unfold insert_user, role_id_of, link_user. follow ltac:(apply (growing_insert q); [assumption | by left | auto with seed]).
Qed.

Lemma supporting_settles o :
  establishes (_seed_supporting_data q o) (fun _ d => rules_of o d /\ some_role d /\ users_of o d /\ second_organization d).
Proof.
  pose proof (growing_rbac q others_grow) as G2. pose proof (growing_users q others_grow) as G3.
  pose proof (growing_second q others_grow) as G4. unfold _seed_supporting_data.
  repeat apply establishes_and.
  - apply establishes_first; [apply rules_settle | apply stable_rules |]. intros _. follow ltac:(solve [auto]).
  - apply establishes_then. intros _. apply establishes_first; [apply rbac_settles | apply stable_role |]. intros _. follow ltac:(solve [auto]).
  - do 2 (apply establishes_then; intros _). apply establishes_first; [apply users_settle | apply stable_users |]. intros _. auto.
  - do 3 (apply establishes_then; intros _). apply second_settles.
Qed.

Lemma growing_supporting o : moves (on_db grows) (_seed_supporting_data q o).
Proof.
  pose proof (growing_rules q others_grow) as G1. pose proof (growing_rbac q others_grow) as G2.
  pose proof (growing_users q others_grow) as G3. pose proof (growing_second q others_grow) as G4.
  unfold _seed_supporting_data. follow ltac:(solve [auto]).
Qed.

(** The hierarchy returns the id of the organization it inserted. *)
Lemma hierarchy_settles l m s o s' :
  _seed_factory_hierarchy q ORG_SLUG l m s = (Ok o, s') -> organization ORG_SLUG o (pg_db s').
Proof.
  unfold _seed_factory_hierarchy, transaction. cbv zeta.
  set (body := _ ≫= _). assert (Hb : establishes body (fun a => organization ORG_SLUG a)).
  { intros t a t'. unfold body, mbind at 1, M_bind at 1. destruct (execute _ _ t) as [[id|] t1] eqn:E; [|done].
    apply inserted_organization in E. intros Hr. unfold mbind, M_bind in Hr.
    assert (Hg : moves (on_db grows) (for_each GERMAN_FACTORIES (seed_factory q (alone (q_env q)) id l m))).
    { unfold seed_factory, seed_line, seed_machine, insert_sensor. cbv zeta.
      follow ltac:(apply (growing_insert q); [assumption | by right | auto with seed]). }
    specialize (Hg t1). destruct (for_each _ _ t1) as [[[]|] t2]; [|done]. injection Hr as <- <-.
    by eapply stable_organization. }
  specialize (Hb s). destruct (body s) as [[a|] s1]; [|done]. specialize (Hb a s1 eq_refl).
  destruct (pg_fault _ _) as [[]|]; [done|]. by intros [= <- <-].
Qed.

Lemma main_settles : establishes (main q) (fun _ => settled).
Proof.
  unfold main. cbv zeta. apply establishes_then. intros _. apply establishes_select. intros n d [] s'.
  destruct (find_organization ORG_SLUG d) as [o|] eqn:E.
  - intros Hr. exists (og_id o). split; [|by apply (supporting_settles _ _ _ _ Hr)].
    pose proof (growing_supporting (og_id o) (Pg n d)) as Hg. rewrite Hr in Hg.
    eapply stable_organization; [exact Hg|]. unfold organization. cbn [pg_db]. by rewrite E.
  - unfold mbind, M_bind. destruct (_seed_factory_hierarchy _ _ _ _ _) as [[o|] s1] eqn:Eh; [|done].
    intros Hr. exists o. split; [|by apply (supporting_settles _ _ _ _ Hr)].
    pose proof (growing_supporting o s1) as Hg. rewrite Hr in Hg. eapply stable_organization; [exact Hg|].
    by eapply hierarchy_settles.
Qed.

End Settles.

(** *** ... skips everything *)

Lemma filtered_in {A} (P : A -> Prop) `{!forall x, Decision (P x)} l x :
  x ∈ l -> P x -> (0 <? Z.of_nat (length (filter P l))) = true.
Proof.
  intros Hx HP. assert (Hf : x ∈ filter P l) by (by apply list_elem_of_filter).
  destruct (filter P l); [by apply elem_of_nil in Hf | done].
Qed.

(** A check whose answer is known, in an environment where nothing fails. *)
Lemma select_quiet {A B} (env : pg_env seed_db) (f : seed_db -> A) (k : A -> M (pg seed_db) B) n d :
  quiet env -> (execute env (select f) ≫= k) (Pg n d) = k (f d) (Pg (S n) d).
Proof.
  intros [Hf Ho]. unfold mbind, M_bind, execute, select. simpl. by rewrite Ho, Hf.
Qed.

Lemma settled_skips (q : seed_world) n d :
  quiet (q_env q) -> settled d -> exists n', main q (Pg n d) = (Ok tt, Pg n' d).
Proof.
  intros Hq (o & Ho & (r & Hr & Hro) & (r1 & Hr1 & _) & (u & Hu & Huo) & (o2 & Ho2)).
  unfold main. cbv zeta. rewrite !select_quiet by done. unfold organization in Ho, Ho2.
  destruct (find_organization ORG_SLUG d) as [org|]; [|done]. injection Ho as ->.
  unfold _seed_supporting_data, _seed_alert_rules_if_missing, _seed_rbac_if_missing, _seed_users_if_missing,
    _seed_second_organization_if_missing.
  eexists. erewrite bind_ok; [|rewrite select_quiet by done; rewrite (filtered_in _ _ r) by done; reflexivity].
  erewrite bind_ok.
  2: { rewrite select_quiet by done. destruct (sd_roles d); [by apply elem_of_nil in Hr1 | reflexivity]. }
  erewrite bind_ok; [|rewrite select_quiet by done; rewrite (filtered_in _ _ u) by done; reflexivity].
  rewrite select_quiet by done. destruct (find_organization SECOND_SLUG d); [reflexivity | done].
Qed.

(** ** The role tables once a role is there *)

Definition rbac (d : seed_db) : list role_row * list permission_row * list role_permission_row :=
  (sd_roles d, sd_permissions d, sd_role_permissions d).

Definition rbac_kept (d d' : seed_db) : Prop := sd_roles d <> [] -> rbac d' = rbac d.

#[export] Instance rbac_kept_preorder : PreOrder rbac_kept.
Proof.
  split; [by intros d ?|]. intros a b c Hab Hbc Ha. specialize (Hab Ha). rewrite <- Hab. apply Hbc.
  unfold rbac in Hab. injection Hab as Hr _ _. congruence.
Qed.

Definition spares_rbac {R} (t : table R) : Prop := forall r d, rbac (tb_add t r d) = rbac d.

Ltac spares := intros ? []; reflexivity.
Lemma organizations_spare : spares_rbac organizations. Proof. spares. Qed.
Lemma factories_spare : spares_rbac factories. Proof. spares. Qed.
Lemma production_lines_spare : spares_rbac production_lines. Proof. spares. Qed.
Lemma machines_spare : spares_rbac machines. Proof. spares. Qed.
Lemma devices_spare : spares_rbac devices. Proof. spares. Qed.
Lemma device_credentials_spare : spares_rbac device_credentials. Proof. spares. Qed.
Lemma sensors_spare : spares_rbac sensors. Proof. spares. Qed.
Lemma alert_rules_spare : spares_rbac alert_rules. Proof. spares. Qed.
Lemma users_spare : spares_rbac users. Proof. spares. Qed.
Lemma user_roles_spare : spares_rbac user_roles. Proof. spares. Qed.

#[export] Hint Resolve organizations_spare factories_spare production_lines_spare machines_spare devices_spare
  device_credentials_spare sensors_spare alert_rules_spare users_spare user_roles_spare : seed.

Section KeptRoles.
  Variable q : seed_world.
  Hypothesis others_keep : forall n d, rbac (pg_others (q_env q) n d) = rbac d.
  Local Abbreviation keeping := (moves (on_db rbac_kept)).

Lemma others_kept n d : rbac_kept d (pg_others (q_env q) n d).
Proof. intros _. apply others_keep. Qed.

Lemma kept_insert {T} e (t : table T) mk :
  e = q_env q \/ e = alone (q_env q) -> spares_rbac t -> keeping (execute e (insert_into t mk)).
Proof.
  intros He Ht. eapply (follows_insert q rbac_kept (fun _ => spares_rbac)); [apply others_kept | | done | done].
  intros ?? Hs r d _. apply Hs.
Qed.

Lemma kept_rbac : keeping (_seed_rbac_if_missing q).
Proof.
  intros s Hne. unfold _seed_rbac_if_missing, mbind at 1, M_bind at 1, execute, select.
  pose proof (others_keep (pg_count s) (pg_db s)) as Ho.
  assert (Hr : sd_roles (pg_others (q_env q) (pg_count s) (pg_db s)) <> []) by (unfold rbac in Ho; congruence).
  destruct (pg_fault _ _) as [[[] exc]|]; [done..|].
  destruct (sd_roles (pg_others _ _ _)); [done | exact Ho].
Qed.

Lemma kept_main : keeping (main q).
Proof.
  pose proof others_kept as Ho. pose proof kept_rbac as G2. unfold main, _seed_factory_hierarchy, _seed_supporting_data. cbv zeta.
  assert (G1 : forall o, keeping (_seed_alert_rules_if_missing q o)).
  { intros o. unfold _seed_alert_rules_if_missing, insert_rule. follow ltac:(apply kept_insert; [by left | auto with seed]). }
  assert (G3 : forall o, keeping (_seed_users_if_missing q o)).
  { intros o. unfold _seed_users_if_missing, seed_user, insert_user, link_user, role_id_of. cbv zeta.
    follow ltac:(apply kept_insert; [by left | auto with seed]). }
  assert (G4 : keeping (_seed_second_organization_if_missing q)).
  { unfold _seed_second_organization_if_missing, insert_user, link_user, role_id_of.
    follow ltac:(apply kept_insert; [by left | auto with seed]). }
  assert (G5 : forall e o l m c, e = alone (q_env q) -> keeping (seed_factory q e o l m c)).
  { intros e o l m c ->. unfold seed_factory, seed_line, seed_machine, insert_sensor. cbv zeta.
    follow ltac:(apply kept_insert; [by right | auto with seed]). }
  follow ltac:(first [solve [auto] | apply kept_insert; [by right | auto with seed]
    | apply follows_transaction; [apply _|]]).
Qed.

End KeptRoles.

(** ** The links of a fresh seed *)

Lemma insert_quiet {R} env (t : table R) mk n d id s' :
  quiet env -> execute env (insert_into t mk) (Pg n d) = (Ok id, s') ->
  id = pg_uuid env n /\ s' = Pg (S n) (tb_add t (mk id) d).
Proof.
  intros Hq. rewrite execute_quiet by done. unfold insert_into. simpl.
  destruct (existsb _ _); [done|]. by intros [= <- <-].
Qed.

Definition add_rows {R} (t : table R) (rows : list R) (d : seed_db) : seed_db := foldl (fun d r => tb_add t r d) d rows.
Arguments add_rows : simpl never.

Lemma add_rows_proj {R B} (t : table R) (f : seed_db -> B) rows d :
  (forall r d, f (tb_add t r d) = f d) -> f (add_rows t rows d) = f d.
Proof. intros Hf. revert d. induction rows as [|r rows IH]; intros d; [done|]. unfold add_rows in *. simpl. by rewrite IH. Qed.

Lemma add_rows_rows {R} (t : table R) rows d : table_ok t -> tb_rows t (add_rows t rows d) = tb_rows t d ++ rows.
Proof.
  intros [Hr _]. revert d. induction rows as [|r rows IH]; intros d; [by rewrite app_nil_r|].
  unfold add_rows in *. simpl. by rewrite IH, Hr, <- app_assoc.
Qed.

(** The rows and ids of [collect_ids]. *)
Lemma collect_inserts {A R} env (t : table R) (mk : string -> A -> string -> R) (l : list (string * A)) n d ids s' :
  quiet env -> collect_ids l (fun k a => execute env (insert_into t (mk k a))) (Pg n d) = (Ok ids, s') ->
  ids = zip (l.*1) (pg_uuid env <$> seq n (length l)) /\
  s' = Pg (n + length l) (add_rows t (zip_with (fun '(k, a) id => mk k a id) l (pg_uuid env <$> seq n (length l))) d).
Proof.
  intros Hq. revert n d ids s'. induction l as [|[k a] l IH]; intros n d ids s'; simpl.
  - intros [= <- <-]. by rewrite Nat.add_0_r.
  - unfold mbind at 1, M_bind at 1. destruct (execute _ _ _) as [[id|] s1] eqn:E; [|done].
    apply insert_quiet in E as [-> ->]; [|done]. unfold mbind, M_bind.
    destruct (collect_ids l _ _) as [[ids'|] s2] eqn:Ec; [|done]. intros [= <- <-].
    apply IH in Ec as [-> ->]. split; [done|]. f_equal. lia.
Qed.

Section Links.
  Variable q : seed_world.
  Hypothesis Hq : quiet (q_env q).

Lemma link_adds rids pids role perm n d s' :
  insert_link q rids pids role perm (Pg n d) = (Ok tt, s') ->
  exists rid pid n', dict_get rids role = Some rid /\ dict_get pids perm = Some pid /\
    s' = Pg n' (tb_add role_permissions_table (RolePermissionRow rid pid) d).
Proof.
  unfold insert_link, dict_item, of_res, mbind, M_bind.
  destruct (dict_get rids role) as [rid|]; [|done]. destruct (dict_get pids perm) as [pid|]; [|done].
  destruct (execute _ _ _) as [[id|] s1] eqn:E; [|done]. apply insert_quiet in E as [_ ->]; [|done].
  intros [= <-]. by eexists _, _, _.
Qed.

(** The links the nested loops insert are those of the pairs they go through. *)
Fixpoint links_of (rids pids : list (string * string)) (pairs : list (string * string)) : option (list role_permission_row) :=
  match pairs with
  | [] => Some []
  | (role, perm) :: pairs =>
      match dict_get rids role, dict_get pids perm, links_of rids pids pairs with
      | Some rid, Some pid, Some rows => Some (RolePermissionRow rid pid :: rows)
      | _, _, _ => None
      end
  end.

Lemma links_of_app rids pids l l' r r' :
  links_of rids pids l = Some r -> links_of rids pids l' = Some r' -> links_of rids pids (l ++ l') = Some (r ++ r').
Proof.
  revert r. induction l as [|[role perm] l IH]; intros r; simpl; [by intros [= <-]|].
  destruct (dict_get rids role), (dict_get pids perm), (links_of rids pids l) as [k|] eqn:E; try done.
  intros [= <-] Hr'. by rewrite (IH k).
Qed.

Lemma perms_link rids pids role perms n d s' :
  for_each perms (insert_link q rids pids role) (Pg n d) = (Ok tt, s') ->
  exists rows n', links_of rids pids (pair role <$> perms) = Some rows /\ s' = Pg n' (add_rows role_permissions_table rows d).
Proof.
  revert n d. induction perms as [|perm perms IH]; intros n d; simpl; [intros [= <-]; by exists [], n|].
  unfold mbind at 1, M_bind at 1. destruct (insert_link _ _ _ _ _ _) as [[[]|] s1] eqn:E; [|done].
  apply link_adds in E as (rid & pid & n1 & Hr & Hp & ->). intros (rows & n2 & Hrows & ->)%IH.
  exists (RolePermissionRow rid pid :: rows), n2. csimpl. by rewrite Hr, Hp, Hrows.
Qed.

Lemma roles_link rids pids (rps : list (string * list string)) n d s' :
  for_each rps (fun '(role, perms) => for_each perms (insert_link q rids pids role)) (Pg n d) = (Ok tt, s') ->
  exists rows n', links_of rids pids (rps ≫= fun '(role, perms) => pair role <$> perms) = Some rows /\
    s' = Pg n' (add_rows role_permissions_table rows d).
Proof.
  revert n d. induction rps as [|[role perms] rps IH]; intros n d; [intros [= <-]; by exists [], n|].
  change (for_each ((role, perms) :: rps) ?b) with (for_each perms (insert_link q rids pids role) ;; for_each rps b).
  unfold mbind at 1, M_bind at 1. destruct (for_each perms _ _) as [[[]|] s1] eqn:E; [|done].
  apply perms_link in E as (r1 & n1 & H1 & ->). intros (r2 & n2 & H2 & ->)%IH.
  exists (r1 ++ r2), n2. csimpl. split; [by apply links_of_app|]. unfold add_rows. by rewrite foldl_app.
Qed.

(** The three tables after a seed of empty ones. *)
Lemma rbac_seeded n d s' :
  rbac d = ([], [], []) -> _seed_rbac_if_missing q (Pg n d) = (Ok tt, s') ->
  let rids := pg_uuid (q_env q) <$> seq (S n) (length ALL_ROLES) in
  let pids := pg_uuid (q_env q) <$> seq (S n + length ALL_ROLES) (length PERMISSION_DESCRIPTIONS) in
  sd_roles (pg_db s') = zip_with (fun k id => RoleRow id k ("Seeded role: " +:+ k)) ALL_ROLES rids /\
  sd_permissions (pg_db s') = zip_with (fun '(k, a) id => PermissionRow id k a) PERMISSION_DESCRIPTIONS pids /\
  links_of (zip ALL_ROLES rids) (zip (PERMISSION_DESCRIPTIONS.*1) pids) (ROLE_PERMISSIONS ≫= fun '(role, perms) => pair role <$> perms) =
    Some (sd_role_permissions (pg_db s')).
Proof.
  intros [= Hr Hp Hl]. unfold _seed_rbac_if_missing. rewrite select_quiet, Hr by done.
  match goal with |- context [if ?b then _ else _] => change b with false end. cbv iota beta.
  unfold mbind at 1, M_bind at 1. unfold insert_role.
  destruct (collect_ids _ _ _) as [[rids|] s1] eqn:E1; [|done].
  apply (collect_inserts (q_env q) roles (fun k _ id => RoleRow id k ("Seeded role: " +:+ k))) in E1 as [-> ->]; [|done].
  unfold mbind at 1, M_bind at 1. unfold insert_permission.
  destruct (collect_ids _ _ _) as [[pids|] s2] eqn:E2; [|done].
  apply (collect_inserts (q_env q) permissions (fun k a id => PermissionRow id k a)) in E2 as [-> ->]; [|done].
  intros (rows & n' & Hrows & ->)%roles_link. cbv zeta. cbn [pg_db]. split_and!.
  - rewrite (add_rows_proj role_permissions_table sd_roles), (add_rows_proj permissions sd_roles) by (by intros ? []).
    pose proof (add_rows_rows roles) as Ha. simpl tb_rows in Ha. rewrite Ha, Hr by apply roles_ok. done.
  - rewrite (add_rows_proj role_permissions_table sd_permissions) by (by intros ? []).
    pose proof (add_rows_rows permissions) as Ha. simpl tb_rows in Ha. rewrite Ha by apply permissions_ok.
    rewrite (add_rows_proj roles sd_permissions), Hp by (by intros ? []). done.
  - pose proof (add_rows_rows role_permissions_table) as Ha. simpl tb_rows in Ha. rewrite Ha by apply role_permissions_ok.
    rewrite (add_rows_proj permissions sd_role_permissions), (add_rows_proj roles sd_role_permissions) by (by intros ? []).
    rewrite Hl. exact Hrows.
Qed.

End Links.

Lemma dict_zip (ks vs : list string) k v :
  dict_get (zip ks vs) k = Some v -> exists i, ks !! i = Some k /\ vs !! i = Some v.
Proof.
  revert vs. induction ks as [|k' ks IH]; intros [|v' vs]; simpl; try done. case_bool_decide as Hk.
  - intros [= ->]. exists 0%nat. by subst.
  - intros (i & Hi)%IH. by exists (S i).
Qed.

Lemma dict_get_in {V} (l : list (string * V)) k v : dict_get l k = Some v -> (k, v) ∈ l.
Proof.
  induction l as [|[k' v'] l IH]; simpl; [done|]. case_bool_decide as Hk.
  - intros [= ->]. subst. by left.
  - intros Hd. right. by apply IH.
Qed.

Lemma links_of_in rids pids pairs rows r p :
  links_of rids pids pairs = Some rows ->
  (RolePermissionRow r p ∈ rows <-> exists role perm, (role, perm) ∈ pairs /\ dict_get rids role = Some r /\ dict_get pids perm = Some p).
Proof.
  revert rows. induction pairs as [|[role perm] pairs IH]; intros rows; simpl.
  - intros [= <-]. rewrite elem_of_nil. split; [done|]. by intros (? & ? & ?%elem_of_nil & _).
  - destruct (dict_get rids role) as [rid|] eqn:Er, (dict_get pids perm) as [pid|] eqn:Ep, (links_of _ _ pairs) as [rows'|]; try done.
    intros [= <-]. rewrite elem_of_cons, (IH rows' eq_refl). split.
    + intros [[= -> ->] | (role' & perm' & Hin & Hr & Hp)]; [exists role, perm | exists role', perm']; rewrite elem_of_cons; auto.
    + intros (role' & perm' & [[= -> ->] | Hin]%elem_of_cons & Hr & Hp); [left; congruence | right; eauto].
Qed.

(** Both dictionaries are total on the pairs the loops went through. *)
Lemma links_of_total rids pids pairs rows role perm :
  links_of rids pids pairs = Some rows -> (role, perm) ∈ pairs ->
  is_Some (dict_get rids role) /\ is_Some (dict_get pids perm).
Proof.
  revert rows. induction pairs as [|[role' perm'] pairs IH]; intros rows; simpl; [by intros _ ?%elem_of_nil|].
  destruct (dict_get rids role') eqn:Er, (dict_get pids perm') eqn:Ep, (links_of _ _ pairs) as [rows'|]; try done.
  intros _ [[= -> ->] | Hin]%elem_of_cons; [by rewrite Er, Ep | by eapply IH].
Qed.

Lemma zip_with_in {A B C} (f : A -> B -> C) (l : list A) (k : list B) c :
  c ∈ zip_with f l k <-> exists i a b, l !! i = Some a /\ k !! i = Some b /\ c = f a b.
Proof.
  rewrite list_elem_of_lookup. split; intros [i Hi]; exists i.
  - apply lookup_zip_with_Some in Hi as (a & b & -> & Ha & Hb). eauto.
  - apply lookup_zip_with_Some. destruct Hi as (a & b & Ha & Hb & ->). eauto.
Qed.

(** Fresh ids at two places are the same only where the places are. *)
Lemma fresh_places (uuid : nat -> string) n len i j id :
  (forall a b, uuid a = uuid b -> a = b) ->
  (uuid <$> seq n len) !! i = Some id -> (uuid <$> seq n len) !! j = Some id -> i = j.
Proof.
  intros Hinj. rewrite !list_lookup_fmap. intros (a & Ha & ->)%fmap_Some (b & Hb & E%Hinj)%fmap_Some. subst b.
  apply lookup_seq in Ha as [-> _], Hb as [E _]. lia.
Qed.

Definition role_pairs : list (string * string) := ROLE_PERMISSIONS ≫= fun '(role, perms) => pair role <$> perms.

Lemma role_pairs_in role perm : (role, perm) ∈ role_pairs <-> perm ∈ role_permissions role.
Proof.
  split.
  - assert (Hall : Forall (fun '(r, p) => p ∈ role_permissions r) role_pairs)
      by (apply (bool_decide_unpack _); vm_compute; exact I).
    intros Hin. by apply (proj1 (Forall_forall _ _) Hall (role, perm)).
  - unfold role_permissions. destruct (dict_get ROLE_PERMISSIONS role) as [perms|] eqn:E; simpl; [|by intros ?%elem_of_nil].
    apply dict_get_in in E. intros Hp. unfold role_pairs. apply list_elem_of_bind. exists (role, perms). split; [|done].
    by apply list_elem_of_fmap_2.
Qed.

(** Runs of the script, one after the other, whatever their outcomes. *)
Definition runs (qs : list seed_world) (s : pg seed_db) : pg seed_db := foldl (fun s q => exec (main q) s) s qs.

(** A crash while the second role is inserted, in a small deployment. *)
Definition crash_at (k : nat) : nat -> option (bool * exn) :=
  fun n => if bool_decide (n = k) then Some (false, OtherError "OperationalError" "server closed the connection") else None.
Definition crashed : pg seed_db :=
  exec (main (demo_seed_world (crash_at 16) [("SEED_LINES_PER_FACTORY", "0")])) (Pg 0 empty_db).

(** [C27] The script is idempotent: after a run that returned, whatever failed or
    ran beside it, and whatever rows other clients have added since, another run
    returns and changes nothing, with any settings, provided no statement fails. *)
Theorem seed_idempotent (q q' : seed_world) (s s' : pg seed_db) (n : nat) (d : seed_db) :
  (forall n d, grows d (pg_others (q_env q) n d)) -> main q s = (Ok tt, s') ->
  grows (pg_db s') d -> quiet (q_env q') ->
  exists n', main q' (Pg n d) = (Ok tt, Pg n' d).
Proof.
  intros Hg Hr Hd Hq. apply settled_skips; [done|].
  destruct (main_settles q Hg _ _ _ Hr) as (o & Ho & Hrules & Hrole & Husers & Hsecond).
  exists o. split_and!.
  - by eapply stable_organization.
  - by eapply stable_rules.
  - by eapply stable_role.
  - by eapply stable_users.
  - by eapply stable_second.
Qed.

(** A run that crashes after the first role is never made up for: from then
    on no run changes the roles, the permissions or their links, however often
    the script is started again. *)
Theorem interrupted_rbac_is_final (qs : list seed_world) (s : pg seed_db) :
  (forall q, q ∈ qs -> forall n d, rbac (pg_others (q_env q) n d) = rbac d) -> sd_roles (pg_db s) <> [] ->
  sd_roles (pg_db (runs qs s)) = sd_roles (pg_db s) /\ sd_permissions (pg_db (runs qs s)) = sd_permissions (pg_db s) /\
  sd_role_permissions (pg_db (runs qs s)) = sd_role_permissions (pg_db s).
Proof.
  intros Hq Hs. assert (Hk : on_db rbac_kept s (runs qs s)).
  { clear Hs. revert s. induction qs as [|q qs IH]; intros s; [reflexivity|]. simpl.
    etrans; [apply (kept_main q); intros n d; apply Hq; by left | apply IH]. intros q' Hq'. apply Hq. by right. }
  specialize (Hk Hs). unfold rbac in Hk. injection Hk as -> -> ->. done.
Qed.

(** The role tables a seed writes say what the API enforces: after seeding
    empty ones, the row of a role is linked to the row of a permission exactly
    when [ROLE_PERMISSIONS] gives that permission to that role. *)
Theorem seeded_links_are_role_permissions (q : seed_world) (n : nat) (d : seed_db) (s' : pg seed_db) :
  quiet (q_env q) -> (forall a b, pg_uuid (q_env q) a = pg_uuid (q_env q) b -> a = b) -> rbac d = ([], [], []) ->
  _seed_rbac_if_missing q (Pg n d) = (Ok tt, s') ->
  forall role perm,
  (exists r p, r ∈ sd_roles (pg_db s') /\ rl_name r = role /\ p ∈ sd_permissions (pg_db s') /\ pm_code p = perm /\
     RolePermissionRow (rl_id r) (pm_id p) ∈ sd_role_permissions (pg_db s')) <->
  perm ∈ role_permissions role.
Proof.
  intros Hq Hinj Hd Hr role perm. destruct (rbac_seeded q Hq n d s' Hd Hr) as (Hroles & Hperms & Hlinks). cbv zeta in *.
  rewrite Hroles, Hperms, <- role_pairs_in. fold role_pairs in Hlinks. clear Hr Hroles Hperms. split.
  - intros (r & p & Hr & Hrole & Hp & Hperm & Hl). eapply (links_of_in _ _ _ _ _ _ Hlinks) in Hl as (role' & perm' & Hin & Hrid & Hpid).
    apply dict_zip in Hrid as (i & Hi & Hid), Hpid as (j & Hj & Hjd).
    apply zip_with_in in Hr as (i' & k & id & Hi' & Hid' & ->), Hp as (j' & [c t] & id' & Hj' & Hjd' & ->). cbn [rl_id rl_name pm_id pm_code] in *.
    assert (i = i') as -> by (by eapply fresh_places). assert (j = j') as -> by (by eapply fresh_places).
    rewrite list_lookup_fmap, Hj' in Hj. cbn in Hj. by simplify_eq.
  - intros Hin. destruct (links_of_total _ _ _ _ _ _ Hlinks Hin) as [[rid Hrid] [pid Hpid]].
    assert (Hl : RolePermissionRow rid pid ∈ sd_role_permissions (pg_db s')) by (eapply links_of_in; eauto).
    apply dict_zip in Hrid as (i & Hi & Hid), Hpid as (j & Hj & Hjd).
    rewrite list_lookup_fmap in Hj. apply fmap_Some in Hj as ([c t] & Hj & ->). cbn [fst] in *.
    exists (RoleRow rid role ("Seeded role: " +:+ role)), (PermissionRow pid c t). cbn [rl_id rl_name pm_id pm_code fst].
    split_and!; [| done | | done | done]; apply zip_with_in; [by eexists i, _, _ | by eexists j, (c, t), _].
Qed.

Lemma seed_idempotent_witness :
  let s' := exec (main small_seed) (Pg 0 empty_db) in exists n', main small_seed (Pg 7 (pg_db s')) = (Ok tt, Pg n' (pg_db s')).
Proof.
  intros s'. assert (Hok : eval (main small_seed) (Pg 0 empty_db) = Ok tt) by (vm_compute; reflexivity).
  apply (seed_idempotent small_seed small_seed (Pg 0 empty_db) s').
  - intros n d. simpl. reflexivity.
  - exact (run_eq (main small_seed) (Pg 0 empty_db) (Ok tt) Hok).
  - reflexivity.
  - by split.
Defined.

Lemma interrupted_rbac_is_final_witness :
  length (sd_roles (pg_db crashed)) = 1%nat /\ forall k, sd_role_permissions (pg_db (runs (repeat small_seed k) crashed)) = [].
Proof.
  split; [by vm_compute|]. intros k.
  destruct (interrupted_rbac_is_final (repeat small_seed k) crashed) as (_ & _ & ->).
  - intros q Hq%list_elem_of_In%repeat_spec n d. by subst q.
  - by vm_compute.
  - by vm_compute.
Defined.

Definition counted_world : seed_world :=
  SeedWorld (PgEnv (fun _ => None) (fun _ d => d) (fun _ => 0) pretty (fun s => Some s)) (fun _ => "hash") (fun _ => false)
    (fun _ => false) (fun _ _ => 0) (fun _ => "") (fun _ => 0) (fun _ => None).

Lemma seeded_links_are_role_permissions_witness :
  let s' := exec (_seed_rbac_if_missing counted_world) (Pg 0 empty_db) in
  exists r p, r ∈ sd_roles (pg_db s') /\ rl_name r = ROLE_VIEWER /\ p ∈ sd_permissions (pg_db s') /\
    pm_code p = PERM_ALERTS_READ /\ RolePermissionRow (rl_id r) (pm_id p) ∈ sd_role_permissions (pg_db s').
Proof.
  intros s'. assert (Hok : eval (_seed_rbac_if_missing counted_world) (Pg 0 empty_db) = Ok tt) by (vm_compute; reflexivity).
  apply (seeded_links_are_role_permissions counted_world 0 empty_db s').
  - by split.
  - intros a b E. by apply (inj pretty) in E.
  - reflexivity.
  - exact (run_eq (_seed_rbac_if_missing counted_world) (Pg 0 empty_db) (Ok tt) Hok).
  - apply (bool_decide_unpack _). vm_compute. exact I.
Defined.
