(* ===== verification/SeedCatalog.v ===== *)
(** What the seeded hierarchy gives the simulator: the tables [scripts/seed] fills
    keep the schema's checks whatever fails, and the catalog [simulator/loader.py]
    reads from them meets the assumptions of the simulation's theorem. *)

From stdpp Require Import prelude strings pretty list sorting.
From Stdlib Require Import ZArith Lia SpecFloat.
From S2P Require Import Prelude PyFloat Effects PyStr Postgres ApiTenant Events Simulator Seed.

Local Open Scope Z_scope.

(** ** The tables' checks *)

Definition is_uuid (id : string) : Prop := is_Some (uuid_of_string id).

(** The [CHECK] on [machines.status]. *)
Definition machine_statuses : list string := ["RUNNING"; "IDLE"; "MAINTENANCE"; "STOPPED"; "FAULT"].

Definition machine_ok (m : machine_row) : Prop := is_uuid (mc_id m) /\ mc_status m ∈ machine_statuses.
Definition device_ok (v : dated_device) : Prop := is_uuid (dv_id (dd_device v)) /\ dv_status (dd_device v) ∈ device_statuses.
Definition sensor_row_ok (s : sensor_row) : Prop :=
  is_uuid (sn_id s) /\ sn_metric s ∈ VALID_METRICS /\ sn_unit s <> "" /\
  fleb (default fzero (sn_min_operating_value s)) (default (float_of_Z 100) (sn_max_operating_value s)) = true.

Record hierarchy_ok (d : seed_db) : Prop := {
  hk_organizations : Forall (fun o => is_uuid (og_id o)) (sd_organizations d);
  hk_factories : Forall (fun f => is_uuid (fa_id f)) (sd_factories d);
  hk_lines : Forall (fun l => is_uuid (ln_id l)) (sd_lines d);
  hk_machines : Forall machine_ok (sd_machines d);
  hk_devices : Forall device_ok (sd_devices d);
  hk_sensors : Forall sensor_row_ok (sd_sensors d)
}.

(** ** Random statuses *)

Lemma pick_status_in roll weights s : pick_status roll weights = Some s -> s ∈ weights.*1.
Proof.
  revert roll. induction weights as [|[k w] weights IH]; intros roll; simpl; [done|].
  destruct (roll <? w); [intros [= ->]; by left | intros H; right; by eapply IH].
Qed.

(** Whatever is rolled, the status is one of the dictionary. *)
Lemma random_status_in (P : string -> Prop) randbelow weights :
  weights <> [] -> Forall P (weights.*1) -> P (random_status randbelow weights).
Proof.
  unfold random_status. destruct weights as [|[k w] weights]; [done|]. intros _ Hall.
  rewrite Forall_forall in Hall. apply Hall.
  destruct (pick_status _ _) as [s|] eqn:E; [by eapply pick_status_in | by left].
Qed.

Lemma metric_specs_ok metric spec : dict_item METRIC_SPECS metric = Ok spec ->
  metric ∈ VALID_METRICS /\ sp_unit spec <> "" /\
  fleb (float_of_Z (sp_min_value spec)) (float_of_Z (sp_max_value spec)) = true.
Proof.
  assert (Hall : Forall (fun '(m, sp) => m ∈ VALID_METRICS /\ sp_unit sp <> "" /\
      fleb (float_of_Z (sp_min_value sp)) (float_of_Z (sp_max_value sp)) = true) METRIC_SPECS)
    by (apply (bool_decide_unpack _); vm_compute; exact I).
  unfold dict_item. destruct (dict_get METRIC_SPECS metric) as [sp|] eqn:E; [|done]. intros [= <-].
  apply dict_get_in in E. by apply (proj1 (Forall_forall _ _) Hall _ E).
Qed.

(** ** The script keeps the checks *)

Section Keeps.
  Variable q : seed_world.
  Hypothesis uuids : forall n, is_uuid (pg_uuid (q_env q) n).
  Hypothesis others_ok : forall n d, hierarchy_ok d -> hierarchy_ok (pg_others (q_env q) n d).

Definition checked (s : pg seed_db) : Prop := hierarchy_ok (pg_db s).
Local Abbreviation keeps := (preserves checked).

Lemma checked_bind {A B} (m : M (pg seed_db) A) (k : A -> M (pg seed_db) B) :
  keeps m -> (forall a, keeps (k a)) -> keeps (m ≫= k).
Proof. apply preserves_bind. Qed.

Lemma checked_pure {A} (m : M (pg seed_db) A) : (forall s, snd (m s) = s) -> keeps m.
Proof. intros Hm s Hs. by rewrite Hm. Qed.

Lemma checked_insert {R} e (t : table R) mk :
  e = q_env q \/ e = alone (q_env q) ->
  (forall id d, is_uuid id -> hierarchy_ok d -> hierarchy_ok (tb_add t (mk id) d)) -> keeps (execute e (insert_into t mk)).
Proof.
  intros He Hmk. apply preserves_execute.
  - destruct He as [-> | ->]; [done | by intros].
  - intros n d Hd. unfold insert_into. destruct (existsb _ _); [done|]. apply Hmk; [destruct He as [-> | ->]; apply uuids | done].
Qed.

Lemma checked_select {A} (f : seed_db -> A) : keeps (execute (q_env q) (select f)).
Proof. apply preserves_execute; [done | by intros]. Qed.

Lemma checked_collect {A} (l : list (string * A)) insert :
  (forall k a, keeps (insert k a)) -> keeps (collect_ids l insert).
Proof.
  intros Hi. induction l as [|[k a] l IH]; simpl; [by apply checked_pure|].
  apply checked_bind; [apply Hi | intros id]. apply checked_bind; [done | intros ids]. by apply checked_pure.
Qed.

(** An insert of a row that satisfies its table's checks. *)
Lemma snoc_ok {A} (P : A -> Prop) l x : Forall P l -> P x -> Forall P (l ++ [x]).
Proof. intros Hl Hx. apply Forall_app. by split; [|apply Forall_singleton]. Qed.

Ltac insert_ok :=
  apply checked_insert; [auto | intros id [? ? ? ? ? ? ? ? ? ? ? ? ?] ? []; split; simpl in *; try done;
    (apply snoc_ok; [done|]; repeat split; try done)].

(** Splits an operation into its statements. *)
Ltac checks lem :=
  repeat first
    [ lem
    | apply checked_pure; intros ?; reflexivity
    | apply checked_select
    | apply checked_bind; [|intros ?]
    | insert_ok; fail
    | apply preserves_for_each; intros ?
    | apply checked_collect; intros ??
    | match goal with
      | |- preserves _ (if ?b then _ else _) => destruct b
      | |- preserves _ (match ?x with _ => _ end) => destruct x
      end ].

Lemma checked_sensor e device_id metric :
  e = q_env q \/ e = alone (q_env q) -> keeps (insert_sensor e device_id metric).
Proof.
  intros He. unfold insert_sensor. eapply (preserves_bind_with _ (fun spec => dict_item METRIC_SPECS metric = Ok spec));
    [by apply checked_pure | by intros s spec s' _ [= -> _] |].
  intros spec (Hm & Hu & Hr)%metric_specs_ok. apply checked_bind; [|intros _; by apply checked_pure]. insert_ok.
Qed.

Lemma checked_machine e org city line_id line_name i j :
  e = q_env q \/ e = alone (q_env q) -> keeps (seed_machine q e org city line_id line_name i j).
Proof.
  intros He. unfold seed_machine. cbv zeta.
  eapply (preserves_bind_with _ (fun st => st ∈ machine_statuses)); [by apply checked_pure | |].
  { intros s st s' _ [= <- _]. apply (random_status_in (fun st => st ∈ _)); [done|]. apply (bool_decide_unpack _). vm_compute. exact I. }
  intros mst Hmst. apply checked_bind; [insert_ok | intros machine_id].
  eapply (preserves_bind_with _ (fun st => st ∈ device_statuses)); [by apply checked_pure | |].
  { intros s st s' _ [= <- _]. apply (random_status_in (fun st => st ∈ _)); [done|]. apply (bool_decide_unpack _). vm_compute. exact I. }
  intros dst Hdst. apply checked_bind; [by case_bool_decide; apply checked_pure | intros at_].
  apply checked_bind; [insert_ok | intros device_id]. apply checked_bind; [by apply checked_pure | intros secret].
  apply checked_bind; [by apply checked_pure | intros hash]. apply checked_bind; [insert_ok | intros _].
  apply preserves_for_each. intros metric. by apply checked_sensor.
Qed.

Lemma checked_hierarchy slug l m : keeps (_seed_factory_hierarchy q slug l m).
Proof.
  intros s Hs. unfold _seed_factory_hierarchy, transaction. cbv zeta.
  set (body := _ ≫= _). assert (Hb : keeps body).
  { unfold body, seed_factory, seed_line. cbv zeta. checks ltac:(apply checked_machine; by right). }
  specialize (Hb s Hs). unfold checked in *. destruct (body s) as [[a | exc] s']; [|done].
  by destruct (pg_fault _ _) as [[[] exc]|].
Qed.

Lemma checked_main : keeps (main q).
Proof.
  unfold main, _seed_supporting_data, _seed_alert_rules_if_missing, _seed_rbac_if_missing, _seed_users_if_missing,
    _seed_second_organization_if_missing, insert_rule, insert_role, insert_permission, insert_link, seed_user, insert_user,
    link_user, role_id_of. cbv zeta.
  assert (Hidle : "IDLE" ∈ machine_statuses) by (apply (bool_decide_unpack _); vm_compute; exact I).
  checks ltac:(apply checked_hierarchy).
Qed.

End Keeps.

(** ** The catalog *)

Lemma with_id_in {R} (key : R -> string) id (l : list R) r : r ∈ with_id key id l -> r ∈ l.
Proof. unfold with_id. by intros [_ Hr]%list_elem_of_filter. Qed.

(** A row of the join is built from one row of each table. *)
Lemma join_entry_ok d row : hierarchy_ok d -> row ∈ sensor_join d -> entry_ok (entry_of_row row).
Proof.
  intros [Ho Hf Hl Hm Hv Hs]. unfold sensor_join.
  intros (s & Hrow & Is)%list_elem_of_bind. revert Hrow.
  intros (v & Hrow & Iv%with_id_in)%list_elem_of_bind. revert Hrow.
  intros (m & Hrow & Im%with_id_in)%list_elem_of_bind. revert Hrow.
  intros (pl & Hrow & Il%with_id_in)%list_elem_of_bind. revert Hrow.
  intros (f & Hrow & If%with_id_in)%list_elem_of_bind. revert Hrow.
  intros (o & ->%list_elem_of_singleton & Io%with_id_in)%list_elem_of_bind.
  apply Forall_forall with (x := o) in Ho; [|done]. apply Forall_forall with (x := f) in Hf; [|done].
  apply Forall_forall with (x := pl) in Hl; [|done]. apply Forall_forall with (x := m) in Hm; [|done]. destruct Hm as [Um _].
  apply Forall_forall with (x := s) in Hs; [|done]. destruct Hs as (Us & Hmet & Hunit & Hrange).
  apply list_elem_of_fmap in Iv as (dv & -> & Iv).
  apply Forall_forall with (x := dv) in Hv; [|done]. destruct Hv as [Uv _].
  unfold entry_ok. simpl. by rewrite !Forall_cons.
Qed.

Lemma merge_sort_in (l : list sensor_join_row) r : r ∈ merge_sort by_sensor l <-> r ∈ l.
Proof. apply elem_of_Permutation_proper, merge_sort_Permutation. Qed.

(** [C19] The hierarchy and the simulator agree: from tables that satisfy the
    schema's checks, empty ones for one, the script leaves tables that satisfy
    them, however it ends and whatever the dice say; and every entry of the
    catalog the simulator loads from them has uuids for ids, a known metric, a
    unit and a non-empty operating range. *)
Theorem seeded_catalog_ok (q : seed_world) (s : pg seed_db) (limit : Z) (catalog : list SensorCatalogEntry) :
  (forall n, is_Some (uuid_of_string (pg_uuid (q_env q) n))) ->
  (forall n d, hierarchy_ok d -> hierarchy_ok (pg_others (q_env q) n d)) -> hierarchy_ok (pg_db s) ->
  let d := pg_db (exec (main q) s) in
  hierarchy_ok d /\ (load_sensor_catalog limit (sensor_join d) = Ok catalog -> Forall entry_ok catalog).
Proof.
  intros Hu Ho Hs d. assert (Hd : hierarchy_ok d) by (exact (checked_main q Hu Ho s Hs)). split; [done|].
  unfold load_sensor_catalog. destruct (limit <? 0); [done|]. intros [= <-]. apply Forall_fmap, Forall_forall.
  intros row Hrow. apply (join_entry_ok d); [done|]. apply merge_sort_in.
  eapply elem_of_prefix; [exact Hrow | apply prefix_take].
Qed.

(** Uuids that are fresh in a run of at most 300 statements. *)
Definition short_uuid (n : nat) : string := seed_uuid (if bool_decide (n < 300)%nat then n else 300).
Definition short_seed : seed_world :=
  SeedWorld (PgEnv (fun _ => None) (fun _ d => d) (fun _ => 0) short_uuid (fun s => Some s)) (fun _ => "hash")
    (fun _ => false) (fun _ => false) (fun n _ => Z.of_nat n) (fun _ => "0123456789abcdef") (fun _ => 0)
    (dict_get [("SEED_LINES_PER_FACTORY", "1"); ("SEED_MACHINES_PER_LINE", "2")]).

Lemma short_uuids n : is_Some (uuid_of_string (short_uuid n)).
Proof.
  unfold short_uuid. set (k := if bool_decide _ then _ else _). assert (Hk : (k <= 300)%nat) by (subst k; case_bool_decide; lia).
  assert (Hall : Forall (fun k => is_Some (uuid_of_string (seed_uuid k))) (seq 0 301))
    by (apply (bool_decide_unpack _); vm_compute; exact I).
  apply Forall_forall with (x := k) in Hall; [done|]. apply elem_of_seq. lia.
Qed.

Lemma seeded_catalog_ok_witness :
  exists catalog, load_sensor_catalog 3 (sensor_join (pg_db (exec (main short_seed) (Pg 0 empty_db)))) = Ok catalog /\
    length catalog = 3%nat /\ Forall entry_ok catalog.
Proof.
  set (d := pg_db (exec (main short_seed) (Pg 0 empty_db))).
  exists (match load_sensor_catalog 3 (sensor_join d) with Ok c => c | Raise _ => [] end).
  split; [vm_compute; reflexivity | split; [vm_compute; reflexivity|]].
  apply (seeded_catalog_ok short_seed (Pg 0 empty_db) 3).
  - apply short_uuids.
  - intros n t Ht. exact Ht.
  - split; apply Forall_nil_2.
  - vm_compute. reflexivity.
Defined.
