(* ===== verification/Health.v ===== *)
(** The health servers of the four Kafka services ([health.py] of each) and the
    MQTT connection flag [services/ingestion/mqtt_client.py] they report: the
    answer to each GET as a function of the state it reads, the connection as a
    step function, and when [/ready] and the circuit breaker disagree. *)

From stdpp Require Import prelude strings pretty list.
From Stdlib Require Import ZArith Lia Ascii SpecFloat.
From S2P Require Import Prelude PyFloat Effects PyStr Reliability ApiCore.

Local Open Scope Z_scope.

(** ** Answers *)

Inductive health_body := NoBody | TextBody (text : string) | JsonBody (j : json) | MetricsBody.
Record health_answer := HealthAnswer { ha_status : Z; ha_body : health_body }.

Definition answer_json (status : Z) (fields : list (string * json)) : health_answer := HealthAnswer status (JsonBody (JObj fields)).

Definition live_answer : health_answer := HealthAnswer 200 (TextBody "ok").
Definition unknown_path : health_answer := HealthAnswer 404 NoBody.

Definition closed_enough (b : breaker) : bool := negb (bool_decide (state_value b = "OPEN")).

(** [Handler.do_GET] of ingestion. *)
Definition ingestion_get (path : string) (connected : bool) (b : breaker) : health_answer :=
  if bool_decide (path = "/live") then live_answer
  else if bool_decide (path = "/ready") then
    let ready := connected && closed_enough b in
    answer_json (if ready then 200 else 503)
      [("ready", JB ready); ("mqtt_connected", JB connected); ("kafka_circuit_breaker", JS (state_value b))]
  else if bool_decide (path = "/health") then
    answer_json 200 [("mqtt_connected", JB connected); ("kafka_circuit_breaker", JS (state_value b))]
  else if bool_decide (path = "/metrics") then HealthAnswer 200 MetricsBody
  else unknown_path.

(** [Deduplicator.ping]: a [RedisError] is [False], another exception goes
    through.  [pong] is the answer of [PING] as a bool. *)
Definition redis_ping (pong : res bool) : res bool :=
  match pong with Raise (OtherError "RedisError" _) => Ok false | r => r end.

(** [Handler.do_GET] of the stream processor. *)
Definition stream_get (path : string) (pong : res bool) (influx kafka : breaker) : res health_answer :=
  if bool_decide (path = "/live") then Ok live_answer
  else if bool_decide (path = "/ready") then
    res_bind (redis_ping pong) (fun redis_ok =>
    let ready := redis_ok && closed_enough influx && closed_enough kafka in
    Ok (answer_json (if ready then 200 else 503)
      [("ready", JB ready); ("redis_connected", JB redis_ok); ("influxdb_circuit_breaker", JS (state_value influx));
       ("kafka_circuit_breaker", JS (state_value kafka))]))
  else if bool_decide (path = "/metrics") then Ok (HealthAnswer 200 MetricsBody)
  else Ok unknown_path.

(** [Catalog.ping]: whether [SELECT 1] came back. *)
Definition catalog_ping (select_one : res unit) : bool := is_ok select_one.

(** [Handler.do_GET] of the anomaly detector. *)
Definition detector_get (path : string) (select_one : res unit) (kafka : breaker) (trained : list string) : health_answer :=
  if bool_decide (path = "/live") then live_answer
  else if bool_decide (path = "/ready") then
    let postgres_ok := catalog_ping select_one in
    let ready := postgres_ok && closed_enough kafka in
    answer_json (if ready then 200 else 503)
      [("ready", JB ready); ("postgres_connected", JB postgres_ok); ("kafka_circuit_breaker", JS (state_value kafka))]
  else if bool_decide (path = "/forests") then answer_json 200 [("trained_machine_types", JArr (JS <$> trained))]
  else if bool_decide (path = "/metrics") then HealthAnswer 200 MetricsBody
  else unknown_path.

(** [_ping] of the alert service; no pool is [None]. *)
Definition pool_ping (pool : option (res unit)) : bool :=
  match pool with None => false | Some select_one => is_ok select_one end.

(** [Handler.do_GET] of the alert service. *)
Definition alerting_get (path : string) (pool : option (res unit)) : health_answer :=
  if bool_decide (path = "/live") then live_answer
  else if bool_decide (path = "/ready") then
    let postgres_ok := pool_ping pool in
    answer_json (if postgres_ok then 200 else 503) [("ready", JB postgres_ok); ("postgres_connected", JB postgres_ok)]
  else if bool_decide (path = "/metrics") then HealthAnswer 200 MetricsBody
  else unknown_path.

(** [start_health_server]: [int(port)], then [bind].  Ingestion catches nothing;
    the other services go on without a server on an [OSError]. *)
Definition start_health_server (catches_os_error : bool) (port : string) (bind : Z -> res unit) : res bool :=
  match parse_int 10 port with
  | None => Raise (ValueError ("invalid literal for int() with base 10: " +:+ port))
  | Some n =>
      match bind n with
      | Ok _ => Ok true
      | Raise (OtherError "OSError" m) => if catches_os_error then Ok false else Raise (OtherError "OSError" m)
      | Raise e => Raise e
      end
  end.

(** ** The MQTT connection *)

Inductive mqtt_event := MqttConnected (failure : bool) | MqttLost.

Record mqtt_state := MqttState { mq_connected : bool; mq_connections : Z; mq_subscribed : nat }.

(** The filters [_subscribe] subscribes to. *)
Definition subscriptions : list string :=
  ["factory/+/machine/+/sensor/+/telemetry"; "factory/+/machine/+/status"; "factory/+/machine/+/events"].

(** [on_connect] and [on_disconnect]. *)
Definition mqtt_step (e : mqtt_event) (s : mqtt_state) : mqtt_state :=
  match e with
  | MqttConnected true => s
  | MqttConnected false => MqttState true 1 (mq_subscribed s + length subscriptions)
  | MqttLost => MqttState false 0 (mq_subscribed s)
  end.

(** The wait of [connect_mqtt]: the flag read by each poll before the deadline. *)
Fixpoint await_connection (polls : list bool) : res unit :=
  match polls with
  | [] => Raise (OtherError "MQTTConnectTimeout" "mqtt connect timed out")
  | p :: polls => if p then Ok tt else await_connection polls
  end.

(** ** Theorems *)

Lemma closed_enough_spec b : closed_enough b = true <-> br_state b <> OPEN.
Proof. unfold closed_enough, state_value. destruct (br_state b); by split. Qed.

(** The connection flag is that of the last event that was not a refused
    connection. *)
Lemma mqtt_flag events s :
  mq_connected (foldl (fun s e => mqtt_step e s) s events) =
  default (mq_connected s) (last (omap (fun e => match e with MqttConnected false => Some true | MqttLost => Some false | _ => None end) events)).
Proof.
  revert s. induction events as [|e events IH]; intros s; [done|]. simpl. rewrite IH.
  destruct e as [[]|]; csimpl; [done| |]; by destruct (omap _ events) as [|b l] eqn:E using rev_ind;
    rewrite ?last_cons, ?last_snoc.
Qed.

(** A service is ready exactly when what it depends on is: the MQTT
    connection, Redis or Postgres answers, and no circuit breaker is OPEN;
    liveness never depends on any of them.  The breaker's state is read and not
    tried: past its cooldown an OPEN breaker lets the next write through while
    [/ready] still answers 503, until a message makes the service try. *)
Theorem readiness_reports_dependencies (connected : bool) (pong : res bool) (select_one : res unit)
    (pool : option (res unit)) (influx kafka : breaker) (trained : list string) :
  (ha_status (ingestion_get "/ready" connected kafka) = 200 <-> connected = true /\ br_state kafka <> OPEN) /\
  (forall ok, redis_ping pong = Ok ok -> exists a, stream_get "/ready" pong influx kafka = Ok a /\
     (ha_status a = 200 <-> ok = true /\ br_state influx <> OPEN /\ br_state kafka <> OPEN)) /\
  (ha_status (detector_get "/ready" select_one kafka trained) = 200 <-> is_ok select_one = true /\ br_state kafka <> OPEN) /\
  (ha_status (alerting_get "/ready" pool) = 200 <-> exists u, pool = Some (Ok u)) /\
  [ingestion_get "/live" connected kafka; detector_get "/live" select_one kafka trained; alerting_get "/live" pool] =
    [live_answer; live_answer; live_answer] /\ stream_get "/live" pong influx kafka = Ok live_answer /\
  (forall now, br_state kafka = OPEN -> fgeb (fsub now (br_opened_at kafka)) (br_cooldown kafka) = true ->
     ha_status (ingestion_get "/ready" connected kafka) = 503 /\ fst (allow now kafka) = true).
Proof.
  assert (Hs : forall b : bool, (if b then 200 else 503) = 200 <-> b = true) by (by intros []).
  split_and!; try done.
  - simpl. by rewrite Hs, andb_true_iff, closed_enough_spec.
  - intros ok Hp. unfold stream_get. simpl. rewrite Hp. eexists. split; [reflexivity|]. simpl.
    rewrite Hs, !andb_true_iff, !closed_enough_spec. tauto.
  - simpl. by rewrite Hs, andb_true_iff, closed_enough_spec.
  - simpl. rewrite Hs. unfold pool_ping. destruct pool as [[u|]|]; simpl; naive_solver.
  - intros now Ho Hc. split; [|unfold allow; by rewrite Ho, Hc]. simpl. unfold closed_enough, state_value.
    rewrite Ho. simpl. by rewrite andb_false_r.
Qed.

Lemma readiness_reports_dependencies_witness :
  let b := Breaker OPEN 5 5 (float_of_Z 15) fzero in
  ha_status (ingestion_get "/ready" true b) = 503 /\ fst (allow (float_of_Z 20) b) = true.
Proof.
  intros b. apply (readiness_reports_dependencies true (Ok true) (Ok tt) (Some (Ok tt)) b b []); by vm_compute.
Defined.
