(* ===== verification/Mqtt.v ===== *)
(** The MQTT leg, from a device to a worker of [ingestion] ([simulator/main.py]'s
    topics, [ingestion/mqtt_client.py], the worker loop of [ingestion/main.py]):
    topics and subscription filters, and the persistent session with its packet
    ids, acknowledgements, lost connections and restarts of the process.  The
    broker is an environment of steps, as the MQTT standard describes a session
    of QoS 1. *)

From stdpp Require Import prelude strings list gmap.
From Stdlib Require Import ZArith Lia Ascii.
From S2P Require Import Prelude PyFloat Effects PyStr Reliability Events Kafka Ingestion Health Simulator.

Local Open Scope Z_scope.

(** ** Topics and filters *)

Abbreviation levels := (split_on "/"%char).

(** Level by level; ["+"] stands for any one level. *)
Fixpoint levels_match (f t : list string) : bool :=
  match f, t with
  | [], [] => true
  | x :: f, y :: t => (bool_decide (x = "+") || bool_decide (x = y)) && levels_match f t
  | _, _ => false
  end.

(** What the standard says of a filter without ["#"] whose first level is not
    ["+"]. *)
Class MqttMatching (matches : string -> string -> bool) : Prop :=
  level_match : forall f t, "#" ∉ levels f -> head (levels f) <> Some "+" -> matches f t = levels_match (levels f) (levels t).

Lemma split_on_ne sep s : split_on sep s <> [].
Proof. induction s as [|c s IH]; simpl; [done|]. destruct (Ascii.eqb c sep); [done|]. by destruct (split_on sep s). Qed.

(** A text without the separator is one piece. *)
Lemma split_on_app sep a b : sep ∉ chars a -> split_on sep (a +:+ String sep b) = a :: split_on sep b.
Proof.
  induction a as [|c a IH]; intros Ha; simpl; [by rewrite Ascii.eqb_refl|].
  simpl in Ha. apply not_elem_of_cons in Ha as [Hc Ha]. destruct (Ascii.eqb_spec c sep); [congruence|]. by rewrite (IH Ha).
Qed.

Lemma split_on_none sep a : sep ∉ chars a -> split_on sep a = [a].
Proof.
  induction a as [|c a IH]; intros Ha; simpl; [done|]. simpl in Ha. apply not_elem_of_cons in Ha as [Hc Ha].
  destruct (Ascii.eqb_spec c sep); [congruence|]. by rewrite (IH Ha).
Qed.

(** [sep.join(l)], the inverse of [split]. *)
Fixpoint join_on (sep : ascii) (l : list string) : string :=
  match l with
  | [] => ""
  | [x] => x
  | x :: l => x +:+ String sep (join_on sep l)
  end.

Lemma join_cons_char sep c w ws : join_on sep (String c w :: ws) = String c (join_on sep (w :: ws)).
Proof. by destruct ws. Qed.

Lemma join_split sep s : join_on sep (split_on sep s) = s.
Proof.
  induction s as [|c s IH]; [done|]. cbn [split_on].
  pose proof (split_on_ne sep s) as Hne. destruct (Ascii.eqb_spec c sep) as [->|Hc].
  - destruct (split_on sep s) as [|w ws]; [done|]. change (String sep (join_on sep (w :: ws)) = String sep s). by rewrite IH.
  - destruct (split_on sep s) as [|w ws]; [done|]. by rewrite join_cons_char, IH.
Qed.

Lemma append_assoc (a b c : string) : (a +:+ b) +:+ c = a +:+ (b +:+ c).
Proof. apply chars_inj. by rewrite !chars_app, app_assoc. Qed.

(** A topic that ends with a level of its own. *)
Lemma endswith_level t l x : levels t = l ++ [x] -> l <> [] -> endswith t (String "/" x) = true.
Proof.
  intros Hl Hne. rewrite <- (join_split "/"%char t), Hl. clear Hl.
  assert (H : exists a, join_on "/" (l ++ [x]) = a +:+ String "/" x) by
    (induction l as [|y [|z l] IH]; [done | by exists y | destruct (IH ltac:(done)) as [a Ha]; exists (y +:+ String "/" a);
      change (join_on "/" ((y :: z :: l) ++ [x])) with (y +:+ String "/" (join_on "/" ((z :: l) ++ [x])));
      rewrite Ha, append_assoc; done]).
  destruct H as [a ->]. apply endswith_app.
Qed.

(** The texts a topic of two or more levels ends with. *)
Lemma endswith_chars t p : endswith t p = true -> exists l, chars t = l ++ chars p.
Proof.
  unfold endswith. rewrite bool_decide_eq_true. generalize (length (chars t) - length (chars p))%nat. intros n <-.
  exists (take n (chars t)). by rewrite chars_of_chars, take_drop.
Qed.

(** [telemetry], [status] and [events] do not end with one another. *)
Lemma one_ending t : (endswith t "/telemetry" = true -> endswith t "/status" = false /\ endswith t "/events" = false) /\
  (endswith t "/status" = true -> endswith t "/events" = false).
Proof.
  assert (Hlast : forall p, endswith t p = true -> chars p <> [] -> exists l, chars t = l ++ chars p) by (intros; by apply endswith_chars).
  assert (Hdiff : forall p q, endswith t p = true -> (forall l l', l ++ chars p <> l' ++ chars q) -> endswith t q = false).
  { intros p q Hp Hne. destruct (endswith t q) eqn:Hq; [|done].
    destruct (endswith_chars _ _ Hp) as [l Hl]. destruct (endswith_chars _ _ Hq) as [l' Hl']. exfalso. apply (Hne l l'). congruence. }
  assert (Hrev : forall (l l' p q : list ascii), rev p !! 1%nat <> rev q !! 1%nat -> (1 < length p)%nat -> (1 < length q)%nat -> l ++ p <> l' ++ q).
  { intros l l' p q Hne Hp Hq Heq. apply (f_equal (@rev ascii)) in Heq. rewrite !rev_app_distr in Heq.
    apply (f_equal (lookup 1%nat)) in Heq. rewrite !lookup_app_l in Heq by (rewrite length_rev; lia). done. }
  split; [intros H; split | intros H]; eapply Hdiff; try exact H; intros l l'; apply Hrev; simpl; (done || lia).
Qed.

(** ** Which subscription a topic meets *)

Section Topics.
  Context (matches : string -> string -> bool) `{!MqttMatching matches}.

Definition telemetry_filter : string := "factory/+/machine/+/sensor/+/telemetry".
Definition status_filter : string := "factory/+/machine/+/status".
Definition events_filter : string := "factory/+/machine/+/events".

(** The message handler ([message_callback_add]) is the same for every filter;
    the broker sends what one of them matches. *)
Definition subscribed (topic : string) : bool := existsb (fun f => matches f topic) subscriptions.

Lemma filter_levels f t : f ∈ subscriptions -> matches f t = levels_match (levels f) (levels t).
Proof.
  intros Hf. apply level_match.
  - revert f Hf. apply Forall_forall, (bool_decide_unpack _). by vm_compute.
  - revert f Hf. apply Forall_forall, (bool_decide_unpack _). by vm_compute.
Qed.

Lemma levels_match_literal x y : (bool_decide (x = "+") || bool_decide (x = y)) = true -> x <> "+" -> y = x.
Proof. intros [H%bool_decide_eq_true|H%bool_decide_eq_true]%orb_prop Hx; congruence. Qed.

(** A topic that a filter matches ends with the filter's last level. *)
Lemma filter_ending f l x t : f ∈ subscriptions -> levels f = l ++ [x] -> x <> "+" -> l <> [] ->
  matches f t = true -> endswith t (String "/" x) = true.
Proof.
  intros Hf Hl Hx Hne Hm. rewrite (filter_levels f t Hf), Hl in Hm. clear Hf Hl.
  assert (H : exists l', levels t = l' ++ [x] /\ length l' = length l).
  { revert Hm. generalize (levels t). clear Hne. induction l as [|y l IH]; intros [|z [|z' t']]; simpl; try done.
    - rewrite andb_true_r. intros ->%levels_match_literal; [by exists [] | done].
    - by rewrite andb_false_r.
    - intros [_ Hm]%andb_prop. by destruct l.
    - intros [_ Hm]%andb_prop. destruct (IH (z' :: t') Hm) as (l' & -> & Hlen). exists (z :: l'). simpl. by rewrite Hlen. }
  destruct H as (l' & Ht & Hlen). eapply endswith_level; [exact Ht|]. intros ->. by destruct l.
Qed.

Lemma telemetry_ending t : matches telemetry_filter t = true -> endswith t "/telemetry" = true.
Proof. apply (filter_ending telemetry_filter ["factory"; "+"; "machine"; "+"; "sensor"; "+"] "telemetry"); first [set_solver | done]. Qed.
Lemma status_ending t : matches status_filter t = true -> endswith t "/status" = true.
Proof. apply (filter_ending status_filter ["factory"; "+"; "machine"; "+"] "status"); first [set_solver | done]. Qed.
Lemma events_ending t : matches events_filter t = true -> endswith t "/events" = true.
Proof. apply (filter_ending events_filter ["factory"; "+"; "machine"; "+"] "events"); first [set_solver | done]. Qed.

Lemma subscribed_recognized topic payload : subscribed topic = true -> recognized (mkInboundMessage topic payload) = true.
Proof.
  unfold subscribed, recognized. simpl. rewrite !orb_true_iff. intros [H|[H|[H|H]]]; [| | | done].
  - left. left. by apply telemetry_ending.
  - left. right. by apply status_ending.
  - right. by apply events_ending.
Qed.

Lemma uuid_no_slash id : is_Some (uuid_of_string id) -> "/"%char ∉ chars id.
Proof. intros [n Hn] Hin. by apply (uuid_chars id n) in Hin; [|done]. Qed.

Lemma machine_levels e rest : entry_ok e ->
  levels (machine_topic e +:+ String "/" rest) = "factory" :: en_factory_id e :: "machine" :: en_machine_id e :: levels rest.
Proof.
  intros (_ & Hf & Hm)%entry_ids. unfold machine_topic. rewrite !append_assoc.
  change (levels ("factory/" +:+ ?x)) with ("factory" :: levels x).
  change ("/machine/" +:+ ?x) with (String "/" ("machine" +:+ String "/" x)).
  rewrite split_on_app by (by apply uuid_no_slash). change ("machine" +:+ ?x) with ("machine" +:+ x).
  rewrite split_on_app by (by apply (bool_decide_unpack _); vm_compute). by rewrite split_on_app by (by apply uuid_no_slash).
Qed.

Lemma telemetry_levels e : entry_ok e ->
  levels (telemetry_topic e) = ["factory"; en_factory_id e; "machine"; en_machine_id e; "sensor"; en_sensor_id e; "telemetry"].
Proof.
  intros He. assert (Hs : is_Some (uuid_of_string (en_sensor_id e))) by (destruct He as [Hids _]; rewrite !Forall_cons in Hids; tauto).
  unfold telemetry_topic. rewrite !append_assoc.
  change ("/sensor/" +:+ ?x) with (String "/" ("sensor" +:+ String "/" x)). rewrite machine_levels by done.
  rewrite split_on_app by (by apply (bool_decide_unpack _); vm_compute). by rewrite split_on_app by (by apply uuid_no_slash).
Qed.

End Topics.

(** ** The session and the worker pool *)

(** A QoS 1 message under its packet id. *)
Record packet := Packet { pk_mid : Z; pk_job : InboundMessage }.

#[export] Instance packet_eq_dec : EqDecision packet.
Proof. solve_decision. Defined.

Record link := Link {
  (** the broker's session of the client: what it stores until the PUBACK *)
  ln_session : list packet;
  (** every packet there ever was *)
  ln_names : list packet;
  (** callbacks past their check of the event; [jobs]; [shutdown_event]; running workers *)
  ln_pending : list packet; ln_jobs : list packet; ln_shutdown : bool; ln_workers : nat;
  (** PUBACKs under way *)
  ln_acks : list Z;
  ln_sink : ing;
  (** sent over this connection; the connections before it *)
  ln_sent : list packet; ln_connection : nat
}.

Section Session.
  Variable w : ing_world.
  Variable cfg : sink_config.
  Variable maxsize : Z.
  Variable matches : string -> string -> bool.
  (** which ids the broker may give to a new packet *)
  Variable may_name : Z -> link -> Prop.

(** The [ack] closure of a job that was processed, if it was called:
    [client.ack(mid, qos)]. *)
Definition acks_of (p : packet) (s s' : ing) : list Z :=
  if (length (ig_acked s) <? length (ig_acked s'))%nat then [pk_mid p] else [].

(** A process that starts anew: only the topics of Kafka are left of the state,
    with what the end inside a job had produced. *)
Definition restarted (s s' : ing) : Prop := log_grows (ig_kafka s) (ig_kafka s') /\ ig_acked s' = [].

Inductive link_step : link -> link -> Prop :=
  (** a device's message reaches the session *)
  | link_publish job mid l :
      subscribed matches (im_topic job) = true -> may_name mid l ->
      link_step l (Link (ln_session l ++ [Packet mid job]) (ln_names l ++ [Packet mid job]) (ln_pending l) (ln_jobs l)
        (ln_shutdown l) (ln_workers l) (ln_acks l) (ln_sink l) (ln_sent l) (ln_connection l))
  (** [handler] starts on a message of the session, once over a connection, and
      checks the event *)
  | link_deliver p l :
      p ∈ ln_session l -> p ∉ ln_sent l -> ln_shutdown l = false ->
      link_step l (Link (ln_session l) (ln_names l) (ln_pending l ++ [p]) (ln_jobs l)
        (ln_shutdown l) (ln_workers l) (ln_acks l) (ln_sink l) (ln_sent l ++ [p]) (ln_connection l))
  (** it goes on: [jobs.put_nowait], or [queue.Full] *)
  | link_put i p l :
      ln_pending l !! i = Some p ->
      link_step l (Link (ln_session l) (ln_names l) (delete i (ln_pending l)) (snd (put_nowait maxsize p (ln_jobs l)))
        (ln_shutdown l) (ln_workers l) (ln_acks l) (ln_sink l) (ln_sent l) (ln_connection l))
  | link_shutdown l :
      link_step l (Link (ln_session l) (ln_names l) (ln_pending l) (ln_jobs l) true (ln_workers l) (ln_acks l) (ln_sink l) (ln_sent l) (ln_connection l))
  (** a worker processes a job; an exception ends it *)
  | link_work p jobs n r s' l :
      ln_jobs l = p :: jobs -> ln_workers l = S n -> _process_message w cfg (pk_job p) (ln_sink l) = (r, s') ->
      link_step l (Link (ln_session l) (ln_names l) (ln_pending l) jobs (ln_shutdown l) (if is_ok r then S n else n)
        (ln_acks l ++ acks_of p (ln_sink l) s') s' (ln_sent l) (ln_connection l))
  | link_worker_exits n l :
      ln_jobs l = [] -> ln_shutdown l = true -> ln_workers l = S n ->
      link_step l (Link (ln_session l) (ln_names l) (ln_pending l) [] true n (ln_acks l) (ln_sink l) (ln_sent l) (ln_connection l))
  (** the broker gets a PUBACK and drops the packet with its id *)
  | link_puback i mid l :
      ln_acks l !! i = Some mid ->
      link_step l (Link (filter (fun p => pk_mid p <> mid) (ln_session l)) (ln_names l) (ln_pending l) (ln_jobs l)
        (ln_shutdown l) (ln_workers l) (delete i (ln_acks l)) (ln_sink l)
        (filter (fun p => pk_mid p <> mid) (ln_sent l)) (ln_connection l))
  (** the connection breaks *)
  | link_lost l :
      link_step l (Link (ln_session l) (ln_names l) (ln_pending l) (ln_jobs l) (ln_shutdown l) (ln_workers l) [] (ln_sink l)
        [] (S (ln_connection l)))
  (** the process ends, however, and a new one takes the session over *)
  | link_restart n s' l :
      restarted (ln_sink l) s' ->
      link_step l (Link (ln_session l) (ln_names l) [] [] false n [] s' [] (S (ln_connection l))).

Inductive link_reachable : link -> Prop :=
  | link_start n s : link_reachable (Link [] [] [] [] false n [] s [] 0)
  | link_more l l' : link_reachable l -> link_step l l' -> link_reachable l'.

End Session.

(** What the standard asks of a new id: no packet of the session has it. *)
Definition not_among (taken : link -> list packet) (mid : Z) (l : link) : Prop := mid ∉ pk_mid <$> taken l.
Definition unused : Z -> link -> Prop := not_among ln_session.
(** A broker that counts its ids up, before the counter wraps around. *)
Definition never_used : Z -> link -> Prop := not_among ln_names.

(** ** At least once *)

Section AtLeastOnce.
  Context (w : ing_world) (cfg : sink_config) (maxsize : Z) (matches : string -> string -> bool) `{!MqttMatching matches}.
  Hypothesis Hacks : acks_all (w_broker w).

Abbreviation stored l p := (recorded w cfg (kf_log (ig_kafka (ln_sink l))) (pk_job p)).

Record link_ok (l : link) : Prop := {
  lo_session : ln_session l ⊆ ln_names l;
  lo_pending : ln_pending l ⊆ ln_names l;
  lo_jobs : ln_jobs l ⊆ ln_names l;
  lo_topics : forall p, p ∈ ln_names l -> recognized (pk_job p) = true;
  lo_names : forall p q, p ∈ ln_names l -> q ∈ ln_names l -> pk_mid p = pk_mid q -> p = q;
  lo_acked : ln_acks l ⊆ pk_mid <$> ln_names l;
  lo_acks : forall p, p ∈ ln_names l -> pk_mid p ∈ ln_acks l -> stored l p;
  lo_kept : forall p, p ∈ ln_names l -> p ∈ ln_session l \/ stored l p
}.

Lemma put_nowait_sub {A} (x : A) jobs (all : list A) : jobs ⊆ all -> x ∈ all -> snd (put_nowait maxsize x jobs) ⊆ all.
Proof. intros Hj Hx. unfold put_nowait. destruct (_ && _); simpl; [done|]. set_solver. Qed.

Lemma delete_sub {A} (i : nat) (l all : list A) : l ⊆ all -> delete i l ⊆ all.
Proof. intros Hl x Hx. apply Hl. eapply elem_of_submseteq; [exact Hx | apply sublist_submseteq, sublist_delete]. Qed.

Lemma acks_of_recorded p s r s' : recognized (pk_job p) = true -> _process_message w cfg (pk_job p) s = (r, s') ->
  log_grows (ig_kafka s) (ig_kafka s') /\ (acks_of p s s' = [] \/ (acks_of p s s' = [pk_mid p] /\ recorded w cfg (kf_log (ig_kafka s')) (pk_job p))).
Proof.
  intros Hrec Hp. destruct (process_message_acks w cfg (pk_job p) Hacks s) as [Hg Ha]. rewrite Hp in Hg, Ha. split; [exact Hg|].
  unfold acks_of. cbn [snd] in Ha. destruct Ha as [->|[-> Hd]]; [left; by rewrite Nat.ltb_irrefl|]. right.
  rewrite length_app, (proj2 (Nat.ltb_lt _ _)) by (simpl; lia). auto.
Qed.

Lemma publish_ok job mid l : subscribed matches (im_topic job) = true -> never_used mid l -> link_ok l ->
  link_ok (Link (ln_session l ++ [Packet mid job]) (ln_names l ++ [Packet mid job]) (ln_pending l) (ln_jobs l)
    (ln_shutdown l) (ln_workers l) (ln_acks l) (ln_sink l) (ln_sent l) (ln_connection l)).
Proof.
  intros Hsub Hmid [Hs Hp Hj Ht Hn Hd Ha Hk]. constructor; cbn [ln_session ln_names ln_pending ln_jobs ln_acks ln_sink].
  - set_solver.
  - set_solver.
  - set_solver.
  - intros p [Hin | ->%list_elem_of_singleton]%elem_of_app; [by apply Ht | destruct job; by eapply subscribed_recognized].
  - intros p q [Hin | ->%list_elem_of_singleton]%elem_of_app [Hq | ->%list_elem_of_singleton]%elem_of_app Heq;
      [by apply Hn | | | done]; exfalso; apply Hmid, list_elem_of_fmap; simpl in Heq; eauto.
  - rewrite fmap_app. set_solver.
  - intros p [Hin | ->%list_elem_of_singleton]%elem_of_app Hm; [by apply Ha|]. exfalso. by apply Hmid, Hd.
  - intros p [Hin | ->%list_elem_of_singleton]%elem_of_app; [|left; set_solver]. destruct (Hk p Hin); [left; set_solver | by right].
Qed.

(** What is stored stays stored when the log grows. *)
Lemma stored_mono l l' p : log_grows (ig_kafka (ln_sink l)) (ig_kafka (ln_sink l')) -> stored l p -> stored l' p.
Proof. intros Hg. by apply recorded_mono. Qed.

Lemma work_ok p jobs n r s' l : ln_jobs l = p :: jobs -> _process_message w cfg (pk_job p) (ln_sink l) = (r, s') -> link_ok l ->
  link_ok (Link (ln_session l) (ln_names l) (ln_pending l) jobs (ln_shutdown l) n (ln_acks l ++ acks_of p (ln_sink l) s') s' (ln_sent l) (ln_connection l)).
Proof.
  intros Hjobs Hrun [Hs Hp Hj Ht Hn Hd Ha Hk]. rewrite Hjobs in Hj.
  assert (Hpn : p ∈ ln_names l) by set_solver.
  destruct (acks_of_recorded p _ _ _ (Ht p Hpn) Hrun) as [Hg Hack].
  constructor; cbn [ln_session ln_names ln_pending ln_jobs ln_acks ln_sink]; try done.
  - set_solver.
  - intros m [Hm|Hm]%elem_of_app; [by apply Hd|]. destruct Hack as [E|[E _]]; rewrite E in Hm; [by apply elem_of_nil in Hm|].
    apply list_elem_of_singleton in Hm as ->. by apply list_elem_of_fmap_2.
  - intros q Hq [Hm|Hm]%elem_of_app; [by eapply recorded_mono, Ha|].
    destruct Hack as [E|[E Hr]]; rewrite E in Hm; [by apply elem_of_nil in Hm|].
    apply list_elem_of_singleton in Hm. by rewrite (Hn q p Hq Hpn Hm).
  - intros q Hq. destruct (Hk q Hq) as [|Hr]; [by left | right; by eapply recorded_mono].
Qed.

Lemma puback_ok i mid l : ln_acks l !! i = Some mid -> link_ok l ->
  link_ok (Link (filter (fun p => pk_mid p <> mid) (ln_session l)) (ln_names l) (ln_pending l) (ln_jobs l)
    (ln_shutdown l) (ln_workers l) (delete i (ln_acks l)) (ln_sink l)
        (filter (fun p => pk_mid p <> mid) (ln_sent l)) (ln_connection l)).
Proof.
  intros Hi%list_elem_of_lookup_2 [Hs Hp Hj Ht Hn Hd Ha Hk]. constructor; cbn [ln_session ln_names ln_pending ln_jobs ln_acks ln_sink]; try done.
  - intros p [_ Hin]%list_elem_of_filter. by apply Hs.
  - by apply delete_sub.
  - intros p Hin Hm. apply Ha; [done|]. revert Hm. by apply delete_sub.
  - intros p Hin. destruct (Hk p Hin) as [Hin'|]; [|by right]. destruct (decide (pk_mid p = mid)) as [<-|Hne]; [right; by apply Ha|].
    left. by apply list_elem_of_filter.
Qed.

Lemma link_step_ok l l' : link_step w cfg maxsize matches never_used l l' -> link_ok l -> link_ok l'.
Proof.
  intros Hstep Hok. destruct Hstep as [job mid l Hsub Hmid | p l Hin Hsent Hsh | i p l Hi | l | p jobs n r s' l Hjobs Hw Hrun
    | n l Hjobs Hsh Hw | i mid l Hi | l | n s' l [Hlog Hacked]].
  - by apply publish_ok.
  - destruct Hok. constructor; cbn [ln_session ln_names ln_pending ln_jobs ln_acks ln_sink]; try done. set_solver.
  - destruct Hok. constructor; cbn [ln_session ln_names ln_pending ln_jobs ln_acks ln_sink]; try done.
    + by apply delete_sub.
    + apply put_nowait_sub; [done|]. by eapply lo_pending0, list_elem_of_lookup_2.
  - by destruct Hok.
  - by eapply work_ok.
  - destruct Hok. constructor; cbn [ln_session ln_names ln_pending ln_jobs ln_acks ln_sink]; try done. set_solver.
  - by apply puback_ok.
  - destruct Hok. constructor; cbn [ln_session ln_names ln_pending ln_jobs ln_acks ln_sink]; try done; set_solver.
  - destruct Hok as [Hs Hp Hj Ht Hn Hd Ha Hk]. constructor; cbn [ln_session ln_names ln_pending ln_jobs ln_acks ln_sink]; try done; [set_solver..|].
    intros p Hin. destruct (Hk p Hin); [by left | right; by eapply recorded_mono].
Qed.

Lemma link_reachable_ok l : link_reachable w cfg maxsize matches never_used l -> link_ok l.
Proof.
  induction 1 as [n s|l l' _ IH Hstep]; [|by eapply link_step_ok].
  constructor; simpl; first [done | set_solver].
Qed.

(** *** Over one connection *)

Abbreviation step := (link_step w cfg maxsize matches never_used).

(** Sent, and neither in the process nor acknowledged. *)
Definition waiting (p : packet) (l : link) : Prop :=
  p ∈ ln_session l /\ p ∈ ln_sent l /\ (p ∉ ln_pending l ++ ln_jobs l) /\ pk_mid p ∉ ln_acks l.

Lemma connections_grow l l' : rtc step l l' -> (ln_connection l <= ln_connection l')%nat.
Proof. induction 1 as [|l y l' H _ IH]; [done|]. destruct H; simpl in *; lia. Qed.

Lemma acks_of_sub p s s' : acks_of p s s' ⊆ [pk_mid p].
Proof. unfold acks_of. case_match; set_solver. Qed.

Lemma waiting_step p l l' : link_ok l -> step l l' -> ln_connection l' = ln_connection l -> waiting p l -> waiting p l'.
Proof.
  intros Hok Hstep Hc (Hs & Hsent & Hq & Ha). apply not_elem_of_app in Hq as [Hpend Hjobs].
  destruct Hstep as [job mid l Hsub Hmid | q l Hin Hnew Hsh | i q l Hi | l | q jobs n r s' l Hj Hw Hrun
    | n l Hj Hsh Hw | i mid l Hi | l | n s' l [Hlog Hacked]]; simpl in Hc; try (exfalso; lia);
    unfold waiting; cbn [ln_session ln_names ln_pending ln_jobs ln_acks ln_sent].
  - set_solver.
  - set_solver.
  - apply list_elem_of_lookup_2 in Hi. split_and!; [done..| |done]. apply not_elem_of_app. split; [intros H; by apply (delete_sub i _ _ (reflexivity _)) in H|].
    intros H. apply (put_nowait_sub q _ (ln_pending l ++ ln_jobs l)) in H; set_solver.
  - set_solver.
  - rewrite Hj in Hjobs. split_and!; [done | done | set_solver|]. intros [H|H]%elem_of_app; [done|].
    apply acks_of_sub, list_elem_of_singleton in H. assert (p = q); [|set_solver].
    apply (lo_names l Hok); [by apply (lo_session l Hok) | apply (lo_jobs l Hok); rewrite Hj; by left | done].
  - rewrite Hj in Hjobs. set_solver.
  - apply list_elem_of_lookup_2 in Hi. assert (pk_mid p <> mid) by (by intros <-). split_and!; [by apply list_elem_of_filter..| |].
    + by apply not_elem_of_app.
    + intros H'. by apply (delete_sub i _ _ (reflexivity _)) in H'.
Qed.

End AtLeastOnce.

(** *** Runs by evaluation *)

Inductive link_act := ActPublish (job : InboundMessage) (mid : Z) | ActDeliver | ActPut | ActWork | ActPuback | ActLost | ActRestart.

(** Acts on the first unsent packet, callback, job or PUBACK there is. *)
Definition act (w : ing_world) (cfg : sink_config) (maxsize : Z) (taken : link -> list packet) (a : link_act) (l : link) : option link :=
  match a with
  | ActPublish job mid =>
      if bool_decide (mid ∈ pk_mid <$> taken l) then None
      else Some (Link (ln_session l ++ [Packet mid job]) (ln_names l ++ [Packet mid job]) (ln_pending l) (ln_jobs l)
                   (ln_shutdown l) (ln_workers l) (ln_acks l) (ln_sink l) (ln_sent l) (ln_connection l))
  | ActDeliver =>
      match filter (fun p => p ∉ ln_sent l) (ln_session l), ln_shutdown l with
      | p :: _, false => Some (Link (ln_session l) (ln_names l) (ln_pending l ++ [p]) (ln_jobs l)
                                 (ln_shutdown l) (ln_workers l) (ln_acks l) (ln_sink l) (ln_sent l ++ [p]) (ln_connection l))
      | _, _ => None
      end
  | ActPut =>
      match ln_pending l with
      | p :: ps => Some (Link (ln_session l) (ln_names l) ps (snd (put_nowait maxsize p (ln_jobs l)))
                           (ln_shutdown l) (ln_workers l) (ln_acks l) (ln_sink l) (ln_sent l) (ln_connection l))
      | [] => None
      end
  | ActWork =>
      match ln_jobs l, ln_workers l with
      | p :: jobs, S n =>
          let '(r, s') := _process_message w cfg (pk_job p) (ln_sink l) in
          Some (Link (ln_session l) (ln_names l) (ln_pending l) jobs (ln_shutdown l) (if is_ok r then S n else n)
                  (ln_acks l ++ acks_of p (ln_sink l) s') s' (ln_sent l) (ln_connection l))
      | _, _ => None
      end
  | ActPuback =>
      match ln_acks l with
      | mid :: acks => Some (Link (filter (fun p => pk_mid p <> mid) (ln_session l)) (ln_names l) (ln_pending l) (ln_jobs l)
                               (ln_shutdown l) (ln_workers l) acks (ln_sink l)
                               (filter (fun p => pk_mid p <> mid) (ln_sent l)) (ln_connection l))
      | [] => None
      end
  | ActLost => Some (Link (ln_session l) (ln_names l) (ln_pending l) (ln_jobs l) (ln_shutdown l) (ln_workers l) [] (ln_sink l)
                       [] (S (ln_connection l)))
  | ActRestart => Some (Link (ln_session l) (ln_names l) [] [] false 1 []
                          (Ing (ig_kafka (ln_sink l)) (new_breaker 5 fone) (Metrics ∅) [] 0 []) [] (S (ln_connection l)))
  end.

Fixpoint acts (w : ing_world) (cfg : sink_config) (maxsize : Z) (taken : link -> list packet) (l : list link_act) (x : link) : option link :=
  match l with [] => Some x | a :: l => x ← act w cfg maxsize taken a x; acts w cfg maxsize taken l x end.

Definition on_topic (matches : string -> string -> bool) (a : link_act) : Prop :=
  match a with ActPublish job _ => subscribed matches (im_topic job) = true | _ => True end.

Lemma act_step w cfg maxsize matches taken a l l' : on_topic matches a -> act w cfg maxsize taken a l = Some l' ->
  link_step w cfg maxsize matches (not_among taken) l l'.
Proof.
  set (may_name := not_among taken). destruct a; simpl; intros Ha.
  - case_bool_decide as Hin; [done|]. intros [= <-]. by apply link_publish.
  - destruct (filter _ _) as [|p ps] eqn:E; [done|]. destruct (ln_shutdown l) eqn:Hsh; [done|]. intros [= <-]. rewrite <- Hsh.
    assert (p ∈ filter (fun p => p ∉ ln_sent l) (ln_session l)) as [? ?]%list_elem_of_filter by (rewrite E; by left). by apply link_deliver.
  - destruct l as [? ? [|p ps] ? ? ? ? ? ? ?]; simpl; [done|]. intros [= <-].
    exact (link_put w cfg maxsize matches may_name 0 p (Link _ _ (p :: ps) _ _ _ _ _ _ _) eq_refl).
  - destruct l as [? ? ? [|p jobs] ? [|n] ? ? ? ?]; simpl; try done. destruct (_process_message _ _ _ _) as [r s'] eqn:E. intros [= <-].
    by eapply (link_work w cfg maxsize matches may_name p jobs n r s' (Link _ _ _ (p :: jobs) _ (S n) _ _ _ _)).
  - destruct l as [? ? ? ? ? ? [|mid acks] ? ? ?]; simpl; [done|]. intros [= <-].
    exact (link_puback w cfg maxsize matches may_name 0 mid (Link _ _ _ _ _ _ (mid :: acks) _ _ _) eq_refl).
  - intros [= <-]. apply link_lost.
  - intros [= <-]. by apply link_restart.
Qed.

Lemma acts_steps w cfg maxsize matches taken l x x' : Forall (on_topic matches) l -> acts w cfg maxsize taken l x = Some x' ->
  rtc (link_step w cfg maxsize matches (not_among taken)) x x'.
Proof.
  intros Hl. revert x. induction Hl as [|a l Ha _ IH]; intros x; simpl; [by intros [= <-]|].
  destruct (act _ _ _ _ a x) as [y|] eqn:E; simpl; [|done]. intros H. eapply rtc_l; [by eapply act_step | by apply IH].
Qed.

Lemma acts_reachable w cfg maxsize matches taken l x x' : Forall (on_topic matches) l ->
  link_reachable w cfg maxsize matches (not_among taken) x -> acts w cfg maxsize taken l x = Some x' ->
  link_reachable w cfg maxsize matches (not_among taken) x'.
Proof.
  intros Hl Hx H%(acts_steps _ _ _ _ _ _ _ _ Hl). induction H as [|x y x' Hstep _ IH]; [done|]. apply IH. by eapply link_more.
Qed.

(** ** Theorems *)


#[export] Instance standard_matching : MqttMatching (fun f t => levels_match (levels f) (levels t)).
Proof. by intros f t _ _. Qed.

Definition demo_topic : string := "factory/f/machine/m/sensor/s/telemetry".
Definition demo_job (payload : string) : InboundMessage := mkInboundMessage demo_topic payload.
Definition demo_link : link := Link [] [] [] [] false 1 [] demo_ing [] 0.

Lemma demo_acks_all : acks_all (w_broker (demo_world (fun _ => demo_delivery))).
Proof. by apply delivers_acks. Qed.





(** [C23] Topics.  Every topic the simulator publishes on for a catalog entry meets
    exactly one of ingestion's subscriptions, that of its kind.  And whatever
    topic a subscription lets in, the worker's dispatch on the end of the topic
    takes it for the kind of that subscription and for no other: the branch
    that acknowledges an unknown topic unread is never taken. *)
Theorem topics_meet_subscriptions (matches : string -> string -> bool) (e : SensorCatalogEntry) (topic : string) :
  MqttMatching matches -> entry_ok e ->
  filter (fun f => matches f (telemetry_topic e) = true) subscriptions = [telemetry_filter] /\
  filter (fun f => matches f (status_topic e) = true) subscriptions = [status_filter] /\
  filter (fun f => matches f (events_topic e) = true) subscriptions = [events_filter] /\
  (matches telemetry_filter topic = true -> endswith topic "/telemetry" = true) /\
  (matches status_filter topic = true -> endswith topic "/telemetry" = false /\ endswith topic "/status" = true) /\
  (matches events_filter topic = true ->
     endswith topic "/telemetry" = false /\ endswith topic "/status" = false /\ endswith topic "/events" = true).
Proof.
  intros Hm He. assert (Hlv : forall t, filter (fun f => matches f t = true) subscriptions =
    filter (fun f => levels_match (levels f) (levels t) = true) subscriptions).
  { intros t. apply filter_ext_in. intros f Hf. by rewrite filter_levels. }
  rewrite !Hlv, telemetry_levels by done. unfold status_topic, events_topic.
  change "/status" with (String "/" "status"). change "/events" with (String "/" "events"). rewrite !machine_levels by done.
  split_and!; [by vm_compute..| | |]; intros Ht.
  - by apply telemetry_ending in Ht.
  - apply status_ending in Ht; [|done]. split; [|done]. destruct (endswith topic "/telemetry") eqn:E; [|done].
    apply (proj1 (one_ending topic)) in E as [E _]. congruence.
  - apply events_ending in Ht; [|done]. destruct (one_ending topic) as [H1 H2]. split_and!; [| |done].
    + destruct (endswith topic "/telemetry") eqn:E; [|done]. destruct (H1 eq_refl). congruence.
    + destruct (endswith topic "/status") eqn:E; [|done]. specialize (H2 eq_refl). congruence.
Qed.

Lemma topics_meet_subscriptions_witness :
  let matches := fun f t => levels_match (levels f) (levels t) in
  filter (fun f => matches f (telemetry_topic demo_entry) = true) subscriptions = [telemetry_filter] /\
  filter (fun f => matches f (status_topic demo_entry) = true) subscriptions = [status_filter] /\
  filter (fun f => matches f (events_topic demo_entry) = true) subscriptions = [events_filter] /\
  (matches telemetry_filter demo_topic = true -> endswith demo_topic "/telemetry" = true) /\
  (matches status_filter demo_topic = true -> endswith demo_topic "/telemetry" = false /\ endswith demo_topic "/status" = true) /\
  (matches events_filter demo_topic = true ->
     endswith demo_topic "/telemetry" = false /\ endswith demo_topic "/status" = false /\ endswith demo_topic "/events" = true).
Proof.
  apply (topics_meet_subscriptions (fun f t => levels_match (levels f) (levels t)) demo_entry demo_topic); [apply _ | apply demo_entry_ok].
Defined.
