(* ===== verification/Process.v ===== *)
(** A service as an operating-system process: [main] as a program over the calls
    it makes (constructors, threads, the shutdown event, joins), the threads it
    starts, the signal handler and the queue the workers share, interleaved by a
    step relation.  The theorems of [Lifecycle] on when a process exits, and with
    what still open, follow from three checks on the program of [main]. *)

From stdpp Require Import prelude strings list.
From Stdlib Require Import Lia.
From S2P Require Import Prelude PyFloat Effects.

(** ** Programs *)

Inductive cmd :=
  (** a call that returns, answers a bool, or raises *)
  | Call (what : string)
  (** the constructor of a resource, and its [close] *)
  | Open (r : string)
  | Close (r : string)
  (** [signal.signal] for SIGINT and SIGTERM *)
  | OnSignal
  | Start (t : string)
  | Join (t : string)
  (** [shutdown_event.wait()] and [shutdown_event.set()] *)
  | WaitEvent
  | SetEvent
  (** a server that returns when a signal came *)
  | Serve
  (** a loop that [main] itself runs until the event is set *)
  | RunLoop (t : string).

Inductive prog :=
  | Return
  | Throw (e : exn)
  | Do (c : cmd) (k : res bool -> prog).

Definition sys_exit : prog := Throw (OtherError "SystemExit" "1").

(** A statement: what it raises leaves [main]. *)
Definition stmt (c : cmd) (p : prog) : prog :=
  Do c (fun r => match r with Ok _ => p | Raise e => Throw e end).

(** [try: c except caught: sys.exit(1)], then [p]. *)
Definition or_exit (caught : exn -> bool) (c : cmd) (p : prog) : prog :=
  Do c (fun r => match r with Ok _ => p | Raise e => if caught e then sys_exit else Throw e end).

(** [if not c: sys.exit(1)], then [p]. *)
Definition require (c : cmd) (p : prog) : prog :=
  Do c (fun r => match r with Ok b => if (b : bool) then p else sys_exit | Raise e => Throw e end).

Definition stmts (cs : list cmd) (p : prog) : prog := foldr stmt p cs.

Fixpoint raise_after (e : exn) (f : prog) : prog :=
  match f with
  | Return => Throw e
  | Throw e' => Throw e'
  | Do c k => Do c (fun r => raise_after e (k r))
  end.

(** [try: p finally: f]. *)
Fixpoint finally (p f : prog) : prog :=
  match p with
  | Return => f
  | Throw e => raise_after e f
  | Do c k => Do c (fun r => finally (k r) f)
  end.

Declare Scope prog_scope.
Delimit Scope prog_scope with prog.
Infix ">>" := stmt (at level 60, right associativity) : prog_scope.

(** ** Processes *)

(** What [main] runs, whether the handlers it installs set the shutdown event,
    whether a callback thread fills a queue, which threads are workers on that
    queue, and what one round of a thread's loop can end in. *)
Record service := Service {
  sv_main : prog;
  sv_sets_event : bool;
  sv_queue : bool;
  sv_worker : string -> bool;
  sv_body : string -> res unit -> Prop
}.

Inductive status := Running | Ended (r : res unit).

Record process := Process {
  pr_main : prog;
  (** the handlers are installed; a signal came; [shutdown_event] *)
  pr_handler : bool; pr_signalled : bool; pr_event : bool;
  (** the threads that are not daemons, in the order they were started *)
  pr_threads : list (string * status);
  (** jobs in the queue; callbacks that are past their check of the event *)
  pr_jobs : nat; pr_puts : nat;
  (** resources that are open *)
  pr_open : list string;
  (** what [main] did, and how it went *)
  pr_log : list (cmd * res bool)
}.

Definition launched (sv : service) : process := Process (sv_main sv) false false false [] 0 0 [] [].

Definition set_main (m : prog) (p : process) : process :=
  Process m (pr_handler p) (pr_signalled p) (pr_event p) (pr_threads p) (pr_jobs p) (pr_puts p) (pr_open p) (pr_log p).
Definition set_event (p : process) : process :=
  Process (pr_main p) (pr_handler p) (pr_signalled p) true (pr_threads p) (pr_jobs p) (pr_puts p) (pr_open p) (pr_log p).
Definition set_handler (p : process) : process :=
  Process (pr_main p) true (pr_signalled p) (pr_event p) (pr_threads p) (pr_jobs p) (pr_puts p) (pr_open p) (pr_log p).
Definition set_signalled (p : process) : process :=
  Process (pr_main p) (pr_handler p) true (pr_event p) (pr_threads p) (pr_jobs p) (pr_puts p) (pr_open p) (pr_log p).
Definition set_threads (ts : list (string * status)) (p : process) : process :=
  Process (pr_main p) (pr_handler p) (pr_signalled p) (pr_event p) ts (pr_jobs p) (pr_puts p) (pr_open p) (pr_log p).
Definition set_queue (jobs puts : nat) (p : process) : process :=
  Process (pr_main p) (pr_handler p) (pr_signalled p) (pr_event p) (pr_threads p) jobs puts (pr_open p) (pr_log p).
Definition set_open (rs : list string) (p : process) : process :=
  Process (pr_main p) (pr_handler p) (pr_signalled p) (pr_event p) (pr_threads p) (pr_jobs p) (pr_puts p) rs (pr_log p).
Definition log_cmd (c : cmd) (r : res bool) (p : process) : process :=
  Process (pr_main p) (pr_handler p) (pr_signalled p) (pr_event p) (pr_threads p) (pr_jobs p) (pr_puts p) (pr_open p)
    (pr_log p ++ [(c, r)]).

Definition ended (st : status) : bool := match st with Ended _ => true | Running => false end.

(** Thread [t] was started, and every thread of that name has ended. *)
Definition joinable (t : string) (p : process) : bool :=
  forallb (fun x => negb (bool_decide (fst x = t)) || ended (snd x)) (pr_threads p).

Section Steps.
  Variable sv : service.

(** What a call of [main] can answer now; no answer is a call that blocks. *)
Definition answers (p : process) (c : cmd) (r : res bool) : Prop :=
  match c with
  | Call _ | Open _ | Close _ => True
  | OnSignal | Start _ | SetEvent => r = Ok true
  | Join t =>
      if bool_decide (t ∈ (pr_threads p).*1) then joinable t p = true /\ r = Ok true
      else r = Raise (RuntimeError "cannot join thread before it is started")
  | WaitEvent => pr_event p = true /\ r = Ok true
  | Serve => pr_signalled p = true /\ r = Ok true
  | RunLoop t => (pr_event p = true /\ r = Ok true) \/ exists e, sv_body sv t (Raise e) /\ r = Raise e
  end.

(** What it does to the process. *)
Definition effect (c : cmd) (r : res bool) (p : process) : process :=
  match c, r with
  | OnSignal, _ => set_handler p
  | Open x, Ok _ => set_open (x :: pr_open p) p
  | Close x, _ => set_open (filter (fun y => y <> x) (pr_open p)) p
  | Start t, Ok _ => set_threads (pr_threads p ++ [(t, Running)]) p
  | SetEvent, _ => set_event p
  | _, _ => p
  end.

(** The jobs left when a round of thread [t] begins: a worker takes one. *)
Definition takes (t : string) (before after : nat) : Prop :=
  if sv_worker sv t then before = S after else after = before.

(** One step of [main], of the signal handler, of a thread, or of the callback.
    A thread's loop checks the event (a worker: the event and the queue) between
    two rounds; a round that changes nothing of the above is no step.  A callback
    checks the event first and puts its job later, or finds the queue full. *)
Inductive step : process -> process -> Prop :=
  | step_main c k r p :
      pr_main p = Do c k -> answers p c r -> step p (set_main (k r) (log_cmd c r (effect c r p)))
  | step_signal p :
      pr_handler p = true -> pr_signalled p = false ->
      step p (set_signalled (if sv_sets_event sv then set_event p else p))
  | step_works i t jobs p :
      pr_threads p !! i = Some (t, Running) -> sv_worker sv t = true -> pr_jobs p = S jobs ->
      sv_body sv t (Ok tt) -> step p (set_queue jobs (pr_puts p) p)
  | step_dies i t e jobs p :
      pr_threads p !! i = Some (t, Running) -> sv_body sv t (Raise e) -> takes t (pr_jobs p) jobs ->
      step p (set_queue jobs (pr_puts p) (set_threads (<[i := (t, Ended (Raise e))]> (pr_threads p)) p))
  | step_returns i t p :
      pr_threads p !! i = Some (t, Running) -> pr_event p = true -> (sv_worker sv t = true -> pr_jobs p = 0) ->
      step p (set_threads (<[i := (t, Ended (Ok tt))]> (pr_threads p)) p)
  | step_callback n p :
      sv_queue sv = true -> pr_event p = false -> step p (set_queue (pr_jobs p) (S n + pr_puts p) p)
  | step_put puts p :
      pr_puts p = S puts -> step p (set_queue (S (pr_jobs p)) puts p)
  | step_full puts p :
      pr_puts p = S puts -> step p (set_queue (pr_jobs p) puts p).

Inductive reachable : process -> Prop :=
  | reach_launched : reachable (launched sv)
  | reach_step p p' : reachable p -> step p p' -> reachable p'.

(** [P] is reached whatever steps are taken, and no run ends before. *)
Inductive inevitably (P : process -> Prop) : process -> Prop :=
  | inev_now p : P p -> inevitably P p
  | inev_later p : (exists p', step p p') -> (forall p', step p p' -> inevitably P p') -> inevitably P p.

End Steps.

Definition main_ended (m : prog) : bool := match m with Return | Throw _ => true | Do _ _ => false end.

(** The interpreter exits when [main] is over and no thread that is not a daemon
    is left; its code is that of [main]. *)
Definition exited (p : process) : bool := main_ended (pr_main p) && forallb (fun x => ended (snd x)) (pr_threads p).
Definition exit_code (p : process) : option Z :=
  if exited p then match pr_main p with Return => Some 0%Z | _ => Some 1%Z end else None.

(** Every call of [main] went well. *)
Definition uneventful (p : process) : Prop := Forall (fun x => snd x = Ok true) (pr_log p).

(** ** Checks on a program *)

(** After a signal [main] reaches [SetEvent] before it waits for a thread
    ([event]: it is set; [started]: there is a thread). *)
Fixpoint signal_safe (event started : bool) (p : prog) : Prop :=
  match p with
  | Return | Throw _ => event = true \/ started = false
  | Do c k =>
      match c with
      | SetEvent => signal_safe true started (k (Ok true))
      | Start _ => signal_safe event true (k (Ok true))
      | OnSignal | Serve => signal_safe event started (k (Ok true))
      | Join _ | WaitEvent | RunLoop _ => event = true /\ forall r, signal_safe event started (k r)
      | Call _ | Open _ | Close _ => forall r, signal_safe event started (k r)
      end
  end.

(** Nothing is closed before the threads in [live] were joined, and no thread is
    started after. *)
Fixpoint joins_first (closing : bool) (live : list string) (p : prog) : Prop :=
  match p with
  | Return | Throw _ => True
  | Do c k =>
      match c with
      | Start t => closing = false /\ joins_first closing (t :: live) (k (Ok true))
      | Join t => joins_first closing (filter (fun u => u <> t) live) (k (Ok true)) /\
                  forall e, joins_first closing live (k (Raise e))
      | Close _ => live = [] /\ forall r, joins_first true live (k r)
      | _ => forall r, joins_first closing live (k r)
      end
  end.

(** When every call goes well, [main] returns with nothing left open. *)
Fixpoint closes_all (opened : list string) (p : prog) : Prop :=
  match p with
  | Return => opened = []
  | Throw _ => False
  | Do c k =>
      closes_all (match c with
                  | Open x => x :: opened
                  | Close x => filter (fun y => y <> x) opened
                  | _ => opened
                  end) (k (Ok true))
  end.

(** [main] itself never sets the event. *)
Fixpoint never_sets (p : prog) : Prop :=
  match p with
  | Return | Throw _ => True
  | Do SetEvent _ => False
  | Do _ k => forall r, never_sets (k r)
  end.

(** ** Every process that was signalled exits *)

Fixpoint running (ts : list (string * status)) : nat :=
  match ts with [] => 0 | x :: ts => (if ended (snd x) then 0 else 1) + running ts end.

Lemma running_ends ts i t r : ts !! i = Some (t, Running) -> running ts = S (running (<[i := (t, Ended r)]> ts)).
Proof.
  revert i. induction ts as [|x ts IH]; intros [|i] Hi; simplify_eq/=; [done|].
  rewrite (IH i Hi). simpl. lia.
Qed.

Lemma some_running (ts : list (string * status)) : forallb (fun x => ended (snd x)) ts = false -> exists i t, ts !! i = Some (t, Running).
Proof.
  induction ts as [|[t [|r]] ts IH]; simpl; [done | by exists 0, t |].
  intros (i & u & Hi)%IH. by exists (S i), u.
Qed.

Lemma not_joinable t p : joinable t p = false -> exists i u, pr_threads p !! i = Some (u, Running).
Proof.
  unfold joinable. induction (pr_threads p) as [|[u [|r]] ts IH]; simpl; [done | by exists 0, u |].
  rewrite orb_true_r. intros (i & v & Hi)%IH. by exists (S i), v.
Qed.

(** The check does not mind an event that is set early. *)
Lemma signal_safe_set event started m : signal_safe event started m -> signal_safe true started m.
Proof.
  revert event started. induction m as [|e|c k IH]; intros event started Hm; simpl in *; [by left | by left |].
  destruct c; simpl in *.
  all: match type of Hm with
       | _ /\ _ => destruct Hm as [_ Hm]; split; [done | intros a; eapply IH; exact (Hm a)]
       | forall _, _ => intros a; eapply IH; exact (Hm a)
       | _ => eapply IH; exact Hm
       end.
Qed.

Section Termination.
  Context (sv : service).
  (** A round of a worker ends, one way or another. *)
  Hypothesis body_ends : forall t, sv_worker sv t = true -> exists r, sv_body sv t r.

(** A signal came, and it stopped what feeds the queue. *)
Definition stopping (p : process) : Prop := pr_signalled p = true /\ (pr_event p = true \/ sv_queue sv = false).

(** What the threads and callbacks have left. *)
Definition work_left (p : process) : nat := 2 * pr_jobs p + 3 * pr_puts p + running (pr_threads p).

Lemma step_consumes p p' : stopping p -> step sv p p' ->
  stopping p' /\ ((exists c k r, pr_main p = Do c k /\ pr_main p' = k r) \/
                  (pr_main p' = pr_main p /\ work_left p' < work_left p)).
Proof.
  intros [Hs He] Hstep.
  assert (Hsame : forall p1, pr_signalled p1 = true -> (pr_event p = true -> pr_event p1 = true) -> stopping p1).
  { intros p1 Hs1 He1. split; [done|]. destruct He as [He|He]; [left; by apply He1 | by right]. }
  assert (Hless : forall p1, pr_main p1 = pr_main p -> pr_signalled p1 = pr_signalled p -> pr_event p1 = pr_event p ->
    work_left p1 < work_left p -> stopping p1 /\ ((exists c k r, pr_main p = Do c k /\ pr_main p1 = k r) \/
      (pr_main p1 = pr_main p /\ work_left p1 < work_left p))).
  { intros p1 E1 E2 E3 Hlt. split; [apply Hsame; congruence | by right]. }
  destruct Hstep as [c k r p Hm Ha | p Hh Hn | i t j p Hi Hw Hj Hb | i t e j p Hi Hb Ht | i t p Hi Hv Hw
    | n p Hq Hv | n p Hp | n p Hp].
  - split; [apply Hsame; by destruct c, r | left; by exists c, k, r].
  - by rewrite Hn in Hs.
  - apply Hless; [done..|]. unfold work_left. simpl. lia.
  - apply Hless; [done..|]. unfold work_left, takes in *. simpl. rewrite (running_ends _ _ _ (Raise e) Hi).
    destruct (sv_worker sv t); lia.
  - apply Hless; [done..|]. unfold work_left. simpl. rewrite (running_ends _ _ _ (Ok tt) Hi). lia.
  - destruct He as [He|He]; by rewrite He in *.
  - apply Hless; [done..|]. unfold work_left. simpl. lia.
  - apply Hless; [done..|]. unfold work_left. simpl. lia.
Qed.

(** A running thread takes a step once the event is set. *)
Lemma thread_moves i t p : pr_event p = true -> pr_threads p !! i = Some (t, Running) -> exists p', step sv p p'.
Proof.
  intros He Hi. destruct (sv_worker sv t) eqn:Hw.
  - destruct (pr_jobs p) as [|j] eqn:Hj; [eexists; by eapply step_returns|].
    destruct (body_ends t Hw) as [[[]|e] Hb].
    + eexists. by eapply step_works.
    + eexists. eapply step_dies; [done | exact Hb|]. unfold takes. by rewrite Hw.
  - eexists. eapply step_returns; [done | done | congruence].
Qed.

(** Nothing blocks a process that is stopping. *)
Lemma stopping_moves p : stopping p ->
  (pr_event p = true \/ signal_safe (pr_event p) (bool_decide (pr_threads p <> [])) (pr_main p)) ->
  exited p = true \/ exists p', step sv p p'.
Proof.
  intros [Hs _] Hsafe.
  assert (Hrun : forall i t, pr_threads p !! i = Some (t, Running) -> pr_event p = true -> exited p = true \/ exists p', step sv p p')
    by (intros; right; by eapply thread_moves).
  destruct (pr_main p) as [|e|c k] eqn:Hm.
  1-2: unfold exited in *; rewrite Hm in *; simpl in *; destruct (forallb _ _) eqn:Hf; [by left|];
    destruct (some_running _ Hf) as (i & t & Hi); apply (Hrun i t Hi);
    destruct Hsafe as [? | [? | Hn%bool_decide_eq_false]]; [done | done |];
    exfalso; apply Hn; intros E; by rewrite E in Hi.
  assert (Hgo : forall r, answers sv p c r -> exited p = true \/ exists p', step sv p p')
    by (intros r Hr; right; eexists; by eapply step_main).
  destruct c as [| | | | |t| | | |t]; try (by apply (Hgo (Ok true))).
  - assert (He : pr_event p = true) by (destruct Hsafe as [?|[? _]]; done).
    destruct (decide (t ∈ (pr_threads p).*1)) as [Ht|Ht].
    + destruct (joinable t p) eqn:Hj; [|destruct (not_joinable _ _ Hj) as (i & u & Hi); by apply (Hrun i u)].
      apply (Hgo (Ok true)). simpl. by rewrite bool_decide_eq_true_2.
    + eapply Hgo. simpl. by rewrite bool_decide_eq_false_2.
  - assert (He : pr_event p = true) by (destruct Hsafe as [?|[? _]]; done). by apply (Hgo (Ok true)).
  - assert (He : pr_event p = true) by (destruct Hsafe as [?|[? _]]; done). apply (Hgo (Ok true)). by left.
Qed.

(** The two ways a service reacts to a signal: its handlers set the event, or a
    server returns and [main] sets it. *)
Hypothesis reacts : sv_sets_event sv = true \/ (sv_queue sv = false /\ signal_safe false false (sv_main sv)).

Lemma reaction p : reachable sv p ->
  (sv_sets_event sv = true /\ (pr_signalled p = true -> pr_event p = true)) \/
  (sv_queue sv = false /\ signal_safe (pr_event p) (bool_decide (pr_threads p <> [])) (pr_main p)).
Proof.
  induction 1 as [|p p' _ IH Hstep].
  { destruct reacts as [?|?]; [left; by split | by right]. }
  assert (Hth : forall i t r, bool_decide (<[i := (t, Ended r)]> (pr_threads p) <> []) = bool_decide (pr_threads p <> [])).
  { intros i t r. apply bool_decide_ext. destruct (pr_threads p), i; done. }
  destruct IH as [[Hd IH]|[Hq IH]]; [left | right]; (split; [done|]).
  - destruct Hstep as [c k r p Hm Ha | p Hh Hn | i t j p Hi Hw Hj Hb | i t e j p Hi Hb Ht | i t p Hi Hv Hw
      | n p Hqq Hv | n p Hp | n p Hp]; simpl; try done.
    + destruct c, r; simpl; done.
    + by rewrite Hd.
  - destruct Hstep as [c k r p Hm Ha | p Hh Hn | i t j p Hi Hw Hj Hb | i t e j p Hi Hb Ht | i t p Hi Hv Hw
      | n p Hqq Hv | n p Hp | n p Hp]; simpl; rewrite ?Hth; try done.
    + rewrite Hm in IH. simpl in IH. destruct c; simpl in *; subst; simpl;
        first [ apply IH | destruct r; apply IH | destruct Ha as [_ ->]; apply IH | idtac ].
      replace (bool_decide _) with true; [done|]. symmetry. apply bool_decide_eq_true. by destruct (pr_threads p).
    + destruct (sv_sets_event sv); simpl; [by apply signal_safe_set with (pr_event p) | done].
Qed.

Theorem signalled_exits p : reachable sv p -> pr_signalled p = true -> inevitably sv (fun q => exited q = true /\ reachable sv q) p.
Proof.
  intros Hr Hs.
  assert (Hstop : stopping p) by (split; [done|]; destruct (reaction p Hr) as [[_ H]|[H _]]; auto).
  clear Hs. remember (pr_main p) as m eqn:Hm. revert p Hr Hstop Hm.
  induction m as [|e|c k IHm]; intros p Hr Hstop Hm; remember (work_left p) as n eqn:Hn; revert p Hr Hstop Hm Hn;
    induction n as [n IHn] using lt_wf_ind; intros p Hr Hstop Hm Hn.
  all: assert (Hmv : exited p = true \/ exists p', step sv p p')
    by (apply stopping_moves; [done|]; destruct (reaction p Hr) as [[_ H]|[_ H]]; [left; apply H, Hstop | by right]).
  all: destruct (exited p) eqn:Hx; [by apply inev_now|]; apply inev_later; [naive_solver|]; intros p' Hstep;
    destruct (step_consumes p p' Hstop Hstep) as [Hstop' [(c' & k' & r & Hc & Hm') | [Hm' Hlt]]];
    [| eapply (IHn (work_left p')); [lia | by eapply reach_step | done | congruence | done]].
  1-2: congruence.
  rewrite Hc in Hm. injection Hm as -> ->. eapply IHm; [by eapply reach_step | done | done].
Qed.

End Termination.

(** ** What is open, and who still runs *)

Section Invariants.
  Context (sv : service).

(** A step is one of [main], or only ends threads. *)
Lemma step_cases p p' : step sv p p' ->
  (exists c k r, pr_main p = Do c k /\ answers sv p c r /\ p' = set_main (k r) (log_cmd c r (effect c r p))) \/
  (pr_main p' = pr_main p /\ pr_log p' = pr_log p /\ pr_open p' = pr_open p /\
   forall t, (t, Running) ∈ pr_threads p' -> (t, Running) ∈ pr_threads p).
Proof.
  assert (Hins : forall i u r (ts : list (string * status)) t, (t, Running) ∈ <[i := (u, Ended r)]> ts -> (t, Running) ∈ ts).
  { intros i u r ts t (j & Hj)%list_elem_of_lookup. apply list_lookup_insert_Some in Hj as [(_ & [=] & _)|[_ Hj]].
    by eapply list_elem_of_lookup_2. }
  destruct 1 as [c k r p Hm Ha | p Hh Hn | i t j p Hi Hw Hj Hb | i t e j p Hi Hb Ht | i t p Hi Hv Hw
    | n p Hq Hv | n p Hp | n p Hp]; [left; by exists c, k, r | right; split_and!; simpl; try done..].
  1-4: by destruct (sv_sets_event sv).
  all: apply Hins.
Qed.

(** *** Joined before closed *)

Definition joined_so_far (p : process) : Prop := exists closing live,
  joins_first closing live (pr_main p) /\ (forall t, (t, Running) ∈ pr_threads p -> t ∈ live) /\
  (closing = true -> live = []) /\ (forall x r, (Close x, r) ∈ pr_log p -> closing = true).

Lemma joined_invariant p : joins_first false [] (sv_main sv) -> reachable sv p -> joined_so_far p.
Proof.
  intros Hmain. induction 1 as [|p p' _ IH Hstep].
  { exists false, []. split_and!; [done | by intros t Ht%elem_of_nil | done | by intros x r Hx%elem_of_nil]. }
  destruct IH as (closing & live & Hj & Hl & Hc & Hlog).
  destruct (step_cases _ _ Hstep) as [(c & k & r & Hm & Ha & ->) | (Hm & Hlg & _ & Hth)].
  2: { exists closing, live. rewrite Hm, Hlg. split_and!; auto. }
  rewrite Hm in Hj.
  assert (Hnew : forall cl lv, joins_first cl lv (k r) -> (forall t, (t, Running) ∈ pr_threads (effect c r p) -> t ∈ lv) ->
    (cl = true -> lv = []) -> (closing = true -> cl = true) -> (forall x, c = Close x -> cl = true) ->
    joined_so_far (set_main (k r) (log_cmd c r (effect c r p)))).
  { intros cl lv H1 H2 H3 H4 H5. exists cl, lv. split_and!; [done..|]. simpl.
    intros x r' Hx. replace (pr_log (effect c r p)) with (pr_log p) in Hx by (by destruct c, r).
    apply elem_of_app in Hx as [Hx|Hx%list_elem_of_singleton]; [apply H4; by eapply Hlog | injection Hx as <- <-; by eapply H5]. }
  assert (Hkeep : joins_first closing live (k r) -> pr_threads (effect c r p) = pr_threads p -> (forall x, c <> Close x) ->
    joined_so_far (set_main (k r) (log_cmd c r (effect c r p)))).
  { intros H1 H2 H3. apply (Hnew closing live); [done | by rewrite H2 | done..|]. intros x ->. by destruct (H3 x). }
  destruct c as [what|x|x| |t|t| | | |t]; simpl in Hj, Ha; try (apply Hkeep; [apply Hj | by destruct r | done]).
  - destruct Hj as [-> Hj]. apply (Hnew true []); [apply Hj | intros t Ht; apply Hl; by destruct r | done..].
  - subst r. destruct Hj as [-> Hj]. apply (Hnew false (t :: live)); [done | | done..].
    simpl. intros u Hu. apply elem_of_cons. apply elem_of_app in Hu as [Hu|Hu%list_elem_of_singleton];
      [right; by apply Hl | left; congruence].
  - destruct Hj as [Hj Hje]. case_bool_decide; [destruct Ha as [Ha ->] | subst r; apply Hkeep; [apply Hje | done..]].
    apply (Hnew closing (filter (fun u => u <> t) live)); [done | | | done..].
    + simpl. intros u Hu. apply list_elem_of_filter. split; [|by apply Hl]. intros ->.
      unfold joinable in Ha. rewrite forallb_forall in Ha. apply list_elem_of_In in Hu. specialize (Ha _ Hu). simpl in Ha.
      by rewrite bool_decide_eq_true_2 in Ha.
    + intros ->. by rewrite Hc.
Qed.

Theorem closed_after_joined p x r : joins_first false [] (sv_main sv) -> reachable sv p ->
  (Close x, r) ∈ pr_log p -> forall t st, (t, st) ∈ pr_threads p -> ended st = true.
Proof.
  intros Hmain Hr Hx t [|o] Ht; [|done]. destruct (joined_invariant p Hmain Hr) as (cl & lv & _ & Hl & Hc & Hlog).
  apply Hl in Ht. rewrite Hc in Ht by (by eapply Hlog). by apply elem_of_nil in Ht.
Qed.

(** *** Closed at the end *)

Lemma closes_invariant p : closes_all [] (sv_main sv) -> reachable sv p -> uneventful p -> closes_all (pr_open p) (pr_main p).
Proof.
  intros Hmain. induction 1 as [|p p' _ IH Hstep]; intros Hu; [done|].
  destruct (step_cases _ _ Hstep) as [(c & k & r & Hm & Ha & ->) | (Hm & Hlg & Ho & _)].
  2: { rewrite Hm, Ho. apply IH. unfold uneventful. by rewrite <- Hlg. }
  assert (Hu' : uneventful p /\ r = Ok true).
  { unfold uneventful in Hu. simpl in Hu. replace (pr_log (effect c r p)) with (pr_log p) in Hu by (by destruct c, r).
    apply Forall_app in Hu as [Hu Hr]. split; [done|]. rewrite Forall_singleton in Hr. exact Hr. }
  destruct Hu' as [Hu' ->]. specialize (IH Hu'). rewrite Hm in IH. by destruct c.
Qed.

Theorem uneventful_exit p : closes_all [] (sv_main sv) -> reachable sv p -> exited p = true -> uneventful p ->
  exit_code p = Some 0%Z /\ pr_open p = [].
Proof.
  intros Hmain Hr Hx Hu. pose proof (closes_invariant p Hmain Hr Hu) as Hc. unfold exit_code. rewrite Hx.
  apply andb_prop in Hx as [Hx _]. by destruct (pr_main p).
Qed.

(** *** No exit without a signal *)

Definition waiting (p : process) : Prop :=
  pr_signalled p = false -> pr_event p = false /\
  forall t st, (t, st) ∈ pr_threads p -> st = Running \/ exists e, st = Ended (Raise e) /\ sv_body sv t (Raise e).

Lemma waiting_invariant p : never_sets (sv_main sv) -> reachable sv p -> never_sets (pr_main p) /\ waiting p.
Proof.
  intros Hmain. induction 1 as [|p p' _ [IHm IH] Hstep].
  { split; [done|]. intros _. split; [done|]. by intros t st Ht%elem_of_nil. }
  assert (Hrest : forall p1 : process, pr_main p1 = pr_main p -> (pr_signalled p1 = false -> pr_signalled p = false) ->
     (pr_event p = false -> pr_event p1 = false) -> pr_threads p1 = pr_threads p -> never_sets (pr_main p1) /\ waiting p1).
  { intros p1 E1 E2 E3 E4. rewrite E1. split; [done|]. intros Hs. destruct (IH (E2 Hs)) as [He Ht]. rewrite E4. auto. }
  assert (Hdie : forall i t e, pr_threads p !! i = Some (t, Running) -> sv_body sv t (Raise e) -> waiting p ->
    forall u st, (u, st) ∈ <[i := (t, Ended (Raise e))]> (pr_threads p) -> pr_signalled p = false ->
      st = Running \/ exists e, st = Ended (Raise e) /\ sv_body sv u (Raise e)).
  { intros i t e Hi Hb Hw u st Hin Hs. apply list_elem_of_lookup in Hin as (j & Hj).
    apply list_lookup_insert_Some in Hj as [(_ & [= <- <-] & _)|[_ Hj]]; [right; by exists e|].
    eapply Hw; [done | by eapply list_elem_of_lookup_2]. }
  destruct Hstep as [c k r p Hm Ha | p Hh Hn | i t j p Hi Hw Hj Hb | i t e j p Hi Hb Ht | i t p Hi Hv Hw
    | n p Hq Hv | n p Hp | n p Hp]; try (by apply Hrest).
  - rewrite Hm in IHm. split; [destruct c; simpl; done|].
    intros Hs. assert (Hs' : pr_signalled p = false) by (by destruct c, r). destruct (IH Hs') as [He Ht].
    destruct c, r; simpl in *; try done. split; [done|].
    intros u st [Hu|[= -> ->]%list_elem_of_singleton]%elem_of_app; [by apply Ht | by left].
  - split; [by destruct (sv_sets_event sv)|]. done.
  - split; [done|]. intros Hs. split; [by apply IH|]. simpl. intros u st Hin. by eapply Hdie.
  - split; [done|]. intros Hs. simpl in *. destruct (IH Hs) as [He _]. by rewrite He in Hv.
Qed.

(** What a thread promises: no round of its loop ends it. *)
Class Survives (t : string) : Prop := survives e : ~ sv_body sv t (Raise e).

Theorem no_exit_unsignalled p t `{!Survives t} : never_sets (sv_main sv) -> reachable sv p -> pr_signalled p = false ->
  t ∈ (pr_threads p).*1 -> exited p = false /\ (t, Running) ∈ pr_threads p.
Proof.
  intros Hmain Hr Hs ([t' st] & -> & Hin)%list_elem_of_fmap. simpl in *.
  destruct (waiting_invariant p Hmain Hr) as [_ Hw]. destruct (Hw Hs) as [_ Ht].
  destruct (Ht t' st Hin) as [->|(e & -> & Hb)]; [|by destruct (survives e)]. split; [|done].
  unfold exited. apply andb_false_iff. right. apply not_true_is_false. intros Hall. rewrite forallb_forall in Hall.
  apply list_elem_of_In in Hin. by specialize (Hall _ Hin).
Qed.

End Invariants.

(** ** Driving [main] *)

(** Commands that never block. *)
Definition immediate (c : cmd) : bool :=
  match c with Call _ | Open _ | Close _ | OnSignal | Start _ | SetEvent => true | _ => false end.

(** The next [n] commands of [main], all of which go well; [None] when one may
    block. *)
Fixpoint drive (n : nat) (p : process) : option process :=
  match n with
  | O => Some p
  | S n =>
      match pr_main p with
      | Do c k => if immediate c then drive n (set_main (k (Ok true)) (log_cmd c (Ok true) (effect c (Ok true) p))) else None
      | _ => None
      end
  end.

Lemma drive_reachable sv n p p' : reachable sv p -> drive n p = Some p' -> reachable sv p'.
Proof.
  revert p. induction n as [|n IH]; intros p Hr; simpl; [by intros [= <-]|].
  destruct (pr_main p) as [| |c k] eqn:Hm; [done..|]. destruct (immediate c) eqn:Hc; [|done].
  apply IH. eapply reach_step; [exact Hr|]. apply step_main with (1 := Hm). by destruct c.
Qed.

Lemma inevitably_weaken sv (P Q : process -> Prop) p : (forall q, P q -> Q q) -> inevitably sv P p -> inevitably sv Q p.
Proof. intros HPQ. induction 1 as [p Hp|p Hex _ IH]; [by apply inev_now, HPQ | by apply inev_later]. Qed.

(** ** The checks on statements *)

Section Checks.
  Implicit Types (p f : prog).

Lemma joins_first_stmt closing live c p :
  match c with
  | Start t => closing = false /\ joins_first closing (t :: live) p
  | Join t => joins_first closing (filter (fun u => u <> t) live) p
  | Close _ => live = [] /\ joins_first true live p
  | _ => joins_first closing live p
  end -> joins_first closing live (c >> p)%prog.
Proof. destruct c; simpl; intros H; [intros [] | intros [] | split; [|intros []] | intros [] | | split | intros [] ..]; by try apply H. Qed.

Lemma joins_first_or_exit closing live caught c p :
  match c with Call _ | Open _ => joins_first closing live p | _ => False end ->
  joins_first closing live (or_exit caught c p).
Proof. destruct c; intros Hp; [| | done..]; (intros [b|e]; simpl; [done | by destruct (caught e)]). Qed.

Lemma joins_first_require closing live what p :
  joins_first closing live p -> joins_first closing live (require (Call what) p).
Proof. intros Hp [[]|e]; simpl; done. Qed.

Lemma signal_safe_stmt event started c p :
  match c with
  | SetEvent => signal_safe true started p
  | Start _ => signal_safe event true p
  | OnSignal | Serve => signal_safe event started p
  | Join _ | WaitEvent | RunLoop _ => event = true /\ signal_safe true started p
  | Call _ | Open _ | Close _ => (event = true \/ started = false) /\ signal_safe event started p
  end -> signal_safe event started (c >> p)%prog.
Proof.
  destruct c; simpl; try done; [intros [He Hp] [b|e] .. | | |]; simpl; try done.
  all: intros [-> Hp]; split; [done|]; intros [b|e]; simpl; [done | by left].
Qed.

Lemma joins_first_starts live ts p : joins_first false (reverse ts ++ live) p -> joins_first false live (stmts (Start <$> ts) p).
Proof.
  revert live. induction ts as [|t ts IH]; intros live Hp; [done|]. split; [done|]. apply IH.
  by rewrite reverse_cons, <- app_assoc in Hp.
Qed.

Lemma joins_first_joins closing live ts p :
  joins_first closing (filter (fun u => u ∉ ts) live) p -> joins_first closing live (stmts (Join <$> ts) p).
Proof.
  revert live. induction ts as [|t ts IH]; intros live Hp.
  - simpl in *. replace live with (filter (fun u => u ∉ []) live); [done|].
    clear. induction live as [|u live IHl]; [done|]. rewrite filter_cons_True; [by rewrite IHl | apply not_elem_of_nil].
  - split; [|done]. apply IH. rewrite list_filter_filter.
    erewrite list_filter_iff; [exact Hp|]. intros u. simpl. rewrite not_elem_of_cons. tauto.
Qed.

Lemma joins_first_raise closing live e f : joins_first closing live f -> joins_first closing live (raise_after e f).
Proof.
  revert closing live. induction f as [|e'|c k IH]; intros closing live Hf; [done..|].
  destruct c; simpl in *; naive_solver.
Qed.

Lemma closes_all_stmts opened cs p :
  Forall (fun c => match c with Open _ | Close _ => False | _ => True end) cs ->
  closes_all opened p -> closes_all opened (stmts cs p).
Proof. intros Hcs Hp. induction Hcs as [|c cs Hc _ IH]; [done|]. by destruct c. Qed.

Lemma never_sets_stmt c p : c <> SetEvent -> never_sets p -> never_sets (c >> p)%prog.
Proof. intros Hc Hp. destruct c; simpl; try done; by intros []. Qed.

Lemma never_sets_or_exit caught c p : c <> SetEvent -> never_sets p -> never_sets (or_exit caught c p).
Proof. intros Hc Hp. destruct c; simpl; try done; (intros [b|e]; simpl; [done | by destruct (caught e)]). Qed.

Lemma never_sets_require c p : c <> SetEvent -> never_sets p -> never_sets (require c p).
Proof. intros Hc Hp. destruct c; simpl; try done; by intros [[]|]. Qed.

Lemma never_sets_stmts cs p : SetEvent ∉ cs -> never_sets p -> never_sets (stmts cs p).
Proof.
  intros Hcs Hp. induction cs as [|c cs IH]; [done|]. apply not_elem_of_cons in Hcs as [Hc Hcs].
  apply never_sets_stmt; [congruence | by apply IH].
Qed.

Lemma never_sets_finally p f : never_sets p -> never_sets f -> never_sets (finally p f).
Proof.
  intros Hp Hf. assert (Hr : forall e, never_sets (raise_after e f)).
  { intros e. clear p Hp. induction f as [|e'|c k IH]; [done..|]. destruct c; simpl in *; try done; intros r'; by apply IH. }
  induction p as [|e|c k IH]; [done | apply Hr |]. destruct c; simpl in *; try done; intros r'; by apply IH.
Qed.

End Checks.
