(* ===== verification/Tracing.v ===== *)
(** [shared/tracing.py]: trace context in Kafka headers.  OpenTelemetry's
    propagator is an interface ([Propagator]); the carrier that adapts it to Kafka,
    UTF-8 as Python decodes it, the OTLP endpoint [init] builds, and what a
    consumer does with the context it extracts. *)

From stdpp Require Import prelude strings list.
From Stdlib Require Import ZArith Lia Ascii.
From S2P Require Import Prelude PyFloat Effects PyStr Auth Kafka.

Local Open Scope Z_scope.

(** ** UTF-8 *)

(** A [str] as its code points, [bytes] as their values. *)
Abbreviation text := (list Z).
Abbreviation bytes := (list Z).

Definition unicode_error : exn := ValueError "'utf-8' codec can't decode bytes".

Definition continuation (b : Z) : bool := (128 <=? b) && (b <? 192).

Definition cons_char (c : Z) (r : res text) : res text := match r with Ok s => Ok (c :: s) | Raise e => Raise e end.

(** [bytes.decode("utf-8")]: no overlong forms, no surrogates, nothing past
    U+10FFFF. *)
Fixpoint utf8_decode (bs : bytes) : res text :=
  match bs with
  | [] => Ok []
  | b0 :: bs =>
      if b0 <? 128 then cons_char b0 (utf8_decode bs)
      else match bs with
      | [] => Raise unicode_error
      | b1 :: bs =>
          if negb (continuation b1) then Raise unicode_error
          else if (194 <=? b0) && (b0 <? 224) then cons_char ((b0 - 192) * 64 + (b1 - 128)) (utf8_decode bs)
          else match bs with
          | [] => Raise unicode_error
          | b2 :: bs =>
              if negb (continuation b2) then Raise unicode_error
              else if (224 <=? b0) && (b0 <? 240) then
                let c := (b0 - 224) * 4096 + (b1 - 128) * 64 + (b2 - 128) in
                if (c <? 2048) || ((55296 <=? c) && (c <=? 57343)) then Raise unicode_error
                else cons_char c (utf8_decode bs)
              else match bs with
              | [] => Raise unicode_error
              | b3 :: bs =>
                  let c := (b0 - 240) * 262144 + (b1 - 128) * 4096 + (b2 - 128) * 64 + (b3 - 128) in
                  if continuation b3 && (240 <=? b0) && (b0 <? 245) && (65536 <=? c) && (c <? 1114112)
                  then cons_char c (utf8_decode bs) else Raise unicode_error
              end
          end
      end
  end.

(** A code point of a string that can be encoded. *)
Definition scalar (c : Z) : Prop := 0 <= c < 55296 \/ 57344 <= c < 1114112.

(** Decides the comparisons of the goal by arithmetic. *)
Ltac compare := repeat match goal with
  | |- context [?a <? ?b] => first [rewrite (proj2 (Z.ltb_lt a b)) by lia | rewrite (proj2 (Z.ltb_ge a b)) by lia]
  | |- context [?a <=? ?b] => first [rewrite (proj2 (Z.leb_le a b)) by lia | rewrite (proj2 (Z.leb_gt a b)) by lia]
  end.

(** The digits of [c] in base 64. *)
Lemma base64 c : 0 <= c -> c = 64 * (c / 64) + c mod 64 /\ 0 <= c mod 64 < 64 /\ 0 <= c / 64.
Proof.
  intros Hc. split; [apply Z.div_mod; lia|]. split; [apply Z.mod_pos_bound; lia | apply Z.div_pos; lia].
Qed.

Lemma utf8_char_roundtrip c rest : scalar c ->
  exists bs, utf8_char c = Some bs /\ utf8_decode (bs ++ rest) = cons_char c (utf8_decode rest).
Proof.
  intros Hc. assert (H0 : 0 <= c) by (unfold scalar in Hc; lia).
  destruct (base64 c H0) as (H1 & Hr1 & Hq1). destruct (base64 (c / 64) Hq1) as (H2 & Hr2 & Hq2).
  destruct (base64 (c / 64 / 64) Hq2) as (H3 & Hr3 & Hq3).
  assert (E2 : c / 64 / 64 = c / 4096) by (by rewrite Z.div_div by lia).
  assert (E3 : c / 4096 / 64 = c / 262144) by (by rewrite Z.div_div by lia).
  rewrite E2 in *. rewrite E3 in *.
  unfold utf8_char. destruct (Z.ltb_spec c 128) as [Hs|Hs].
  { eexists. split; [reflexivity|]. simpl. by compare. }
  destruct (Z.ltb_spec c 2048) as [Hs2|Hs2].
  { eexists. split; [reflexivity|]. simpl. unfold continuation. compare. simpl. f_equal. lia. }
  unfold scalar in Hc. destruct (Z.leb_spec 55296 c) as [Hl|Hl], (Z.leb_spec c 57343) as [Hu|Hu];
    [lia | | | lia]; simpl.
  all: destruct (Z.ltb_spec c 65536) as [Hs3|Hs3]; try lia; eexists; (split; [reflexivity|]); simpl;
    unfold continuation; compare; simpl; compare; simpl.
  all: try (rewrite andb_false_r; simpl); compare; simpl; f_equal; lia.
Qed.

(** [s.encode("utf-8").decode("utf-8") = s]. *)
Lemma utf8_roundtrip (s : text) : Forall scalar s -> exists bs, utf8_encode s = Ok bs /\ utf8_decode bs = Ok s.
Proof.
  unfold utf8_encode. induction 1 as [|c s Hc _ (bs & He & Hd)]; [by exists []|].
  destruct (utf8_char_roundtrip c bs Hc) as (b & Hb & Hdb). exists (b ++ bs). simpl. rewrite Hb. simpl.
  destruct (mapM utf8_char s) as [l|]; simpl in *; [|done]. injection He as <-. split; [done|]. by rewrite Hdb, Hd.
Qed.

(** ** The carrier *)

(** [list[tuple[str, bytes]]]. *)
Abbreviation KafkaHeaders := (list (string * bytes)).

(** [_KafkaHeaderGetter]. *)
Fixpoint header_get (key : string) (carrier : KafkaHeaders) : res (option (list text)) :=
  match carrier with
  | [] => Ok None
  | (h_key, h_value) :: carrier =>
      if bool_decide (h_key = key) then res_bind (utf8_decode h_value) (fun v => Ok (Some [v]))
      else header_get key carrier
  end.

Definition header_keys (carrier : KafkaHeaders) : list string := carrier.*1.

(** [_KafkaHeaderSetter]: in place, or at the end. *)
Fixpoint put_header (key : string) (value : bytes) (carrier : KafkaHeaders) : KafkaHeaders :=
  match carrier with
  | [] => [(key, value)]
  | (h_key, h_value) :: carrier =>
      if bool_decide (h_key = key) then (key, value) :: carrier else (h_key, h_value) :: put_header key value carrier
  end.

Definition header_set (key : string) (value : text) (carrier : KafkaHeaders) : res KafkaHeaders :=
  res_bind (utf8_encode value) (fun bs => Ok (put_header key bs carrier)).

(** ** OpenTelemetry *)

(** The propagator the process has set, on contexts [C]: the pairs it gives the
    setter, the keys it may ask the getter for and the first of them, and the
    context it builds from the answers.  As documented: what was injected is
    extracted, a carrier with none of the keys gives the empty context, and the
    getter is asked for the first key, whose exception is not caught. *)
Class Propagator (C : Type) := {
  pg_inject : C -> list (string * text);
  pg_fields : list string;
  pg_first : string;
  pg_empty : C;
  pg_extract : (string -> res (option (list text))) -> (unit -> list string) -> res C;
  pg_injects c : NoDup (pg_inject c).*1 /\ (pg_inject c).*1 ⊆ pg_fields /\ Forall (fun f => Forall scalar (snd f)) (pg_inject c);
  pg_extracts c get keys :
    (forall k v, (k, v) ∈ pg_inject c -> get k = Ok (Some [v])) ->
    (forall k, k ∈ pg_fields -> k ∉ (pg_inject c).*1 -> get k = Ok None) -> pg_extract get keys = Ok c;
  pg_nothing get keys : (forall k, k ∈ pg_fields -> get k = Ok None) -> pg_extract get keys = Ok pg_empty;
  pg_asks get keys e : get pg_first = Raise e -> pg_extract get keys = Raise e
}.

Section Tracing.
  Context {C : Type} `{!Propagator C}.

(** [inject(headers, setter=_setter)] in the context [c]. *)
Fixpoint set_all (fields : list (string * text)) (headers : KafkaHeaders) : res KafkaHeaders :=
  match fields with
  | [] => Ok headers
  | (k, v) :: fields => res_bind (header_set k v headers) (set_all fields)
  end.
Definition inject_kafka (c : C) (headers : KafkaHeaders) : res KafkaHeaders := set_all (pg_inject c) headers.

(** [extract(headers or [], getter=_getter)]. *)
Definition extract_kafka (headers : option KafkaHeaders) : res C :=
  let carrier := default [] headers in
  pg_extract (fun k => header_get k carrier) (fun _ => header_keys carrier).

End Tracing.

(** *** Spans *)

(** What tracing adds to a thread: its current context, and the spans it
    started, each with the context it is a child of. *)
Record traced (C S : Type) := Traced { tr_service : S; tr_current : C; tr_spans : list (string * C) }.
Arguments Traced {C S}.
Arguments tr_service {C S}.
Arguments tr_current {C S}.
Arguments tr_spans {C S}.

(** A service's operation does not touch them. *)
Definition on_traced {C S A} (m : M S A) : M (traced C S) A := fun s =>
  let '(r, s1) := m (tr_service s) in (r, Traced s1 (tr_current s) (tr_spans s)).

(** The tracer of the service.  As documented: [start_as_current_span(name,
    context)] runs the body of the [with] inside a new span, whose parent is the
    context it is given or, without one, the current context; afterwards the
    current context is what it was. *)
Class Tracer (C : Type) := {
  tc_start_as_current_span : forall {S A}, string -> option C -> M (traced C S) A -> M (traced C S) A;
  tc_span {S A} (name : string) (context : option C) (body : M (traced C S) A) s :
    exists current, let parent := default (tr_current s) context in
      let '(r, s1) := body (Traced (tr_service s) current (tr_spans s ++ [(name, parent)])) in
      tc_start_as_current_span name context body s = (r, Traced (tr_service s1) (tr_current s) (tr_spans s1))
}.

(** The beginning of each consumer's [_process_message]: the context that
    [extract_kafka] returns is not used, and nothing catches what it raises. *)
Definition consumer_span {C S A} `{!Propagator C, !Tracer C} (name : string) (headers : option KafkaHeaders) (process : M S A)
  : M (traced C S) A :=
  of_res (extract_kafka (C:=C) headers) ;;
  tc_start_as_current_span name None (on_traced process).

(** ** Lemmas on the carrier *)

Lemma header_get_put key value carrier :
  header_get key (put_header key value carrier) = res_bind (utf8_decode value) (fun v => Ok (Some [v])).
Proof.
  induction carrier as [|[k v] carrier IH]; simpl; [by rewrite bool_decide_eq_true_2|].
  case_bool_decide; simpl; [by rewrite bool_decide_eq_true_2 | by rewrite bool_decide_eq_false_2].
Qed.

Lemma header_get_put_ne key key' value carrier : key' <> key -> header_get key' (put_header key value carrier) = header_get key' carrier.
Proof.
  intros Hne. induction carrier as [|[k v] carrier IH]; simpl; [by rewrite bool_decide_eq_false_2|].
  case_bool_decide as Hk; simpl; [subst k; by rewrite !bool_decide_eq_false_2 | by rewrite IH].
Qed.

Lemma header_get_absent key carrier : key ∉ header_keys carrier -> header_get key carrier = Ok None.
Proof.
  induction carrier as [|[k v] carrier IH]; simpl; [done|]. intros [Hk Hc]%not_elem_of_cons.
  rewrite bool_decide_eq_false_2 by congruence. by apply IH.
Qed.

(** The headers of other keys stay, in their order. *)
Lemma put_header_others (keep : string * bytes -> Prop) `{!forall x, Decision (keep x)} key value carrier :
  (forall v, ~ keep (key, v)) -> filter keep (put_header key value carrier) = filter keep carrier.
Proof.
  intros Hk. induction carrier as [|[k v] carrier IH]; simpl; [by rewrite filter_cons_False by auto|].
  case_bool_decide as E; [subst k; by rewrite !filter_cons_False by auto|].
  destruct (decide (keep (k, v))); [rewrite !filter_cons_True by done | rewrite !filter_cons_False by done]; by rewrite IH.
Qed.

Section Injection.
  Context {C : Type} `{!Propagator C}.

Lemma set_all_spec fields headers :
  NoDup fields.*1 -> Forall (fun f => Forall scalar (snd f)) fields ->
  exists headers', set_all fields headers = Ok headers' /\
    (forall k v, (k, v) ∈ fields -> header_get k headers' = Ok (Some [v])) /\
    (forall k, k ∉ fields.*1 -> header_get k headers' = header_get k headers) /\
    filter (fun h => h.1 ∉ fields.*1) headers' = filter (fun h => h.1 ∉ fields.*1) headers.
Proof.
  revert headers. induction fields as [|[k v] fields IH]; intros headers Hnd Hsc; csimpl.
  { exists headers. split_and!; [done | by intros k v Hk%elem_of_nil | done | done]. }
  apply NoDup_cons in Hnd as [Hk Hnd]. apply Forall_cons in Hsc as [Hv Hsc]. csimpl in *.
  destruct (utf8_roundtrip v Hv) as (bs & He & Hd). unfold header_set. rewrite He. csimpl.
  destruct (IH (put_header k bs headers) Hnd Hsc) as (h' & Hs & Hin & Hout & Hf). exists h'. split_and!; [done| | |].
  - intros k' v' [[= -> ->]|Hk']%elem_of_cons; [|by apply Hin]. rewrite Hout by done. by rewrite header_get_put, Hd.
  - intros k' [Hne Hk']%not_elem_of_cons. rewrite Hout by done. by apply header_get_put_ne.
  - assert (Hsub : forall h : KafkaHeaders, filter (fun x : string * bytes => x.1 ∉ k :: fields.*1) h =
        filter (fun x => x.1 ∉ k :: fields.*1) (filter (fun x => x.1 ∉ fields.*1) h)).
    { intros h. rewrite list_filter_filter. apply list_filter_iff. intros x. rewrite not_elem_of_cons. tauto. }
    rewrite Hsub, Hf, <- Hsub. apply put_header_others. intros v' Hn. apply Hn, elem_of_cons. by left.
Qed.

Lemma inject_extracts c headers :
  (forall k, k ∈ header_keys headers -> k ∈ pg_fields -> k ∈ (pg_inject c).*1) ->
  exists headers', inject_kafka c headers = Ok headers' /\ extract_kafka (Some headers') = Ok c /\
    filter (fun h => h.1 ∉ (pg_inject c).*1) headers' = filter (fun h => h.1 ∉ (pg_inject c).*1) headers.
Proof.
  intros Hfree. destruct (pg_injects c) as (Hnd & Hsub & Hsc).
  destruct (set_all_spec (pg_inject c) headers Hnd Hsc) as (h' & Hs & Hin & Hout & Hf).
  exists h'. split_and!; [done | | done]. apply pg_extracts; simpl; [exact Hin|].
  intros k Hk Hn. rewrite Hout by done. apply header_get_absent. intros Hh. by apply Hn, Hfree.
Qed.

End Injection.

(** ** [init] *)

(** [urllib.parse.urlparse], as far as [init] looks at it: the scheme, the
    authority up to the first of [/?#], the path up to a query, a fragment or the
    parameters of its last segment (of a text without blanks). *)
Definition is_scheme_char (c : ascii) : bool :=
  is_ascii_letter c || ((48 <=? code c) && (code c <=? 57)) || Ascii.eqb c "+"%char || Ascii.eqb c "-"%char || Ascii.eqb c "."%char.

Definition url_scheme (url : string) : string * string :=
  if has_char ":"%char url then
    let '(s, rest) := partition_on ":"%char url in
    match chars s with
    | c :: _ => if is_ascii_letter c && forallb is_scheme_char (chars s) then (lower s, rest) else ("", url)
    | [] => ("", url)
    end
  else ("", url).

(** The longest prefix without a character of [stop], and the rest. *)
Fixpoint span_until (stop : ascii -> bool) (l : list ascii) : list ascii * list ascii :=
  match l with
  | [] => ([], [])
  | c :: l => if stop c then ([], c :: l) else let '(a, b) := span_until stop l in (c :: a, b)
  end.

Definition is_delimiter (c : ascii) : bool := Ascii.eqb c "/"%char || Ascii.eqb c "?"%char || Ascii.eqb c "#"%char.
Definition ends_path (c : ascii) : bool := Ascii.eqb c "?"%char || Ascii.eqb c "#"%char.

(** [_splitparams]: from the first [;] of the last segment, for the schemes that
    have parameters. *)
Definition uses_params : list string :=
  [""; "ftp"; "hdl"; "prospero"; "http"; "https"; "shttp"; "rtsp"; "rtsps"; "rtspu"; "sip"; "sips"; "mms"; "sftp"; "tel"].
Definition drop_params (scheme : string) (path : list ascii) : list ascii :=
  if bool_decide (scheme ∈ uses_params) then
    let '(tail, head) := span_until (Ascii.eqb "/"%char) (rev path) in
    rev head ++ fst (span_until (Ascii.eqb ";"%char) (rev tail))
  else path.

Section Init.
  (** [_check_bracketed_netloc] accepts the host between the brackets. *)
  Variable bracketed_ok : string -> bool.

Definition urlparse (url : string) : res (string * string * string) :=
  let '(scheme, rest) := url_scheme url in
  let '(netloc, rest) :=
    if startswith rest "//" then
      let '(n, r) := span_until is_delimiter (drop 2 (chars rest)) in (of_chars n, r)
    else ("", chars rest) in
  let opening := has_char "["%char netloc in
  let closing := has_char "]"%char netloc in
  if xorb opening closing then Raise (ValueError "Invalid IPv6 URL")
  else if opening && closing && negb (bracketed_ok netloc) then Raise (ValueError "Invalid IPv6 URL")
  else Ok (scheme, netloc, of_chars (drop_params scheme (fst (span_until ends_path rest)))).

(** [s.rstrip("/")]. *)
Definition rstrip_slash (s : string) : string := of_chars (rev (drop_chars (Ascii.eqb "/"%char) (rev (chars s)))).

Definition traces_endpoint (endpoint : string) : res string :=
  res_bind (urlparse endpoint) (fun '(scheme, netloc, path) =>
  if negb (bool_decide (scheme = "")) && negb (bool_decide (netloc = "")) && negb (endswith (rstrip_slash path) "/v1/traces")
  then Ok (rstrip_slash endpoint +:+ "/v1/traces") else Ok endpoint).

(** What [init] returns: the provider's [shutdown], or one that does nothing. *)
Inductive tracing_shutdown := ProviderShutdown (endpoint : string) | NoShutdown.

(** [build] is the exporter and the provider, set as the global one. *)
Definition tracing_init (env : environ) (build : string -> res unit) : res tracing_shutdown :=
  res_bind (traces_endpoint (default "http://localhost:4318" (env "OTEL_EXPORTER_OTLP_ENDPOINT"))) (fun endpoint =>
  match build endpoint with Ok _ => Ok (ProviderShutdown endpoint) | Raise _ => Ok NoShutdown end).

End Init.

Example endpoints :
  traces_endpoint (fun _ => true) <$> ["http://localhost:4318"; "http://jaeger:4318/"; "https://c.example/otlp/v1/traces/"; "jaeger:4318"; "http://[::1:4318"] =
  [Ok "http://localhost:4318/v1/traces"; Ok "http://jaeger:4318/v1/traces"; Ok "https://c.example/otlp/v1/traces/"; Ok "jaeger:4318";
   Raise (ValueError "Invalid IPv6 URL")].
Proof. vm_compute. reflexivity. Qed.

(** ** An example propagator *)

(** A context is a list of bits, the empty one being no trace; its
    [traceparent] spells it. *)
Definition spell (c : list bool) : text := (fun b : bool => if b then 49 else 48) <$> c.
Definition unspell (v : text) : list bool := (fun d => d =? 49) <$> v.

Definition bits_inject (c : list bool) : list (string * text) :=
  match c with [] => [] | _ => [("traceparent", spell c)] end.
Definition bits_extract (get : string -> res (option (list text))) (_ : unit -> list string) : res (list bool) :=
  res_bind (get "traceparent") (fun v => Ok (match v with Some (v :: _) => unspell v | _ => [] end)).

Lemma unspell_spell c : unspell (spell c) = c.
Proof. unfold unspell, spell. rewrite <- list_fmap_compose. induction c as [|[] c IH]; csimpl; by rewrite ?IH. Qed.

Lemma spell_scalar c : Forall scalar (spell c).
Proof. apply Forall_fmap, Forall_true. intros []; unfold scalar; simpl; lia. Qed.

#[export] Program Instance bits_propagator : Propagator (list bool) := {|
  pg_inject := bits_inject; pg_fields := ["traceparent"]; pg_first := "traceparent"; pg_empty := [];
  pg_extract := bits_extract
|}.
Next Obligation.
  intros [|b c]; unfold bits_inject; csimpl; [split_and!; [constructor | set_solver | constructor]|].
  split_and!; [apply NoDup_singleton | done | constructor; [exact (spell_scalar (b :: c)) | constructor]].
Qed.
Next Obligation.
  intros [|b c] get keys Hin Hout; unfold bits_extract.
  - rewrite Hout; [done | by apply list_elem_of_singleton | apply not_elem_of_nil].
  - rewrite (Hin _ (spell (b :: c))) by (by apply list_elem_of_singleton). exact (f_equal Ok (unspell_spell (b :: c))).
Qed.
Next Obligation. intros get keys H. unfold bits_extract. by rewrite H by (by apply list_elem_of_singleton). Qed.
Next Obligation. intros get keys e H. unfold bits_extract. by rewrite H. Qed.

(** Its tracer numbers nothing: a new span has the context of its parent. *)
#[export] Program Instance bits_tracer : Tracer (list bool) := {|
  tc_start_as_current_span S A name context body := fun s =>
    let parent := default (tr_current s) context in
    let '(r, s1) := body (Traced (tr_service s) parent (tr_spans s ++ [(name, parent)])) in
    (r, Traced (tr_service s1) (tr_current s) (tr_spans s1))
|}.
Next Obligation. intros S A name context body s. exists (default (tr_current s) context). simpl. by destruct (body _). Qed.

(** ** Theorems *)

(** [C18] Trace context survives Kafka.  Whatever context is injected into headers
    that hold no other propagation field, the extraction from them gives that
    context back, byte for byte through UTF-8; the headers of other keys are
    untouched; and a message without propagation headers, or without any, gives
    the empty context. *)
Theorem trace_context_roundtrip {C} `{!Propagator C} (c : C) (headers : KafkaHeaders) :
  (forall k, k ∈ header_keys headers -> k ∈ pg_fields -> k ∈ (pg_inject c).*1) ->
  (exists headers', inject_kafka c headers = Ok headers' /\ extract_kafka (Some headers') = Ok c /\
     filter (fun h => h.1 ∉ (pg_inject c).*1) headers' = filter (fun h => h.1 ∉ (pg_inject c).*1) headers) /\
  extract_kafka None = Ok pg_empty /\
  ((forall k, k ∈ header_keys headers -> k ∉ pg_fields) -> extract_kafka (Some headers) = Ok pg_empty).
Proof.
  intros Hfree. split_and!; [by apply inject_extracts | by apply pg_nothing |].
  intros Hn. apply pg_nothing. intros k Hk. apply header_get_absent. intros Hh. by apply (Hn k).
Qed.

Lemma trace_context_roundtrip_witness :
  exists headers', inject_kafka [true; false] [("tenant", [116])] = Ok headers' /\
    headers' = [("tenant", [116]); ("traceparent", [49; 48])] /\ extract_kafka (Some headers') = Ok [true; false].
Proof.
  destruct (trace_context_roundtrip [true; false] [("tenant", [116])]) as [(h & Hi & He & _) _].
  - intros k Hk%list_elem_of_singleton Hf%list_elem_of_singleton. rewrite Hk in Hf. by vm_compute in Hf.
  - exists h. split; [exact Hi|]. split; [|exact He]. vm_compute in Hi. by injection Hi as <-.
Defined.

(** A consumer does not continue the trace.  The context a producer injected is
    in the message's headers and [extract_kafka] returns it; but each consumer
    starts its span without it, so that the span is a child of the thread's own
    current context, a new trace when that is empty; [start_as_current_span] with
    the extracted context would have made it a child of the producer's. *)
Theorem consumed_trace_dropped {C S A} `{!Propagator C, !Tracer C} (name : string) (process : M S A) (c : C) (s : traced C S) :
  exists headers, inject_kafka c [] = Ok headers /\ extract_kafka (Some headers) = Ok c /\
    (let s' := exec (consumer_span name (Some headers) process) s in
     tr_spans s' = tr_spans s ++ [(name, tr_current s)] /\ tr_service s' = exec process (tr_service s)) /\
    (let s' := exec (tc_start_as_current_span name (Some c) (on_traced process)) s in
     tr_spans s' = tr_spans s ++ [(name, c)]).
Proof.
  destruct (inject_extracts c []) as (h & Hi & He & _); [by intros k Hk%elem_of_nil|].
  exists h. split_and!; [done | done | |].
  - unfold consumer_span, exec, mbind, M_bind, of_res. rewrite He.
    destruct (tc_span name None (on_traced process) s) as [current Hs]. unfold on_traced in *. simpl in *.
    destruct (process (tr_service s)) as [r s1]. by rewrite Hs.
  - unfold exec. destruct (tc_span name (Some c) (on_traced process) s) as [current Hs]. unfold on_traced in *. simpl in *.
    destruct (process (tr_service s)) as [r s1]. by rewrite Hs.
Qed.

Lemma consumed_trace_dropped_witness :
  exists headers, inject_kafka (C:=list bool) [true] [] = Ok headers /\ extract_kafka (C:=list bool) (Some headers) = Ok [true] /\
    tr_spans (exec (consumer_span (C:=list bool) "detect" (Some headers) (mret true)) (Traced tt [] [])) = [("detect", [])].
Proof.
  destruct (consumed_trace_dropped (C:=list bool) (S:=unit) "detect" (mret true) [true] (Traced tt [] [])) as (h & Hi & He & [Hs _] & _).
  exists h. split; [exact Hi|]. split; [exact He | exact Hs].
Defined.

(** An undecodable header stops a consumer for good.  When the first propagation
    header of a message is not UTF-8, the exception of [extract_kafka] leaves
    [_process_message], which catches and dead-letters only what comes after: the
    loop ends with nothing processed and the committed offset unchanged, so that
    the next start of the service polls the same message and ends the same way. *)
Theorem undecodable_header_ends_consumer {C S} `{!Propagator C, !Tracer C} (name : string)
    (process : fetched -> M S bool) (headers_of : fetched -> option KafkaHeaders)
    (m : fetched) (commit_error : option exn) (later : list poll_event) (s : traced C S) (committed : Z) (e : exn) :
  header_get pg_first (default [] (headers_of m)) = Raise e ->
  consume_loop (fun m => consumer_span name (headers_of m) (process m)) (PollMessage m commit_error :: later) (s, committed) =
  (Raise e, (s, committed)).
Proof.
  intros He. cbn [consume_loop]. apply bind_raise. unfold on_service, consumer_span. cbn [fst snd].
  erewrite bind_raise; [reflexivity|]. unfold of_res, extract_kafka. f_equal. by apply pg_asks.
Qed.

(** A lone continuation byte. *)
Lemma undecodable_header_ends_consumer_witness :
  header_get (pg_first (C:=list bool)) [("traceparent", [128])] = Raise unicode_error /\
  consume_loop (fun m => consumer_span (C:=list bool) "detect" (Some [("traceparent", [128])]) (mret true))
    [PollMessage (Fetched 5 "m") None] (Traced tt [] [], 5) = (Raise unicode_error, (Traced tt [] [], 5)).
Proof.
  split; [by vm_compute|].
  apply (undecodable_header_ends_consumer (C:=list bool) "detect" (fun _ => mret true)
    (fun _ => Some [("traceparent", [128])]) (Fetched 5 "m") None []). by vm_compute.
Defined.
