(* ===== verification/Logging.v ===== *)
(** [shared/logging_utils.py], and the two middlewares of [api/middleware.py] that
    every request passes: the JSON line a logging call becomes, and which
    requests are logged, counted and given their id. *)

From stdpp Require Import prelude strings list.
From Stdlib Require Import ZArith Lia Ascii SpecFloat.
From S2P Require Import Prelude PyFloat Effects PyStr ApiCore ApiService.

Local Open Scope Z_scope.

(** ** Records *)

(** The attributes of a [LogRecord], and the two the formatter sets. *)
Definition log_record_attrs : list string :=
  ["name"; "msg"; "args"; "levelname"; "levelno"; "pathname"; "filename"; "module"; "exc_info"; "exc_text"; "stack_info";
   "lineno"; "funcName"; "created"; "msecs"; "relativeCreated"; "thread"; "threadName"; "processName"; "process"; "taskName"].
Definition _RESERVED_LOG_RECORD_ATTRS : list string := log_record_attrs ++ ["message"; "asctime"].

(** A dict as its pairs in insertion order. *)
Abbreviation payload := (list (string * json)).

(** A call of a logger: its [extra] and the text of the exception with it. *)
Record log_call := LogCall {
  lg_created : string; lg_level : string; lg_message : string; lg_extra : payload; lg_exc_info : option string
}.

Definition is_private (key : string) : bool := startswith key "_".

(** The attributes of the record the formatter copies. *)
Definition contextual (key : string) : bool := negb (bool_decide (key ∈ _RESERVED_LOG_RECORD_ATTRS)) && negb (is_private key).

Definition base_fields (service : string) (c : log_call) : payload :=
  [("timestamp", JS (lg_created c)); ("service", JS service); ("level", JS (lg_level c)); ("message", JS (lg_message c))].

(** [_JSONFormatter.format], before [json.dumps]. *)
Definition format (service : string) (c : log_call) : payload :=
  let d := foldl (fun d kv => if contextual (fst kv) then dict_set d (fst kv) (snd kv) else d) (base_fields service c) (lg_extra c) in
  match lg_exc_info c with Some text => dict_set d "error" (JS text) | None => d end.

(** [Logger.makeRecord] refuses an [extra] that would overwrite an attribute; then
    the handler writes the line to stdout. *)
Definition emit (service : string) (c : log_call) : M (list payload) unit := fun lines =>
  match filter (fun k => k ∈ _RESERVED_LOG_RECORD_ATTRS) (lg_extra c).*1 with
  | k :: _ => (Raise (OtherError "KeyError" ("Attempt to overwrite '" +:+ k +:+ "' in LogRecord")), lines)
  | [] => (Ok tt, lines ++ [format service c])
  end.

(** A logger as [init] configures it: one handler, no propagation, level INFO;
    initialising twice replaces the handler. *)
Record logger := Logger { lr_name : string; lr_handlers : list string; lr_propagate : bool; lr_level : string }.
Definition logging_init (service_name : string) (_ : logger) : logger := Logger service_name [service_name] false "INFO".

(** The names the services' calls pass in [extra]. *)
Definition call_site_keys : list string :=
  ["alert_id"; "anomaly_id"; "device_id"; "duration_ms"; "error"; "event_id"; "event_type"; "incident_id"; "method"; "methods";
   "mqtt_topic"; "organization_id"; "path"; "request_id"; "rule_id"; "severity"; "status"].

(** ** The API's middlewares *)

(** What a request leaves besides its answer: the lines, [api_requests_total] and
    [api_request_duration_seconds], one entry per increment and observation. *)
Record access := Access {
  ac_lines : list payload;
  ac_requests : list (string * string * string);
  ac_durations : list (string * string * float)
}.

Section Middlewares.
  Context {S : Type}.
  (** [time.monotonic()] before and after, the ISO text of the record's time,
      [int(duration * 1000)], and the status as text. *)
  Variables (start_time end_time : float) (created : string).
  Variable millis : float -> Z.
  Variable show : Z -> string.

(** [self.app] of a middleware. *)
Definition on_app {A} (m : M S A) : M (S * access) A := fun s => let '(r, s1) := m (fst s) in (r, (s1, snd s)).

Definition request_line (method path request_id : string) (status : Z) (duration : float) : log_call :=
  LogCall created "INFO" "request handled"
    [("method", JS method); ("path", JS path); ("status", JZ status); ("duration_ms", JZ (millis duration)); ("request_id", JS request_id)]
    None.

(** [LoggingMiddleware.dispatch]. *)
Definition logging_dispatch (method path request_id : string) (call_next : M S response) : M (S * access) response :=
  response ← on_app call_next;
  let duration := fsub end_time start_time in
  (fun s => let '(r, lines) := emit "api" (request_line method path request_id (rs_status response) duration) (ac_lines (snd s)) in
            (r, (fst s, Access lines (ac_requests (snd s)) (ac_durations (snd s))))) ;;
  modify (fun s => (fst s, Access (ac_lines (snd s)) (ac_requests (snd s) ++ [(method, path, show (rs_status response))])
                                  (ac_durations (snd s) ++ [(method, path, duration)]))) ;;
  mret response.

(** [RequestIDMiddleware.dispatch], around it. *)
Definition request_id_dispatch (request_id : string) (call_next : M (S * access) response) : M (S * access) response :=
  response ← call_next;
  mret (Response (rs_status response) (rs_body response) (dict_set (rs_headers response) "X-Request-ID" request_id)).

(** Starlette answers an [APIError] inside the middlewares and any other exception
    outside them. *)
Definition handlers_inside (request_id : string) (m : M S response) : M S response :=
  try_except m (fun e => match e with APIError _ _ _ _ => mret (error_response request_id e) | _ => raise e end).
Definition handler_outside (request_id : string) (m : M (S * access) response) : M (S * access) response :=
  try_except m (fun e => mret (error_response request_id e)).

Definition request_stack (method path request_id : string) (endpoint : M S response) : M (S * access) response :=
  handler_outside request_id
    (request_id_dispatch request_id
      (logging_dispatch method path request_id (handlers_inside request_id endpoint))).

End Middlewares.

(** ** Lemmas *)

Lemma dict_set_new {V} (d : list (string * V)) k v : k ∉ d.*1 -> dict_set d k v = d ++ [(k, v)].
Proof.
  induction d as [|[k' v'] d IH]; csimpl; [done|]. intros [Hne Hk]%not_elem_of_cons.
  rewrite bool_decide_eq_false_2 by congruence. by rewrite IH.
Qed.

(** Contextual fields with new names are appended in their order. *)
Lemma contextual_fields (extra d : payload) :
  Forall (fun k => contextual k = true) extra.*1 -> NoDup (d.*1 ++ extra.*1) ->
  foldl (fun d kv => if contextual (fst kv) then dict_set d (fst kv) (snd kv) else d) d extra = d ++ extra.
Proof.
  revert d. induction extra as [|[k v] extra IH]; intros d Hc Hnd; csimpl in *; [by rewrite app_nil_r|].
  apply Forall_cons in Hc as [Hk Hc]. rewrite Hk, dict_set_new.
  - rewrite IH; [by rewrite <- app_assoc | done|]. rewrite fmap_app, <- app_assoc. exact Hnd.
  - apply NoDup_app in Hnd as (_ & Hd & _). intros Hin. apply (Hd k Hin), elem_of_cons. by left.
Qed.

Lemma call_sites_contextual : Forall (fun k => contextual k = true) call_site_keys.
Proof. apply (bool_decide_unpack _). by vm_compute. Qed.

Lemma contextual_not_reserved (l : list string) : Forall (fun k => contextual k = true) l -> filter (fun k => k ∈ _RESERVED_LOG_RECORD_ATTRS) l = [].
Proof.
  intros Hl. apply filter_none. eapply Forall_impl; [exact Hl|]. intros k. unfold contextual. intros [Hk%negb_true_iff _]%andb_prop.
  by apply bool_decide_eq_false in Hk.
Qed.

(** What the middlewares make of the endpoint's answer: its status and body, and
    the state it left. *)
Definition answer_of (request_id : string) (r : res response) : response :=
  match r with Ok resp => resp | Raise e => error_response request_id e end.

Lemma request_stack_state {S} (t0 t1 : float) (created : string) (millis : float -> Z) (show : Z -> string)
    (method path request_id : string) (endpoint : M S response) (s : S) (a : access) :
  exists resp a', request_stack t0 t1 created millis show method path request_id endpoint (s, a) = (Ok resp, (exec endpoint s, a')) /\
    rs_status resp = rs_status (answer_of request_id (eval endpoint s)) /\
    rs_body resp = rs_body (answer_of request_id (eval endpoint s)).
Proof.
  unfold request_stack, handler_outside, request_id_dispatch, logging_dispatch, handlers_inside, on_app, eval, exec, try_except.
  unfold mbind, M_bind, raise. cbn [fst snd]. destruct (endpoint s) as [[resp|e] s1]; cbn [fst snd answer_of].
  - by eexists _, _.
  - destruct e; by eexists _, _.
Qed.

(** ** Theorems *)

(** What a line holds.  A call of the services' kind (its [extra] keys are among
    those the call sites use, each once, and ["error"] is not among them when an
    exception is logged) never raises, and its line has, in this order, the
    timestamp, the service, the level and the message, then the fields of the
    call, then the exception: no field hides another.  A call whose [extra] names
    an attribute of the record raises and writes nothing. *)
Theorem log_line_fields (service : string) (c : log_call) (lines : list payload) :
  ((lg_extra c).*1 ⊆ call_site_keys -> NoDup (lg_extra c).*1 -> (is_Some (lg_exc_info c) -> "error" ∉ (lg_extra c).*1) ->
   emit service c lines =
     (Ok tt, lines ++ [base_fields service c ++ lg_extra c ++
        match lg_exc_info c with Some text => [("error", JS text)] | None => [] end])) /\
  (Exists (fun k => k ∈ _RESERVED_LOG_RECORD_ATTRS) (lg_extra c).*1 -> exists e, emit service c lines = (Raise e, lines)).
Proof.
  split.
  - intros Hsub Hnd Hexc.
    assert (Hctx : Forall (fun k => contextual k = true) (lg_extra c).*1).
    { apply Forall_forall. intros k Hk. pose proof call_sites_contextual as Hcs. rewrite Forall_forall in Hcs. by apply Hcs, Hsub. }
    assert (Hbase : forall k, k ∈ (base_fields service c).*1 -> k ∉ call_site_keys).
    { apply Forall_forall, (bool_decide_unpack _). by vm_compute. }
    unfold emit. rewrite contextual_not_reserved by done. unfold format. rewrite contextual_fields; [|done|].
    + destruct (lg_exc_info c) as [text|]; [|by rewrite app_nil_r]. rewrite dict_set_new, <- app_assoc; [done|].
      rewrite fmap_app. intros [Hin|Hin]%elem_of_app; [|by apply Hexc in Hin].
      apply (Hbase _ Hin). by apply (bool_decide_unpack _); vm_compute.
    + apply NoDup_app. split_and!; [| intros k Hk He; by apply (Hbase k Hk), Hsub | done].
      apply (bool_decide_unpack _). by vm_compute.
  - intros Hres. unfold emit. destruct (filter _ _) as [|k l] eqn:E; [|by eexists].
    apply Exists_exists in Hres as (k & Hk & Hr). exfalso. apply (not_elem_of_nil k). rewrite <- E. by apply list_elem_of_filter.
Qed.

Lemma log_line_fields_witness :
  let c := LogCall "2025-01-01T00:00:00+00:00" "ERROR" "dedup check failed" [("error", JS "timeout"); ("event_id", JS "e1")] None in
  emit "stream-processor" c [] =
  (Ok tt, [[("timestamp", JS "2025-01-01T00:00:00+00:00"); ("service", JS "stream-processor"); ("level", JS "ERROR");
            ("message", JS "dedup check failed"); ("error", JS "timeout"); ("event_id", JS "e1")]]).
Proof.
  apply (log_line_fields "stream-processor"
    (LogCall "2025-01-01T00:00:00+00:00" "ERROR" "dedup check failed" [("error", JS "timeout"); ("event_id", JS "e1")] None) []).
  - assert (H : Forall (fun k => k ∈ call_site_keys) ["error"; "event_id"]) by (apply (bool_decide_unpack _); by vm_compute).
    rewrite Forall_forall in H. exact H.
  - apply (bool_decide_unpack _). by vm_compute.
  - by intros [].
Defined.

(** [C36] Which requests leave a trace.  Every request is answered.  When the endpoint
    returns or raises an [APIError], the request is logged once and counted once,
    with its method, path and the status of the answer, which carries its request
    id; when it raises anything else (a database that is down, say) the answer is
    a 500 that is neither logged nor counted and carries no [X-Request-ID]. *)
Theorem request_logged_iff_handled {S} (t0 t1 : float) (created : string) (millis : float -> Z) (show : Z -> string)
    (method path request_id : string) (endpoint : M S response) (s : S) (a : access) :
  exists response s' a',
    request_stack t0 t1 created millis show method path request_id endpoint (s, a) = (Ok response, (s', a')) /\
    s' = exec endpoint s /\
    match eval endpoint s with
    | Ok _ | Raise (APIError _ _ _ _) =>
        dict_get (rs_headers response) "X-Request-ID" = Some request_id /\
        (exists line, ac_lines a' = ac_lines a ++ [line] /\ dict_get line "status" = Some (JZ (rs_status response)) /\
           dict_get line "path" = Some (JS path) /\ dict_get line "request_id" = Some (JS request_id)) /\
        ac_requests a' = ac_requests a ++ [(method, path, show (rs_status response))]
    | Raise e => response = error_response request_id e /\ rs_status response = 500 /\ rs_headers response = [] /\ a' = a
    end.
Proof.
  set (dur := fsub t1 t0).
  assert (Hemit : forall st, emit "api" (request_line created millis method path request_id st dur) (ac_lines a) =
    (Ok tt, ac_lines a ++ [base_fields "api" (request_line created millis method path request_id st dur) ++
       lg_extra (request_line created millis method path request_id st dur)])) by done.
  unfold request_stack, handler_outside, request_id_dispatch, logging_dispatch, handlers_inside, on_app, eval, exec, try_except.
  unfold mbind, M_bind, raise. cbn [fst snd]. fold dur. destruct (endpoint s) as [[resp|e] s1]; simpl fst; simpl snd.
  - rewrite Hemit. eexists _, _, _. split; [reflexivity|]. split; [done|]. split; [apply dict_get_set_eq|].
    split; [|reflexivity]. eexists. split_and!; reflexivity.
  - destruct e; try (eexists _, _, _; split; [reflexivity|]; split; [done|]; by split_and!).
    cbn [mret M_ret]. rewrite Hemit. eexists _, _, _. split; [reflexivity|]. split; [done|]. split; [apply dict_get_set_eq|].
    split; [|reflexivity]. eexists. split_and!; reflexivity.
Qed.
