(* ===== verification/Http.v ===== *)
(** The API as an HTTP application ([api/main.py] and the routers of
    [handlers_*.py]): the table of method and path of every operation, the
    router that looks a request up in it, the bodies, the exception handlers and
    the middlewares around [ApiService].  Starlette's router is an interface
    with its documented behaviour; what FastAPI makes of a body is a parameter. *)

From stdpp Require Import prelude strings list.
From Stdlib Require Import ZArith Lia Ascii.
From S2P Require Import Prelude PyFloat Effects PyStr Postgres Auth ApiCore ApiTenant ApiService Logging Mqtt.

Local Open Scope Z_scope.

(** ** The table *)

(** The fields of a request body, absent ones at their default; a password as
    code points. *)
Record fields := Fields { fd_text : string -> string; fd_password : list Z }.

(** What answers: the documentation pages of the framework, the three probes, the
    metrics, or an operation on the parameter of the path and the body. *)
Inductive page :=
  | Framework
  | Live | Ready | HealthPage | MetricsPage
  | Operation (build : string -> fields -> route).

Record decl := Decl { dc_method : string; dc_path : string; dc_page : page }.

(** [FastAPI(docs_url=..., openapi_url=...)], which answers [HEAD] too. *)
Definition framework_routes : list decl :=
  method ← ["GET"; "HEAD"]; path ← ["/api/v1/openapi.json"; "/docs"; "/docs/oauth2-redirect"; "/redoc"];
  [Decl method path Framework].
Definition health_routes : list decl :=
  [Decl "GET" "/live" Live; Decl "GET" "/ready" Ready; Decl "GET" "/health" HealthPage].
Definition metrics_route : list decl := [Decl "GET" "/metrics" MetricsPage].

Definition auth_routes : list decl :=
  [Decl "POST" "/api/v1/auth/login" (Operation (fun _ f => RLogin (fd_text f "email") (fd_password f)));
   Decl "POST" "/api/v1/auth/refresh" (Operation (fun _ f => RRefresh (fd_text f "refresh_token")));
   Decl "POST" "/api/v1/auth/logout" (Operation (fun _ f => RLogout (fd_text f "refresh_token")));
   Decl "GET" "/api/v1/auth/me" (Operation (fun _ _ => RMe))].

Definition factory_routes : list decl :=
  [Decl "GET" "/api/v1/factories" (Operation (fun _ _ => RListFactories));
   Decl "GET" "/api/v1/factories/{id}" (Operation (fun id _ => RGetFactory id));
   Decl "GET" "/api/v1/factories/{id}/production-lines" (Operation (fun id _ => RListLines id));
   Decl "GET" "/api/v1/machines/{id}" (Operation (fun id _ => RGetMachine id));
   Decl "GET" "/api/v1/production-lines/{id}/machines" (Operation (fun id _ => RListLineMachines id));
   Decl "GET" "/api/v1/machines/{id}/devices" (Operation (fun id _ => RListMachineDevices id))].

Definition device_routes : list decl :=
  [Decl "GET" "/api/v1/devices" (Operation (fun _ _ => RListDevices));
   Decl "GET" "/api/v1/devices/{id}" (Operation (fun id _ => RGetDevice id));
   Decl "GET" "/api/v1/devices/{id}/sensors" (Operation (fun id _ => RListSensors id));
   Decl "POST" "/api/v1/devices" (Operation (fun _ f =>
     RProvision (mkProvisionDeviceRequest (fd_text f "machine_id") (fd_text f "serial_number") (fd_text f "firmware_version"))));
   Decl "POST" "/api/v1/devices/{id}/rotate-credentials" (Operation (fun id _ => RRotate id));
   Decl "POST" "/api/v1/devices/{id}/decommission" (Operation (fun id _ => RDecommission id))].

Definition telemetry_routes : list decl :=
  [Decl "GET" "/api/v1/telemetry/latest" (Operation (fun _ _ => RTelemetryLatest));
   Decl "GET" "/api/v1/telemetry/range" (Operation (fun _ _ => RTelemetryRange))].

Definition alert_routes : list decl :=
  [Decl "GET" "/api/v1/alerts" (Operation (fun _ _ => RListAlerts));
   Decl "GET" "/api/v1/alerts/{id}" (Operation (fun id _ => RGetAlert id));
   Decl "POST" "/api/v1/alerts/{id}/acknowledge" (Operation (fun id _ => RAcknowledgeAlert id))].

Definition incident_routes : list decl :=
  [Decl "GET" "/api/v1/incidents" (Operation (fun _ _ => RListIncidents));
   Decl "GET" "/api/v1/incidents/{id}" (Operation (fun id _ => RGetIncident id));
   Decl "POST" "/api/v1/incidents/{id}/transition" (Operation (fun id f => RTransition id (fd_text f "status") (fd_text f "note")));
   Decl "POST" "/api/v1/incidents/{id}/assign" (Operation (fun id f => RAssign id (fd_text f "user_id")));
   Decl "POST" "/api/v1/incidents/{id}/resolve" (Operation (fun id f => RResolve id (fd_text f "resolution_notes")))].

(** [main.py]: the routers in the order they are included. *)
Definition app_routes : list decl :=
  framework_routes ++ health_routes ++ metrics_route ++ auth_routes ++ factory_routes ++ device_routes ++ telemetry_routes ++
  alert_routes ++ incident_routes.

(** ** Templates *)

Definition is_param (level : string) : bool := match level with String "{" _ => true | _ => false end.

(** The parameters of a path that a template matches: one level each, not empty. *)
Fixpoint template_match (t path : list string) : option (list string) :=
  match t, path with
  | [], [] => Some []
  | x :: t, y :: path =>
      if is_param x then if bool_decide (y = "") then None else cons y <$> template_match t path
      else if bool_decide (x = y) then template_match t path else None
  | _, _ => None
  end.

(** The levels of a template with its parameters replaced by [id]. *)
Definition fill (id : string) (t : list string) : list string := (fun x => if is_param x then id else x) <$> t.

(** The path of an operation: its template with the parameter filled in. *)
Definition url (template id : string) : string := join_on "/" (fill id (levels template)).

(** Some path may match both. *)
Fixpoint overlap (t t' : list string) : bool :=
  match t, t' with
  | [], [] => true
  | x :: t, y :: t' => (is_param x || is_param y || bool_decide (x = y)) && overlap t t'
  | _, _ => false
  end.

(** ** The router *)

Inductive found := Found (i : nat) (params : list string) | NotAllowed | Redirected | Unknown.

Abbreviation request_table := (list (string * string)).
Definition table : request_table := (fun d => (dc_method d, dc_path d)) <$> app_routes.

(** A path on one line. *)
Definition plain (path : string) : Prop := "010"%char ∉ chars path.

(** What Starlette documents, for paths on one line: routes are tried in order
    and the first whose path and method match wins; a path that matches with
    another method only is 405; a path no route matches is 404, or redirected
    when it would match with the slash at its end added or taken away. *)
Class StarletteRouter (find : request_table -> string -> string -> found) : Prop := {
  find_first tb i m t path ps : plain path ->
    tb !! i = Some (m, t) -> template_match (levels t) (levels path) = Some ps ->
    (forall j t', (j < i)%nat -> tb !! j = Some (m, t') -> template_match (levels t') (levels path) = None) ->
    find tb m path = Found i ps;
  find_found tb m path i ps : plain path ->
    find tb m path = Found i ps -> exists t, tb !! i = Some (m, t) /\ template_match (levels t) (levels path) = Some ps;
  find_unknown tb m path : plain path ->
    find tb m path = Unknown \/ find tb m path = Redirected ->
    Forall (fun mt => template_match (levels (snd mt)) (levels path) = None) tb
}.

(** ** The application *)

(** What FastAPI makes of the body of an operation: it refuses it before it runs
    the dependencies (no JSON), or after them (a field of the wrong type), or
    hands the fields over. *)
Inductive body_outcome := Refused | Invalid | Valid (f : fields).

Record http_request := HttpRequest { hr_method : string; hr_path : string; hr_body : string; hr_request : request }.

Definition no_fields : fields := Fields (fun _ => "") [].

Section App.
  Variable w : api_world.
  Variable cfg : api_config.
  Variable find : request_table -> string -> string -> found.
  Variable parse_body : nat -> string -> body_outcome.
  (** the probes of [_check_dependencies], [generate_latest()] and the pages of the
      framework *)
  Variable dependencies_now : DepStatus.
  Variable generate_latest : string.
  Variable framework_page : string -> response.

Definition run_page (i : nat) (p : page) (params : list string) (hr : http_request) : M api response :=
  let req := hr_request hr in
  match p with
  | Framework => mret (framework_page (hr_path hr))
  | Live => mret (Response 200 (JS "ok") [])
  | Ready => mret (ready dependencies_now)
  | HealthPage => mret (Response 200 (dep_json dependencies_now) [])
  | MetricsPage => mret (Response 200 (JS generate_latest) [])
  | Operation build =>
      let id := default "" (head params) in
      match parse_body i (hr_body hr) with
      | Refused => mret (validation_exception_response (rq_request_id req))
      | Invalid => dependencies w cfg req (build id no_fields) ;; mret (validation_exception_response (rq_request_id req))
      | Valid f => handle w cfg req (build id f)
      end
  end.

(** The router inside the exception handlers. *)
Definition endpoint_app (hr : http_request) : M api response :=
  match find table (hr_method hr) (hr_path hr) with
  | Found i params =>
      match app_routes !! i with
      | Some d => run_page i (dc_page d) params hr
      | None => raise AssertionError
      end
  | NotAllowed => mret (http_exception_response (rq_request_id (hr_request hr)) 405 (Some "Method Not Allowed"))
  | Redirected => mret (Response 307 JNone [])
  | Unknown => mret (http_exception_response (rq_request_id (hr_request hr)) 404 (Some "Not Found"))
  end.

Section Stack.
  Variables (t0 t1 : float) (created : string) (millis : float -> Z) (show : Z -> string).

(** [app]: the middlewares around it. *)
Definition app (hr : http_request) : M (api * access) response :=
  request_stack t0 t1 created millis show (hr_method hr) (hr_path hr) (rq_request_id (hr_request hr)) (endpoint_app hr).

End Stack.

End App.

(** ** Lemmas *)

Lemma template_match_overlap t t' path ps ps' :
  template_match t path = Some ps -> template_match t' path = Some ps' -> overlap t t' = true.
Proof.
  revert t' path ps ps'. induction t as [|x t IH]; intros [|x' t'] [|y path] ps ps'; simpl; try done. intros H H'.
  assert (Hr : forall (z : string) (u : list string) qs,
    (if is_param z then if bool_decide (y = "") then None else cons y <$> template_match u path
     else if bool_decide (z = y) then template_match u path else None) = Some qs ->
    (is_param z = true \/ z = y) /\ exists qs', template_match u path = Some qs').
  { intros z u qs Hz. destruct (is_param z); case_bool_decide; simplify_eq; [|by eauto].
    apply fmap_Some in Hz as (q & ? & _). eauto. }
  apply Hr in H as [Hx [q Hq]]. apply Hr in H' as [Hx' [q' Hq']]. rewrite (IH _ _ _ _ Hq Hq'), andb_true_r.
  destruct Hx as [->| ->]; [done|]. destruct Hx' as [->| ->]; [by rewrite orb_true_r|]. by rewrite (bool_decide_eq_true_2 (y = y)), orb_true_r.
Qed.

Lemma split_on_no_sep sep s : Forall (fun x => sep ∉ chars x) (split_on sep s).
Proof.
  induction s as [|c s IH]; simpl; [repeat constructor; apply not_elem_of_nil|].
  destruct (Ascii.eqb_spec c sep) as [->|Hc]; [constructor; [apply not_elem_of_nil | done]|].
  destruct (split_on sep s) as [|w ws]; [constructor; [|done] | apply Forall_cons in IH as [Hw Hws]; constructor; [|done]];
    simpl; apply not_elem_of_cons; split; [congruence | apply not_elem_of_nil | congruence | done].
Qed.

Lemma split_join sep l : l <> [] -> Forall (fun x => sep ∉ chars x) l -> split_on sep (join_on sep l) = l.
Proof.
  intros Hne Hl. induction Hl as [|x l Hx Hl IH]; [done|]. destruct l as [|y l]; [by apply split_on_none|].
  change (join_on sep (x :: y :: l)) with (x +:+ String sep (join_on sep (y :: l))). by rewrite split_on_app, IH.
Qed.

Lemma levels_url template id : "/"%char ∉ chars id -> levels (url template id) = fill id (levels template).
Proof.
  intros Hid. apply split_join.
  - unfold fill. intros H%fmap_nil_inv. by apply split_on_ne in H.
  - apply Forall_fmap. eapply Forall_impl; [apply split_on_no_sep|]. intros x Hx. simpl. by destruct (is_param x).
Qed.

Lemma join_on_chars c sep l : c ∈ chars (join_on sep l) -> c = sep \/ exists x, x ∈ l /\ c ∈ chars x.
Proof.
  induction l as [|x l IH]; [by intros []%elem_of_nil|]. destruct l as [|y l]; [right; exists x; split; [by left | done]|].
  change (join_on sep (x :: y :: l)) with (x +:+ String sep (join_on sep (y :: l))). rewrite chars_app. simpl chars.
  intros [Hx|[->|H]%elem_of_cons]%elem_of_app; [right; exists x; split; [by left | done] | by left|].
  destruct (IH H) as [->|(z & Hz & Hc)]; [by left | right; exists z; split; [by right | done]].
Qed.

Lemma split_on_chars c sep s x : x ∈ split_on sep s -> c ∈ chars x -> c ∈ chars s.
Proof.
  revert x. induction s as [|a s IH]; intros x; simpl; [by intros ->%list_elem_of_singleton|].
  pose proof (split_on_ne sep s) as Hne. destruct (Ascii.eqb_spec a sep) as [->|Ha].
  - intros [->|Hx]%elem_of_cons Hc; [by apply elem_of_nil in Hc | right; by eapply IH].
  - destruct (split_on sep s) as [|w ws]; [done|]. intros [->|Hx]%elem_of_cons Hc; [|right; eapply IH; [by right | done]].
    simpl in Hc. apply elem_of_cons in Hc as [->|Hc]; [by left | right; eapply IH; [by left | done]].
Qed.

Lemma plain_url template id : plain template -> plain id -> plain (url template id).
Proof.
  intros Ht Hid Hc. apply join_on_chars in Hc as [?|(x & Hx & Hc)]; [done|]. unfold fill in Hx.
  apply list_elem_of_fmap in Hx as (y & -> & Hy). destruct (is_param y); [by apply Hid | apply Ht; by eapply split_on_chars].
Qed.

Definition params_of (id : string) (t : list string) : list string := (fun _ => id) <$> filter (fun x => is_param x = true) t.

Lemma fill_match id t : id <> "" -> template_match t (fill id t) = Some (params_of id t).
Proof.
  intros Hid. unfold params_of. induction t as [|x t IH]; [done|]. csimpl. rewrite filter_cons. destruct (is_param x) eqn:E; simpl.
  - rewrite bool_decide_eq_false_2 by done. by rewrite IH.
  - by rewrite bool_decide_eq_true_2.
Qed.

(** No two operations with the same method may match the same path. *)
Fixpoint unambiguous (l : list decl) : bool :=
  match l with
  | [] => true
  | d :: l =>
      forallb (fun d' => negb (bool_decide (dc_method d = dc_method d') && overlap (levels (dc_path d)) (levels (dc_path d')))) l &&
      unambiguous l
  end.

Lemma unambiguous_lookup l i j d d' : unambiguous l = true -> (i < j)%nat -> l !! i = Some d -> l !! j = Some d' ->
  dc_method d = dc_method d' -> overlap (levels (dc_path d)) (levels (dc_path d')) = false.
Proof.
  revert i j. induction l as [|x l IH]; intros i j Hu Hij Hi Hj Hm; [done|]. apply andb_prop in Hu as [Hx Hl].
  destruct j as [|j]; [lia|]. destruct i as [|i]; simpl in *; [|by apply (IH i j); [|lia|..]].
  injection Hi as ->. rewrite forallb_forall in Hx. specialize (Hx d' ltac:(by eapply list_elem_of_In, list_elem_of_lookup_2)).
  rewrite bool_decide_eq_true_2 in Hx by done. by apply negb_true_iff in Hx.
Qed.

Lemma app_routes_unambiguous : unambiguous app_routes = true.
Proof. by vm_compute. Qed.

Lemma app_routes_plain : Forall (fun d => plain (dc_path d)) app_routes.
Proof. apply (bool_decide_unpack _). by vm_compute. Qed.

Lemma table_lookup i m t : table !! i = Some (m, t) -> exists d, app_routes !! i = Some d /\ dc_method d = m /\ dc_path d = t.
Proof. unfold table. rewrite list_lookup_fmap. intros (d & Hd & [= -> ->])%fmap_Some. by exists d. Qed.

(** The operations that need no token. *)
Definition public_paths : list string := ["/api/v1/auth/login"; "/api/v1/auth/refresh"; "/api/v1/auth/logout"].

Lemma operations_guarded : Forall (fun d => match dc_page d with
  | Operation build => (dc_path d ∈ public_paths /\ dc_method d = "POST") \/ forall id f, is_Some (ep_permission (endpoint_of (build id f)))
  | _ => True end) app_routes.
Proof.
  repeat (apply Forall_cons; split; [cbn [dc_page dc_path dc_method]; first [done | right; intros id f; by eexists
    | left; split; [apply (bool_decide_unpack _); by vm_compute | done]]|]). apply Forall_nil_2.
Qed.

(** A template without parameters matches its own path only. *)
Lemma literal_match t path ps : Forall (fun x => is_param x = false) t -> template_match t path = Some ps -> t = path.
Proof.
  revert path ps. induction t as [|x t IH]; intros [|y path] ps; simpl; try done. intros [Hx Ht]%Forall_cons.
  rewrite Hx. case_bool_decide; [subst|done]. intros H. f_equal. by eapply IH.
Qed.

Lemma public_paths_literal : Forall (fun p => Forall (fun x => is_param x = false) (levels p)) public_paths.
Proof. apply (bool_decide_unpack _). by vm_compute. Qed.

Lemma public_literal p path ps : p ∈ public_paths -> template_match (levels p) (levels path) = Some ps -> path = p.
Proof.
  intros Hp Hm. apply literal_match in Hm; [|by apply (proj1 (Forall_forall _ _) public_paths_literal)].
  rewrite <- (join_split "/"%char path), <- (join_split "/"%char p). by rewrite Hm.
Qed.

Lemma same_data_refl s : same_data s s.
Proof. by split_and!. Qed.

(** The dependencies of an operation that needs a token, on what they leave. *)
Definition valid_token (w : api_world) (cfg : api_config) (req : request) (s : api) : Prop :=
  exists claims, parse_and_validate (aw_jwt_decode w) (pg_now (aw_auth w) (pg_count (ai_auth s))) (_bearer_token req)
    (gc_access_secret cfg) TOKEN_TYPE_ACCESS = Ok claims.

(** Data untouched, and an error of the client's side as the answer. *)
Definition refused (rid : string) (s : api) (m : M api response) : Prop :=
  same_data s (exec m s) /\ rs_status (answer_of rid (eval m s)) ∈ [400; 401; 403; 429].

Lemma operation_refused w cfg parse_body deps latest pages (build : string -> fields -> route) i params hr s :
  (forall id f, is_Some (ep_permission (endpoint_of (build id f)))) ->
  refused (rq_request_id (hr_request hr)) s (run_page w cfg parse_body deps latest pages i (Operation build) params hr) \/
  valid_token w cfg (hr_request hr) s.
Proof.
  intros Hp. unfold refused, run_page. set (id := default "" (head params)).
  assert (Hst : forall st code msg hs, st = 401 \/ st = 403 \/ st = 429 ->
    rs_status (answer_of (rq_request_id (hr_request hr)) (Raise (APIError st code msg hs))) ∈ [400; 401; 403; 429]).
  { intros st code msg hs Hst. simpl. destruct Hst as [->|[->| ->]]; set_solver. }
  destruct (parse_body i (hr_body hr)) as [| |f].
  - left. split; [apply same_data_refl | simpl; set_solver].
  - destruct (Hp id no_fields) as [p Hpp]. destruct (dependencies_spec w cfg (hr_request hr) _ p s Hpp) as [(Hd & st & code & msg & hs & He & H)|(c & Hc & _)].
    + left. unfold exec, eval, mbind, M_bind in *. destruct (dependencies _ _ _ _ s) as [[u|e] s1]; simpl in *; [done|].
      injection He as ->. split; [exact Hd | by apply Hst].
    + right. by exists c.
  - destruct (Hp id f) as [p Hpp]. destruct (guarded w cfg (hr_request hr) _ p s Hpp) as [(Hd & st & code & msg & hs & He & H)|(c & Hc & _)].
    + left. split; [exact Hd|]. rewrite He. by apply Hst.
    + right. by exists c.
Qed.

(** *** A router *)

Fixpoint first_full (i : nat) (tb : request_table) (m path : string) : option (nat * list string) :=
  match tb with
  | [] => None
  | (m', t) :: tb =>
      match (if bool_decide (m' = m) then template_match (levels t) (levels path) else None) with
      | Some ps => Some (i, ps)
      | None => first_full (S i) tb m path
      end
  end.

Definition first_match (tb : request_table) (m path : string) : found :=
  match first_full 0 tb m path with
  | Some (i, ps) => Found i ps
  | None => if existsb (fun mt => bool_decide (is_Some (template_match (levels (snd mt)) (levels path)))) tb then NotAllowed else Unknown
  end.

Lemma first_full_some k tb m path i ps : first_full k tb m path = Some (i, ps) ->
  exists t, (k <= i)%nat /\ tb !! (i - k)%nat = Some (m, t) /\ template_match (levels t) (levels path) = Some ps /\
    forall j t', (j < i - k)%nat -> tb !! j = Some (m, t') -> template_match (levels t') (levels path) = None.
Proof.
  revert k. induction tb as [|[m' t] tb IH]; intros k; simpl; [done|].
  destruct (if bool_decide (m' = m) then _ else None) as [qs|] eqn:E.
  - intros [= <- <-]. case_bool_decide; [subst|done]. exists t. rewrite Nat.sub_diag. split_and!; [done..|]. intros. lia.
  - intros (t' & Hk & Ht & Hm & Hb)%IH. exists t'. replace (i - k)%nat with (S (i - S k)) by lia. split_and!; [lia | done | done|].
    intros [|j] t''; simpl; [|intros Hj Ht'; apply (Hb j t''); [lia | exact Ht']]. intros _ [= -> ->]. by rewrite bool_decide_eq_true_2 in E.
Qed.

Lemma first_full_none k tb m path i t : first_full k tb m path = None -> tb !! i = Some (m, t) ->
  template_match (levels t) (levels path) = None.
Proof.
  revert k i. induction tb as [|[m' t'] tb IH]; intros k i; simpl; [done|].
  destruct (if bool_decide (m' = m) then _ else None) as [qs|] eqn:E; [done|]. intros Hf. destruct i as [|i]; [|by eapply IH].
  intros [= -> ->]. by rewrite bool_decide_eq_true_2 in E.
Qed.

#[export] Instance first_match_router : StarletteRouter first_match.
Proof.
  constructor.
  - intros tb i m t path ps _ Hi Hm Hbefore. unfold first_match. destruct (first_full 0 tb m path) as [[j qs]|] eqn:E.
    + destruct (first_full_some _ _ _ _ _ _ E) as (t' & _ & Hj & Hqs & Hb). rewrite Nat.sub_0_r in *.
      destruct (lt_eq_lt_dec i j) as [[Hlt| ->]|Hlt]; [by rewrite (Hb i t Hlt Hi) in Hm | congruence | by rewrite (Hbefore j t' Hlt Hj) in Hqs].
    + by rewrite (first_full_none _ _ _ _ _ _ E Hi) in Hm.
  - intros tb m path i ps _. unfold first_match. destruct (first_full 0 tb m path) as [[j qs]|] eqn:E; [|by case_match].
    intros [= <- <-]. destruct (first_full_some _ _ _ _ _ _ E) as (t & _ & Hj & Hqs & _). rewrite Nat.sub_0_r in Hj. by exists t.
  - intros tb m path _. unfold first_match. destruct (first_full 0 tb m path) as [[j qs]|] eqn:E; [naive_solver|].
    destruct (existsb _ tb) eqn:Ex; [naive_solver|]. intros _. apply Forall_forall. intros mt Hmt.
    destruct (template_match _ _) as [ps|] eqn:Em; [|done]. assert (existsb (fun mt =>
      bool_decide (is_Some (template_match (levels (snd mt)) (levels path)))) tb = true); [|congruence].
    apply existsb_exists. exists mt. split; [by apply list_elem_of_In|]. apply bool_decide_eq_true. by rewrite Em.
Qed.

Definition find_in_app (method path : string) : option (string * list string) :=
  match first_match table method path with
  | Found i ps => d ← app_routes !! i; Some (dc_path d, ps)
  | _ => None
  end.

(** ** Theorems *)

(** [C17] Every operation can be called, and no other one answers in its place:
    for the method of a declared operation and its path with any id in the place
    of the parameter (not empty, without a slash or line feed), the router finds that
    operation and hands over that id, whatever the order of registration; and
    what it finds for any request of one line is the only declared operation of
    that method whose path matches. *)
Theorem routes_addressable (find : request_table -> string -> string -> found) :
  StarletteRouter find ->
  (forall i d id, app_routes !! i = Some d -> id <> "" -> "/"%char ∉ chars id -> plain id ->
     find table (dc_method d) (url (dc_path d) id) = Found i (params_of id (levels (dc_path d)))) /\
  (forall m path i ps j d, plain path -> find table m path = Found i ps -> app_routes !! j = Some d -> dc_method d = m ->
     is_Some (template_match (levels (dc_path d)) (levels path)) -> j = i).
Proof.
  intros HS. assert (Hone : forall i j d d' path, app_routes !! i = Some d -> app_routes !! j = Some d' -> dc_method d = dc_method d' ->
    is_Some (template_match (levels (dc_path d)) (levels path)) -> is_Some (template_match (levels (dc_path d')) (levels path)) -> i = j).
  { intros i j d d' path Hi Hj Hm [ps Hps] [ps' Hps']. destruct (lt_eq_lt_dec i j) as [[Hlt| ->]|Hlt]; [|done|]; exfalso.
    - pose proof (unambiguous_lookup _ i j d d' app_routes_unambiguous Hlt Hi Hj Hm). by rewrite (template_match_overlap _ _ _ _ _ Hps Hps') in *.
    - pose proof (unambiguous_lookup _ j i d' d app_routes_unambiguous Hlt Hj Hi (eq_sym Hm)).
      by rewrite (template_match_overlap _ _ _ _ _ Hps' Hps) in *. }
  split.
  - intros i d id Hi Hid Hslash Hplain.
    assert (Hurl : plain (url (dc_path d) id)) by (apply plain_url; [by apply (proj1 (Forall_lookup _ _) app_routes_plain i) | done]).
    assert (Hmatch : template_match (levels (dc_path d)) (levels (url (dc_path d) id)) = Some (params_of id (levels (dc_path d))))
      by (rewrite levels_url by done; by apply fill_match).
    eapply find_first; [exact Hurl | unfold table; by rewrite list_lookup_fmap, Hi | exact Hmatch|].
    intros j t' Hj (d' & Hj' & Hm & <-)%table_lookup. destruct (template_match (levels (dc_path d')) _) as [ps|] eqn:E; [|done].
    assert (j = i); [|lia]. by eapply (Hone j i d' d); [..|eexists; exact Hmatch].
  - intros m path i ps j d Hplain Hf Hj Hm Hmatch. destruct (find_found _ _ _ _ _ Hplain Hf) as (t & Ht & Hps). apply table_lookup in Ht as (d' & Hi & Hm' & <-).
    eapply (Hone j i d d'); [done | done | congruence | exact Hmatch | by eexists].
Qed.

Lemma routes_addressable_witness :
  find_in_app "GET" "/api/v1/devices/7/sensors" = Some ("/api/v1/devices/{id}/sensors", ["7"]) /\
  (forall i d id, app_routes !! i = Some d -> id <> "" -> "/"%char ∉ chars id -> plain id ->
     first_match table (dc_method d) (url (dc_path d) id) = Found i (params_of id (levels (dc_path d)))) /\
  (forall m path i ps j d, plain path -> first_match table m path = Found i ps -> app_routes !! j = Some d -> dc_method d = m ->
     is_Some (template_match (levels (dc_path d)) (levels path)) -> j = i).
Proof. split; [by vm_compute|]. exact (routes_addressable first_match first_match_router). Defined.

(** [C3] Nothing happens without a token.  For every method, path (of one line), headers and body:
    the application answers.  Unless the bearer token is a valid access token
    now, or the request is a POST to login, refresh or logout, no table, refresh
    token or InfluxDB query was touched; and if the request is for an operation
    of the API, its answer is a 400, 401, 403 or 429. *)
Theorem http_requests_guarded (find : request_table -> string -> string -> found) w cfg parse_body deps latest pages
    (t0 t1 : float) created millis show (hr : http_request) (s : api) (a : access) :
  StarletteRouter find -> plain (hr_path hr) ->
  exists resp s' a',
    app w cfg find parse_body deps latest pages t0 t1 created millis show hr (s, a) = (Ok resp, (s', a')) /\
    (valid_token w cfg (hr_request hr) s \/ (hr_method hr = "POST" /\ hr_path hr ∈ public_paths) \/
     (same_data s s' /\
      (forall i ps d build, find table (hr_method hr) (hr_path hr) = Found i ps -> app_routes !! i = Some d -> dc_page d = Operation build ->
         rs_status resp ∈ [400; 401; 403; 429]))).
Proof.
  intros HS Hplain. unfold app.
  destruct (request_stack_state t0 t1 created millis show (hr_method hr) (hr_path hr) (rq_request_id (hr_request hr))
    (endpoint_app w cfg find parse_body deps latest pages hr) s a) as (resp & a' & Hrun & Hst & _).
  eexists resp, _, a'. split; [exact Hrun|]. rewrite Hst. clear Hrun Hst resp a'. unfold endpoint_app, exec, eval.
  destruct (find table (hr_method hr) (hr_path hr)) as [i ps| | |] eqn:Hf;
    [|right; right; split; [apply same_data_refl | by intros]..].
  destruct (app_routes !! i) as [d|] eqn:Hi; [|right; right; split; [apply same_data_refl | intros; congruence]].
  destruct (find_found _ _ _ _ _ Hplain Hf) as (t & Ht & Hm). apply table_lookup in Ht as (d' & Hd' & Hmeth & <-).
  assert (d' = d) as -> by congruence. pose proof operations_guarded as Hg. rewrite Forall_lookup in Hg. specialize (Hg i d Hi).
  destruct (dc_page d) as [| | | | |build] eqn:Hp; try (right; right; split; [apply same_data_refl | intros; congruence]).
  destruct Hg as [[Hpub Hpost]|Hperm].
  - right. left. split; [congruence|]. by rewrite (public_literal _ _ _ Hpub Hm).
  - destruct (operation_refused w cfg parse_body deps latest pages build i ps hr s Hperm) as [[Hd Hst]|Hv]; [|by left].
    right. right. split; [exact Hd|]. intros. exact Hst.
Qed.

(** Provisioning a device without a token. *)
Lemma http_requests_guarded_witness :
  let hr := HttpRequest "POST" "/api/v1/devices" "{}" (demo_request "" []) in
  let run := app demo_api_world demo_api_config first_match (fun _ _ => Valid no_fields) (mkDepStatus "ok" "ok" "ok" "ok" "ok") ""
               (fun _ => Response 200 JNone []) fzero fzero "" (fun _ => 0) (fun _ => "") hr in
  rs_status <$> (match eval run (demo_api, Access [] [] []) with Ok r => Some r | Raise _ => None end) = Some 401 /\
  exists resp s' a', run (demo_api, Access [] [] []) = (Ok resp, (s', a')) /\
    (valid_token demo_api_world demo_api_config (hr_request hr) demo_api \/ (hr_method hr = "POST" /\ hr_path hr ∈ public_paths) \/
     (same_data demo_api s' /\
      (forall i ps d build, first_match table (hr_method hr) (hr_path hr) = Found i ps -> app_routes !! i = Some d -> dc_page d = Operation build ->
         rs_status resp ∈ [400; 401; 403; 429]))).
Proof. intros hr run. split; [by vm_compute|]. apply (http_requests_guarded first_match); [exact first_match_router | apply (bool_decide_unpack _); by vm_compute]. Defined.
