(* ===== verification/Wiring.v ===== *)
(** What the services build from their settings before they run: the Kafka
    clients of each [kafka_io.py], [kafka_producer.py] and of [ws_alerts.py] with
    their settings, the Redis and InfluxDB clients, and the states the models
    start in; and [poll], from what librdkafka hands over to a round of the
    consumer loop. *)

From stdpp Require Import prelude strings pretty list gmap.
From Stdlib Require Import ZArith Lia Ascii SpecFloat.
From S2P Require Import Prelude PyFloat Effects PyStr Reliability Postgres Events Kafka Auth Ingestion Window StreamProcessor.
From S2P Require Import Detect FeatureStore AnomalyDetector Alerts AlertService ApiCore ApiService Simulator Config.

Local Open Scope Z_scope.

(** ** Kafka clients *)

Record consumer_settings := ConsumerSettings {
  cn_bootstrap_servers : string; cn_group_id : string; cn_enable_auto_commit : bool; cn_auto_offset_reset : string;
  (** [subscribe] *)
  cn_topics : list string
}.
Record producer_settings := ProducerSettings { pd_bootstrap_servers : string; pd_acks : string; pd_linger_ms : Z }.

Definition join_brokers (brokers : list string) : string := String.concat "," brokers.

(** [_new_producer], the same in the four services. *)
Definition _new_producer (brokers : list string) : producer_settings := ProducerSettings (join_brokers brokers) "all" 50.

(** [_new_consumer] of the alert service; the others write it out. *)
Definition _new_consumer (brokers : list string) (group_id topic : string) : consumer_settings :=
  ConsumerSettings (join_brokers brokers) group_id false "earliest" [topic].

(** A [KafkaIO] or [KafkaSink]: its consumers, its producers by topic, and the
    breaker, when there is one. *)
Record kafka_io := KafkaIO {
  io_consumers : list consumer_settings;
  io_producers : list (string * producer_settings);
  io_breaker : option breaker
}.

Definition ingestion_sink (c : ingestion_config) : kafka_io :=
  let p := _new_producer (ic_kafka_brokers c) in
  KafkaIO [] [(topic_telemetry_raw (ic_sink c), p); (topic_device_events (ic_sink c), p); (topic_dead_letter (ic_sink c), p)]
    (Some (new_breaker (ic_breaker_failure_threshold c) (ic_breaker_cooldown_seconds c))).

Definition stream_io (c : stream_config) : kafka_io :=
  let p := _new_producer (tc_kafka_brokers c) in
  KafkaIO [_new_consumer (tc_kafka_brokers c) (tc_consumer_group_id c) (tc_topic_telemetry_raw c)]
    [(sc_topic_processed (tc_sp c), p); (sc_topic_dead_letter (tc_sp c), p)]
    (Some (new_breaker (tc_breaker_failure_threshold c) (tc_breaker_cooldown_seconds c))).

Definition detector_io (c : detector_config) : kafka_io :=
  let p := _new_producer (nc_kafka_brokers c) in
  KafkaIO [_new_consumer (nc_kafka_brokers c) (nc_consumer_group_id c) (nc_topic_processed c)]
    [(ac_topic_anomalies (nc_ad c), p); (ac_topic_dead_letter (nc_ad c), p)]
    (Some (new_breaker (nc_breaker_failure_threshold c) (nc_breaker_cooldown_seconds c))).

Definition alerting_io (c : alerting_config) : kafka_io :=
  let p := _new_producer (lg_kafka_brokers c) in
  KafkaIO [_new_consumer (lg_kafka_brokers c) (lg_consumer_group_id c) (lc_topic_anomalies (lg_als c));
           _new_consumer (lg_kafka_brokers c) (lg_consumer_group_id c) (lc_topic_device_events (lg_als c))]
    [(lc_topic_alerts (lg_als c), p); (lc_topic_dead_letter (lg_als c), p)] None.

(** The consumer of [run_alerts_fan_out], with the uuid of this start. *)
Definition fan_out_consumer (brokers : list string) (topic uuid4 : string) : consumer_settings :=
  ConsumerSettings (join_brokers brokers) ("indusense-api-ws-" +:+ uuid4) false "latest" [topic].

(** ** [poll] *)

(** What [Consumer.poll] hands over: nothing, a message that is an error, a
    message; or it raises. *)
Inductive raw_poll := RawNone | RawError (text : string) | RawMessage (m : fetched) | RawRaise (e : exn).

(** [KafkaIO.poll]. *)
Definition poll (r : raw_poll) : res (option fetched) :=
  match r with
  | RawNone => Ok None
  | RawError text => Raise (OtherError "KafkaException" text)
  | RawMessage m => Ok (Some m)
  | RawRaise e => Raise e
  end.

Section Rounds.
  Context {S : Type}.
  Variable process : fetched -> M S bool.

(** A round of the loop of the stream processor and the detector. *)
Definition poll_round (r : raw_poll) (commit_error : option exn) : M (S * Z) unit :=
  try_else (of_res (poll r)) (fun e => if is_kafka_exception e then mret tt else raise e)
    (fun msg => match msg with
                | None => mret tt
                | Some m => should_commit ← on_service (process m);
                            if (should_commit : bool) then commit m commit_error else mret tt
                end).

(** A round of the alert service's loops, which poll the client themselves and
    look at [msg.error()]. *)
Definition direct_round (r : raw_poll) (commit_error : option exn) : M (S * Z) unit :=
  match r with
  | RawRaise e => if is_kafka_exception e then mret tt else raise e
  | RawNone | RawError _ => mret tt
  | RawMessage m => should_commit ← on_service (process m);
                    if (should_commit : bool) then commit m commit_error else mret tt
  end.

(** The event of the loop's model. *)
Definition poll_event_of (r : raw_poll) (commit_error : option exn) : poll_event :=
  match r with RawNone => PollNone | RawMessage m => PollMessage m commit_error | RawError _ | RawRaise _ => PollError end.

(** Unless [poll] raises something else, both are one step of [consume_loop]. *)
Lemma rounds_are_steps r commit_error s :
  (forall e, r = RawRaise e -> is_kafka_exception e = true) ->
  poll_round r commit_error s = consume_loop process [poll_event_of r commit_error] s /\
  direct_round r commit_error s = consume_loop process [poll_event_of r commit_error] s.
Proof.
  intros Hk. destruct r as [|text|m|e]; [done | done | |].
  - unfold poll_round, direct_round, poll_event_of, try_else, of_res. simpl. unfold mbind, M_bind.
    destruct (on_service (process m) s) as [[b|e] s1]; [|done].
    destruct ((if b then commit m commit_error else mret tt) s1) as [[[]|e] s2]; done.
  - unfold poll_round, direct_round, try_else, of_res. simpl. by rewrite (Hk e eq_refl).
Qed.

End Rounds.

(** ** The other clients *)

(** [addr.rsplit(":", 1)]. *)
Fixpoint before_last_colon (s : string) : string :=
  match s with
  | EmptyString => EmptyString
  | String c s' => if bool_decide (":"%char ∈ chars s') then String c (before_last_colon s')
                   else if Ascii.eqb c ":"%char then EmptyString else String c (before_last_colon s')
  end.

Record redis_settings := RedisSettings { rd_host : string; rd_port : Z; rd_password : option string; rd_db : Z }.

(** [Deduplicator.__init__]. *)
Definition deduplicator (c : stream_config) : res redis_settings :=
  if negb (bool_decide (":"%char ∈ chars (tc_redis_addr c))) then Raise (OtherError "IndexError" "list index out of range")
  else match parse_int 10 (after_last_colon (tc_redis_addr c)) with
       | None => Raise (ValueError "invalid literal for int() with base 10")
       | Some port => Ok (RedisSettings (before_last_colon (tc_redis_addr c)) port
                            (if bool_decide (tc_redis_password c = "") then None else Some (tc_redis_password c)) (tc_redis_db c))
       end.

(** [InfluxSink.__init__]. *)
Record influx_settings := InfluxSettings { fx_url : string; fx_token : string; fx_org : string; fx_bucket : string; fx_breaker : breaker }.
Definition influx_sink (c : stream_config) : influx_settings :=
  InfluxSettings (tc_influx_url c) (tc_influx_token c) (tc_influx_org c) (tc_influx_bucket c)
    (new_breaker (tc_breaker_failure_threshold c) (tc_breaker_cooldown_seconds c)).

(** ** The states the services start in *)

Definition start_breaker (io : kafka_io) : breaker := default (new_breaker 1 fzero) (io_breaker io).

(** With what the broker, Redis and Postgres hold from before. *)
Definition start_ingestion (c : ingestion_config) (k : kafka) : ing :=
  Ing k (start_breaker (ingestion_sink c)) (Metrics ∅) [] 0 [].

Definition start_stream (c : stream_config) (k : kafka) (redis : gmap string Z) : res sp :=
  _ ← deduplicator c;
  Ok (Sp k (start_breaker (stream_io c)) (fx_breaker (influx_sink c)) 0 [] 0 redis [] (Metrics ∅) 0).

(** [Catalog.__init__] refreshes first, and its error ends the start. *)
Definition start_detector (c : detector_config) (k : kafka) (claimed : gset string) (rows : res (list catalog_row)) : res ad :=
  rows ← rows;
  Ok (Ad k (start_breaker (detector_io c)) (Metrics ∅) 0 claimed (refresh rows) (mkStatisticalTrackers (nc_ewma_alpha c) ∅)
        (new_feature_store (nc_forest_training_buffer_size c)) [] 0 0).

(** ** Theorems *)

(** What at-least-once delivery asks of the clients. *)
Definition keeps_uncommitted (c : consumer_settings) : Prop := cn_enable_auto_commit c = false /\ cn_auto_offset_reset c = "earliest".
Definition waits_for_replicas (p : producer_settings) : Prop := pd_acks p = "all".

Lemma clients_safe ci cs cd ca :
  Forall keeps_uncommitted (io_consumers (stream_io cs) ++ io_consumers (detector_io cd) ++ io_consumers (alerting_io ca)) /\
  Forall waits_for_replicas ((io_producers (ingestion_sink ci) ++ io_producers (stream_io cs) ++ io_producers (detector_io cd) ++
                               io_producers (alerting_io ca)).*2).
Proof. split; repeat constructor. Qed.

(** [C35] The clients carry the pipeline.  Whatever the environment, when the four
    services load their settings: every topic a service's consumers subscribe to is
    one its predecessor has a producer for, as is the topic of the API's feed; no
    consumer commits on its own and each starts from the earliest offset its
    group has not committed, so that only [commit] moves an offset; every producer
    waits for all replicas, which the theorems on lost messages assume of the
    broker; consumers of different services are in different groups, and two
    processes of the API with different uuids too, so each of them gets all
    alerts. *)
Theorem clients_carry_pipeline (env : environ) ci cs cd ca (uuid4 uuid4' : string) :
  load_ingestion env = Ok ci -> load_stream env = Ok cs -> load_detector env = Ok cd -> load_alerting env = Ok ca -> uuid4 <> uuid4' ->
  let feed u := fan_out_consumer (pc_kafka_brokers (load_api env)) (pc_topic_alerts (load_api env)) u in
  let topics cn := concat (cn_topics <$> cn) in
  topics (io_consumers (stream_io cs)) ⊆ (io_producers (ingestion_sink ci)).*1 /\
  topics (io_consumers (detector_io cd)) ⊆ (io_producers (stream_io cs)).*1 /\
  topics (io_consumers (alerting_io ca)) ⊆ (io_producers (detector_io cd)).*1 ++ (io_producers (ingestion_sink ci)).*1 /\
  cn_topics (feed uuid4) ⊆ (io_producers (alerting_io ca)).*1 /\
  Forall keeps_uncommitted (io_consumers (stream_io cs) ++ io_consumers (detector_io cd) ++ io_consumers (alerting_io ca)) /\
  Forall waits_for_replicas ((io_producers (ingestion_sink ci) ++ io_producers (stream_io cs) ++ io_producers (detector_io cd) ++
                               io_producers (alerting_io ca)).*2) /\
  cn_group_id (feed uuid4) <> cn_group_id (feed uuid4') /\
  (forall c c', c ∈ io_consumers (stream_io cs) -> c' ∈ io_consumers (detector_io cd) ++ io_consumers (alerting_io ca) ->
     cn_group_id c <> cn_group_id c').
Proof.
  intros (Bi & I1 & I2 & I3)%load_ingestion_shares (Bs & Gs & S1 & S2 & S3)%load_stream_shares
    (Bd & Gd & D1 & D2 & D3)%load_detector_shares (Ba & Ga & A1 & A2 & A3 & A4)%load_alerting_shares Hu feed topics.
  pose proof (clients_safe ci cs cd ca) as [Hc Hp].
  split_and!; [| | | | exact Hc | exact Hp | |].
  - intros t. subst topics. cbn. rewrite !elem_of_cons, S1, I1. tauto.
  - intros t. subst topics. cbn. rewrite !elem_of_cons, D1, S2. tauto.
  - intros t. subst topics. cbn. rewrite !elem_of_cons, A1, A2, D2, I2. tauto.
  - intros t. cbn. rewrite !elem_of_cons, A3. tauto.
  - cbn. intros E. by apply append_inj_l in E.
  - intros c c'. cbn. rewrite !elem_of_cons, !elem_of_nil.
    intros [-> | []] [-> | [-> | [-> | []]]]; cbn; rewrite Gs, ?Gd, ?Ga; unfold group_id; by intros ?%append_inj_l.
Qed.

Lemma clients_carry_pipeline_witness :
  exists ci cs, load_ingestion production_env = Ok ci /\ load_stream production_env = Ok cs /\
    concat (cn_topics <$> io_consumers (stream_io cs)) ⊆ (io_producers (ingestion_sink ci)).*1.
Proof.
  destruct (load_ingestion production_env) as [ci|] eqn:Hi; [|by vm_compute in Hi].
  destruct (load_stream production_env) as [cs|] eqn:Hs; [|by vm_compute in Hs].
  destruct (load_detector production_env) as [cd|] eqn:Hd; [|by vm_compute in Hd].
  destruct (load_alerting production_env) as [ca|] eqn:Ha; [|by vm_compute in Ha].
  exists ci, cs. split; [reflexivity|]. split; [reflexivity|].
  exact (proj1 (clients_carry_pipeline production_env ci cs cd ca "a" "b" Hi Hs Hd Ha ltac:(discriminate))).
Defined.
