(* ===== verification/Metrics.v ===== *)
(** [metrics.py] of every service: the families of metrics and their labels, and
    what the services write into them.  The class [Metered] says that a term
    touches only the series of declared families, with a value for each label,
    and never lowers a counter; its instances follow the constructs of the monad,
    so that it is inferred for the handlers as they are written. *)

From stdpp Require Import prelude strings list gmap.
From Stdlib Require Import ZArith Lia Ascii.
From S2P Require Import Prelude PyFloat Effects Reliability Postgres Events Kafka Detect IsolationForest FeatureStore.
From S2P Require Import Window Incidents Alerts AlertService Logging.
From S2P Require Ingestion StreamProcessor AnomalyDetector.

Local Open Scope Z_scope.

(** ** Families *)

Inductive metric_kind := Counter | Gauge | Histogram.

(** A constructor's call: the class, the name and the label names. *)
Record family := Family { fm_kind : metric_kind; fm_name : string; fm_labels : list string }.

(** [ingestion/metrics.py]. *)
Definition ingestion_metrics : list family :=
  [Family Counter "messages_received_total" ["topic_kind"];
   Family Counter "messages_processed_total" ["result"];
   Family Counter "messages_failed_total" ["reason"];
   Family Counter "dlq_messages_total" [];
   Family Histogram "processing_latency_seconds" [];
   Family Gauge "mqtt_connections" []].

(** [stream-processor/metrics.py]. *)
Definition stream_processor_metrics : list family :=
  [Family Counter "messages_consumed_total" [];
   Family Counter "duplicate_events_total" [];
   Family Counter "messages_failed_total" ["reason"];
   Family Counter "dlq_messages_total" [];
   Family Histogram "processing_latency_seconds" [];
   Family Gauge "kafka_consumer_lag" [];
   Family Counter "windowed_aggregates_written_total" []].

(** [anomaly-detector/metrics.py]. *)
Definition anomaly_detector_metrics : list family :=
  [Family Counter "messages_consumed_total" [];
   Family Counter "anomalies_detected_total" ["method"];
   Family Counter "messages_failed_total" ["reason"];
   Family Counter "dlq_messages_total" [];
   Family Histogram "processing_latency_seconds" [];
   Family Gauge "kafka_consumer_lag" [];
   Family Counter "isolation_forests_trained_total" []].

(** [alert-service/metrics.py]. *)
Definition alert_service_metrics : list family :=
  [Family Counter "anomalies_consumed_total" [];
   Family Counter "alerts_generated_total" ["severity"];
   Family Counter "alerts_suppressed_total" ["reason"];
   Family Counter "alerts_escalated_total" [];
   Family Gauge "incidents_open_total" [];
   Family Gauge "incidents_open_by_severity" ["severity"];
   Family Counter "incidents_created_total" [];
   Family Counter "alerts_attached_to_incident_total" [];
   Family Counter "notifications_sent_total" ["provider"];
   Family Counter "notifications_failed_total" ["provider"];
   Family Counter "messages_failed_total" ["reason"];
   Family Counter "dlq_messages_total" []].

(** [s.startswith(p)], by recursion on [p]: it computes on [p ++ v] for any [v]. *)
Fixpoint begins (p s : string) : bool :=
  match p, s with
  | EmptyString, _ => true
  | String a p, String b s => Ascii.eqb a b && begins p s
  | _, _ => false
  end.

(** [api/metrics.py]. *)
Definition api_metrics : list family :=
  [Family Counter "api_requests_total" ["method"; "path"; "status"];
   Family Histogram "api_request_duration_seconds" ["method"; "path"];
   Family Gauge "websocket_connections" [];
   Family Gauge "devices_by_status" ["status"]].

(** [prometheus_client] refuses a second collector of a name. *)
Lemma metric_names_distinct :
  Forall (fun fams => NoDup (fm_name <$> fams))
    [ingestion_metrics; stream_processor_metrics; anomaly_detector_metrics; alert_service_metrics; api_metrics].
Proof. apply (bool_decide_unpack _). by vm_compute. Qed.

(** The series [LoggingMiddleware] writes, with the values of their labels. *)
Definition request_series (a : access) : list (string * list string) :=
  ((fun x => ("api_requests_total", [x.1.1; x.1.2; x.2])) <$> ac_requests a) ++
  ((fun x => ("api_request_duration_seconds", [x.1.1; x.1.2])) <$> ac_durations a).

Lemma request_series_declared a :
  Forall (fun x => exists f, f ∈ api_metrics /\ fm_name f = fst x /\ length (fm_labels f) = length (snd x)) (request_series a).
Proof.
  apply Forall_app. split; apply Forall_fmap, Forall_true; intros x; simpl.
  - exists (Family Counter "api_requests_total" ["method"; "path"; "status"]). split; [by left | done].
  - exists (Family Histogram "api_request_duration_seconds" ["method"; "path"]). split; [right; by left | done].
Qed.

(** A series as the services' states name it: the family's name, and the value
    of its label behind a colon. *)
Definition series_of (key : string) (f : family) : bool :=
  match fm_labels f with
  | [] => String.eqb key (fm_name f)
  | [_] => begins (fm_name f +:+ ":") key
  | _ => false
  end.

Definition is_gauge (f : family) : bool := match fm_kind f with Gauge => true | _ => false end.

Definition declared (fams : list family) (key : string) : bool := existsb (series_of key) fams.
(** Counters, and the counts of histograms. *)
Definition cumulative (fams : list family) (key : string) : bool :=
  existsb (fun f => negb (is_gauge f) && series_of key f) fams.

(** ** What a term does to the registry *)

(** The series that are new are declared, and no cumulative one is lower. *)
Definition metered (fams : list family) (m m' : metrics) : Prop :=
  (forall k, is_Some (mt_counters m' !! k) -> is_Some (mt_counters m !! k) \/ declared fams k = true) /\
  (forall k, cumulative fams k = true -> counter m k <= counter m' k).

#[export] Instance metered_preorder fams : PreOrder (metered fams).
Proof.
  split; [intros m; split; [by left | done]|]. intros m1 m2 m3 [D12 C12] [D23 C23]. split.
  - intros k [H|H]%D23; [by apply D12 | by right].
  - intros k Hk. etrans; [by apply C12 | by apply C23].
Qed.

Lemma metered_inc fams name n m : declared fams name = true -> 0 <= n ->
  metered fams m (Metrics (<[name := counter m name + n]> (mt_counters m))).
Proof.
  intros Hd Hn. split; intros k.
  - cbn [mt_counters]. destruct (decide (name = k)) as [->|Hne]; [by right | rewrite lookup_insert_ne by done; by left].
  - intros _. unfold counter at 2. cbn [mt_counters].
    destruct (decide (name = k)) as [->|Hne]; [rewrite lookup_insert_eq; simpl; lia | by rewrite lookup_insert_ne].
Qed.

Lemma metered_set fams name n m : declared fams name = true -> cumulative fams name = false ->
  metered fams m (Metrics (<[name := n]> (mt_counters m))).
Proof.
  intros Hd Hc. split; intros k.
  - cbn [mt_counters]. destruct (decide (name = k)) as [->|Hne]; [by right | rewrite lookup_insert_ne by done; by left].
  - intros Hk. unfold counter at 2. cbn [mt_counters]. rewrite lookup_insert_ne by congruence. done.
Qed.

Class Metered {S A} `{Part S metrics} (fams : list family) (m : M S A) : Prop :=
  metered_run : moves (fun s s' => metered fams (part_get s) (part_get s')) m.

(** The instances go by the construct a term is written with. *)
#[local] Typeclasses Opaque mbind mret raise gets of_res try_except try_else try_finally for_each for_return lift
  inc inc_by timed protected protected_write.

(** The names a call site uses are decided by computing. *)
Class Declared (fams : list family) (name : string) : Prop := is_declared : declared fams name = true.
Class Settable (fams : list family) (name : string) : Prop :=
  is_settable : declared fams name = true /\ cumulative fams name = false.
Class NonNeg (n : Z) : Prop := is_nonneg : 0 <= n.

(** A part of a service's state that its metrics are not in. *)
Class Apart (S T : Type) `{Part S metrics} `{Part S T} : Prop :=
  apart : forall (t : T) (s : S), part_get (T:=metrics) (part_set t s) = part_get (T:=metrics) s.

#[export] Hint Extern 0 (Declared _ _) => reflexivity : typeclass_instances.
#[export] Hint Extern 0 (Settable _ _) => split; reflexivity : typeclass_instances.
#[export] Hint Extern 0 (NonNeg _) => red; lia : typeclass_instances.
#[export] Hint Extern 0 (Apart _ _) => intros ? ?; reflexivity : typeclass_instances.

Section Instances.
  Context {S : Type} `{PM : Part S metrics} (fams : list family).

#[local] Instance related_preorder : PreOrder (fun s s' : S => metered fams (part_get s) (part_get s')).
Proof. split; [intros s; reflexivity | intros s1 s2 s3 H12 H23; by etrans]. Qed.

(** Terms that do not touch the registry. *)
Lemma metered_same {A} (m : M S A) :
  (forall s, part_get (T:=metrics) (snd (m s)) = part_get (T:=metrics) s) -> Metered fams m.
Proof. intros Hm s. rewrite Hm. reflexivity. Qed.

#[export] Instance metered_ret {A} (a : A) : Metered fams (mret a).
Proof. by apply metered_same. Qed.
#[export] Instance metered_raise {A} e : Metered fams (raise (A:=A) e).
Proof. by apply metered_same. Qed.
#[export] Instance metered_gets {A} (f : S -> A) : Metered fams (gets f).
Proof. by apply metered_same. Qed.
#[export] Instance metered_of_res {A} (r : res A) : Metered fams (of_res r).
Proof. by apply metered_same. Qed.
#[export] Instance metered_bind {A B} (m : M S A) (k : A -> M S B) :
  Metered fams m -> (forall a, Metered fams (k a)) -> Metered fams (m ≫= k).
Proof. intros. by apply moves_bind; [apply _|..]. Qed.
#[export] Instance metered_try {A} (m : M S A) h : Metered fams m -> (forall e, Metered fams (h e)) -> Metered fams (try_except m h).
Proof. intros. by apply moves_try; [apply _|..]. Qed.
#[export] Instance metered_try_else {A B} (m : M S A) h (k : A -> M S B) :
  Metered fams m -> (forall e, Metered fams (h e)) -> (forall a, Metered fams (k a)) -> Metered fams (try_else m h k).
Proof. intros. by apply moves_try_else; [apply _|..]. Qed.
#[export] Instance metered_finally {A} (m : M S A) f : Metered fams m -> Metered fams f -> Metered fams (try_finally m f).
Proof.
  intros Hm Hf s. unfold try_finally. specialize (Hm s). destruct (m s) as [r s1]. specialize (Hf s1).
  destruct (f s1) as [[]]; simpl in *; by etrans.
Qed.
#[export] Instance metered_for_each {A} (l : list A) body : (forall a, Metered fams (body a)) -> Metered fams (for_each l body).
Proof. intros. by apply moves_for_each; [apply _|..]. Qed.
#[export] Instance metered_for_return {A B} (l : list A) (body : A -> M S (option B)) :
  (forall a, Metered fams (body a)) -> Metered fams (for_return l body).
Proof. intros. by apply moves_for_return; [apply _|..]. Qed.
#[export] Instance metered_lift {A T} `{PT : Part S T} (m : M T A) : Apart S T -> Metered fams (lift m).
Proof. intros Ha. apply metered_same. intros s. unfold lift. destruct (m (part_get s)). apply Ha. Qed.

#[export] Instance metered_inc_by name n : Declared fams name -> NonNeg n -> Metered fams (inc_by name n).
Proof. intros Hd Hn s. unfold inc_by, lift, modify. simpl. rewrite part_get_set. by apply metered_inc. Qed.
#[export] Instance metered_inc_one name : Declared fams name -> Metered fams (inc name).
Proof. intros Hd. by apply metered_inc_by. Qed.
#[export] Instance metered_gauge name n : Settable fams name ->
  Metered fams (lift (modify (fun m => Metrics (<[name := n]> (mt_counters m))))).
Proof. intros [Hd Hc] s. unfold lift, modify. simpl. rewrite part_get_set. by apply metered_set. Qed.

#[export] Instance metered_timed {A} (m : M S A) : Declared fams "processing_latency_seconds" -> Metered fams m -> Metered fams (timed m).
Proof. intros. unfold timed. apply _. Qed.

(** Publishing behind a breaker. *)
#[export] Instance metered_protected `{PB : Part S breaker} clock sleep (max : Z) delay e (fn : M S unit) :
  Apart S breaker -> (forall d, Metered fams (sleep d)) -> Metered fams fn -> Metered fams (protected clock sleep max delay e fn).
Proof. intros Ha Hs Hf. apply moves_protected; [apply _ | intros b s; rewrite Ha; reflexivity | done | done]. Qed.
#[export] Instance metered_protected_write `{PB : Part S breaker} `{PK : Part S kafka} broker clock sleep (max : Z) delay topic key value :
  Apart S breaker -> Apart S kafka -> (forall d, Metered fams (sleep d)) ->
  Metered fams (protected_write broker clock sleep max delay topic key value).
Proof. intros. unfold protected_write. apply _. Qed.

End Instances.

(** A [match] or an [if] on data: each branch. *)
#[export] Hint Extern 5 (Metered _ (match ?x with _ => _ end)) => destruct x : typeclass_instances.
#[export] Hint Extern 5 (Metered _ (let '(_, _) := ?x in _)) => destruct x : typeclass_instances.

(** Steps of a service on its own fields other than the metrics. *)
Ltac untouched := intros; apply metered_same; intros s; by repeat case_match.

(** ** The services *)

Section IngestionMetrics.
  Import Ingestion.
  Context (w : ing_world) (cfg : sink_config).
  Abbreviation fams := ingestion_metrics.

#[local] Instance ing_read {A} (f : nat -> A) : Metered fams (read f).
Proof. untouched. Qed.
#[local] Instance ing_sleep d : Metered fams (sleep d).
Proof. untouched. Qed.
#[local] Instance ing_ack job : Metered fams (ack job).
Proof. untouched. Qed.
#[local] Instance ing_dead_letter raw cause type stage cid topic : Metered fams (_dead_letter w cfg raw cause type stage cid topic).
Proof. unfold _dead_letter. apply _. Qed.
#[local] Instance ing_publish_telemetry key evt raw topic : Metered fams (publish_telemetry w cfg key evt raw topic).
Proof. unfold publish_telemetry, _write_with_protection. apply _. Qed.
#[local] Instance ing_publish_event key evt raw topic : Metered fams (publish_machine_event w cfg key evt raw topic).
Proof. unfold publish_machine_event, _write_with_protection. apply _. Qed.
#[local] Instance ing_reject job exc cid : Metered fams cid -> Metered fams (dead_letter_and_ack w cfg job exc cid).
Proof. intros. unfold dead_letter_and_ack, dead_letter_validation_failure. apply _. Qed.

Lemma ingestion_metered job : Metered fams (_process_message w cfg job).
Proof. unfold _process_message, _handle_telemetry, _handle_machine_event. apply _. Qed.

End IngestionMetrics.

Section StreamMetrics.
  Import StreamProcessor.
  Context (w : sp_world) (cfg : sp_config).
  Abbreviation fams := stream_processor_metrics.

#[local] Instance sp_read_utc : Metered fams (read_utc w).
Proof. untouched. Qed.
#[local] Instance sp_sleep d : Metered fams (no_sleep d).
Proof. untouched. Qed.
#[local] Instance sp_claim id : Metered fams (claim w cfg id).
Proof. apply metered_same. intros s. unfold claim. by repeat case_match. Qed.
#[local] Instance sp_write points : Metered fams (influx_write w points).
Proof. apply metered_same. intros s. unfold influx_write. by repeat case_match. Qed.
#[local] Instance sp_protected_write points : Metered fams (influx_write_with_protection w cfg points).
Proof. unfold influx_write_with_protection. apply (metered_protected _ (PB:=influx_breaker_part)); apply _. Qed.
#[local] Instance sp_publish key evt : Metered fams (publish_processed w cfg key evt).
Proof.
  unfold publish_processed. destruct (v_dump w evt); [|apply _]. apply (metered_protected_write _ (PB:=kafka_breaker_part)); apply _.
Qed.
#[local] Instance sp_fail reason raw exc stage cid : Metered fams (fail_stage w cfg reason raw exc stage cid).
Proof. unfold fail_stage, dead_letter. apply _. Qed.

Lemma stream_message_metered msg : Metered fams (_process_timed w cfg msg).
Proof. unfold _process_timed, _process_message, write_raw_point. apply _. Qed.
Lemma stream_flush_metered : Metered fams (_flush_once w cfg).
Proof. unfold _flush_once, write_aggregate_batch. apply _. Qed.
Lemma stream_lag_metered answers : Metered fams (_run_lag_reporter answers).
Proof. induction answers as [|a answers IH]; simpl; apply _. Qed.

End StreamMetrics.

Section DetectorMetrics.
  Import AnomalyDetector.
  Context (w : ad_world) (cfg : ad_config).
  Abbreviation fams := anomaly_detector_metrics.

#[local] Instance ad_read_metered {A} (f : nat -> A) : Metered fams (ad_read f).
Proof. untouched. Qed.
#[local] Instance ad_sleep_metered d : Metered fams (ad_sleep d).
Proof. untouched. Qed.
#[local] Instance ad_claim id : Metered fams (claim_telemetry_event_once w id).
Proof. apply metered_same. intros s. unfold claim_telemetry_event_once. by repeat case_match. Qed.
#[local] Instance ad_publish key evt : Metered fams (publish_anomaly w cfg key evt).
Proof. unfold publish_anomaly. apply _. Qed.
#[local] Instance ad_fail reason raw exc stage cid : Metered fams (fail_stage w cfg reason raw exc stage cid).
Proof. unfold fail_stage, dead_letter. apply _. Qed.
#[local] Instance ad_detect evt : Metered fams (detect_levels w cfg evt).
Proof. unfold detect_levels, forest_level. apply _. Qed.

Lemma detector_message_metered msg : Metered fams (_process_timed w cfg msg).
Proof. unfold _process_timed, _process_message. apply _. Qed.
Lemma detector_train_metered : Metered fams (train_tick w cfg).
Proof.
  unfold train_tick, train_once. apply metered_bind; [apply _|]. intros fs.
  induction (machine_types_with_data fs) as [|mt types IH]; simpl; apply _.
Qed.
Lemma detector_refresh_metered rows : Metered fams (refresh_tick rows).
Proof. destruct rows; untouched. Qed.
Lemma detector_lag_metered answer : Metered fams (lag_tick answer).
Proof. unfold lag_tick. apply _. Qed.

End DetectorMetrics.

Section AlertingMetrics.
  Context (w : als_world) (cfg : als_config) (providers : list provider).
  Abbreviation fams := alert_service_metrics.

#[local] Instance als_read_metered : Metered fams (als_read_utc w).
Proof. untouched. Qed.
#[local] Instance als_sleep_metered d : Metered fams (als_sleep d).
Proof. untouched. Qed.
#[local] Instance notified_metered p n : Metered fams (notified p n).
Proof. untouched. Qed.
#[local] Instance http_metered : Metered fams (next_http w).
Proof. untouched. Qed.
#[local] Instance notify_metered n : Metered fams (notify_all w providers n).
Proof. unfold notify_all, send, post. apply _. Qed.
#[local] Instance hold_metered raw exc stage cid topic : Metered fams (_dlq_or_hold w cfg raw exc stage cid topic).
Proof. unfold _dlq_or_hold, dead_letter. apply _. Qed.
#[local] Instance announce_metered a rule type escalation : Metered fams (_publish_and_notify w cfg providers a rule type escalation).
Proof. unfold _publish_and_notify, publish_alert. apply _. Qed.
#[local] Instance after_create_metered rule r : Metered fams (after_create w cfg providers rule r).
Proof. unfold after_create, _open_or_attach_incident. apply _. Qed.

Lemma alerting_anomaly_metered msg : Metered fams (_process_anomaly w cfg providers msg).
Proof. unfold _process_anomaly, apply_rule. apply _. Qed.
Lemma alerting_event_metered msg : Metered fams (_process_device_event w cfg providers msg).
Proof. unfold _process_device_event. apply _. Qed.
Lemma alerting_rules_metered : Metered fams (rule_refresh_tick w).
Proof. unfold rule_refresh_tick. apply metered_try_else; [apply _..|untouched]. Qed.
Lemma alerting_escalation_metered : Metered fams (escalation_tick w cfg providers).
Proof. unfold escalation_tick, escalate_one. apply _. Qed.
Lemma alerting_gauge_metered : Metered fams (gauge_tick w).
Proof. unfold gauge_tick, set_gauge. apply _. Qed.

End AlertingMetrics.

(** ** Gauges set in a loop *)

(** What one turn of the loop sets, if it sets a gauge. *)
Definition set_series (w : option (string * Z)) (m : gmap string Z) : gmap string Z :=
  match w with Some (k, v) => <[k := v]> m | None => m end.
Definition set_each {A} (w : A -> option (string * Z)) (l : list A) (m : gmap string Z) : gmap string Z :=
  foldl (fun m a => set_series (w a) m) m l.

Lemma set_each_snoc {A} (w : A -> option (string * Z)) l a m : set_each w (l ++ [a]) m = set_series (w a) (set_each w l m).
Proof. unfold set_each. by rewrite foldl_snoc. Qed.

Lemma set_each_other {A} (w : A -> option (string * Z)) l m k :
  (forall a v, a ∈ l -> w a <> Some (k, v)) -> set_each w l m !! k = m !! k.
Proof.
  induction l as [|a l IH] using rev_ind; intros Hl; [done|]. rewrite set_each_snoc. unfold set_series.
  assert (Hin : forall b v, b ∈ l -> w b <> Some (k, v)) by (intros b v Hb; apply Hl, elem_of_app; by left).
  destruct (w a) as [[k' v]|] eqn:E; [|by apply IH]. rewrite lookup_insert_ne; [by apply IH|].
  intros ->. apply (Hl a v); [set_solver | done].
Qed.

Lemma set_each_same {A} (w : A -> option (string * Z)) l m k v a :
  a ∈ l -> w a = Some (k, v) -> (forall b v', b ∈ l -> w b = Some (k, v') -> v' = v) -> set_each w l m !! k = Some v.
Proof.
  intros Ha Hw. induction l as [|b l IH] using rev_ind; intros Hl; [by apply elem_of_nil in Ha|].
  rewrite set_each_snoc. unfold set_series. destruct (w b) as [[k' v']|] eqn:E.
  - destruct (decide (k' = k)) as [->|Hne].
    + rewrite lookup_insert_eq. f_equal. apply (Hl b); [set_solver | done].
    + rewrite lookup_insert_ne by done. apply IH; [|set_solver].
      apply elem_of_app in Ha as [Ha|Ha%list_elem_of_singleton]; [done|]. subst. congruence.
  - apply IH; [|set_solver]. apply elem_of_app in Ha as [Ha|Ha%list_elem_of_singleton]; [done | subst; congruence].
Qed.

(** A loop of calls that set gauges. *)
Lemma for_each_sets {A} (w : A -> option (string * Z)) (body : A -> M als unit) (l : list A) (s : als) :
  (forall a s, body a s = (Ok tt, part_set (Metrics (set_series (w a) (mt_counters (as_metrics s)))) s)) ->
  for_each l body s = (Ok tt, part_set (Metrics (set_each w l (mt_counters (as_metrics s)))) s).
Proof.
  intros Hb. revert s. induction l as [|a l IH]; intros s; simpl; [by destruct s as [? ? ? ? [m] ? ? ? ?]|].
  erewrite bind_ok by apply Hb. rewrite IH. by destruct s.
Qed.

Definition severities : list string := ["INFO"; "WARNING"; "HIGH"; "CRITICAL"].

Lemma severity_gauge_inj a b (v v' : Z) : Some (severity_gauge a, v) = Some (severity_gauge b, v') -> a = b /\ v = v'.
Proof. unfold severity_gauge. cbn [String.append]. by intros [=]. Qed.

Definition open_with (sev : string) (d : alert_db) : Z := count_where (fun r => counted r && bool_decide (in_severity r = sev)) d.

Definition severity_rows (d : alert_db) : list (string * Z) :=
  (fun sev => (sev, open_with sev d)) <$> remove_dups (in_severity <$> filter (fun r => counted r = true) (db_incidents d)).

(** The loops over the rows and over the severities without one. *)
Definition gauge_writes (d : alert_db) (m : gmap string Z) : gmap string Z :=
  set_each (fun sev => if bool_decide (sev ∈ (severity_rows d).*1) then None else Some (severity_gauge sev, 0)) severities
    (set_each (fun r => Some (severity_gauge (fst r), snd r)) (severity_rows d) m).

Lemma severity_rows_in d sev : sev ∈ (severity_rows d).*1 -> (sev, open_with sev d) ∈ severity_rows d.
Proof.
  unfold severity_rows. rewrite <-list_fmap_compose. intros (x & -> & Hx)%list_elem_of_fmap. apply list_elem_of_fmap. by exists x.
Qed.

Lemma severity_row d r : r ∈ severity_rows d -> snd r = open_with (fst r) d.
Proof. unfold severity_rows. by intros (x & -> & _)%list_elem_of_fmap. Qed.

Lemma no_row_no_incident d sev : sev ∉ (severity_rows d).*1 -> open_with sev d = 0.
Proof.
  unfold severity_rows, open_with, count_where. rewrite <-list_fmap_compose. intros Hn.
  rewrite filter_none; [done|]. apply Forall_forall. intros r Hr [Hc Hs%bool_decide_eq_true]%andb_true_iff. apply Hn.
  apply list_elem_of_fmap. exists sev. split; [done|]. apply elem_of_remove_dups, list_elem_of_fmap. exists r.
  split; [done|]. by apply list_elem_of_filter.
Qed.

(** After both loops the gauge of a severity is the number of its open
    incidents, if it is one of the four or has any. *)
Lemma gauge_writes_severity d m sev : sev ∈ severities \/ open_with sev d <> 0 ->
  gauge_writes d m !! severity_gauge sev = Some (open_with sev d).
Proof.
  intros Hs. unfold gauge_writes. destruct (decide (sev ∈ (severity_rows d).*1)) as [Hin|Hn].
  - rewrite set_each_other.
    2: { intros a v _. case_bool_decide as Ha; [done|]. intros [-> _]%severity_gauge_inj. done. }
    eapply set_each_same; [by apply severity_rows_in | done|].
    intros r v Hr [<- <-]%severity_gauge_inj. by apply severity_row.
  - rewrite no_row_no_incident by done. destruct Hs as [Hs|Hs]; [|by apply no_row_no_incident in Hn].
    eapply set_each_same; [exact Hs | by rewrite bool_decide_eq_false_2|].
    intros b v _. case_bool_decide; [done|]. by intros [_ ->]%severity_gauge_inj.
Qed.

Lemma gauge_writes_other d m k : (forall sev, k <> severity_gauge sev) -> gauge_writes d m !! k = m !! k.
Proof.
  intros Hk. unfold gauge_writes. rewrite !set_each_other; [done|..].
  - intros r v _ E. apply (Hk (fst r)). congruence.
  - intros sev v _. case_bool_decide; [done|]. intros E. apply (Hk sev). congruence.
Qed.

Lemma gauge_tick_run w s : let n := pg_count (as_pg s) in
  let db1 := pg_others (x_pg w) n (pg_db (as_pg s)) in
  let db2 := pg_others (x_pg w) (Datatypes.S n) db1 in
  pg_fault (x_pg w) n = None -> pg_fault (x_pg w) (Datatypes.S n) = None ->
  exists s', gauge_tick w s = (Ok tt, s') /\ pg_db (as_pg s') = db2 /\
    mt_counters (as_metrics s') =
      gauge_writes db2 (<["incidents_open_total" := count_where counted db1]> (mt_counters (as_metrics s))).
Proof.
  intros n db1 db2 H1 H2. unfold gauge_tick, select_by_severity, try_else.
  assert (Hq : forall A (f : alert_db -> A) (t : als), pg_fault (x_pg w) (pg_count (as_pg t)) = None ->
    lift (execute (x_pg w) (select f)) t =
    (Ok (f (pg_others (x_pg w) (pg_count (as_pg t)) (pg_db (as_pg t)))),
     part_set (Pg (Datatypes.S (pg_count (as_pg t))) (pg_others (x_pg w) (pg_count (as_pg t)) (pg_db (as_pg t)))) t)).
  { intros A f t Hf. unfold lift, execute, select. cbn [part_get as_pg_part]. by rewrite Hf. }
  erewrite bind_ok by (by apply Hq). erewrite bind_ok by reflexivity. rewrite Hq by exact H2. cbv beta iota.
  erewrite bind_ok by (apply (for_each_sets (fun r => Some (severity_gauge (fst r), snd r))); reflexivity).
  eexists. split; [|split].
  - apply (for_each_sets (fun sev => if bool_decide (sev ∈ (severity_rows db2).*1) then None else Some (severity_gauge sev, 0))).
    intros sev t. unfold severity_rows at 1. case_bool_decide as Ha.
    + rewrite bool_decide_eq_true_2 by exact Ha. by destruct t as [? ? ? ? [m] ? ? ? ?].
    + by rewrite bool_decide_eq_false_2 by exact Ha.
  - reflexivity.
  - reflexivity.
Qed.

(** ** Histories *)

(** A service with its registry: the families it declares, and what its threads
    do with its state. *)
Record instrumented := Instrumented {
  in_state : Type;
  in_registry : Part in_state metrics;
  in_families : list family;
  in_op : Type;
  in_run : in_op -> in_state -> in_state
}.

Definition registry_of (svc : instrumented) (s : in_state svc) : metrics := part_get (Part:=in_registry svc) s.
Definition run_ops (svc : instrumented) (ops : list (in_op svc)) (s : in_state svc) : in_state svc :=
  foldl (fun s o => in_run svc o s) s ops.

Section Services.
  Variables (iw : Ingestion.ing_world) (icfg : Ingestion.sink_config).
  Variables (sw : StreamProcessor.sp_world) (scfg : StreamProcessor.sp_config).
  Variables (dw : AnomalyDetector.ad_world) (dcfg : AnomalyDetector.ad_config).
  Variables (aw : als_world) (acfg : als_config).

Definition instrumented_ingestion : instrumented :=
  Instrumented Ingestion.ing Ingestion.ing_metrics_part ingestion_metrics Ingestion.InboundMessage
    (fun job => exec (Ingestion._process_message iw icfg job)).

Inductive stream_op := StreamMessage (msg : fetched) | StreamFlush | StreamLag (answers : list (res Z)).
Definition stream_run (o : stream_op) : StreamProcessor.sp -> StreamProcessor.sp :=
  match o with
  | StreamMessage msg => exec (StreamProcessor._process_timed sw scfg msg)
  | StreamFlush => exec (StreamProcessor._flush_once sw scfg)
  | StreamLag answers => exec (StreamProcessor._run_lag_reporter answers)
  end.
Definition instrumented_stream : instrumented :=
  Instrumented StreamProcessor.sp StreamProcessor.sp_metrics_part stream_processor_metrics stream_op stream_run.

Inductive detector_op :=
  | DetectorMessage (msg : fetched) | DetectorRefresh (rows : res (list catalog_row)) | DetectorTrain
  | DetectorLag (answer : res Z).
Definition detector_run (o : detector_op) : AnomalyDetector.ad -> AnomalyDetector.ad :=
  match o with
  | DetectorMessage msg => exec (AnomalyDetector._process_timed dw dcfg msg)
  | DetectorRefresh rows => exec (AnomalyDetector.refresh_tick rows)
  | DetectorTrain => exec (AnomalyDetector.train_tick dw dcfg)
  | DetectorLag answer => exec (AnomalyDetector.lag_tick answer)
  end.
Definition instrumented_detector : instrumented :=
  Instrumented AnomalyDetector.ad AnomalyDetector.ad_metrics_part anomaly_detector_metrics detector_op detector_run.

Inductive alerting_op :=
  | AlertingAnomaly (msg : fetched) | AlertingEvent (msg : fetched) | AlertingRules | AlertingEscalation | AlertingGauge.
Definition alerting_run (o : alerting_op) : als -> als :=
  match o with
  | AlertingAnomaly msg => exec (_process_anomaly aw acfg (_build_providers acfg) msg)
  | AlertingEvent msg => exec (_process_device_event aw acfg (_build_providers acfg) msg)
  | AlertingRules => exec (rule_refresh_tick aw)
  | AlertingEscalation => exec (escalation_tick aw acfg (_build_providers acfg))
  | AlertingGauge => exec (gauge_tick aw)
  end.
Definition instrumented_alerting : instrumented :=
  Instrumented als as_metrics_part alert_service_metrics alerting_op alerting_run.

Definition instrumented_services : list instrumented :=
  [instrumented_ingestion; instrumented_stream; instrumented_detector; instrumented_alerting].

Lemma services_metered svc o s : svc ∈ instrumented_services ->
  metered (in_families svc) (registry_of svc s) (registry_of svc (in_run svc o s)).
Proof.
  unfold instrumented_services. rewrite !elem_of_cons, elem_of_nil. intros [->|[->|[->|[->|[]]]]].
  - apply (ingestion_metered iw icfg).
  - destruct o; [apply stream_message_metered | apply stream_flush_metered | apply stream_lag_metered].
  - destruct o; [apply detector_message_metered | apply detector_refresh_metered | apply detector_train_metered | apply detector_lag_metered].
  - destruct o; [apply alerting_anomaly_metered | apply alerting_event_metered | apply alerting_rules_metered
      | apply alerting_escalation_metered | apply alerting_gauge_metered].
Qed.

Lemma run_metered svc ops s : svc ∈ instrumented_services ->
  metered (in_families svc) (registry_of svc s) (registry_of svc (run_ops svc ops s)).
Proof.
  intros Hsvc. revert s. induction ops as [|o ops IH]; intros s; [reflexivity|]. simpl. etrans; [by apply services_metered | apply IH].
Qed.

End Services.

(** ** Theorems *)



(** The incident gauges tell the table.  A tick of the gauge refresher whose
    two statements succeed leaves [incidents_open_total] at the number of
    incidents that are neither resolved nor closed when the first statement
    runs, and the gauge of a severity at the number of those with that severity
    when the second runs, be it one of the four the code lists, also when none is
    left, or any other that has one; other series keep their value.  Other
    clients may write between the two statements, so the sum of the severities
    may differ from the total. *)
Theorem incident_gauges_match (w : als_world) (s : als) :
  let n := pg_count (as_pg s) in
  let db1 := pg_others (x_pg w) n (pg_db (as_pg s)) in
  let db2 := pg_others (x_pg w) (Datatypes.S n) db1 in
  pg_fault (x_pg w) n = None -> pg_fault (x_pg w) (Datatypes.S n) = None ->
  exists s', gauge_tick w s = (Ok tt, s') /\
    counter (as_metrics s') "incidents_open_total" = count_where counted db1 /\
    (forall sev, sev ∈ severities \/ open_with sev db2 <> 0 ->
       counter (as_metrics s') (severity_gauge sev) = open_with sev db2) /\
    (forall k, k <> "incidents_open_total" -> (forall sev, k <> severity_gauge sev) ->
       counter (as_metrics s') k = counter (as_metrics s) k).
Proof.
  intros n db1 db2 H1 H2. destruct (gauge_tick_run w s H1 H2) as (s' & Hrun & _ & Hm). exists s'. split; [exact Hrun|].
  unfold counter. rewrite Hm. split_and!.
  - rewrite gauge_writes_other by done. by rewrite lookup_insert_eq.
  - intros sev Hsev. by rewrite gauge_writes_severity.
  - intros k Hk Hne. rewrite gauge_writes_other by done. by rewrite lookup_insert_ne.
Qed.

(** Two open incidents and a closed one; the gauge of HIGH was left from before. *)
Lemma incident_gauges_match_witness :
  let row i sev st := IncidentRow i "org" None None None None None sev st "t" "d" None None 0 None None in
  let db := AlertDb [] [] [row "1" "CRITICAL" "OPEN"; row "2" "CRITICAL" "INVESTIGATING"; row "3" "HIGH" "CLOSED"] [] in
  let w := demo_als_world (demo_alert_env (fun _ d => d)) demo_broker in
  let s := part_set (Metrics {[ severity_gauge "HIGH" := 4 ]}) (demo_als db) in
  counter (as_metrics (exec (gauge_tick w) s)) <$> ("incidents_open_total" :: (severity_gauge <$> severities)) = [2; 0; 0; 0; 2] /\
  exists s', gauge_tick w s = (Ok tt, s') /\
    counter (as_metrics s') "incidents_open_total" = count_where counted db /\
    (forall sev, sev ∈ severities \/ open_with sev db <> 0 -> counter (as_metrics s') (severity_gauge sev) = open_with sev db) /\
    (forall k, k <> "incidents_open_total" -> (forall sev, k <> severity_gauge sev) ->
       counter (as_metrics s') k = counter (as_metrics s) k).
Proof.
  intros row db w s. split; [by vm_compute|]. by apply (incident_gauges_match w s).
Defined.
