(* ===== verification/Lifecycle.v ===== *)
(** The [main] of every service and of the simulator, and the lifespan of the
    API, as processes of [Process]: what they start, wait for and close, in the
    order of the code, and the loops of their threads as the operations of the
    service's own file.  A signal ends each of them, nothing is closed while a
    thread may still use it, and without a signal none of them ends, not even
    when its consumer died. *)

From stdpp Require Import prelude strings pretty list.
From Stdlib Require Import ZArith Lia.
From S2P Require Import Prelude PyFloat Effects Reliability Postgres Events Kafka Process.
From S2P Require Ingestion StreamProcessor AnomalyDetector Alerts AlertService ApiTenant WsHub Simulator IsolationForest.

Local Open Scope prog_scope.

(** ** The programs *)

(** The threads of a pool, by index. *)
Definition worker_name (i : nat) : string := "worker-" +:+ pretty i.
Definition pool_threads (n : nat) : list string := worker_name <$> seq 0 n.
Definition is_worker (t : string) : bool := String.prefix "worker-" t.

Definition is_connect_timeout (e : exn) : bool :=
  match e with OtherError c _ => bool_decide (c = "MQTTConnectTimeout") | _ => false end.
(** [except Exception]. *)
Definition any_exception (_ : exn) : bool := true.

(** [ingestion/main.py]. *)
Definition ingestion_main (workers : nat) : prog :=
  Call "load_config" >> OnSignal >> Open "tracing" >> Open "sink" >>
  or_exit is_connect_timeout (Call "connect_mqtt") (
  Call "start_health_server" >>
  stmts (Start <$> pool_threads workers) (
  WaitEvent >>
  Call "client.disconnect" >> Call "client.loop_stop" >>
  stmts (Join <$> pool_threads workers) (
  Close "sink" >> Close "tracing" >> Return))).

(** [stream-processor/main.py]. *)
Definition stream_main : prog :=
  Call "load_config" >> OnSignal >> Open "tracing" >> Open "kio" >> Open "dedup" >> Open "influx" >>
  require (Call "influx.ping") (
  require (Call "dedup.ping") (
  Call "start_health_server" >> Call "max(windows_seconds)" >>
  Start "lag_thread" >> Start "flush_thread" >>
  RunLoop "_consume_loop" >>
  Join "lag_thread" >> Join "flush_thread" >>
  Close "kio" >> Close "dedup" >> Close "influx" >> Close "tracing" >> Return)).

(** [anomaly-detector/main.py]. *)
Definition detector_main : prog :=
  Call "load_config" >> OnSignal >> Open "tracing" >>
  or_exit any_exception (Open "cat") (
  Open "kio" >>
  Start "catalog_thread" >> Start "forest_thread" >> Start "lag_thread" >>
  Call "start_health_server" >>
  RunLoop "_consume_loop" >>
  Join "catalog_thread" >> Join "forest_thread" >> Join "lag_thread" >>
  Close "kio" >> Close "cat" >> Close "tracing" >> Return).

(** [alert-service/main.py]. *)
Definition alerting_main : prog :=
  Call "load_config" >> OnSignal >> Open "tracing" >> Open "pool" >>
  or_exit any_exception (Call "RuleCache") (
  Start "rule_thread" >>
  Open "kio" >> Call "_build_providers" >>
  Start "escalation_thread" >> Start "gauge_thread" >>
  Call "start_health_server" >>
  Start "anomaly_thread" >> Start "events_thread" >>
  Join "anomaly_thread" >> Join "events_thread" >> Join "rule_thread" >> Join "escalation_thread" >> Join "gauge_thread" >>
  Close "kio" >> Close "pool" >> Close "tracing" >> Return).

(** [api/main.py]: the clients it opens when it is imported, the server, whose
    handlers do not set [_shutdown_event], and [lifespan] before and after its
    [yield]. *)
Definition api_main : prog :=
  Call "startup" >> Open "pool" >> Open "redis_client" >> Open "influx_client" >>
  OnSignal >> Open "tracing" >>
  Start "fanout_thread" >> Start "gauge_thread" >>
  Serve >>
  SetEvent >>
  Join "fanout_thread" >> Join "gauge_thread" >>
  Close "pool" >> Close "redis_client" >> Close "influx_client" >> Close "tracing" >> Return.

(** [simulator/main.py]; the [finally] waits for the publishers. *)
Definition simulator_main (workers : nat) : prog :=
  Call "load_config" >> OnSignal >>
  require (Call "load_sensor_catalog") (
  Open "pub" >>
  stmts (Start <$> pool_threads workers) (
  Start "stats_thread" >>
  finally (RunLoop "_run_simulation" >> Return)
    (stmts (Join <$> pool_threads workers) (Join "stats_thread" >> Close "pub" >> Return)))).

(** ** The loops of the threads *)

(** [Stats.snapshot], of the counters by field name. *)
Definition stats_fields : list string :=
  ["published"; "duplicates"; "delayed"; "out_of_order"; "anomalies"; "dropped"; "sensor_failed"; "publish_errs"].
Definition stats_snapshot (m : metrics) : list (string * Z) := (fun f => (f, counter m f)) <$> stats_fields.

(** A round of [_run_stats_reporter]: what it logs. *)
Definition stats_round : M Simulator.sim (list (string * Z)) := gets (fun s => stats_snapshot (Simulator.sm_stats s)).

(** [_wait_or_shutdown]: the reads of the loop's clock and of the event, until
    the deadline; [None] when it still waits. *)
Fixpoint wait_or_shutdown (deadline : Z) (reads : list (Z * bool)) (last : bool) : option bool :=
  match reads with
  | [] => None
  | (now, set) :: reads =>
      if (now <? deadline)%Z then (if set then Some true else wait_or_shutdown deadline reads last) else Some last
  end.

(** What one round of a thread's loop can end in: the outcomes of the operation
    it runs, on any state and with any answers of what it calls. *)
Inductive ingestion_body : string -> res unit -> Prop :=
  | ingestion_round w cfg job s t :
      is_worker t = true -> ingestion_body t (eval (Ingestion._process_message w cfg job) s).

Inductive stream_body : string -> res unit -> Prop :=
  | stream_lag answer s : stream_body "lag_thread" (eval (StreamProcessor._run_lag_reporter [answer]) s)
  | stream_flush w cfg s : stream_body "flush_thread" (eval (StreamProcessor._flush_once w cfg) s)
  | stream_round w cfg e s : stream_body "_consume_loop" (eval (StreamProcessor._consume_loop w cfg [e]) s).

Inductive detector_body : string -> res unit -> Prop :=
  | detector_refresh rows s : detector_body "catalog_thread" (eval (AnomalyDetector.refresh_tick rows) s)
  | detector_train w cfg s : detector_body "forest_thread" (eval (AnomalyDetector.train_tick w cfg) s)
  | detector_lag answer s : detector_body "lag_thread" (eval (AnomalyDetector.lag_tick answer) s)
  | detector_round w cfg e s : detector_body "_consume_loop" (eval (AnomalyDetector._consume_loop w cfg [e]) s).

Inductive alerting_body : string -> res unit -> Prop :=
  | alerting_rules w s : alerting_body "rule_thread" (eval (AlertService.rule_refresh_tick w) s)
  | alerting_sweep w cfg ps s : alerting_body "escalation_thread" (eval (AlertService.escalation_tick w cfg ps) s)
  | alerting_gauge w s : alerting_body "gauge_thread" (eval (AlertService.gauge_tick w) s)
  | alerting_anomaly w cfg ps e s : alerting_body "anomaly_thread" (eval (AlertService._consume_anomalies w cfg ps [e]) s)
  | alerting_event w cfg ps e s : alerting_body "events_thread" (eval (AlertService._consume_device_events w cfg ps [e]) s).

Definition unit_of {A} (r : res A) : res unit := match r with Ok _ => Ok tt | Raise e => Raise e end.

Inductive api_body : string -> res unit -> Prop :=
  | api_gauge env s : api_body "gauge_thread" (unit_of (eval (ApiTenant.device_gauge_tick env) s))
  | api_fan_out load decode e h : api_body "fanout_thread" (eval (WsHub.run_alerts_fan_out load decode [e]) h).

Inductive simulator_body : string -> res unit -> Prop :=
  | simulator_publish job o s t : is_worker t = true -> simulator_body t (eval (Simulator.publish_job job o) s)
  | simulator_stats s : simulator_body "stats_thread" (unit_of (eval stats_round s))
  | simulator_round w cfg catalog o s :
      simulator_body "_run_simulation" (eval (Simulator.run_simulation w cfg catalog [o]) s).

(** ** The services *)

Definition no_worker (_ : string) : bool := false.

Definition ingestion_service (n : nat) : service := Service (ingestion_main n) true true is_worker ingestion_body.
Definition stream_service : service := Service stream_main true false no_worker stream_body.
Definition detector_service : service := Service detector_main true false no_worker detector_body.
Definition alerting_service : service := Service alerting_main true false no_worker alerting_body.
Definition api_service : service := Service api_main false false no_worker api_body.
Definition simulator_service (n : nat) : service := Service (simulator_main n) true true is_worker simulator_body.

(** With [n] ingestion workers and [m] publishers. *)
Definition services (n m : nat) : list service :=
  [ingestion_service n; stream_service; detector_service; alerting_service; api_service; simulator_service m].

(** What a program of [main] and its workers must satisfy to be stopped. *)
Class Stoppable (sv : service) : Prop := {
  stop_reacts : sv_sets_event sv = true \/ (sv_queue sv = false /\ signal_safe false false (sv_main sv));
  stop_rounds : forall t, sv_worker sv t = true -> exists r, sv_body sv t r;
  stop_joins : joins_first false [] (sv_main sv);
  stop_closes : closes_all [] (sv_main sv)
}.

Lemma pool_worker n t : t ∈ pool_threads n -> is_worker t = true.
Proof.
  intros (i & -> & _)%list_elem_of_fmap. unfold worker_name. generalize (pretty i). intros s. by destruct s.
Qed.

Lemma pool_no_set (n : nat) (f : string -> cmd) : (forall t, f t <> SetEvent) -> SetEvent ∉ (f <$> pool_threads n).
Proof. intros Hf (t & E & _)%list_elem_of_fmap. by destruct (Hf t). Qed.

(** The threads of a pool are joined one after the other. *)
Lemma joins_first_pool closing n live p :
  Forall (fun t => t ∈ pool_threads n) live -> joins_first closing [] p -> joins_first closing live (stmts (Join <$> pool_threads n) p).
Proof.
  intros Hlive Hp. apply joins_first_joins. replace (filter _ live) with ([] : list string); [done|].
  induction Hlive as [|t live Ht _ IH]; [done|]. by rewrite filter_cons_False by auto.
Qed.

Lemma started_in_pool n : Forall (fun t => t ∈ pool_threads n) (reverse (pool_threads n) ++ []).
Proof. rewrite app_nil_r. apply Forall_forall. intros t. by rewrite elem_of_reverse. Qed.

(** The checks on a program without pools. *)
Ltac check_program := repeat first
  [ done
  | match goal with |- joins_first ?c (filter ?P ?l) ?p => let l' := eval vm_compute in (filter P l) in change (joins_first c l' p) end
  | apply joins_first_stmt; cbn [app] | apply joins_first_require | apply joins_first_or_exit
  | apply signal_safe_stmt | split | by left | by right ].

#[export] Instance stream_stoppable : Stoppable stream_service.
Proof. split; [by left | done | check_program | by vm_compute]. Qed.

#[export] Instance detector_stoppable : Stoppable detector_service.
Proof. split; [by left | done | check_program | by vm_compute]. Qed.

#[export] Instance alerting_stoppable : Stoppable alerting_service.
Proof. split; [by left | done | check_program | by vm_compute]. Qed.

#[export] Instance api_stoppable : Stoppable api_service.
Proof. split; [right; split; [done | check_program] | done | check_program | by vm_compute]. Qed.

#[export] Instance ingestion_stoppable n : Stoppable (ingestion_service n).
Proof.
  split; [by left | | |].
  - intros t Ht. eexists. apply (ingestion_round (Ingestion.demo_world (fun _ => Ingestion.demo_delivery)) Ingestion.demo_config
      (Ingestion.mkInboundMessage "" "") Ingestion.demo_ing t Ht).
  - do 4 apply joins_first_stmt. apply joins_first_or_exit, joins_first_stmt, joins_first_starts.
    do 3 apply joins_first_stmt. apply joins_first_pool; [apply started_in_pool|].
    do 2 (apply joins_first_stmt; split; [done|]). done.
  - cbn -[stmts pool_threads]. do 2 (apply closes_all_stmts; [by apply Forall_fmap, Forall_true|]; cbn -[stmts pool_threads]). by vm_compute.
Qed.

#[export] Instance simulator_stoppable n : Stoppable (simulator_service n).
Proof.
  split; [by left | | |].
  - intros t Ht. eexists.
    apply (simulator_publish (Simulator.mkPublishJob "" "") (Simulator.MqttOutcome (Ok tt) true true)
             (Simulator.simulation Simulator.demo_sim_config []) t Ht).
  - assert (Hf : joins_first false ("stats_thread" :: reverse (pool_threads n) ++ [])
        (stmts (Join <$> pool_threads n) (Join "stats_thread" >> Close "pub" >> Return))).
    { apply joins_first_joins, joins_first_stmt, joins_first_stmt. split; [|done].
      rewrite list_filter_filter. pose proof (started_in_pool n) as Hp. 
      rewrite filter_cons_False by tauto. induction Hp as [|t l Ht _ IH]; [done|]. by rewrite filter_cons_False by tauto. }
    do 2 apply joins_first_stmt. apply joins_first_require, joins_first_stmt, joins_first_starts, joins_first_stmt.
    split; [done|]. simpl. intros [b|e]; simpl; [done | by apply joins_first_raise].
  - cbn -[stmts pool_threads]. do 2 (apply closes_all_stmts; [by apply Forall_fmap, Forall_true|]; cbn -[stmts pool_threads]). by vm_compute.
Qed.

Lemma services_stoppable n m sv : sv ∈ services n m -> Stoppable sv.
Proof.
  unfold services. rewrite !elem_of_cons, elem_of_nil.
  intros [-> | [-> | [-> | [-> | [-> | [-> | []]]]]]]; apply _.
Qed.

(** ** Threads that never end on their own *)

#[export] Instance catalog_survives : Survives detector_service "catalog_thread".
Proof.
  intros e Hb. inversion Hb as [rows s Ht Hr| | |]. revert Hr. apply raiseless_no_raise. destruct rows; apply _.
Qed.

#[export] Instance rules_survive : Survives alerting_service "rule_thread".
Proof. intros e Hb. inversion Hb as [w s Ht Hr| | | |]. revert Hr. apply raiseless_no_raise, _. Qed.

#[export] Instance gauge_survives : Survives alerting_service "gauge_thread".
Proof. intros e Hb. inversion Hb as [| |w s Ht Hr| |]. revert Hr. apply raiseless_no_raise. unfold AlertService.gauge_tick, inc. apply _. Qed.

#[export] Instance publisher_survives n i : Survives (simulator_service n) (worker_name i).
Proof.
  intros e Hb. inversion Hb as [job o s t Ht Hj Hr| |]. revert Hr. apply raiseless_no_raise.
  unfold Simulator.publish_job, inc. apply _.
Qed.

(** The threads of the services whose loop catches everything. *)
Definition lasting (n m : nat) : list (service * string) :=
  [(detector_service, "catalog_thread"); (alerting_service, "rule_thread"); (alerting_service, "gauge_thread")] ++
  ((fun t => (simulator_service m, t)) <$> pool_threads m).

Ltac check_never_sets := repeat first
  [ exact I | discriminate | apply never_sets_finally | apply never_sets_stmts; [by apply pool_no_set|]
  | apply never_sets_require | apply never_sets_or_exit | apply never_sets_stmt ].

Lemma lasting_survives n m sv t : (sv, t) ∈ lasting n m -> never_sets (sv_main sv) /\ Survives sv t.
Proof.
  unfold lasting. rewrite elem_of_app, !elem_of_cons, elem_of_nil.
  intros [[E | [E | [E | []]]] | (t' & E & (i & -> & _)%list_elem_of_fmap)%list_elem_of_fmap]; injection E as -> ->;
    (split; [check_never_sets | apply _]).
Qed.

(** What the processing of a message raises ends the detector's loop. *)
Lemma detector_dies w cfg m s e :
  eval (AnomalyDetector._process_message w cfg m) s = Raise e -> detector_body "_consume_loop" (Raise e).
Proof.
  intros H. pose proof (detector_round w cfg (PollMessage m None) (s, 0%Z)) as Hb.
  unfold eval in Hb. by rewrite (AnomalyDetector.consumer_raises _ _ _ _ _ _ _ H) in Hb.
Qed.

Lemma removed_sensor_round : detector_body "_consume_loop" (Raise IsolationForest.index_error).
Proof.
  exact (detector_dies AnomalyDetector.demo_ad_world AnomalyDetector.demo_ad_config (Fetched 61 "h2")
    AnomalyDetector.removed_sensor_state IsolationForest.index_error AnomalyDetector.removed_sensor_raises).
Qed.

(** ** Theorems *)




(** One worker, a signal, the worker's return, the join, and the flush of the
    sink. *)
Lemma sink_closed_reachable : exists p, reachable (ingestion_service 1) p /\
  (pr_threads p).*1 = [worker_name 0] /\ (Close "sink", Ok true) ∈ pr_log p.
Proof.
  pose proof (reach_launched (ingestion_service 1)) as H.
  eapply (drive_reachable _ 7) in H; [|vm_compute; reflexivity].
  eapply reach_step in H; [|by apply step_signal].
  eapply reach_step in H; [|eapply step_main; [reflexivity | by split]].
  eapply reach_step in H; [|by apply (step_returns _ 0 (worker_name 0))].
  eapply (drive_reachable _ 2) in H; [|vm_compute; reflexivity].
  eapply reach_step in H; [|eapply step_main; [reflexivity | by split]].
  eapply (drive_reachable _ 1) in H; [|vm_compute; reflexivity].
  eexists. split; [exact H|]. split; [done|]. cbn. rewrite !elem_of_cons. tauto.
Qed.


(** [C38] A dead consumer does not end its process.  The anomaly detector reaches a
    state, without a signal, in which [main] has left with the [IndexError] of
    the consumer; yet in every state it reaches without a signal after the start
    of its catalog refresher, the process has not exited and that thread runs:
    threads that are not daemons wait for an event only a signal sets.  The same
    holds for the alert service after its rule or gauge refresher started, and
    for the simulator after a publisher did, where the [finally] of [main] waits
    for the publishers even when the simulation raised. *)
Theorem dead_consumer_keeps_process (n m : nat) :
  (exists p, reachable detector_service p /\ pr_signalled p = false /\ pr_main p = Throw IsolationForest.index_error /\
     "catalog_thread" ∈ (pr_threads p).*1) /\
  (forall sv t p, (sv, t) ∈ lasting n m -> reachable sv p -> pr_signalled p = false -> t ∈ (pr_threads p).*1 ->
     exited p = false /\ (t, Running) ∈ pr_threads p).
Proof.
  split.
  - destruct (drive 9 (launched detector_service)) as [p0|] eqn:E; [|by vm_compute in E].
    eexists. split.
    + eapply reach_step; [eapply drive_reachable; [apply reach_launched | exact E]|].
      vm_compute in E. injection E as <-.
      apply step_main with (c := RunLoop "_consume_loop") (r := Raise IsolationForest.index_error); [reflexivity|].
      right. exists IsolationForest.index_error. split; [exact removed_sensor_round | reflexivity].
    + vm_compute in E. injection E as <-. split_and!; [reflexivity | reflexivity | by apply elem_of_cons; left].
  - intros sv t p [Hn Ht]%lasting_survives Hr Hs Hin. by eapply no_exit_unsignalled.
Qed.
